(** * ChainMind decision cycle: a shallow embedding and its specification

    The development embeds the TypeScript sources
      - [ai-agent/src/engine/DecisionEngine.ts]   (the cycle orchestrator,
        the decision validator and the decision ledger),
      - [ai-agent/src/agent/AIAgent.ts]           (the oracle adapter),
      - [ai-agent/src/monitoring/StrategyMonitor.ts] (the risk gate)
    and proves the properties the specification states about them.

    JavaScript numbers are IEEE-754 binary64 values, so they are embedded as
    Rocq's primitive [float]; the few ECMAScript built-ins the sources call
    ([parseFloat], [Number::toString], [toFixed], [Math.round],
    [toLowerCase], [Array.prototype.slice]) are written out in module [JS]
    following ECMA-262.  Strings are sequences of bytes, the UTF-8 encoding
    of the JavaScript strings.

    Asynchronous methods are embedded as resumptions over the state of
    their object: what they await from the data API, the language model and
    the chain is an input of the run, so that every statement below holds
    for all answers and failures of these services.

    The contracts [contracts/Vault.sol] and [Executor] are embedded as
    state transformers that return or revert; the contracts they call are
    inputs of the transaction, with the calls they make back meanwhile. *)

From Stdlib Require Import ZArith Floats Lia Ascii String.
From stdpp Require Import base option list strings gmap pretty.

Set Default Proof Using "Type".
Set Warnings "-inexact-float".  (* decimal literals denote the nearest binary64 value, as in JavaScript *)
Local Open Scope Z_scope.

(* ===================================================================== *)
(** * The ECMAScript built-ins used by the sources                        *)
(* ===================================================================== *)

Module JS.

(** ** Numbers *)

Definition number := float.

(** The Number value for a mathematical integer (round to nearest, ties
    to even). *)
Definition of_Z (z : Z) : number :=
  SF2Prim (binary_normalize prec emax z 0 false).

Definition of_nat (n : nat) : number := of_Z (Z.of_nat n).

(** The Number value for [±(m / d)]. *)
Definition of_ratio (neg : bool) (m d : positive) : number :=
  SF2Prim (SFdiv prec emax (S754_finite neg m 0) (S754_finite false d 0)).

(** The Number value for the decimal [±m × 10^e]. *)
Definition of_decimal (neg : bool) (m : N) (e : Z) : number :=
  match m with
  | N0 => if neg then PrimFloat.neg_zero else PrimFloat.zero
  | Npos p =>
      if 0 <=? e
      then of_Z ((if neg then Z.neg p else Z.pos p) * 10 ^ e)
      else of_ratio neg p (Z.to_pos (10 ^ (- e)))
  end.

(** [a < b], [a > b] on Numbers: false as soon as one side is NaN. *)
Definition lt (a b : number) : bool := PrimFloat.ltb a b.
Definition gt (a b : number) : bool := PrimFloat.ltb b a.

(** ** Truthiness and [||] on optional strings

    [None] is [undefined]; [undefined] and the empty string are falsy. *)
Definition truthy (s : option string) : bool :=
  match s with
  | Some s => negb (String.eqb s "")
  | None => false
  end.

Definition or_else (a b : option string) : option string :=
  if truthy a then a else b.

Definition or_default (a : option string) (d : string) : string :=
  match a with
  | Some s => if String.eqb s "" then d else s
  | None => d
  end.

(** ** [parseFloat] (ECMA-262, 19.2.4) *)

Definition digit_of (c : ascii) : option N :=
  let n := N_of_ascii c in
  if ((48 <=? n) && (n <=? 57))%N then Some (n - 48)%N else None.

Fixpoint read_digits (s : string) (acc : N) (cnt : nat) : N * nat * string :=
  match s with
  | String c s' =>
      match digit_of c with
      | Some d => read_digits s' (10 * acc + d)%N (S cnt)
      | None => (acc, cnt, s)
      end
  | EmptyString => (acc, cnt, s)
  end.

Definition read_sign (s : string) : bool * string :=
  match s with
  | String "-" s' => (true, s')
  | String "+" s' => (false, s')
  | _ => (false, s)
  end.

(** The value of an [ExponentPart] at the head of [s], or 0 when [s] does
    not start with one ([e] or [E], an optional sign, at least one
    digit). *)
Definition read_exponent (s : string) : Z :=
  match s with
  | String c s' =>
      if (Ascii.eqb c "e" || Ascii.eqb c "E")%bool then
        let '(neg, s2) := read_sign s' in
        let '(v, cnt, _) := read_digits s2 0%N 0%nat in
        match cnt with
        | O => 0
        | _ => if neg then - Z.of_N v else Z.of_N v
        end
      else 0
  | EmptyString => 0
  end.

(** UTF-8 encodings of the non-ASCII [WhiteSpace] and [LineTerminator]
    code points: U+00A0, U+1680, U+2000..U+200A, U+2028, U+2029, U+202F,
    U+205F, U+3000, U+FEFF. *)
Definition wide_space (a b c : N) : bool :=
  ((a =? 225) && (b =? 154) && (c =? 128)
   || (a =? 226) && (b =? 128) && ((128 <=? c) && (c <=? 138))
   || (a =? 226) && (b =? 128) && ((c =? 168) || (c =? 169) || (c =? 175))
   || (a =? 226) && (b =? 129) && (c =? 159)
   || (a =? 227) && (b =? 128) && (c =? 128)
   || (a =? 239) && (b =? 187) && (c =? 191))%N.

Fixpoint trim_start (s : string) : string :=
  match s with
  | String a s1 =>
      let x := N_of_ascii a in
      if ((9 <=? x) && (x <=? 13) || (x =? 32))%N then trim_start s1
      else
        match s1 with
        | String b s2 =>
            let y := N_of_ascii b in
            if ((x =? 194) && (y =? 160))%N then trim_start s2
            else
              match s2 with
              | String c s3 =>
                  if wide_space x y (N_of_ascii c) then trim_start s3 else s
              | EmptyString => s
              end
        | EmptyString => s
        end
  | EmptyString => s
  end.

Definition parseFloat (input : string) : number :=
  let '(neg, s) := read_sign (trim_start input) in
  if String.prefix "Infinity" s
  then (if neg then PrimFloat.neg_infinity else PrimFloat.infinity)
  else
    let '(ip, n1, s1) := read_digits s 0%N 0%nat in
    let '(m, n2, s2) :=
      match s1 with
      | String "." s' => read_digits s' ip 0%nat
      | _ => (ip, 0%nat, s1)
      end in
    match (n1 + n2)%nat with
    | O => PrimFloat.nan
    | _ => of_decimal neg m (read_exponent s2 - Z.of_nat n2)
    end.

(** ** [Number::toString] (ECMA-262, 6.1.6.1.20), radix 10

    For a finite non-zero [x = m / d] the algorithm needs integers [n],
    [k], [s] with [10^(k-1) <= s < 10^k], the Number value of
    [s × 10^(n-k)] being [x], and [k] as small as possible; among the
    candidates of one length the one nearest to [x] is taken, the even one
    when two are as near. *)

Definition dec_length (z : Z) : Z := Z.of_nat (String.length (pretty z)).

(** Is [10^j <= m / d]? *)
Definition ge_pow10 (m d j : Z) : bool :=
  if 0 <=? j then d * 10 ^ j <=? m else d <=? m * 10 ^ (- j).

(** The [n] with [10^(n-1) <= m / d < 10^n]. *)
Definition magnitude10 (m d : Z) : Z :=
  let j := dec_length m - dec_length d in
  if ge_pow10 m d j then j + 1 else j.

(** [floor ((m / d) / 10^q)]. *)
Definition scaled_floor (m d q : Z) : Z :=
  if 0 <=? q then m / (d * 10 ^ q) else (m * 10 ^ (- q)) / d.

Fixpoint shortest (fuel : nat) (k : Z) (x : number) (m d n : Z) : Z * Z :=
  let q := n - k in
  let lo := scaled_floor m d q in
  let hi := lo + 1 in
  let back z := PrimFloat.eqb (of_decimal false (Z.to_N z) q) x in
  let side :=
    if 0 <=? q then 2 * m ?= (2 * lo + 1) * 10 ^ q * d
    else 2 * m * 10 ^ (- q) ?= (2 * lo + 1) * d in
  match back lo, back hi with
  | true, true =>
      match side with
      | Lt => (lo, q)
      | Gt => (hi, q)
      | Eq => if Z.even lo then (lo, q) else (hi, q)
      end
  | true, false => (lo, q)
  | false, true => (hi, q)
  | false, false =>
      match fuel with
      | O => (lo, q)
      | S fuel' => shortest fuel' (k + 1) x m d n
      end
  end.

Fixpoint strip_zeros (fuel : nat) (s q : Z) : Z * Z :=
  match fuel with
  | O => (s, q)
  | S fuel' =>
      if (s mod 10 =? 0) && negb (s =? 0)
      then strip_zeros fuel' (s / 10) (q + 1)
      else (s, q)
  end.

Definition zeros (n : Z) : string :=
  String.concat "" (replicate (Z.to_nat n) "0"%string).

Definition substr (from len : Z) (s : string) : string :=
  String.substring (Z.to_nat from) (Z.to_nat len) s.

(** Steps 6 to 10 of [Number::toString]: [digits] is the decimal
    representation of [s], of length [k]. *)
Definition format_digits (digits : string) (n : Z) : string :=
  let k := Z.of_nat (String.length digits) in
  if (k <=? n) && (n <=? 21) then digits +:+ zeros (n - k)
  else if (0 <? n) && (n <=? 21)
  then substr 0 n digits +:+ "." +:+ substr n (k - n) digits
  else if (-6 <? n) && (n <=? 0)
  then "0." +:+ zeros (- n) +:+ digits
  else
    let e := n - 1 in
    let es := (if e <? 0 then "-" else "+") +:+ pretty (Z.abs e) in
    if k =? 1 then digits +:+ "e" +:+ es
    else substr 0 1 digits +:+ "." +:+ substr 1 (k - 1) digits +:+ "e" +:+ es.

(** Numerator and denominator of [m × 2^e]. *)
Definition ratio_of (m : positive) (e : Z) : Z * Z :=
  if 0 <=? e then (Z.pos m * 2 ^ e, 1) else (Z.pos m, 2 ^ (- e)).

Definition number_to_string (x : number) : string :=
  match Prim2SF x with
  | S754_nan => "NaN"
  | S754_zero _ => "0"
  | S754_infinity s => (if s then "-" else "") +:+ "Infinity"
  | S754_finite sg m e =>
      let '(a, b) := ratio_of m e in
      let '(s, q) := shortest 17 1 (PrimFloat.abs x) a b (magnitude10 a b) in
      let '(s, q) := strip_zeros 20 s q in
      let digits := pretty s in
      (if sg then "-" else "")
        +:+ format_digits digits (Z.of_nat (String.length digits) + q)
  end.

(** ** [Number.prototype.toFixed] (ECMA-262, 21.1.3.3) *)
Definition toFixed (x : number) (f : nat) : string :=
  match Prim2SF x with
  | S754_finite sg m e =>
      let '(a, b) := ratio_of m e in
      if ge_pow10 a b 21 then number_to_string x
      else
        let n := (2 * a * 10 ^ Z.of_nat f + b) / (2 * b) in
        let digits := pretty n in
        let k := Z.of_nat (String.length digits) in
        let padded :=
          if k <=? Z.of_nat f then zeros (Z.of_nat f + 1 - k) +:+ digits
          else digits in
        let k := Z.of_nat (String.length padded) in
        (if sg then "-" else "")
          +:+ match f with
              | O => padded
              | _ => substr 0 (k - Z.of_nat f) padded +:+ "."
                       +:+ substr (k - Z.of_nat f) (Z.of_nat f) padded
              end
  | S754_zero _ =>
      match f with
      | O => "0"
      | _ => "0." +:+ zeros (Z.of_nat f)
      end
  | _ => number_to_string x
  end.

(** ** [Math.round] (ECMA-262, 21.3.2.28): the nearest integer, ties
    towards +∞; the sign of a zero result is the sign of [x]. *)
Definition Math_round (x : number) : number :=
  match Prim2SF x with
  | S754_finite sg m e =>
      if 0 <=? e then x
      else
        let v := if sg then Z.neg m else Z.pos m in
        let n := (2 * v + 2 ^ (- e)) / 2 ^ (1 - e) in
        if n =? 0 then (if sg then PrimFloat.neg_zero else PrimFloat.zero)
        else of_Z n
  | _ => x
  end.

(** ** [String.prototype.toLowerCase], on the ASCII letters.  The only
    other code point whose lower case is an ASCII letter is U+212A
    (Kelvin sign, to [k]). *)
Definition lower_ascii (c : ascii) : ascii :=
  let n := N_of_ascii c in
  if ((65 <=? n) && (n <=? 90))%N then ascii_of_N (n + 32) else c.

Fixpoint toLowerCase (s : string) : string :=
  match s with
  | String c s' => String (lower_ascii c) (toLowerCase s')
  | EmptyString => EmptyString
  end.

(** ** [Array.prototype.slice(start)] with an integral [start]
    (ECMA-262, 23.1.3.28): a negative [start] counts from the end. *)
Definition slice {A} (start : Z) (l : list A) : list A :=
  let len := Z.of_nat (length l) in
  let k := if start <? 0 then Z.max (len + start) 0 else Z.min start len in
  drop (Z.to_nat k) l.

(** ** Strings that may be [undefined] *)

(** [a === s] *)
Definition str_is (a : option string) (s : string) : bool :=
  match a with
  | Some x => String.eqb x s
  | None => false
  end.

(** [ToString], as a template literal or a property key applies it. *)
Definition ToString (a : option string) : string :=
  match a with
  | Some x => x
  | None => "undefined"
  end.

(** [l.includes(a)] *)
Definition includes (l : list string) (a : option string) : bool :=
  match a with
  | Some x => existsb (String.eqb x) l
  | None => false
  end.

(** [typeof a === 'number'] *)
Definition is_number (a : option number) : bool :=
  match a with
  | Some _ => true
  | None => false
  end.

(** Truthiness of a Number that may be [undefined]: [undefined], [±0] and
    [NaN] are falsy. *)
Definition truthy_number (a : option number) : bool :=
  match a with
  | Some x => negb (PrimFloat.eqb x 0 || PrimFloat.is_nan x)
  | None => false
  end.

(** ** [parseInt(string)] without a radix (ECMA-262, 19.2.5): leading white
    space is skipped, then a sign, then the prefix [0x] or [0X], which makes
    the radix 16 instead of 10; the value is the one of the longest run of
    digits that follows, [NaN] when there is none. *)
Definition hex_digit_of (c : ascii) : option N :=
  let n := N_of_ascii c in
  if ((48 <=? n) && (n <=? 57))%N then Some (n - 48)%N
  else if ((97 <=? n) && (n <=? 102))%N then Some (n - 87)%N
  else if ((65 <=? n) && (n <=? 70))%N then Some (n - 55)%N
  else None.

Fixpoint read_hex_digits (s : string) (acc : N) (cnt : nat) : N * nat * string :=
  match s with
  | String c s' =>
      match hex_digit_of c with
      | Some d => read_hex_digits s' (16 * acc + d)%N (S cnt)
      | None => (acc, cnt, s)
      end
  | EmptyString => (acc, cnt, s)
  end.

Definition parseInt (input : string) : number :=
  let '(neg, s) := read_sign (trim_start input) in
  let '(v, cnt, _) :=
    match s with
    | String "0" (String c s') =>
        if (Ascii.eqb c "x" || Ascii.eqb c "X")%bool
        then read_hex_digits s' 0%N 0%nat
        else read_digits s 0%N 0%nat
    | _ => read_digits s 0%N 0%nat
    end in
  match cnt with
  | O => PrimFloat.nan
  | _ => of_decimal neg v 0
  end.

(** ** Objects whose keys are not array indices, as [Object.entries]
    enumerates them: in the order in which the keys were first set. *)

(** [o[k]] on the own properties. *)
Fixpoint get_property {V} (k : string) (o : list (string * V)) : option V :=
  match o with
  | [] => None
  | (k', v') :: o' => if String.eqb k' k then Some v' else get_property k o'
  end.

(** [o[k] = v]: a key that is set again keeps its place. *)
Fixpoint set_property {V} (k : string) (v : V) (o : list (string * V))
  : list (string * V) :=
  match o with
  | [] => [(k, v)]
  | (k', v') :: o' =>
      if String.eqb k' k then (k, v) :: o' else (k', v') :: set_property k v o'
  end.

(** ** [Math.min(a, b)] (ECMA-262, 21.3.2.25): [NaN] if either is [NaN];
    [-0] is less than [+0]. *)
Definition Math_min (a b : number) : number :=
  if (PrimFloat.is_nan a || PrimFloat.is_nan b)%bool then PrimFloat.nan
  else if lt a b then a
  else if lt b a then b
  else if PrimFloat.get_sign a then a else b.

(** [x || d] for a Number [x] *)
Definition number_or (x d : number) : number :=
  if truthy_number (Some x) then x else d.

End JS.

(* ===================================================================== *)
(** * Data model                                                          *)
(* ===================================================================== *)

(** [RebalanceDecision] (AIAgent.ts).  A decision is what [JSON.parse]
    made of the oracle's answer, so every field may be absent: [None] is
    [undefined].  For [confidence], [None] also stands for a value that is
    not of type number. *)
Record RebalanceDecision := {
  action : option string;
  fromChain : option string;
  toChain : option string;
  token : option string;
  amount : option string;
  reason : option string;
  confidence : option JS.number;
  targetProtocol : option string;
  expectedAPY : option JS.number;
  riskLevel : option string
}.

(** [TokenData], [LendingRates] (the data API's answers). *)
Record TokenData := {
  td_price : JS.number;
  td_liquidity : JS.number;
  td_volume24h : JS.number;
  td_marketCap : option JS.number;
  td_priceChange24h : option JS.number
}.

Record LendingRates := {
  lr_supplyAPY : JS.number;
  lr_borrowAPY : JS.number;
  lr_utilization : JS.number;
  lr_totalSupply : JS.number;
  lr_totalBorrow : JS.number
}.

(** One entry [marketData[chain][asset]] built by
    [AIAgent.analyzeMarketConditions]. *)
Record AssetInfo := {
  price : JS.number;
  liquidity : JS.number;
  supplyAPY : JS.number;
  borrowAPY : JS.number;
  volume24h : JS.number
}.

Abbreviation MarketData := (gmap string (gmap string AssetInfo)).

(** [BlockchainClient.getVaultInfo]'s answer and the portfolio object built
    from it by [DecisionEngine.getCurrentPortfolio]. *)
Record VaultInfo := {
  activeStrategies : list string;
  vi_supportedTokens : list string
}.

Record Portfolio := {
  vault : string;
  network : string;
  strategies : list string;
  tokenBalances : gmap string string;
  supportedTokens : list string
}.

Record Constraints := {
  maxGasPrice : string;
  minTransactionValue : string;
  maxSlippage : string;
  allowedNetworks : list string;
  allowedProtocols : list string
}.

(** The [params] object handed to [BlockchainClient.executeAIDecision]. *)
Record DecisionParams := {
  p_action : option string;
  p_fromChain : string;
  p_toChain : string;
  p_token : option string;
  p_amount : string;
  p_reason : option string;
  p_targetProtocol : string;
  p_executionData : string
}.

(** [TransactionResult] (BlockchainClient), as its interface declares it:
    [gasUsed] is a Number, on which [Number(...)] is the identity. *)
Record TransactionResult := {
  tx_hash : string;
  tx_gasUsed : JS.number;
  tx_gasPrice : string;
  tx_success : bool;
  tx_blockNumber : option Z
}.

(** [ExecutionResult] and [DecisionRecord] (DecisionEngine.ts). *)
Record ExecutionResult := {
  decisionId : string;
  success : bool;
  transactionHash : option string;
  error : option string;
  gasUsed : option JS.number;
  timestamp : Z
}.

Record DecisionRecord := {
  dr_id : string;
  dr_decision : RebalanceDecision;
  dr_executionResult : option ExecutionResult;
  dr_timestamp : Z;
  dr_marketContext : MarketData
}.

(** [process.env], restricted to the variables the sources read. *)
Record ProcessEnv := {
  VAULT_ADDRESS : option string;
  EXECUTOR_ADDRESS : option string;
  MAX_GAS_PRICE : option string;
  MIN_TRANSACTION_VALUE : option string;
  MAX_SLIPPAGE : option string
}.

(** [DecisionEngineConfig]: the three collaborators are the external calls
    of the next section, the rest is data. *)
Record DecisionEngineConfig := {
  vaultAddress : option string;
  executorAddress : option string;
  defaultNetwork : option string;
  env : ProcessEnv
}.

(** [AIAgentConfig], without the key and the client. *)
Record AIAgentConfig := {
  model : string;
  temperature : JS.number
}.

(** A message of a conversation with the language model. *)
Record Message (C : Type) := {
  role : string;
  content : C
}.
Arguments role {C} _.
Arguments content {C} _.

(** [ChatContext] *)
Record ChatContext := {
  userId : option string;
  sessionId : option string;
  previousMessages : option (list (Message string))
}.

(** The [additionalContext] that [DecisionEngine.explainDecision] passes. *)
Record DecisionContext := {
  dc_decision : RebalanceDecision;
  dc_marketContext : MarketData;
  dc_executionResult : option ExecutionResult
}.

(** What a message says: a text, or the prompt that
    [AIAgent.explainDecision] builds from the identifier and
    [JSON.stringify(additionalContext || {}, null, 2)]. *)
Inductive Prompt :=
| Text (text : string)
| ExplainPrompt (decisionId : string) (additionalContext : option DecisionContext).

(** The argument of [openai.chat.completions.create] in [chat] and
    [explainDecision]. *)
Record TextRequest := {
  rq_model : string;
  rq_messages : list (Message Prompt);
  rq_temperature : JS.number;
  rq_max_tokens : Z
}.

(** webhooks/onWhaleMove.ts: [WhaleTransfer], and what
    [analyzeTransferImpact] returns. *)
Record WhaleTransfer := {
  wt_hash : string;
  wt_from : string;
  wt_to : string;
  wt_value : string;
  wt_token : string;
  wt_timestamp : JS.number;
  wt_blockNumber : JS.number;
  valueUSD : JS.number;
  classification : string
}.

Record Impact := {
  shouldRebalance : bool;
  reasoning : string;
  impactScore : JS.number
}.

(* ===================================================================== *)
(** * Asynchronous code as resumptions                                    *)
(* ===================================================================== *)

(** A thrown JavaScript value: an [Error] object with its message, or any
    other value. *)
Inductive Thrown :=
| ErrorObj (message : string)
| NonError.

(** How a statement, a call or a promise ends. *)
Inductive Completion (X : Type) :=
| Normal (x : X)
| Throw (e : Thrown).
Arguments Normal {X} x.
Arguments Throw {X} e.

(** The asynchronous calls that leave the three classes: the data API
    ([NoditMCPClient]), the language model ([openai.chat.completions.create]
    followed by [JSON.parse] of the function-call arguments, [None] when the
    answer carries no function call) and the chain ([BlockchainClient]). *)
Inductive Call :=
| GetTokenData (tokenAddress chain : string)
| GetLendingRates (protocol asset chain : string)
| GetGasPrice (chain : string)
| CreateCompletion (currentPortfolio : Portfolio) (marketData : MarketData)
                   (constraints : Constraints)
| GetVaultInfo (vaultAddr net : string)
| GetTokenBalance (tokenAddress walletAddress net : string)
| ExecuteAIDecision (executorAddr net : string) (params : DecisionParams).

Definition resp (c : Call) : Type :=
  match c with
  | GetTokenData _ _ => TokenData
  | GetLendingRates _ _ _ => LendingRates
  | GetGasPrice _ => JS.number
  | CreateCompletion _ _ _ => option RebalanceDecision
  | GetVaultInfo _ _ => VaultInfo
  | GetTokenBalance _ _ _ => string
  | ExecuteAIDecision _ _ _ => TransactionResult
  end.

(** The synchronous sources of non-determinism: [Date.now()] and
    [Math.random().toString(36).substr(2, 9)]. *)
Inductive Query :=
| DateNow
| RandomSuffix.

Definition answer (q : Query) : Type :=
  match q with
  | DateNow => Z
  | RandomSuffix => string
  end.

(** A piece of code started in a state [S] either finishes, or is suspended
    at an [await] until the awaited call settles, or is suspended at an
    [await] of a promise of the program itself and resumed in a later turn
    of the event loop, or asks the runtime a question.  The continuation of
    a suspension receives the state the object has when the code is
    resumed. *)
Inductive Res (S R : Type) : Type :=
| Fin (c : Completion R) (s : S)
| Await (c : Call) (s : S) (k : Completion (resp c) -> S -> Res S R)
| Yield (s : S) (k : S -> Res S R)
| Ask (q : Query) (s : S) (k : answer q -> S -> Res S R).
Arguments Fin {S R} c s.
Arguments Await {S R} c s k.
Arguments Yield {S R} s k.
Arguments Ask {S R} q s k.

Definition Task (S R : Type) : Type := S -> Res S R.

Section Combinators.
Context {S : Type}.

Fixpoint bind_res {A B} (r : Res S A) (f : A -> Task S B) : Res S B :=
  match r with
  | Fin (Normal a) s => f a s
  | Fin (Throw e) s => Fin (Throw e) s
  | Await c s k => Await c s (fun o s' => bind_res (k o s') f)
  | Yield s k => Yield s (fun s' => bind_res (k s') f)
  | Ask q s k => Ask q s (fun a s' => bind_res (k a s') f)
  end.

(** [try { ... } catch (e) { h e }] *)
Fixpoint catch_res {A} (r : Res S A) (h : Thrown -> Task S A) : Res S A :=
  match r with
  | Fin (Normal a) s => Fin (Normal a) s
  | Fin (Throw e) s => h e s
  | Await c s k => Await c s (fun o s' => catch_res (k o s') h)
  | Yield s k => Yield s (fun s' => catch_res (k s') h)
  | Ask q s k => Ask q s (fun a s' => catch_res (k a s') h)
  end.

(** [try { ... } finally { fin }]: [fin] runs on every completion, which
    is kept unless [fin] itself throws. *)
Fixpoint finally_res {A} (r : Res S A) (fin : Task S unit) : Res S A :=
  match r with
  | Fin c s => bind_res (fin s) (fun _ s' => Fin c s')
  | Await c s k => Await c s (fun o s' => finally_res (k o s') fin)
  | Yield s k => Yield s (fun s' => finally_res (k s') fin)
  | Ask q s k => Ask q s (fun a s' => finally_res (k a s') fin)
  end.

(** A completion delivered through a promise: whoever awaits it is resumed
    in a later turn. *)
Fixpoint settle_later {A} (r : Res S A) : Res S A :=
  match r with
  | Fin c s => Yield s (fun s' => Fin c s')
  | Await c s k => Await c s (fun o s' => settle_later (k o s'))
  | Yield s k => Yield s (fun s' => settle_later (k s'))
  | Ask q s k => Ask q s (fun a s' => settle_later (k a s'))
  end.

Definition ret {A} (a : A) : Task S A := fun s => Fin (Normal a) s.
Definition throw {A} (e : Thrown) : Task S A := fun s => Fin (Throw e) s.
Definition bind {A B} (t : Task S A) (f : A -> Task S B) : Task S B :=
  fun s => bind_res (t s) f.
Definition try_catch {A} (t : Task S A) (h : Thrown -> Task S A) : Task S A :=
  fun s => catch_res (t s) h.
Definition try_finally {A} (t : Task S A) (fin : Task S unit) : Task S A :=
  fun s => finally_res (t s) fin.

Definition get : Task S S := fun s => Fin (Normal s) s.
Definition put (s : S) : Task S unit := fun _ => Fin (Normal tt) s.
Definition gets {A} (f : S -> A) : Task S A := fun s => Fin (Normal (f s)) s.
Definition modify (f : S -> S) : Task S unit := fun s => Fin (Normal tt) (f s).

Definition await (c : Call) : Task S (resp c) :=
  fun s => Await c s (fun o s' => Fin o s').
(** [await t(...)] for an asynchronous method [t] of the embedded classes. *)
Definition await_method {A} (t : Task S A) : Task S A :=
  fun s => settle_later (t s).
Definition ask (q : Query) : Task S (answer q) :=
  fun s => Ask q s (fun a s' => Fin (Normal a) s').

(** [await Promise.all([c1, c2])]: both calls are made, and the result
    is awaited once both are settled; a rejection of the first wins over
    one of the second. *)
Definition Promise_all2 (c1 c2 : Call) : Task S (resp c1 * resp c2) :=
  fun s =>
    Await c1 s (fun o1 s1 =>
    Await c2 s1 (fun o2 s2 =>
      match o1, o2 with
      | Normal x, Normal y => Fin (Normal (x, y)) s2
      | Throw e, _ => Fin (Throw e) s2
      | _, Throw e => Fin (Throw e) s2
      end)).

(** [for (const x of l) { acc = body x acc }] *)
Fixpoint for_of {A B} (l : list A) (acc : B) (body : A -> B -> Task S B)
  : Task S B :=
  match l with
  | [] => ret acc
  | x :: l' => bind (body x acc) (fun acc' => for_of l' acc' body)
  end.
End Combinators.

#[global] Instance Task_ret {S} : MRet (Task S) := @ret S.
#[global] Instance Task_bind {S} : MBind (Task S) := fun A B f t => bind t f.

(** A method of an object that is a part of a larger state: [proj] reads
    the object, [inj] writes it back.  Whenever the method is suspended the
    rest of the state is as it was when the segment started, and on
    resumption the method sees the object as it then is. *)
Fixpoint zoom_res {S T R} (proj : T -> S) (inj : S -> T -> T) (t : T)
    (r : Res S R) : Res T R :=
  match r with
  | Fin c s => Fin c (inj s t)
  | Await c s k =>
      Await c (inj s t) (fun o t' => zoom_res proj inj t' (k o (proj t')))
  | Yield s k => Yield (inj s t) (fun t' => zoom_res proj inj t' (k (proj t')))
  | Ask q s k =>
      Ask q (inj s t) (fun a t' => zoom_res proj inj t' (k a (proj t')))
  end.

Definition zoom {S T R} (proj : T -> S) (inj : S -> T -> T) (m : Task S R)
  : Task T R :=
  fun t => zoom_res proj inj t (m (proj t)).

(* ===================================================================== *)
(** * Running a resumption against an environment                         *)
(* ===================================================================== *)

(** What happened during a run, oldest first. *)
Inductive Event :=
| Called (c : Call) (o : Completion (resp c))
| Asked (q : Query) (a : answer q).

Abbreviation History := (list Event).

(** An environment decides, from what happened so far, how each call
    settles and what each question is answered. *)
Record World := {
  settle : History -> forall c : Call, Completion (resp c);
  reply : History -> forall q : Query, answer q
}.

Section Semantics.
Context {S R : Type}.

(** One invocation run to its end, nothing else touching the state
    meanwhile. *)
Fixpoint run (w : World) (r : Res S R) (h : History)
  : Completion R * S * History :=
  match r with
  | Fin c s => (c, s, h)
  | Await c s k =>
      let o := settle w h c in run w (k o s) (h ++ [Called c o])
  | Yield s k => run w (k s) h
  | Ask q s k =>
      let a := reply w h q in run w (k a s) (h ++ [Asked q a])
  end.

(** [wp I r h Q]: in every environment, [r] started after history [h]
    ends in a completion, a state and a history that satisfy [Q], and the
    state satisfies [I] whenever the code is suspended. *)
Fixpoint wp (I : S -> Prop) (r : Res S R) (h : History)
         (Q : Completion R -> S -> History -> Prop) : Prop :=
  match r with
  | Fin c s => Q c s h
  | Await c s k => I s /\ forall o, wp I (k o s) (h ++ [Called c o]) Q
  | Yield s k => I s /\ wp I (k s) h Q
  | Ask q s k => forall a, wp I (k a s) (h ++ [Asked q a]) Q
  end.

(** The synchronous segment up to the next suspension or the end. *)
Inductive settles : Res S R -> Res S R -> Prop :=
| settles_fin c s : settles (Fin c s) (Fin c s)
| settles_await c s k : settles (Await c s k) (Await c s k)
| settles_yield s k : settles (Yield s k) (Yield s k)
| settles_ask q s k a r : settles (k a s) r -> settles (Ask q s k) r.
End Semantics.

(* ===================================================================== *)
(** * Code that asks the language model for a text                        *)
(* ===================================================================== *)

(** [chat] and [explainDecision] await [openai.chat.completions.create] for
    a text: [completion.choices[0]?.message?.content], which is [None] when
    the completion has no choice, no message or no content.  Their
    resumptions are those of [Res] with this one more call. *)
Inductive Talk (S R : Type) : Type :=
| Told (c : Completion R) (s : S)
| Prompted (request : TextRequest) (s : S)
           (k : Completion (option string) -> S -> Talk S R)
| Waited (c : Call) (s : S) (k : Completion (resp c) -> S -> Talk S R)
| Resumed (s : S) (k : S -> Talk S R)
| Queried (q : Query) (s : S) (k : answer q -> S -> Talk S R).
Arguments Told {S R} c s.
Arguments Prompted {S R} request s k.
Arguments Waited {S R} c s k.
Arguments Resumed {S R} s k.
Arguments Queried {S R} q s k.

Definition Conversation (S R : Type) : Type := S -> Talk S R.

Section Talks.
Context {S : Type}.

Fixpoint of_res {A} (r : Res S A) : Talk S A :=
  match r with
  | Fin c s => Told c s
  | Await c s k => Waited c s (fun o s' => of_res (k o s'))
  | Yield s k => Resumed s (fun s' => of_res (k s'))
  | Ask q s k => Queried q s (fun a s' => of_res (k a s'))
  end.

Fixpoint bind_talk {A B} (t : Talk S A) (f : A -> Conversation S B) : Talk S B :=
  match t with
  | Told (Normal a) s => f a s
  | Told (Throw e) s => Told (Throw e) s
  | Prompted request s k => Prompted request s (fun o s' => bind_talk (k o s') f)
  | Waited c s k => Waited c s (fun o s' => bind_talk (k o s') f)
  | Resumed s k => Resumed s (fun s' => bind_talk (k s') f)
  | Queried q s k => Queried q s (fun a s' => bind_talk (k a s') f)
  end.

(** [try { ... } catch (e) { h e }] *)
Fixpoint catch_talk {A} (t : Talk S A) (h : Thrown -> Conversation S A)
  : Talk S A :=
  match t with
  | Told (Normal a) s => Told (Normal a) s
  | Told (Throw e) s => h e s
  | Prompted request s k => Prompted request s (fun o s' => catch_talk (k o s') h)
  | Waited c s k => Waited c s (fun o s' => catch_talk (k o s') h)
  | Resumed s k => Resumed s (fun s' => catch_talk (k s') h)
  | Queried q s k => Queried q s (fun a s' => catch_talk (k a s') h)
  end.

(** A completion delivered through a promise, as [settle_later]. *)
Fixpoint told_later {A} (t : Talk S A) : Talk S A :=
  match t with
  | Told c s => Resumed s (fun s' => Told c s')
  | Prompted request s k => Prompted request s (fun o s' => told_later (k o s'))
  | Waited c s k => Waited c s (fun o s' => told_later (k o s'))
  | Resumed s k => Resumed s (fun s' => told_later (k s'))
  | Queried q s k => Queried q s (fun a s' => told_later (k a s'))
  end.

Definition ret_talk {A} (a : A) : Conversation S A := fun s => Told (Normal a) s.
Definition throw_talk {A} (e : Thrown) : Conversation S A :=
  fun s => Told (Throw e) s.
Definition try_catch_talk {A} (t : Conversation S A)
    (h : Thrown -> Conversation S A) : Conversation S A :=
  fun s => catch_talk (t s) h.

(** A method of the other kind, called from here. *)
Definition lift {A} (t : Task S A) : Conversation S A := fun s => of_res (t s).

(** [await openai.chat.completions.create(request)], up to the content of
    the first choice. *)
Definition create (request : TextRequest) : Conversation S (option string) :=
  fun s => Prompted request s (fun o s' => Told o s').

(** [await t(...)] for an asynchronous method [t]. *)
Definition await_talk {A} (t : Conversation S A) : Conversation S A :=
  fun s => told_later (t s).
End Talks.

#[global] Instance Conversation_ret {S} : MRet (Conversation S) := @ret_talk S.
#[global] Instance Conversation_bind {S} : MBind (Conversation S) :=
  fun A B f t s => bind_talk (t s) f.

(** What is exchanged during a run of such code, oldest first, and the runs
    themselves: one invocation to its end, nothing else touching the state
    meanwhile, each request answered in any way. *)
Inductive Exchange :=
| Said (request : TextRequest) (o : Completion (option string))
| Happened (ev : Event).

Inductive ends {S R : Type}
  : Talk S R -> list Exchange -> Completion R -> S -> Prop :=
| ends_told c s : ends (Told c s) [] c s
| ends_prompted request s k o tr c s' :
    ends (k o s) tr c s' ->
    ends (Prompted request s k) (Said request o :: tr) c s'
| ends_waited c0 s k o tr c s' :
    ends (k o s) tr c s' ->
    ends (Waited c0 s k) (Happened (Called c0 o) :: tr) c s'
| ends_resumed s k tr c s' :
    ends (k s) tr c s' -> ends (Resumed s k) tr c s'
| ends_queried q s k a tr c s' :
    ends (k a s) tr c s' ->
    ends (Queried q s k) (Happened (Asked q a) :: tr) c s'.

(* ===================================================================== *)
(** * AIAgent.ts: the oracle adapter                                      *)
(* ===================================================================== *)

Module AIAgent.
Section Methods.
Context {S : Type}.

Definition assets : list string := ["USDC"; "WETH"; "WMATIC"; "USDT"].
Definition chains : list string := ["ethereum"; "polygon"; "arbitrum"].

(** AIAgent.ts, lines 70-105.  A failure for one pair of chain and asset is
    caught inside the loop, so the method itself does not throw. *)
Definition analyzeMarketConditions : Task S MarketData :=
  try_catch
    (for_of chains (∅ : MarketData) (fun chain marketData =>
       let marketData := <[chain := ∅]> marketData in
       for_of assets marketData (fun asset marketData =>
         try_catch
           (tokenData ← await (GetTokenData asset chain);
            lendingRates ← await (GetLendingRates "aave" asset chain);
            mret (<[chain :=
                     <[asset := {| price := td_price tokenData;
                                   liquidity := td_liquidity tokenData;
                                   supplyAPY := lr_supplyAPY lendingRates;
                                   borrowAPY := lr_borrowAPY lendingRates;
                                   volume24h := td_volume24h tokenData |}]>
                       (marketData !!! chain)]> marketData))
           (fun _ => mret marketData))))
    (fun error => throw error).

(** AIAgent.ts, lines 221-239. *)
Definition validateRebalanceDecision (decision : RebalanceDecision) : bool :=
  (* Basic validation *)
  if negb (JS.truthy (action decision)) || negb (JS.truthy (reason decision))
     || negb (JS.is_number (confidence decision))
  then false
  else if match confidence decision with
          | Some c => JS.lt c 0%float || JS.gt c 1%float
          | None => false
          end
  then false
  (* Action-specific validation *)
  else if (JS.str_is (action decision) "rebalance"
           || JS.str_is (action decision) "bridge")
          && (negb (JS.truthy (fromChain decision))
              || negb (JS.truthy (toChain decision))
              || negb (JS.truthy (token decision))
              || negb (JS.truthy (amount decision)))
  then false
  else true.

(** AIAgent.ts, lines 107-161. *)
Definition generateRebalanceDecision (currentPortfolio : Portfolio)
    (marketData : MarketData) (constraints : Constraints)
  : Task S (option RebalanceDecision) :=
  try_catch
    (functionCall ←
       await (CreateCompletion currentPortfolio marketData constraints);
     match functionCall with
     | Some decision =>
         (* Validate decision *)
         if validateRebalanceDecision decision
         then mret (Some decision)
         else mret None
     | None => mret None
     end)
    (fun error => throw error).
End Methods.

Section Texts.
Context {S : Type}.
(** [this.config] *)
Variable config : AIAgentConfig.

(** AIAgent.ts, lines 163-186. *)
Definition getSystemPrompt : string :=
  "You are ChainMind, an autonomous AI-powered DeFi strategist. Your role is to:

1. Analyze multi-chain DeFi market conditions using real-time data
2. Identify optimal yield opportunities across different protocols and chains
3. Generate strategic rebalancing decisions to maximize returns while managing risk
4. Explain your reasoning in clear, natural language

Key principles:
- Always prioritize capital preservation over aggressive yield hunting
- Consider gas costs and slippage in your decisions
- Diversify across chains and protocols to reduce risk
- Monitor for arbitrage opportunities between chains
- Adapt strategies based on market volatility and trends

Available tools via Nodit MCP:
- Token balances and transfers across multiple chains
- DEX liquidity and pricing data
- Lending protocol rates (Aave, Compound, etc.)
- Cross-chain bridge monitoring
- Real-time market data and trends

When making decisions, provide clear reasoning and quantify expected outcomes.".

(** AIAgent.ts, lines 44-68, for arguments of the declared types. *)
Definition chat (message : string) (context : option ChatContext)
  : Conversation S string :=
  try_catch_talk
    (let systemPrompt := getSystemPrompt in
     let messages :=
       [{| role := "system"; content := Text systemPrompt |}]
       ++ map (fun msg => {| role := role msg; content := Text (content msg) |})
              (default [] (context ≫= previousMessages))
       ++ [{| role := "user"; content := Text message |}] in
     completion ← create {| rq_model := model config;
                            rq_messages := messages;
                            rq_temperature := temperature config;
                            rq_max_tokens := 2000 |};
     mret (JS.or_default completion
             "I apologize, but I could not generate a response."))
    (fun error => throw_talk error).

(** AIAgent.ts, lines 241-268. *)
Definition explainDecision (decisionId : string)
    (additionalContext : option DecisionContext) : Conversation S string :=
  try_catch_talk
    (let prompt := ExplainPrompt decisionId additionalContext in
     completion ← create {| rq_model := model config;
                            rq_messages :=
                              [{| role := "system"; content := Text getSystemPrompt |};
                               {| role := "user"; content := prompt |}];
                            rq_temperature := 0.5%float;
                            rq_max_tokens := 1000 |};
     mret (JS.or_default completion "Unable to explain decision"))
    (fun error => throw_talk error).
End Texts.
End AIAgent.

(* ===================================================================== *)
(** * DecisionEngine.ts                                                   *)
(* ===================================================================== *)

(** The object state.  Arrays of records are JavaScript objects: they live
    in a store and are named by references, so that updating an array in
    place ([push], [reverse]) is seen through every reference to it, while
    [slice] yields a new array. *)
Abbreviation ArrayRef := nat.

Record Engine := {
  arrays : list (list DecisionRecord);
  decisionHistory : ArrayRef;
  isExecuting : bool
}.

(** The array a reference names. *)
Definition deref (e : Engine) (a : ArrayRef) : list DecisionRecord :=
  default [] (arrays e !! a).

(** The records of [this.decisionHistory], oldest first. *)
Definition history (e : Engine) : list DecisionRecord :=
  deref e (decisionHistory e).

(** [stats()] *)
Record Stats := {
  totalDecisions : nat;
  successfulDecisions : nat;
  successRate : JS.number;
  actionCounts : gmap string nat;
  st_isExecuting : bool
}.

Module DecisionEngine.

(** The state after the constructor. *)
Definition new : Engine :=
  {| arrays := [[]]; decisionHistory := 0%nat; isExecuting := false |}.

(** ** Array operations on the store *)

Definition Array_push (a : ArrayRef) (x : DecisionRecord) : Task Engine unit :=
  modify (fun e =>
    {| arrays := alter (fun l => l ++ [x]) a (arrays e);
       decisionHistory := decisionHistory e;
       isExecuting := isExecuting e |}).

Definition Array_length (a : ArrayRef) : Task Engine nat :=
  gets (fun e => length (deref e a)).

Definition Array_slice (a : ArrayRef) (start : Z) : Task Engine ArrayRef :=
  fun e =>
    Fin (Normal (length (arrays e)))
        {| arrays := arrays e ++ [JS.slice start (deref e a)];
           decisionHistory := decisionHistory e;
           isExecuting := isExecuting e |}.

Definition Array_reverse (a : ArrayRef) : Task Engine ArrayRef :=
  fun e =>
    Fin (Normal a)
        {| arrays := alter reverse a (arrays e);
           decisionHistory := decisionHistory e;
           isExecuting := isExecuting e |}.

Definition set_decisionHistory (a : ArrayRef) : Task Engine unit :=
  modify (fun e =>
    {| arrays := arrays e; decisionHistory := a;
       isExecuting := isExecuting e |}).

Definition set_isExecuting (b : bool) : Task Engine unit :=
  modify (fun e =>
    {| arrays := arrays e; decisionHistory := decisionHistory e;
       isExecuting := b |}).

Section Methods.
Variable config : DecisionEngineConfig.

(** DecisionEngine.ts, lines 104-143. *)
Definition getCurrentPortfolio : Task Engine Portfolio :=
  try_catch
    (let vaultAddress :=
       JS.or_else (vaultAddress config) (VAULT_ADDRESS (env config)) in
     let network := JS.or_default (defaultNetwork config) "ethereum" in
     if negb (JS.truthy vaultAddress)
     then throw (ErrorObj "Vault address not configured")
     else
       let vaultAddress := default "" vaultAddress in
       (* Get vault info *)
       vaultInfo ← await (GetVaultInfo vaultAddress network);
       (* Get token balances for each supported token *)
       tokenBalances ←
         for_of (vi_supportedTokens vaultInfo) (∅ : gmap string string)
           (fun token tokenBalances =>
              try_catch
                (balance ← await (GetTokenBalance token vaultAddress network);
                 mret (<[token := balance]> tokenBalances))
                (fun _ => mret tokenBalances));
       mret {| vault := vaultAddress;
               network := network;
               strategies := activeStrategies vaultInfo;
               tokenBalances := tokenBalances;
               supportedTokens := vi_supportedTokens vaultInfo |})
    (fun error => throw error).

(** DecisionEngine.ts, lines 145-153. *)
Definition getConstraints : Constraints :=
  {| maxGasPrice := JS.or_default (MAX_GAS_PRICE (env config)) "50";
     minTransactionValue :=
       JS.or_default (MIN_TRANSACTION_VALUE (env config)) "1000";
     maxSlippage := JS.or_default (MAX_SLIPPAGE (env config)) "1";
     allowedNetworks := ["ethereum"; "polygon"; "arbitrum"; "optimism"];
     allowedProtocols := ["aave"; "compound"; "uniswap"; "curve"] |}.

(** DecisionEngine.ts, lines 155-176. *)
Definition validActions : list string :=
  ["rebalance"; "hold"; "bridge"; "lend"; "swap"].

Definition validateDecision (decision : RebalanceDecision) : bool :=
  (* Check confidence threshold *)
  if match confidence decision with
     | Some c => JS.lt c 0.7%float
     | None => false
     end
  then false
  (* Check action type *)
  else if negb (JS.includes validActions (action decision))
  then false
  (* Check amount is reasonable *)
  else if JS.truthy (amount decision)
          && JS.lt (JS.parseFloat (JS.ToString (amount decision))) 100%float
  then false
  else true.

(** DecisionEngine.ts, lines 260-262. *)
Definition generateDecisionId : Task Engine string :=
  now ← ask DateNow;
  suffix ← ask RandomSuffix;
  mret ("decision_" +:+ pretty now +:+ "_" +:+ suffix).

(** DecisionEngine.ts, lines 264-274: the own properties of the object
    literal [chainMap]. *)
Definition chainMap : gmap string string :=
  list_to_map [("ethereum", "ethereum"); ("polygon", "polygon");
               ("arbitrum", "arbitrum"); ("optimism", "optimism");
               ("bsc", "bsc")].

Definition getNetworkFromChain (chain : string) : string :=
  JS.or_default (chainMap !! JS.toLowerCase chain) "ethereum".

(** DecisionEngine.ts, lines 178-235.  The identifier and the timestamp
    are taken before the [try]; whatever is thrown inside it becomes a failed
    result. *)
Definition executeDecision (decision : RebalanceDecision)
    (marketContext : MarketData) : Task Engine ExecutionResult :=
  decisionId ← generateDecisionId;
  timestamp ← ask DateNow;
  try_catch
    (if JS.str_is (action decision) "hold"
     then mret {| decisionId := decisionId; success := true;
                  transactionHash := None; error := None;
                  gasUsed := None; timestamp := timestamp |}
     else
       let network :=
         getNetworkFromChain (JS.or_default (fromChain decision) "ethereum") in
       let executorAddress :=
         JS.or_else (executorAddress config) (EXECUTOR_ADDRESS (env config)) in
       if negb (JS.truthy executorAddress)
       then throw (ErrorObj "Executor address not configured")
       else
         (* Execute the decision on-chain *)
         txResult ←
           await (ExecuteAIDecision (default "" executorAddress) network
                    {| p_action := action decision;
                       p_fromChain := JS.or_default (fromChain decision) "ethereum";
                       p_toChain := JS.or_default (toChain decision) "ethereum";
                       p_token := token decision;
                       p_amount := JS.or_default (amount decision) "0";
                       p_reason := reason decision;
                       p_targetProtocol :=
                         JS.or_default (targetProtocol decision) "";
                       p_executionData := "0x" |});
         mret {| decisionId := decisionId;
                 success := tx_success txResult;
                 transactionHash := Some (tx_hash txResult);
                 error := None;
                 gasUsed := Some (tx_gasUsed txResult);
                 timestamp := timestamp |})
    (fun error =>
       mret {| decisionId := decisionId; success := false;
               transactionHash := None;
               error := Some match error with
                             | ErrorObj message => message
                             | NonError => "Unknown error"
                             end;
               gasUsed := None; timestamp := timestamp |}).

(** DecisionEngine.ts, lines 237-258. *)
Definition recordDecision (decision : RebalanceDecision)
    (marketContext : MarketData) (executionResult : ExecutionResult)
  : Task Engine unit :=
  let record :=
    {| dr_id := decisionId executionResult;
       dr_decision := decision;
       dr_executionResult := Some executionResult;
       dr_timestamp := timestamp executionResult;
       dr_marketContext := marketContext |} in
  this ← get;
  Array_push (decisionHistory this) record;;
  (* Keep only last 1000 decisions in memory *)
  len ← Array_length (decisionHistory this);
  if (1000 <? len)%nat
  then a ← Array_slice (decisionHistory this) (-1000);
       set_decisionHistory a
  else mret tt.

(** DecisionEngine.ts, lines 49-102: [runCycle()]. *)
Definition evaluateAndExecute : Task Engine (option ExecutionResult) :=
  this ← get;
  if isExecuting this
  then mret None
  else
    set_isExecuting true;;
    try_finally
      (try_catch
         ((* 1. Analyze current market conditions *)
          marketData ← await_method AIAgent.analyzeMarketConditions;
          (* 2. Get current portfolio state *)
          portfolio ← await_method getCurrentPortfolio;
          (* 3. Generate AI decision *)
          decision ←
            await_method
              (AIAgent.generateRebalanceDecision portfolio marketData
                 getConstraints);
          match decision with
          | None => mret None
          | Some decision =>
              (* 4. Validate decision *)
              if negb (validateDecision decision)
              then mret None
              else
                (* 5. Execute decision *)
                executionResult ←
                  await_method (executeDecision decision marketData);
                (* 6. Record decision and result *)
                recordDecision decision marketData executionResult;;
                mret (Some executionResult)
          end)
         (fun error => throw error))
      (set_isExecuting false).
End Methods.

(** DecisionEngine.ts, lines 276-278: [recent(n)], for an integral limit;
    [None] is the call without argument. *)
Definition getDecisionHistory (limit : option Z) : Task Engine ArrayRef :=
  let limit := default 50 limit in
  this ← get;
  a ← Array_slice (decisionHistory this) (- limit);
  Array_reverse a.

(** DecisionEngine.ts, lines 280-282. *)
Definition getDecisionById (id : string) : Task Engine (option DecisionRecord) :=
  gets (fun this =>
    List.find (fun record => String.eqb (dr_id record) id) (history this)).

(** DecisionEngine.ts, lines 297-315: [stats()]. *)
Definition getStats (this : Engine) : Stats :=
  let totalDecisions := length (history this) in
  let successfulDecisions :=
    length (List.filter
              (fun d => match dr_executionResult d with
                        | Some r => success r
                        | None => false
                        end)
              (history this)) in
  let successRate :=
    if (0 <? totalDecisions)%nat
    then (JS.of_nat successfulDecisions / JS.of_nat totalDecisions * 100)%float
    else 0%float in
  let actionCounts :=
    foldl (fun (counts : gmap string nat) record =>
             let action := JS.ToString (action (dr_decision record)) in
             <[action := (default 0 (counts !! action) + 1)%nat]> counts)
          ∅ (history this) in
  {| totalDecisions := totalDecisions;
     successfulDecisions := successfulDecisions;
     successRate := (JS.Math_round (successRate * 100) / 100)%float;
     actionCounts := actionCounts;
     st_isExecuting := isExecuting this |}.

(** DecisionEngine.ts, lines 284-295; [aiAgent] is the configuration of
    [this.aiAgent]. *)
Definition explainDecision (aiAgent : AIAgentConfig) (id : string)
  : Conversation Engine string :=
  record ← await_talk (lift (getDecisionById id));
  match record with
  | None => throw_talk (ErrorObj ("Decision " +:+ id +:+ " not found"))
  | Some record =>
      await_talk
        (AIAgent.explainDecision aiAgent id
           (Some {| dc_decision := dr_decision record;
                    dc_marketContext := dr_marketContext record;
                    dc_executionResult := dr_executionResult record |}))
  end.

End DecisionEngine.

(* ===================================================================== *)
(** * StrategyMonitor.ts: the risk gate                                   *)
(* ===================================================================== *)

(** One entry [marketDataCache[chain][token]]: the spread of the token data
    and of the lending rates, and the time of the update. *)
Record CacheEntry := {
  ce_tokenData : TokenData;
  ce_lendingRates : LendingRates;
  lastUpdated : Z
}.

Definition priceChange24h (data : CacheEntry) : option JS.number :=
  td_priceChange24h (ce_tokenData data).

(** The monitor's state.  [Object.entries] enumerates the chains and the
    tokens of the cache in the order of their insertion (their names are
    not array indices), hence lists of pairs. *)
Record Monitor := {
  isActive : bool;
  lastEvaluation : Z;
  marketDataCache : list (string * list (string * CacheEntry));
  emergencyStopActivated : bool
}.

(** [{ passed, reason? }] and [{ passed, reasons }] *)
Record Check := {
  ck_passed : bool;
  ck_reason : option string
}.

Record RiskCheck := {
  passed : bool;
  reasons : list string
}.

(** The monitor together with the engine its field [decisionEngine]
    refers to. *)
Record System := {
  strategyMonitor : Monitor;
  decisionEngine : Engine
}.

Definition set_strategyMonitor (m : Monitor) (sys : System) : System :=
  {| strategyMonitor := m; decisionEngine := decisionEngine sys |}.

Definition set_decisionEngine (e : Engine) (sys : System) : System :=
  {| strategyMonitor := strategyMonitor sys; decisionEngine := e |}.

(** What [assessPortfolioHealth], [calculateRiskMetrics] and
    [getStrategyStatus] return. *)
Record PortfolioHealth := {
  diversificationScore : JS.number;
  liquidityScore : JS.number;
  riskScore : string;
  totalValue : string;
  ph_lastUpdated : Z
}.

Record RiskMetrics := {
  sharpeRatio : JS.number;
  maxDrawdown : JS.number;
  volatility : JS.number;
  beta : JS.number;
  var95 : JS.number;
  lastCalculated : Z
}.

Record StrategyStatus := {
  ss_isActive : bool;
  ss_lastEvaluation : Z;
  ss_totalDecisions : nat;
  ss_successRate : JS.number;
  currentMarketConditions : list (string * list (string * CacheEntry));
  portfolioHealth : option PortfolioHealth;
  riskMetrics : option RiskMetrics
}.

Module StrategyMonitor.

(** The first [Some] a loop body returns, if any: a [for ... of] loop
    left by [return]. *)
Fixpoint first_return {A B} (l : list A) (body : A -> option B) : option B :=
  match l with
  | [] => None
  | x :: l' =>
      match body x with
      | Some b => Some b
      | None => first_return l' body
      end
  end.

(** StrategyMonitor.ts, lines 187-208. *)
Definition checkMarketVolatility : Task Monitor Check :=
  try_catch
    ((* Simple volatility check based on price changes *)
     let maxVolatility := 0.1%float in
     this ← get;
     match
       first_return (marketDataCache this) (fun '(chain, tokens) =>
         first_return tokens (fun '(token, data) =>
           if JS.truthy_number (priceChange24h data)
              && JS.gt (PrimFloat.abs (default PrimFloat.nan (priceChange24h data)))
                       maxVolatility
           then Some
                  {| ck_passed := false;
                     ck_reason :=
                       Some (token +:+ " on " +:+ chain
                             +:+ " has high volatility: "
                             +:+ JS.toFixed
                                   (default PrimFloat.nan (priceChange24h data)
                                    * 100)%float 2
                             +:+ "%") |}
           else None))
     with
     | Some result => mret result
     | None => mret {| ck_passed := true; ck_reason := None |}
     end)
    (fun _ =>
       mret {| ck_passed := false;
               ck_reason := Some "Volatility check error" |}).

(** StrategyMonitor.ts, lines 210-219. *)
Definition checkPortfolioConcentration : Task Monitor Check :=
  try_catch
    ((* For now, return passed *)
     mret {| ck_passed := true; ck_reason := None |})
    (fun _ =>
       mret {| ck_passed := false;
               ck_reason := Some "Concentration check error" |}).

Section Methods.
Variable env : ProcessEnv.

(** StrategyMonitor.ts, lines 145-185. *)
Definition performRiskChecks : Task Monitor RiskCheck :=
  let reasons : list string := [] in
  try_catch
    ((* Check gas prices *)
     let gasLimit :=
       JS.parseFloat (JS.or_default (MAX_GAS_PRICE env) "100") in
     currentGasPrices ←
       Promise_all2 (GetGasPrice "ethereum") (GetGasPrice "polygon");
     let reasons :=
       foldl (fun reasons (gasPrice : JS.number) =>
                if JS.gt gasPrice gasLimit
                then reasons ++ ["Gas price too high: "
                                 +:+ JS.number_to_string gasPrice
                                 +:+ " gwei"]
                else reasons)
             reasons [currentGasPrices.1; currentGasPrices.2] in
     (* Check market volatility *)
     volatilityCheck ← await_method checkMarketVolatility;
     let reasons :=
       if negb (ck_passed volatilityCheck)
       then reasons ++ ["High market volatility detected: "
                        +:+ JS.ToString (ck_reason volatilityCheck)]
       else reasons in
     (* Check portfolio concentration *)
     concentrationCheck ← await_method checkPortfolioConcentration;
     let reasons :=
       if negb (ck_passed concentrationCheck)
       then reasons ++ ["Portfolio concentration risk: "
                        +:+ JS.ToString (ck_reason concentrationCheck)]
       else reasons in
     mret {| passed := (length reasons =? 0)%nat; reasons := reasons |})
    (fun _ =>
       mret {| passed := false; reasons := ["Risk check system error"] |}).
End Methods.

(** ** The life cycle of the monitor and its market data cache *)

Definition set_isActive (b : bool) : Task Monitor unit :=
  modify (fun m =>
    {| isActive := b; lastEvaluation := lastEvaluation m;
       marketDataCache := marketDataCache m;
       emergencyStopActivated := emergencyStopActivated m |}).

Definition set_emergencyStopActivated (b : bool) : Task Monitor unit :=
  modify (fun m =>
    {| isActive := isActive m; lastEvaluation := lastEvaluation m;
       marketDataCache := marketDataCache m;
       emergencyStopActivated := b |}).

Definition set_lastEvaluation (t : Z) : Task Monitor unit :=
  modify (fun m =>
    {| isActive := isActive m; lastEvaluation := t;
       marketDataCache := marketDataCache m;
       emergencyStopActivated := emergencyStopActivated m |}).

Definition set_marketDataCache
    (cache : list (string * list (string * CacheEntry))) : Task Monitor unit :=
  modify (fun m =>
    {| isActive := isActive m; lastEvaluation := lastEvaluation m;
       marketDataCache := cache;
       emergencyStopActivated := emergencyStopActivated m |}).

Definition chains : list string := ["ethereum"; "polygon"; "arbitrum"].
Definition tokens : list string := ["USDC"; "WETH"; "WMATIC"; "USDT"].

(** StrategyMonitor.ts, lines 95-127.  The entry of a chain is replaced by
    an empty object before its tokens are fetched; the two requests for a
    token are made together, and a failure of either leaves the token
    without entry.  In the assignment to
    [this.marketDataCache[chain][token]] the object of the chain is looked
    up when the assignment is made; it would throw, inside the inner [try],
    if the chain had no entry. *)
Definition updateMarketData : Task Monitor unit :=
  try_catch
    (for_of chains tt (fun chain _ =>
       this ← get;
       set_marketDataCache (JS.set_property chain [] (marketDataCache this));;
       for_of tokens tt (fun token _ =>
         try_catch
           (data ← Promise_all2 (GetTokenData token chain)
                                (GetLendingRates "aave" token chain);
            now ← ask DateNow;
            this ← get;
            match JS.get_property chain (marketDataCache this) with
            | Some entries =>
                set_marketDataCache
                  (JS.set_property chain
                     (JS.set_property token
                        {| ce_tokenData := data.1;
                           ce_lendingRates := data.2;
                           lastUpdated := now |} entries)
                     (marketDataCache this))
            | None =>
                throw (ErrorObj "Cannot set properties of undefined")
            end)
           (fun _ => mret tt))))
    (fun _ => mret tt).

(** StrategyMonitor.ts, lines 36-43. *)
Definition start : Task Monitor unit :=
  set_isActive true;;
  set_emergencyStopActivated false;;
  (* Initial market data update *)
  await_method updateMarketData.

(** StrategyMonitor.ts, lines 45-48. *)
Definition stop : Task Monitor unit :=
  set_isActive false.

(** StrategyMonitor.ts, lines 50-57. *)
Definition emergencyStop : Task Monitor unit :=
  set_emergencyStopActivated true;;
  set_isActive false.

(** StrategyMonitor.ts, lines 221-234. *)
Definition assessPortfolioHealth : Task Monitor (option PortfolioHealth) :=
  try_catch
    (now ← ask DateNow;
     mret (Some {| diversificationScore := 85%float;
                   liquidityScore := 92%float;
                   riskScore := "medium";
                   totalValue := "$50,000";
                   ph_lastUpdated := now |}))
    (fun _ => mret None).

(** StrategyMonitor.ts, lines 236-250. *)
Definition calculateRiskMetrics : Task Monitor (option RiskMetrics) :=
  try_catch
    (now ← ask DateNow;
     mret (Some {| sharpeRatio := 1.2%float;
                   maxDrawdown := 0.05%float;
                   volatility := 0.15%float;
                   beta := 0.8%float;
                   var95 := 0.03%float;
                   lastCalculated := now |}))
    (fun _ => mret None).

(** The methods that use the engine. *)
Definition on_monitor {R} (m : Task Monitor R) : Task System R :=
  zoom strategyMonitor set_strategyMonitor m.

Definition on_engine {R} (m : Task Engine R) : Task System R :=
  zoom decisionEngine set_decisionEngine m.

Section Gate.
Variable config : DecisionEngineConfig.
(** [process.env.MIN_EVALUATION_INTERVAL] *)
Variable MIN_EVALUATION_INTERVAL : option string.

(** StrategyMonitor.ts, lines 59-93.  [process.env] is the one the engine
    reads. *)
Definition evaluateAndExecute : Task System (option ExecutionResult) :=
  this ← gets strategyMonitor;
  if negb (isActive this) || emergencyStopActivated this
  then mret None
  else
    try_catch
      ((* Check if enough time has passed since last evaluation *)
       let minInterval :=
         JS.parseInt (JS.or_default MIN_EVALUATION_INTERVAL "300000") in
       now ← ask DateNow;
       this ← gets strategyMonitor;
       let timeSinceLastEvaluation :=
         (JS.of_Z now - JS.of_Z (lastEvaluation this))%float in
       if JS.lt timeSinceLastEvaluation minInterval
       then mret None
       else
         (* Perform risk checks before executing *)
         riskCheck ← await_method (on_monitor (performRiskChecks (env config)));
         if negb (passed riskCheck)
         then mret None
         else
           (* Execute decision engine *)
           result ←
             await_method (on_engine (DecisionEngine.evaluateAndExecute config));
           now ← ask DateNow;
           on_monitor (set_lastEvaluation now);;
           mret result)
      (fun error => throw error).
End Gate.

(** StrategyMonitor.ts, lines 129-143. *)
Definition getStrategyStatus : Task System StrategyStatus :=
  stats ← gets (fun sys => DecisionEngine.getStats (decisionEngine sys));
  portfolioHealth ← await_method (on_monitor assessPortfolioHealth);
  riskMetrics ← await_method (on_monitor calculateRiskMetrics);
  this ← gets strategyMonitor;
  mret {| ss_isActive := isActive this && negb (emergencyStopActivated this);
          ss_lastEvaluation := lastEvaluation this;
          ss_totalDecisions := totalDecisions stats;
          ss_successRate := successRate stats;
          currentMarketConditions := marketDataCache this;
          portfolioHealth := portfolioHealth;
          riskMetrics := riskMetrics |}.

(** StrategyMonitor.ts, lines 286-307. *)
Definition generateRecommendations : Task System (list string) :=
  let recommendations : list string := [] in
  try_catch
    (stats ← gets (fun sys => DecisionEngine.getStats (decisionEngine sys));
     let recommendations :=
       if JS.lt (successRate stats) 70%float
       then recommendations
              ++ ["Consider reviewing AI decision parameters - success rate below 70%"]
       else recommendations in
     let recommendations :=
       if (totalDecisions stats <? 5)%nat
       then recommendations
              ++ ["Low activity detected - market conditions may not be favorable for rebalancing"]
       else recommendations in
     mret recommendations)
    (fun _ => mret ["Error generating recommendations"]).

End StrategyMonitor.

(* ===================================================================== *)
(** * webhooks/onWhaleMove.ts: the handler of whale transfers             *)
(* ===================================================================== *)

Module WhaleMovementHandler.

(** onWhaleMove.ts is kept in src/contracts/interfaces/IBridge.sol, from
    line 13 on; the lines are those of that file.  Lines 237-254. *)
Definition exchangeAddresses : list string :=
  ["0x3f5ce5fbfe3e9af3971dd833d26ba9b5c936f0be";
   "0xd551234ae421e3bcba99a0da6d736074f22192ff";
   "0x28c6c06298d514db089934071355e5743bf21d60";
   "0x21a31ee1afc51d94c2efccaa2092ad1028285549";
   "0x564286362092d8e7936f0549571a803b203aaced";
   "0xf89d7b9c864f589bbf53a82105107622b35eaa40"].

Definition isMovingToExchange (address : string) : bool :=
  JS.includes exchangeAddresses (Some (JS.toLowerCase address)).

Definition isMovingFromExchange (address : string) : bool :=
  isMovingToExchange address.

Section Methods.
(** [Number.prototype.toLocaleString], which depends on the locale of the
    host. *)
Variable toLocaleString : JS.number -> string.
(** The configuration of [this.decisionEngine]. *)
Variable config : DecisionEngineConfig.

(** Lines 90-144, for a transfer of the declared type. *)
Definition analyzeTransferImpact {S} (transfer : WhaleTransfer)
  : Task S Impact :=
  try_catch
    ((* Get current market data for the token *)
     tokenData ← await (GetTokenData (wt_token transfer) "ethereum");
     (* Calculate impact as percentage of daily volume *)
     let impactPercentage :=
       (valueUSD transfer / JS.number_or (td_volume24h tokenData) 1)%float in
     (* Determine if this is a significant movement *)
     let isSignificant := JS.gt impactPercentage 0.05%float in
     let isLargeAmount := JS.gt (valueUSD transfer) 1000000%float in
     let reasoning := "" in
     let shouldRebalance := false in
     let impactScore := 0%float in
     let '(reasoning, shouldRebalance, impactScore) :=
       if isSignificant && isLargeAmount then
         let impactScore := JS.Math_min (impactPercentage * 10)%float 10%float in
         let shouldRebalance := JS.gt impactScore 3%float in
         let reasoning :=
           ("Large transfer of " +:+ toLocaleString (valueUSD transfer) +:+ " USD ")
           +:+ ("represents " +:+ JS.toFixed (impactPercentage * 100)%float 2
                +:+ "% of daily volume. ") in
         if isMovingToExchange (wt_to transfer) then
           (reasoning +:+ "Tokens moved to exchange - potential selling pressure.",
            true, (impactScore + 2)%float)
         else if isMovingFromExchange (wt_from transfer) then
           (reasoning +:+ "Tokens moved from exchange - potential accumulation.",
            shouldRebalance, (impactScore + 1)%float)
         else
           (reasoning +:+ "Wallet-to-wallet transfer - monitoring for follow-up moves.",
            shouldRebalance, impactScore)
       else
         ("Transfer not significant enough to warrant immediate action.",
          shouldRebalance, impactScore) in
     mret {| shouldRebalance := shouldRebalance;
             reasoning := reasoning;
             impactScore := impactScore |})
    (fun _ =>
       mret {| shouldRebalance := false;
               reasoning := "Error analyzing impact";
               impactScore := 0%float |}).

(** Lines 67-88. *)
Definition handleWhaleTransfer (transfer : WhaleTransfer) : Task Engine unit :=
  try_catch
    ((* Analyze the impact of this whale movement *)
     impact ← await_method (analyzeTransferImpact transfer);
     (* If significant impact, trigger strategy re-evaluation *)
     if shouldRebalance impact
     then await_method (DecisionEngine.evaluateAndExecute config);;
          mret tt
     else mret tt)
    (fun _ => mret tt).
End Methods.

End WhaleMovementHandler.

(* ===================================================================== *)
(** * Interleaved invocations of [evaluateAndExecute] on one engine       *)
(* ===================================================================== *)

(** JavaScript runs one synchronous segment at a time: an invocation runs
    until its first [await], and a suspended invocation is resumed, once
    what it awaits is settled, in the state the engine then has.  A pool is
    the engine together with the suspended invocations.  The other methods
    of the engine leave the flag and the ledger as they are, so only
    invocations of [evaluateAndExecute] are followed. *)
Abbreviation Cycle := (Res Engine (option ExecutionResult)).

Record Pool := {
  shared : Engine;
  pending : list Cycle
}.

(** A resumption that waits to be resumed. *)
Definition suspended (r : Cycle) : bool :=
  match r with
  | Await _ _ _ | Yield _ _ => true
  | _ => false
  end.

(** The state a resumption carries. *)
Definition state_of {S R} (r : Res S R) : S :=
  match r with
  | Fin _ s | Await _ s _ | Yield s _ | Ask _ s _ => s
  end.

(** After a synchronous segment the engine is as the segment left it, and
    the invocation joins the others if it is suspended. *)
Definition park (rest : list Cycle) (r : Cycle) : Pool :=
  {| shared := state_of r;
     pending := if suspended r then rest ++ [r] else rest |}.

(** A step of the pool: a new invocation runs its first segment, or a
    suspended one is resumed, with the outcome of its call if it waits for
    one, and runs its next segment. *)
Inductive pool_step (config : DecisionEngineConfig) : Pool -> Pool -> Prop :=
| pool_invoke p r :
    settles (DecisionEngine.evaluateAndExecute config (shared p)) r ->
    pool_step config p (park (pending p) r)
| pool_settle p i c s k o r :
    pending p !! i = Some (Await c s k) ->
    settles (k o (shared p)) r ->
    pool_step config p (park (delete i (pending p)) r)
| pool_resume p i s k r :
    pending p !! i = Some (Yield s k) ->
    settles (k (shared p)) r ->
    pool_step config p (park (delete i (pending p)) r).

Inductive reachable (config : DecisionEngineConfig) : Pool -> Prop :=
| reachable_new :
    reachable config {| shared := DecisionEngine.new; pending := [] |}
| reachable_step p p' :
    reachable config p -> pool_step config p p' -> reachable config p'.

(* ===================================================================== *)
(** * Vocabulary of the specification                                     *)
(* ===================================================================== *)

(** The reference [this.decisionHistory] names an array of the store.  It
    holds after the constructor and is kept by every method. *)
Definition wf (e : Engine) : Prop := (decisionHistory e < length (arrays e))%nat.

(** The events of the market snapshot and of the balance reads. *)
Definition market_event (ev : Event) : bool :=
  match ev with
  | Called (GetTokenData _ _) _ | Called (GetLendingRates _ _ _) _ => true
  | _ => false
  end.

Definition balance_event (ev : Event) : bool :=
  match ev with
  | Called (GetTokenBalance _ _ _) _ => true
  | _ => false
  end.

(** [error instanceof Error ? error.message : 'Unknown error'] *)
Definition message_of (e : Thrown) : string :=
  match e with
  | ErrorObj message => message
  | NonError => "Unknown error"
  end.

(** The record [recordDecision] builds. *)
Definition record_of (d : RebalanceDecision) (md : MarketData)
    (r : ExecutionResult) : DecisionRecord :=
  {| dr_id := decisionId r; dr_decision := d; dr_executionResult := Some r;
     dr_timestamp := timestamp r; dr_marketContext := md |}.

(** The ledger after [recordDecision]: the push, then the cut to the last
    1000 records. *)
Definition appended (l : list DecisionRecord) (record : DecisionRecord)
  : list DecisionRecord :=
  if (1000 <? length (l ++ [record]))%nat
  then JS.slice (-1000) (l ++ [record])
  else l ++ [record].

(** The identifier [generateDecisionId] builds, and the addresses the
    engine reads from its configuration or else from the environment. *)
Definition id_of (now : Z) (suffix : string) : string :=
  "decision_" +:+ pretty now +:+ "_" +:+ suffix.

Definition executor_of (config : DecisionEngineConfig) : option string :=
  JS.or_else (executorAddress config) (EXECUTOR_ADDRESS (env config)).

Definition vault_of (config : DecisionEngineConfig) : option string :=
  JS.or_else (vaultAddress config) (VAULT_ADDRESS (env config)).

(** The ways [getCurrentPortfolio] ends, with the events it leaves. *)
Inductive portfolio_spec (config : DecisionEngineConfig)
  : History -> Completion Portfolio -> Prop :=
| pf_unconfigured :
    JS.truthy (vault_of config) = false ->
    portfolio_spec config [] (Throw (ErrorObj "Vault address not configured"))
| pf_vault_error v n err :
    JS.truthy (vault_of config) = true ->
    portfolio_spec config [Called (GetVaultInfo v n) (Throw err)] (Throw err)
| pf_read v n vi hb pf :
    JS.truthy (vault_of config) = true ->
    Forall (fun ev => balance_event ev = true) hb ->
    portfolio_spec config (Called (GetVaultInfo v n) (Normal vi) :: hb) (Normal pf).

(** The ways [executeDecision] ends: it never throws. *)
Inductive execute_spec (config : DecisionEngineConfig) (d : RebalanceDecision)
  : History -> ExecutionResult -> Prop :=
| ex_hold t1 sfx t2 :
    JS.str_is (action d) "hold" = true ->
    execute_spec config d
      [Asked DateNow t1; Asked RandomSuffix sfx; Asked DateNow t2]
      {| decisionId := id_of t1 sfx; success := true; transactionHash := None;
         error := None; gasUsed := None; timestamp := t2 |}
| ex_unconfigured t1 sfx t2 :
    JS.str_is (action d) "hold" = false ->
    JS.truthy (executor_of config) = false ->
    execute_spec config d
      [Asked DateNow t1; Asked RandomSuffix sfx; Asked DateNow t2]
      {| decisionId := id_of t1 sfx; success := false; transactionHash := None;
         error := Some "Executor address not configured"; gasUsed := None;
         timestamp := t2 |}
| ex_rejected t1 sfx t2 a n p err :
    JS.str_is (action d) "hold" = false ->
    JS.truthy (executor_of config) = true ->
    execute_spec config d
      [Asked DateNow t1; Asked RandomSuffix sfx; Asked DateNow t2;
       Called (ExecuteAIDecision a n p) (Throw err)]
      {| decisionId := id_of t1 sfx; success := false; transactionHash := None;
         error := Some (message_of err); gasUsed := None; timestamp := t2 |}
| ex_settled t1 sfx t2 a n p tx :
    JS.str_is (action d) "hold" = false ->
    JS.truthy (executor_of config) = true ->
    execute_spec config d
      [Asked DateNow t1; Asked RandomSuffix sfx; Asked DateNow t2;
       Called (ExecuteAIDecision a n p) (Normal tx)]
      {| decisionId := id_of t1 sfx; success := tx_success tx;
         transactionHash := Some (tx_hash tx); error := None;
         gasUsed := Some (tx_gasUsed tx); timestamp := t2 |}.

Definition market_events (h : History) : Prop :=
  Forall (fun ev => market_event ev = true) h.

(** The ways a cycle started on the idle engine [e] ends: the events it
    leaves, its completion and the engine afterwards. *)
Inductive cycle_spec (config : DecisionEngineConfig) (e : Engine)
  : History -> Completion (option ExecutionResult) -> Engine -> Prop :=
| cy_portfolio_error hm hp err :
    market_events hm ->
    portfolio_spec config hp (Throw err) ->
    cycle_spec config e (hm ++ hp) (Throw err) e
| cy_oracle_error hm hp pf p m c err :
    market_events hm ->
    portfolio_spec config hp (Normal pf) ->
    cycle_spec config e
      (hm ++ hp ++ [Called (CreateCompletion p m c) (Throw err)]) (Throw err) e
| cy_no_decision hm hp pf p m c :
    market_events hm ->
    portfolio_spec config hp (Normal pf) ->
    cycle_spec config e
      (hm ++ hp ++ [Called (CreateCompletion p m c) (Normal None)]) (Normal None) e
| cy_adapter_rejects hm hp pf p m c d :
    market_events hm ->
    portfolio_spec config hp (Normal pf) ->
    AIAgent.validateRebalanceDecision d = false ->
    cycle_spec config e
      (hm ++ hp ++ [Called (CreateCompletion p m c) (Normal (Some d))])
      (Normal None) e
| cy_validator_rejects hm hp pf p m c d :
    market_events hm ->
    portfolio_spec config hp (Normal pf) ->
    AIAgent.validateRebalanceDecision d = true ->
    DecisionEngine.validateDecision d = false ->
    cycle_spec config e
      (hm ++ hp ++ [Called (CreateCompletion p m c) (Normal (Some d))])
      (Normal None) e
| cy_executed hm hp pf p m c d he r e' :
    market_events hm ->
    portfolio_spec config hp (Normal pf) ->
    AIAgent.validateRebalanceDecision d = true ->
    DecisionEngine.validateDecision d = true ->
    execute_spec config d he r ->
    isExecuting e' = false ->
    (wf e -> wf e' /\ history e' = appended (history e) (record_of d m r)) ->
    cycle_spec config e
      (hm ++ hp ++ [Called (CreateCompletion p m c) (Normal (Some d))] ++ he)
      (Normal (Some r)) e'.

(** The engine is in a cycle. *)
Definition in_flight (s : Engine) : Prop := isExecuting s = true.

(** What a run's history says about the oracle, the submission and the gas
    queries. *)
Definition oracle_answer (ev : Event)
  : option (Completion (option RebalanceDecision)) :=
  match ev with
  | Called (CreateCompletion _ _ _) o => Some o
  | _ => None
  end.

Definition submission (ev : Event) : option (Completion TransactionResult) :=
  match ev with
  | Called (ExecuteAIDecision _ _ _) o => Some o
  | _ => None
  end.

Definition vault_answer (ev : Event) : option (Completion VaultInfo) :=
  match ev with
  | Called (GetVaultInfo _ _) o => Some o
  | _ => None
  end.

Definition gas_report (ev : Event) : option (string * Completion JS.number) :=
  match ev with
  | Called (GetGasPrice chain) o => Some (chain, o)
  | _ => None
  end.

(** A cycle that left the engine and the ledger as they were and
    submitted nothing. *)
Definition nothing_recorded (e e' : Engine) (h' : History) : Prop :=
  e' = e
  /\ history e' = history e
  /\ totalDecisions (DecisionEngine.getStats e')
     = totalDecisions (DecisionEngine.getStats e)
  /\ omap submission h' = [].

(** A suspended cycle that holds the in-flight flag: the flag is set
    whenever it waits, and it ends with the flag reset. *)
Definition owned (r : Cycle) : Prop :=
  wp in_flight r [] (fun _ s _ => isExecuting s = false).

(** At most one invocation is suspended, and it is one that holds the
    flag and was suspended in the state the engine still has. *)
Definition pool_inv (p : Pool) : Prop :=
  (pending p = [] /\ isExecuting (shared p) = false)
  \/ (exists r, pending p = [r] /\ suspended r = true
                /\ state_of r = shared p /\ isExecuting (shared p) = true
                /\ owned r).

(** The reasons [performRiskChecks] collects. *)
Definition gas_reason (gasLimit gasPrice : JS.number) : list string :=
  if JS.gt gasPrice gasLimit
  then ["Gas price too high: " +:+ JS.number_to_string gasPrice +:+ " gwei"]
  else [].

Definition volatility_reason (ck : Check) : list string :=
  if ck_passed ck then []
  else ["High market volatility detected: " +:+ JS.ToString (ck_reason ck)].

Definition gasLimit_of (env : ProcessEnv) : JS.number :=
  JS.parseFloat (JS.or_default (MAX_GAS_PRICE env) "100").

(** A cached entry whose price moved by more than the threshold of
    [checkMarketVolatility], and the reason the check gives for it. *)
Definition volatile (data : CacheEntry) : bool :=
  match priceChange24h data with
  | Some change => JS.gt (PrimFloat.abs change) 0.1%float
  | None => false
  end.

Definition volatility_message (chain token : string) (data : CacheEntry)
  : string :=
  token +:+ " on " +:+ chain +:+ " has high volatility: "
    +:+ JS.toFixed (default PrimFloat.nan (priceChange24h data) * 100)%float 2
    +:+ "%".

Definition calm_cache (cache : list (string * list (string * CacheEntry)))
  : Prop :=
  forall chain entries token data,
    (chain, entries) ∈ cache -> (token, data) ∈ entries -> volatile data = false.

(** The events of a run that ask for the data of one asset on one chain,
    and the entry of the market snapshot built from two answers. *)
Definition concerns (chain asset : string) (ev : Event) : bool :=
  match ev with
  | Called (GetTokenData a c) _ | Called (GetLendingRates _ a c) _ =>
      String.eqb a asset && String.eqb c chain
  | _ => false
  end.

Definition asset_info (tokenData : TokenData) (lendingRates : LendingRates)
  : AssetInfo :=
  {| price := td_price tokenData;
     liquidity := td_liquidity tokenData;
     supplyAPY := lr_supplyAPY lendingRates;
     borrowAPY := lr_borrowAPY lendingRates;
     volume24h := td_volume24h tokenData |}.

(** What [analyzeMarketConditions] does for one asset on one chain: the
    requests it makes and the entry it stores, if any. *)
Inductive snapshot_of (chain asset : string)
  : History -> option AssetInfo -> Prop :=
| no_token_data err :
    snapshot_of chain asset
      [Called (GetTokenData asset chain) (Throw err)] None
| no_lending_rates tokenData err :
    snapshot_of chain asset
      [Called (GetTokenData asset chain) (Normal tokenData);
       Called (GetLendingRates "aave" asset chain) (Throw err)] None
| both_answered tokenData lendingRates :
    snapshot_of chain asset
      [Called (GetTokenData asset chain) (Normal tokenData);
       Called (GetLendingRates "aave" asset chain) (Normal lendingRates)]
      (Some (asset_info tokenData lendingRates)).

(** What a run's history says about the data of one asset on one chain. *)
Definition token_data_answer (chain asset : string) (ev : Event)
  : option (Completion TokenData) :=
  match ev with
  | Called (GetTokenData a c) o =>
      if String.eqb a asset && String.eqb c chain then Some o else None
  | _ => None
  end.

Definition lending_rates_answer (chain asset : string) (ev : Event)
  : option (Completion LendingRates) :=
  match ev with
  | Called (GetLendingRates _ a c) o =>
      if String.eqb a asset && String.eqb c chain then Some o else None
  | _ => None
  end.

(** What a run's history says about the balance reads: the token asked
    for and the outcome. *)
Definition balance_answer (ev : Event) : option (string * Completion string) :=
  match ev with
  | Called (GetTokenBalance tokenAddress _ _) o => Some (tokenAddress, o)
  | _ => None
  end.

(** An environment that has already seen the history [h0]. *)
Definition after (w : World) (h0 : History) : World :=
  {| settle := fun h => settle w (h0 ++ h);
     reply := fun h => reply w (h0 ++ h) |}.

(** The test of [StrategyMonitor.evaluateAndExecute] on the time since the
    last evaluation, and the monitor with a new time of evaluation. *)
Definition throttled (MIN_EVALUATION_INTERVAL : option string) (m : Monitor)
    (now : Z) : bool :=
  JS.lt (JS.of_Z now - JS.of_Z (lastEvaluation m))%float
        (JS.parseInt (JS.or_default MIN_EVALUATION_INTERVAL "300000")).

Definition gate_shut (m : Monitor) : bool :=
  negb (isActive m) || emergencyStopActivated m.

Definition evaluated_at (t : Z) (m : Monitor) : Monitor :=
  {| isActive := isActive m; lastEvaluation := t;
     marketDataCache := marketDataCache m;
     emergencyStopActivated := emergencyStopActivated m |}.

(** What [updateMarketData] does for one token on one chain: both requests
    are made, and the entry is stored when both are answered. *)
Definition cached (chain token : string) (h : History)
    (entry : option CacheEntry) : Prop :=
  exists o1 o2,
    omap (token_data_answer chain token) h = [o1]
    /\ omap (lending_rates_answer chain token) h = [o2]
    /\ match o1, o2 with
       | Normal tokenData, Normal lendingRates =>
           exists now,
             Asked DateNow now ∈ h
             /\ entry = Some {| ce_tokenData := tokenData;
                                ce_lendingRates := lendingRates;
                                lastUpdated := now |}
       | _, _ => entry = None
       end.

(** A record as a cycle writes it: it holds the result of the execution,
    whose identifier and time it bears, and a decision that both
    validations accept. *)
Definition validated (record : DecisionRecord) : Prop :=
  exists executionResult,
    dr_executionResult record = Some executionResult
    /\ dr_id record = decisionId executionResult
    /\ dr_timestamp record = timestamp executionResult
    /\ AIAgent.validateRebalanceDecision (dr_decision record) = true
    /\ DecisionEngine.validateDecision (dr_decision record) = true.

Definition ledger_ok (e : Engine) : Prop :=
  wf e /\ (length (history e) <= 1000)%nat /\ Forall validated (history e).

(** A suspended cycle that keeps the ledger well formed. *)
Definition keeps_ledger (r : Cycle) : Prop :=
  wp ledger_ok r [] (fun _ s _ => ledger_ok s).

(** The events of one token in [updateMarketData]: both requests, and the
    clock when both are answered. *)
Definition pair_events (chain token : string) (o1 : Completion TokenData)
    (o2 : Completion LendingRates) (asked : list Z) : History :=
  [Called (GetTokenData token chain) o1;
   Called (GetLendingRates "aave" token chain) o2]
  ++ (Asked DateNow <$> asked).

Definition same_flags (m' m : Monitor) : Prop :=
  isActive m' = isActive m
  /\ lastEvaluation m' = lastEvaluation m
  /\ emergencyStopActivated m' = emergencyStopActivated m.

(** The key under which [getStats] counts a record, and whether the record
    counts as a success. *)
Definition action_key (record : DecisionRecord) : string :=
  JS.ToString (action (dr_decision record)).

Definition succeeded (record : DecisionRecord) : bool :=
  match dr_executionResult record with
  | Some executionResult => success executionResult
  | None => false
  end.

Definition count_action (a : string) (l : list DecisionRecord) : nat :=
  length (List.filter (fun record => String.eqb (action_key record) a) l).

Definition sum_counts (counts : gmap string nat) : nat :=
  map_fold (fun _ n sum => (n + sum)%nat) 0%nat counts.

(** What a market snapshot and a history say about the pairs of chain and
    asset for which [covered] holds, and about the others. *)
Definition covers (covered : string -> string -> Prop) (md : MarketData)
    (h : History) : Prop :=
  (forall c a, covered c a ->
     snapshot_of c a (List.filter (concerns c a) h) (md !! c ≫= (.!! a)))
  /\ (forall c a, ~ covered c a ->
        List.filter (concerns c a) h = [] /\ md !! c ≫= (.!! a) = None).

(** One step of the count of [getStats]. *)
Definition count_step (counts : gmap string nat) (record : DecisionRecord)
  : gmap string nat :=
  let action := JS.ToString (action (dr_decision record)) in
  <[action := (default 0 (counts !! action) + 1)%nat]> counts.


(** Whether [analyzeTransferImpact] asks for a rebalancing, given the data
    of the token. *)
Definition stirs (transfer : WhaleTransfer) (tokenData : TokenData) : bool :=
  let impactPercentage :=
    (valueUSD transfer / JS.number_or (td_volume24h tokenData) 1)%float in
  JS.gt impactPercentage 0.05%float
  && JS.gt (valueUSD transfer) 1000000%float
  && (JS.gt (JS.Math_min (impactPercentage * 10)%float 10%float) 3%float
      || WhaleMovementHandler.isMovingToExchange (wt_to transfer)).

(** The request of [AIAgent.explainDecision] for a record of the ledger, and
    [text || fallback] on the outcome of a request. *)
Definition explain_request (aiAgent : AIAgentConfig) (id : string)
    (record : DecisionRecord) : TextRequest :=
  {| rq_model := model aiAgent;
     rq_messages :=
       [{| role := "system"; content := Text AIAgent.getSystemPrompt |};
        {| role := "user";
           content :=
             ExplainPrompt id
               (Some {| dc_decision := dr_decision record;
                        dc_marketContext := dr_marketContext record;
                        dc_executionResult := dr_executionResult record |}) |}];
     rq_temperature := 0.5%float;
     rq_max_tokens := 1000 |}.

Definition text_or (fallback : string) (o : Completion (option string))
  : Completion string :=
  match o with
  | Normal text => Normal (JS.or_default text fallback)
  | Throw err => Throw err
  end.

(* ===================================================================== *)
(** * Sample data for the concrete runs                                   *)
(* ===================================================================== *)

Module Sample.

Definition config : DecisionEngineConfig :=
  {| vaultAddress := Some "0xVault";
     executorAddress := Some "0xExecutor";
     defaultNetwork := None;
     env := {| VAULT_ADDRESS := None; EXECUTOR_ADDRESS := None;
               MAX_GAS_PRICE := None; MIN_TRANSACTION_VALUE := None;
               MAX_SLIPPAGE := None |} |}.

Definition tokenData (change : option JS.number) : TokenData :=
  {| td_price := 1%float; td_liquidity := 1000000%float;
     td_volume24h := 50000%float; td_marketCap := None;
     td_priceChange24h := change |}.

Definition lendingRates : LendingRates :=
  {| lr_supplyAPY := 3.5%float; lr_borrowAPY := 5.25%float;
     lr_utilization := 0.5%float; lr_totalSupply := 1000000%float;
     lr_totalBorrow := 500000%float |}.

Definition vaultInfo : VaultInfo :=
  {| activeStrategies := ["0xStrategy"]; vi_supportedTokens := ["0xUSDC"] |}.

Definition decision (act : string) (amt : option string) (conf : JS.number)
  : RebalanceDecision :=
  {| action := Some act; fromChain := Some "ethereum";
     toChain := Some "polygon"; token := Some "0xUSDC"; amount := amt;
     reason := Some "yield spread"; confidence := Some conf;
     targetProtocol := Some "aave"; expectedAPY := None;
     riskLevel := Some "low" |}.

(** A decision that names its action and nothing else. *)
Definition bare (act : string) (conf : JS.number) : RebalanceDecision :=
  {| action := Some act; fromChain := None; toChain := None; token := None;
     amount := None; reason := Some "yield spread"; confidence := Some conf;
     targetProtocol := None; expectedAPY := None; riskLevel := None |}.

Definition receipt (ok : bool) : TransactionResult :=
  {| tx_hash := "0xabc123"; tx_gasUsed := 21000%float;
     tx_gasPrice := "30000000000"; tx_success := ok;
     tx_blockNumber := Some 19000000 |}.

(** An environment in which the data API and the chain reads answer, the
    oracle answers [oracle], a submission settles as [tx] and the gas
    price of a chain is [gas chain]. *)
Definition world (oracle : Completion (option RebalanceDecision))
    (tx : Completion TransactionResult)
    (gas : string -> Completion JS.number) : World :=
  {| settle := fun _ c =>
       match c return Completion (resp c) with
       | GetTokenData _ _ => Normal (tokenData (Some 0.02%float))
       | GetLendingRates _ _ _ => Normal lendingRates
       | GetGasPrice chain => gas chain
       | CreateCompletion _ _ _ => oracle
       | GetVaultInfo _ _ => Normal vaultInfo
       | GetTokenBalance _ _ _ => Normal "2500.0"
       | ExecuteAIDecision _ _ _ => tx
       end;
     reply := fun _ q =>
       match q return answer q with
       | DateNow => 1700000000000
       | RandomSuffix => "k3j9x0q1z"
       end |}.

Definition calm (_ : string) : Completion JS.number := Normal 30%float.

Definition result : ExecutionResult :=
  {| decisionId := "decision_1690000000000_abcdefghi"; success := true;
     transactionHash := Some "0x01"; error := None;
     gasUsed := Some 21000%float; timestamp := 1690000000000 |}.

Definition record (n : nat) : DecisionRecord :=
  {| dr_id := "decision_" +:+ pretty n;
     dr_decision := decision "rebalance" (Some "500") 0.9%float;
     dr_executionResult := Some result;
     dr_timestamp := 1690000000000 + Z.of_nat n;
     dr_marketContext := ∅ |}.

(** An idle engine whose ledger holds [record 0 .. record (n - 1)]. *)
Definition engine (n : nat) : Engine :=
  {| arrays := [record <$> seq 0 n]; decisionHistory := 0%nat;
     isExecuting := false |}.

(** The same engine in the middle of a cycle. *)
Definition busy (n : nat) : Engine :=
  {| arrays := [record <$> seq 0 n]; decisionHistory := 0%nat;
     isExecuting := true |}.

Definition entry (change : option JS.number) : CacheEntry :=
  {| ce_tokenData := tokenData change;
     ce_lendingRates := lendingRates;
     lastUpdated := 1700000000000 |}.

Definition monitor (cache : list (string * list (string * CacheEntry)))
  : Monitor :=
  {| isActive := true; lastEvaluation := 0; marketDataCache := cache;
     emergencyStopActivated := false |}.

Definition volatile_cache : list (string * list (string * CacheEntry)) :=
  [("ethereum", [("USDC", entry (Some 0.02%float));
                 ("WETH", entry (Some (-0.153)%float))]);
   ("polygon", [("WMATIC", entry (Some 0.31%float))])].

Definition processEnv : ProcessEnv := env config.

(** Gas prices: 150 on Ethereum, [polygon] on Polygon. *)
Definition gas (polygon : Completion JS.number) (chain : string)
  : Completion JS.number :=
  if String.eqb chain "ethereum" then Normal 150%float else polygon.

End Sample.

(* ===================================================================== *)
(** * The contracts: Solidity 0.8 as state transformers                   *)
(* ===================================================================== *)

(** A call of a function of a contract either returns, with a new state of
    the contract, or reverts, and then nothing of what it did remains.
    Arithmetic on [uint256] is checked: overflow and underflow revert with
    [Panic(0x11)]. *)
Module Solidity.

Definition address := N.
Definition uint256 := N.
Definition bytes32 := N.
Definition bytes := list Init.Byte.byte.

Definition max_uint256 : uint256 := (2 ^ 256 - 1)%N.

(** What a revert carries: [Error(string)], as [require] and [revert] with
    a reason give, [Panic(uint256)], or anything else, nothing included. *)
Inductive Failure :=
| Error (reason : string)
| Panic (code : N)
| Other.

Inductive Outcome (A : Type) :=
| Done (a : A)
| Reverted (f : Failure).
Arguments Done {A} a.
Arguments Reverted {A} f.

Definition Exec (S A : Type) : Type := S -> Outcome (A * S).

Section Exec.
Context {S : Type}.

Definition ret {A} (a : A) : Exec S A := fun s => Done (a, s).
Definition bind {A B} (m : Exec S A) (f : A -> Exec S B) : Exec S B :=
  fun s =>
    match m s with
    | Done (a, s') => f a s'
    | Reverted e => Reverted e
    end.
Definition revert {A} (e : Failure) : Exec S A := fun _ => Reverted e.
Definition require (b : bool) (reason : string) : Exec S unit :=
  if b then ret tt else revert (Error reason).
Definition get : Exec S S := fun s => Done (s, s).
Definition modify (f : S -> S) : Exec S unit := fun s => Done (tt, f s).

Definition checked_add (a b : uint256) : Exec S uint256 :=
  if (a + b <=? max_uint256)%N then ret (a + b)%N else revert (Panic 17).
Definition checked_sub (a b : uint256) : Exec S uint256 :=
  if (b <=? a)%N then ret (a - b)%N else revert (Panic 17).
Definition checked_mul (a b : uint256) : Exec S uint256 :=
  if (a * b <=? max_uint256)%N then ret (a * b)%N else revert (Panic 17).
End Exec.

#[global] Instance Exec_ret {S} : MRet (Exec S) := @ret S.
#[global] Instance Exec_bind {S} : MBind (Exec S) := fun A B f m => bind m f.

(** How a call to another contract ends, as its caller sees it: it returns
    a value, it reverts, or it cannot be used, because the address holds no
    code or the data returned are not of the expected type; the caller
    itself then reverts, outside of any [try]. *)
Inductive Answer (R : Type) :=
| Returned (r : R)
| Failed (f : Failure)
| Undecodable.
Arguments Returned {R} r.
Arguments Failed {R} f.
Arguments Undecodable {R}.

(** [abi.encodePacked] of a [uint256] (32 bytes) or an [address] (20
    bytes): big-endian. *)
Definition byte_of (n : N) : Init.Byte.byte :=
  default Init.Byte.x00 (Strings.Byte.of_N (n mod 256)%N).

Fixpoint big_endian (width : nat) (n : N) : bytes :=
  match width with
  | O => []
  | S w => big_endian w (n / 256)%N ++ [byte_of n]
  end.

Definition packed_uint256 (n : uint256) : bytes := big_endian 32 n.
Definition packed_address (a : address) : bytes := big_endian 20 a.
(** [bytes(s)] *)
Definition packed_string (s : string) : bytes := list_byte_of_string s.

(** [a[i] = a[a.length - 1]; a.pop()] for the first [i] with [a[i] == x],
    as the loop of [removeStrategy] does; nothing when there is none. *)
Fixpoint index_of (x : address) (a : list address) : option nat :=
  match a with
  | [] => None
  | y :: a' => if (y =? x)%N then Some O else S <$> index_of x a'
  end.

Definition swap_remove (x : address) (a : list address) : list address :=
  match index_of x a, last a with
  | Some i, Some z => removelast (<[i := z]> a)
  | _, _ => a
  end.

End Solidity.

(* ===================================================================== *)
(** * Vault.sol                                                           *)
(* ===================================================================== *)

Module Vault.
Import Solidity.

(** Vault.sol, lines 16-31. *)
Record Strategy := {
  target : address;
  allocation : uint256;
  active : bool;
  description : string
}.

Record RebalanceAction := {
  ra_token : address;
  ra_fromStrategy : address;
  ra_toStrategy : address;
  ra_amount : uint256;
  ra_reason : string;
  ra_timestamp : uint256;
  ra_aiDecisionHash : bytes32
}.

(** Vault.sol, lines 45-58, and the event of [Ownable]. *)
Inductive Event :=
| TokenDeposited (token : address) (amount : uint256) (depositor : address)
| TokenWithdrawn (token : address) (amount : uint256) (recipient : address)
| StrategyAdded (strategy : address) (allocation : uint256) (description : string)
| StrategyRemoved (strategy : address)
| Rebalanced (actionId : bytes32) (token fromStrategy toStrategy : address)
             (amount : uint256) (reason : string)
| ExecutorUpdated (oldExecutor newExecutor : address)
| OwnershipTransferred (previousOwner newOwner : address).

(** The storage: [_owner] of [Ownable], the status of [ReentrancyGuard]
    ([entered] for [_ENTERED]), the state variables of lines 34-42, and the
    events emitted so far.  A mapping holds the default value, all zero,
    for the keys that are not in the map. *)
Record State := {
  owner : address;
  entered : bool;
  tokenBalances : gmap address uint256;
  strategies : gmap address Strategy;
  rebalanceHistory : gmap bytes32 RebalanceAction;
  supportedTokens : list address;
  activeStrategies : list address;
  executor : address;
  totalRebalances : uint256;
  log : list Event
}.

Definition MAX_STRATEGIES : uint256 := 10%N.

Definition tokenBalance (s : State) (token : address) : uint256 :=
  default 0%N (tokenBalances s !! token).

Definition strategy (s : State) (a : address) : Strategy :=
  default {| target := 0%N; allocation := 0%N; active := false; description := "" |}
          (strategies s !! a).

Definition set_owner (a : address) (s : State) : State :=
  {| owner := a; entered := entered s; tokenBalances := tokenBalances s;
     strategies := strategies s; rebalanceHistory := rebalanceHistory s;
     supportedTokens := supportedTokens s; activeStrategies := activeStrategies s;
     executor := executor s; totalRebalances := totalRebalances s; log := log s |}.

Definition set_entered (b : bool) (s : State) : State :=
  {| owner := owner s; entered := b; tokenBalances := tokenBalances s;
     strategies := strategies s; rebalanceHistory := rebalanceHistory s;
     supportedTokens := supportedTokens s; activeStrategies := activeStrategies s;
     executor := executor s; totalRebalances := totalRebalances s; log := log s |}.

Definition set_tokenBalance (token : address) (b : uint256) (s : State) : State :=
  {| owner := owner s; entered := entered s;
     tokenBalances := <[token := b]> (tokenBalances s);
     strategies := strategies s; rebalanceHistory := rebalanceHistory s;
     supportedTokens := supportedTokens s; activeStrategies := activeStrategies s;
     executor := executor s; totalRebalances := totalRebalances s; log := log s |}.

Definition set_strategy (a : address) (st : Strategy) (s : State) : State :=
  {| owner := owner s; entered := entered s; tokenBalances := tokenBalances s;
     strategies := <[a := st]> (strategies s);
     rebalanceHistory := rebalanceHistory s;
     supportedTokens := supportedTokens s; activeStrategies := activeStrategies s;
     executor := executor s; totalRebalances := totalRebalances s; log := log s |}.

Definition set_rebalanceAction (id : bytes32) (a : RebalanceAction) (s : State)
  : State :=
  {| owner := owner s; entered := entered s; tokenBalances := tokenBalances s;
     strategies := strategies s;
     rebalanceHistory := <[id := a]> (rebalanceHistory s);
     supportedTokens := supportedTokens s; activeStrategies := activeStrategies s;
     executor := executor s; totalRebalances := totalRebalances s; log := log s |}.

Definition set_supportedTokens (l : list address) (s : State) : State :=
  {| owner := owner s; entered := entered s; tokenBalances := tokenBalances s;
     strategies := strategies s; rebalanceHistory := rebalanceHistory s;
     supportedTokens := l; activeStrategies := activeStrategies s;
     executor := executor s; totalRebalances := totalRebalances s; log := log s |}.

Definition set_activeStrategies (l : list address) (s : State) : State :=
  {| owner := owner s; entered := entered s; tokenBalances := tokenBalances s;
     strategies := strategies s; rebalanceHistory := rebalanceHistory s;
     supportedTokens := supportedTokens s; activeStrategies := l;
     executor := executor s; totalRebalances := totalRebalances s; log := log s |}.

Definition set_executor (a : address) (s : State) : State :=
  {| owner := owner s; entered := entered s; tokenBalances := tokenBalances s;
     strategies := strategies s; rebalanceHistory := rebalanceHistory s;
     supportedTokens := supportedTokens s; activeStrategies := activeStrategies s;
     executor := a; totalRebalances := totalRebalances s; log := log s |}.

Definition set_totalRebalances (n : uint256) (s : State) : State :=
  {| owner := owner s; entered := entered s; tokenBalances := tokenBalances s;
     strategies := strategies s; rebalanceHistory := rebalanceHistory s;
     supportedTokens := supportedTokens s; activeStrategies := activeStrategies s;
     executor := executor s; totalRebalances := n; log := log s |}.

Definition emit (ev : Event) : Exec State unit :=
  modify (fun s =>
    {| owner := owner s; entered := entered s; tokenBalances := tokenBalances s;
       strategies := strategies s; rebalanceHistory := rebalanceHistory s;
       supportedTokens := supportedTokens s; activeStrategies := activeStrategies s;
       executor := executor s; totalRebalances := totalRebalances s;
       log := log s ++ [ev] |}).

(** The constructor, lines 60-62, after the one of [Ownable]. *)
Definition constructor (sender : address) : State :=
  {| owner := sender; entered := false; tokenBalances := ∅; strategies := ∅;
     rebalanceHistory := ∅; supportedTokens := []; activeStrategies := [];
     executor := 0%N; totalRebalances := 0%N;
     log := [OwnershipTransferred 0%N sender] |}.

(** The modifiers: [onlyOwner] of [Ownable], [nonReentrant] of
    [ReentrancyGuard] (OpenZeppelin 4, which the imports name), and
    [onlyExecutor], lines 64-67. *)
Definition onlyOwner (sender : address) : Exec State unit :=
  s ← get;
  require (owner s =? sender)%N "Ownable: caller is not the owner".

Definition nonReentrant {A} (body : Exec State A) : Exec State A :=
  s ← get;
  require (negb (entered s)) "ReentrancyGuard: reentrant call";;
  modify (set_entered true);;
  r ← body;
  modify (set_entered false);;
  mret r.

Definition onlyExecutor (sender : address) : Exec State unit :=
  s ← get;
  require (executor s =? sender)%N "Only executor can perform this action".

(** Lines 207-214. *)
Definition isSupportedToken (s : State) (token : address) : bool :=
  existsb (fun t => (t =? token)%N) (supportedTokens s).

(** Lines 219-242: the views. *)
Definition getActiveStrategies (s : State) : list address := activeStrategies s.
Definition getSupportedTokens (s : State) : list address := supportedTokens s.
Definition getStrategy (s : State) (a : address) : Strategy := strategy s a.

(** The functions without [nonReentrant], which call no other contract:
    those of the vault and the two of [Ownable]. *)
Inductive Plain :=
| SetExecutor (_executor : address)
| AddStrategy (strategy : address) (allocation : uint256) (description : string)
| RemoveStrategy (strategy : address)
| AddSupportedToken (token : address)
| EmergencyPause
| TransferOwnership (newOwner : address)
| RenounceOwnership.

Definition plain (sender : address) (c : Plain) : Exec State unit :=
  match c with
  | SetExecutor _executor =>
      (* lines 72-76 *)
      onlyOwner sender;;
      s ← get;
      let oldExecutor := executor s in
      modify (set_executor _executor);;
      emit (ExecutorUpdated oldExecutor _executor)
  | AddStrategy a allocation description =>
      (* lines 108-127 *)
      onlyOwner sender;;
      require (negb (a =? 0)%N) "Invalid strategy address";;
      require (allocation <=? 10000)%N "Allocation must be <= 100%";;
      s ← get;
      require (N.of_nat (length (activeStrategies s)) <? MAX_STRATEGIES)%N
              "Max strategies reached";;
      require (negb (active (strategy s a))) "Strategy already exists";;
      modify (set_strategy a {| target := a; allocation := allocation;
                                active := true; description := description |});;
      modify (fun s => set_activeStrategies (activeStrategies s ++ [a]) s);;
      emit (StrategyAdded a allocation description)
  | RemoveStrategy a =>
      (* lines 132-147 *)
      onlyOwner sender;;
      s ← get;
      require (active (strategy s a)) "Strategy not active";;
      modify (set_strategy a {| target := target (strategy s a);
                                allocation := allocation (strategy s a);
                                active := false;
                                description := description (strategy s a) |});;
      (* Remove from active strategies array *)
      modify (fun s => set_activeStrategies (swap_remove a (activeStrategies s)) s);;
      emit (StrategyRemoved a)
  | AddSupportedToken token =>
      (* lines 197-202 *)
      onlyOwner sender;;
      require (negb (token =? 0)%N) "Invalid token address";;
      s ← get;
      require (negb (isSupportedToken s token)) "Token already supported";;
      modify (fun s => set_supportedTokens (supportedTokens s ++ [token]) s)
  | EmergencyPause =>
      (* lines 247-250 *)
      onlyOwner sender
  | TransferOwnership newOwner =>
      onlyOwner sender;;
      require (negb (newOwner =? 0)%N) "Ownable: new owner is the zero address";;
      s ← get;
      modify (set_owner newOwner);;
      emit (OwnershipTransferred (owner s) newOwner)
  | RenounceOwnership =>
      onlyOwner sender;;
      s ← get;
      modify (set_owner 0%N);;
      emit (OwnershipTransferred (owner s) 0%N)
  end.

(** What a token does when the vault calls it through [SafeERC20]: while
    it runs, it, or whoever it calls, may call the vault, here with the
    calls that succeed, in their order, each with its sender; a call of a
    function with [nonReentrant] reverts meanwhile and changes nothing.
    Then the transfer is done, or the wrapper reverts, because the token
    reverts or returns false or has no code, and nothing of all this
    remains. *)
Inductive TokenAnswer :=
| Transferred
| Refused (f : Failure).

Record Reply := {
  during : list (address * Plain);
  answer : TokenAnswer
}.

Fixpoint reenter (calls : list (address * Plain)) : Exec State unit :=
  match calls with
  | [] => mret tt
  | (sender, c) :: calls' =>
      fun s =>
        match plain sender c s with
        | Done (_, s') => reenter calls' s'
        | Reverted _ => reenter calls' s
        end
  end.

Definition token_call (r : Reply) : Exec State unit :=
  match answer r with
  | Transferred => reenter (during r)
  | Refused f => revert f
  end.

Section Functions.
(** [keccak256] *)
Variable keccak256 : bytes -> bytes32.
(** [block.timestamp] and [msg.sender] of the transaction. *)
Variable timestamp : uint256.
Variable sender : address.

(** Lines 81-89. *)
Definition deposit (token : address) (amount : uint256) (safeTransferFrom : Reply)
  : Exec State unit :=
  nonReentrant
    (require (0 <? amount)%N "Amount must be greater than 0";;
     s ← get;
     require (isSupportedToken s token) "Token not supported";;
     token_call safeTransferFrom;;
     s ← get;
     b ← checked_add (tokenBalance s token) amount;
     modify (set_tokenBalance token b);;
     emit (TokenDeposited token amount sender)).

(** Lines 94-103. *)
Definition withdraw (token : address) (amount : uint256) (recipient : address)
    (safeTransfer : Reply) : Exec State unit :=
  onlyOwner sender;;
  nonReentrant
    (require (0 <? amount)%N "Amount must be greater than 0";;
     s ← get;
     require (amount <=? tokenBalance s token)%N "Insufficient balance";;
     require (negb (recipient =? 0)%N) "Invalid recipient";;
     b ← checked_sub (tokenBalance s token) amount;
     modify (set_tokenBalance token b);;
     token_call safeTransfer;;
     emit (TokenWithdrawn token amount recipient)).

(** Lines 152-192. *)
Definition executeRebalance (token fromStrategy toStrategy : address)
    (amount : uint256) (reason : string) (aiDecisionHash : bytes32)
  : Exec State bytes32 :=
  onlyExecutor sender;;
  nonReentrant
    (require (negb (token =? 0)%N) "Invalid token";;
     require (0 <? amount)%N "Amount must be greater than 0";;
     s ← get;
     require (amount <=? tokenBalance s token)%N "Insufficient token balance";;
     require (active (strategy s toStrategy)) "Target strategy not active";;
     let actionId :=
       keccak256 (packed_uint256 timestamp ++ packed_address token
                  ++ packed_address fromStrategy ++ packed_address toStrategy
                  ++ packed_uint256 amount
                  ++ packed_uint256 (totalRebalances s)) in
     (* Record the rebalance action *)
     modify (set_rebalanceAction actionId
               {| ra_token := token; ra_fromStrategy := fromStrategy;
                  ra_toStrategy := toStrategy; ra_amount := amount;
                  ra_reason := reason; ra_timestamp := timestamp;
                  ra_aiDecisionHash := aiDecisionHash |});;
     n ← checked_add (totalRebalances s) 1%N;
     modify (set_totalRebalances n);;
     emit (Rebalanced actionId token fromStrategy toStrategy amount reason);;
     mret actionId).
End Functions.

(** A transaction: a call of one of the functions that change the state,
    with what the token does if it is called. *)
Inductive Call :=
| Simply (c : Plain)
| Deposit (token : address) (amount : uint256) (safeTransferFrom : Reply)
| Withdraw (token : address) (amount : uint256) (recipient : address)
           (safeTransfer : Reply)
| ExecuteRebalance (token fromStrategy toStrategy : address) (amount : uint256)
                   (reason : string) (aiDecisionHash : bytes32).

Definition call (keccak256 : bytes -> bytes32) (timestamp : uint256)
    (sender : address) (c : Call) : Exec State (option bytes32) :=
  match c with
  | Simply c => plain sender c;; mret None
  | Deposit token amount r => deposit sender token amount r;; mret None
  | Withdraw token amount recipient r =>
      withdraw sender token amount recipient r;; mret None
  | ExecuteRebalance token fromStrategy toStrategy amount reason aiDecisionHash =>
      id ← executeRebalance keccak256 timestamp sender token fromStrategy toStrategy
             amount reason aiDecisionHash;
      mret (Some id)
  end.

(** The states of a deployed vault: after the constructor and any
    transactions that did not revert. *)
Inductive reachable (keccak256 : bytes -> bytes32) : State -> Prop :=
| reachable_deployed deployer : reachable keccak256 (constructor deployer)
| reachable_call s timestamp sender c r s' :
    reachable keccak256 s ->
    call keccak256 timestamp sender c s = Done (r, s') ->
    reachable keccak256 s'.

End Vault.

(* ===================================================================== *)
(** * Executor.sol                                                        *)
(* ===================================================================== *)

(** Executor.sol is kept in src/frontend/setup.sh, from line 23 on; the
    lines are those of that file. *)
Module Executor.
Import Solidity.

(** Lines 42-58. *)
Record ExecutionResult := {
  success : bool;
  amountOut : uint256;
  data : bytes;
  errorMessage : string
}.

Record AIDecision := {
  action : string;
  fromChain : string;
  toChain : string;
  token : address;
  amount : uint256;
  reason : string;
  timestamp : uint256;
  targetProtocol : address;
  executionData : bytes
}.

(** Lines 72-83, and the event of [Ownable]. *)
Inductive Event :=
| AIDecisionExecuted (decisionId : bytes32) (action : string) (token : address)
                     (amount : uint256) (success : bool)
| ProtocolUpdated (protocolType name : string) (target : address)
| AIAgentAuthorized (agent : address) (authorized : bool)
| ExecutionFailed (decisionId : bytes32) (reason : string)
| OwnershipTransferred (previousOwner newOwner : address).

(** The storage: [_owner], the status of [ReentrancyGuard], the state
    variables of lines 61-68, and the events emitted so far. *)
Record State := {
  owner : address;
  entered : bool;
  vault : address;
  dexRouters : gmap string address;
  bridges : gmap string address;
  lendingProtocols : gmap string address;
  aiDecisions : gmap bytes32 AIDecision;
  authorizedAIAgents : gmap address bool;
  executionCounter : uint256;
  log : list Event
}.

Definition MAX_SLIPPAGE : uint256 := 500%N.
Definition SLIPPAGE_DENOMINATOR : uint256 := 10000%N.

Definition authorized (s : State) (agent : address) : bool :=
  default false (authorizedAIAgents s !! agent).

(** Lines 352-354. *)
Definition getAIDecision (s : State) (decisionId : bytes32) : AIDecision :=
  default {| action := ""; fromChain := ""; toChain := ""; token := 0%N;
             amount := 0%N; reason := ""; timestamp := 0%N;
             targetProtocol := 0%N; executionData := [] |}
          (aiDecisions s !! decisionId).

Definition set_owner (a : address) (s : State) : State :=
  {| owner := a; entered := entered s; vault := vault s;
     dexRouters := dexRouters s; bridges := bridges s;
     lendingProtocols := lendingProtocols s; aiDecisions := aiDecisions s;
     authorizedAIAgents := authorizedAIAgents s;
     executionCounter := executionCounter s; log := log s |}.

Definition set_entered (b : bool) (s : State) : State :=
  {| owner := owner s; entered := b; vault := vault s;
     dexRouters := dexRouters s; bridges := bridges s;
     lendingProtocols := lendingProtocols s; aiDecisions := aiDecisions s;
     authorizedAIAgents := authorizedAIAgents s;
     executionCounter := executionCounter s; log := log s |}.

Definition set_dexRouter (name : string) (a : address) (s : State) : State :=
  {| owner := owner s; entered := entered s; vault := vault s;
     dexRouters := <[name := a]> (dexRouters s); bridges := bridges s;
     lendingProtocols := lendingProtocols s; aiDecisions := aiDecisions s;
     authorizedAIAgents := authorizedAIAgents s;
     executionCounter := executionCounter s; log := log s |}.

Definition set_bridge (name : string) (a : address) (s : State) : State :=
  {| owner := owner s; entered := entered s; vault := vault s;
     dexRouters := dexRouters s; bridges := <[name := a]> (bridges s);
     lendingProtocols := lendingProtocols s; aiDecisions := aiDecisions s;
     authorizedAIAgents := authorizedAIAgents s;
     executionCounter := executionCounter s; log := log s |}.

Definition set_lendingProtocol (name : string) (a : address) (s : State) : State :=
  {| owner := owner s; entered := entered s; vault := vault s;
     dexRouters := dexRouters s; bridges := bridges s;
     lendingProtocols := <[name := a]> (lendingProtocols s);
     aiDecisions := aiDecisions s;
     authorizedAIAgents := authorizedAIAgents s;
     executionCounter := executionCounter s; log := log s |}.

Definition set_aiDecision (id : bytes32) (d : AIDecision) (s : State) : State :=
  {| owner := owner s; entered := entered s; vault := vault s;
     dexRouters := dexRouters s; bridges := bridges s;
     lendingProtocols := lendingProtocols s;
     aiDecisions := <[id := d]> (aiDecisions s);
     authorizedAIAgents := authorizedAIAgents s;
     executionCounter := executionCounter s; log := log s |}.

Definition set_authorized (agent : address) (b : bool) (s : State) : State :=
  {| owner := owner s; entered := entered s; vault := vault s;
     dexRouters := dexRouters s; bridges := bridges s;
     lendingProtocols := lendingProtocols s; aiDecisions := aiDecisions s;
     authorizedAIAgents := <[agent := b]> (authorizedAIAgents s);
     executionCounter := executionCounter s; log := log s |}.

Definition set_executionCounter (n : uint256) (s : State) : State :=
  {| owner := owner s; entered := entered s; vault := vault s;
     dexRouters := dexRouters s; bridges := bridges s;
     lendingProtocols := lendingProtocols s; aiDecisions := aiDecisions s;
     authorizedAIAgents := authorizedAIAgents s;
     executionCounter := n; log := log s |}.

Definition emit (ev : Event) : Exec State unit :=
  modify (fun s =>
    {| owner := owner s; entered := entered s; vault := vault s;
       dexRouters := dexRouters s; bridges := bridges s;
       lendingProtocols := lendingProtocols s; aiDecisions := aiDecisions s;
       authorizedAIAgents := authorizedAIAgents s;
       executionCounter := executionCounter s; log := log s ++ [ev] |}).

(** The constructor, lines 85-87, after the one of [Ownable]. *)
Definition constructor (sender _vault : address) : State :=
  {| owner := sender; entered := false; vault := _vault;
     dexRouters := ∅; bridges := ∅; lendingProtocols := ∅; aiDecisions := ∅;
     authorizedAIAgents := ∅; executionCounter := 0%N;
     log := [OwnershipTransferred 0%N sender] |}.

Definition onlyOwner (sender : address) : Exec State unit :=
  s ← get;
  require (owner s =? sender)%N "Ownable: caller is not the owner".

Definition nonReentrant {A} (body : Exec State A) : Exec State A :=
  s ← get;
  require (negb (entered s)) "ReentrancyGuard: reentrant call";;
  modify (set_entered true);;
  r ← body;
  modify (set_entered false);;
  mret r.

(** Lines 89-92. *)
Definition onlyAuthorizedAI (sender : address) : Exec State unit :=
  s ← get;
  require (authorized s sender) "Unauthorized AI agent".

(** The functions without [nonReentrant], which call no other contract. *)
Inductive Plain :=
| AuthorizeAIAgent (agent : address) (authorized : bool)
| UpdateProtocol (protocolType name : string) (target : address)
| EmergencyStop
| TransferOwnership (newOwner : address)
| RenounceOwnership.

(** What a called contract does: while it runs the executor may be called,
    here with the calls that succeed, each with its sender; then it
    answers.  When it reverts, nothing of this remains. *)
Record Reply (R : Type) := {
  during : list (address * Plain);
  answer : Answer R
}.
Arguments during {R} _.
Arguments answer {R} _.

Section Functions.
(** [keccak256], and [abi.decode(_, (address[]))], which reverts on data
    of another type, [abi.encode] of a [uint256[]] and of a [bytes32]. *)
Variable keccak256 : bytes -> bytes32.
Variable abi_decode_addresses : bytes -> option (list address).
Variable abi_encode_uint256s : list uint256 -> bytes.
Variable abi_encode_bytes32 : bytes32 -> bytes.

(** [keccak256(bytes(a)) == keccak256(bytes(b))] *)
Definition same_hash (a b : string) : bool :=
  (keccak256 (packed_string a) =? keccak256 (packed_string b))%N.

Definition plain (sender : address) (c : Plain) : Exec State unit :=
  match c with
  | AuthorizeAIAgent agent authorized =>
      (* lines 97-100 *)
      onlyOwner sender;;
      modify (set_authorized agent authorized);;
      emit (AIAgentAuthorized agent authorized)
  | UpdateProtocol protocolType name target =>
      (* lines 105-123 *)
      onlyOwner sender;;
      require (negb (target =? 0)%N) "Invalid target address";;
      (if same_hash protocolType "dex" then modify (set_dexRouter name target)
       else if same_hash protocolType "bridge" then modify (set_bridge name target)
       else if same_hash protocolType "lending"
            then modify (set_lendingProtocol name target)
       else revert (Error "Invalid protocol type"));;
      emit (ProtocolUpdated protocolType name target)
  | EmergencyStop =>
      (* lines 359-361 *)
      onlyOwner sender
  | TransferOwnership newOwner =>
      onlyOwner sender;;
      require (negb (newOwner =? 0)%N) "Ownable: new owner is the zero address";;
      s ← get;
      modify (set_owner newOwner);;
      emit (OwnershipTransferred (owner s) newOwner)
  | RenounceOwnership =>
      onlyOwner sender;;
      s ← get;
      modify (set_owner 0%N);;
      emit (OwnershipTransferred (owner s) 0%N)
  end.

Fixpoint reenter (calls : list (address * Plain)) : Exec State unit :=
  match calls with
  | [] => mret tt
  | (sender, c) :: calls' =>
      fun s =>
        match plain sender c s with
        | Done (_, s') => reenter calls' s'
        | Reverted _ => reenter calls' s
        end
  end.

(** [try target.f(...) returns (R r) { ok r } catch Error(string memory
    reason) { error reason } catch { other }] *)
Definition try_call {R A} (r : Reply R) (ok : R -> Exec State A)
    (error : string -> Exec State A) (other : Exec State A) : Exec State A :=
  match answer r with
  | Returned v => reenter (during r);; ok v
  | Failed (Error reason) => error reason
  | Failed _ => other
  | Undecodable => revert Other
  end.

(** [target.f(...)] outside of a [try]: a revert of the callee is the
    caller's. *)
Definition external_call {R} (r : Reply R) : Exec State R :=
  match answer r with
  | Returned v => reenter (during r);; mret v
  | Failed f => revert f
  | Undecodable => revert Other
  end.

(** The transaction and the contracts it meets: [block.timestamp],
    [msg.sender], and what the router, the bridge, the lending protocol
    and the vault do when called. *)
Variable now : uint256.
Variable sender : address.
Variable swapExactTokensForTokens :
  address -> uint256 -> uint256 -> list address -> address -> uint256 ->
  Reply (list uint256).
Variable bridgeToken :
  address -> address -> uint256 -> uint256 -> address -> bytes -> Reply bytes32.
Variable supply : address -> address -> uint256 -> address -> N -> Reply unit.
Variable vault_executeRebalance :
  address -> address -> address -> address -> uint256 -> string -> bytes32 ->
  Reply bytes32.

(** Lines 330-332. *)
Definition _calculateMinAmountOut (amountIn : uint256) : Exec State uint256 :=
  d ← checked_sub SLIPPAGE_DENOMINATOR MAX_SLIPPAGE;
  p ← checked_mul amountIn d;
  mret (p / SLIPPAGE_DENOMINATOR)%N.

(** Lines 337-347. *)
Definition _getChainId (chainName : string) : Exec State uint256 :=
  if same_hash chainName "Ethereum" then mret 1%N
  else if same_hash chainName "Polygon" then mret 137%N
  else if same_hash chainName "Arbitrum" then mret 42161%N
  else if same_hash chainName "Optimism" then mret 10%N
  else if same_hash chainName "BSC" then mret 56%N
  else revert (Error "Unsupported chain").

Definition failure (message : string) : ExecutionResult :=
  {| success := false; amountOut := 0%N; data := []; errorMessage := message |}.

(** Lines 215-244. *)
Definition _executeSwap (decision : AIDecision) : Exec State ExecutionResult :=
  minAmountOut ← _calculateMinAmountOut (amount decision);
  path ← match abi_decode_addresses (executionData decision) with
         | Some path => mret path
         | None => revert Other
         end;
  s ← get;
  deadline ← checked_add now 300%N;
  try_call
    (swapExactTokensForTokens (targetProtocol decision) (amount decision)
       minAmountOut path (vault s) deadline)
    (fun amounts =>
       i ← checked_sub (N.of_nat (length amounts)) 1%N;
       match amounts !! N.to_nat i with
       | Some out =>
           mret {| success := true; amountOut := out;
                   data := abi_encode_uint256s amounts; errorMessage := "" |}
       | None => revert (Panic 50)
       end)
    (fun reason => mret (failure reason))
    (mret (failure "Swap execution failed")).

(** Lines 249-278. *)
Definition _executeBridge (decision : AIDecision) : Exec State ExecutionResult :=
  chainId ← _getChainId (toChain decision);
  s ← get;
  try_call
    (bridgeToken (targetProtocol decision) (token decision) (amount decision)
       chainId (vault s) (executionData decision))
    (fun transferId =>
       mret {| success := true; amountOut := amount decision;
               data := abi_encode_bytes32 transferId; errorMessage := "" |})
    (fun reason => mret (failure reason))
    (mret (failure "Bridge execution failed")).

(** Lines 283-311. *)
Definition _executeLending (decision : AIDecision) : Exec State ExecutionResult :=
  s ← get;
  try_call
    (supply (targetProtocol decision) (token decision) (amount decision)
       (vault s) 0%N)
    (fun _ =>
       mret {| success := true; amountOut := amount decision;
               data := []; errorMessage := "" |})
    (fun reason => mret (failure reason))
    (mret (failure "Lending execution failed")).

(** Lines 316-325. *)
Definition _executeRebalance (decision : AIDecision) : Exec State ExecutionResult :=
  mret {| success := true; amountOut := amount decision;
          data := executionData decision; errorMessage := "" |}.

(** Lines 189-210. *)
Definition _executeDecision (decisionId : bytes32) : Exec State ExecutionResult :=
  s ← get;
  let decision := getAIDecision s decisionId in
  if same_hash (action decision) "swap" then _executeSwap decision
  else if same_hash (action decision) "bridge" then _executeBridge decision
  else if same_hash (action decision) "lend" then _executeLending decision
  else if same_hash (action decision) "rebalance" then _executeRebalance decision
  else mret (failure "Unknown action type").

(** Lines 128-184. *)
Definition executeAIDecision (action fromChain toChain : string) (token : address)
    (amount : uint256) (reason : string) (targetProtocol : address)
    (executionData : bytes) : Exec State bytes32 :=
  onlyAuthorizedAI sender;;
  nonReentrant
    (require (0 <? amount)%N "Amount must be greater than 0";;
     require (negb (token =? 0)%N) "Invalid token address";;
     s ← get;
     let counter := executionCounter s in
     n ← checked_add counter 1%N;
     modify (set_executionCounter n);;
     let decisionId :=
       keccak256 (packed_uint256 now ++ packed_string action
                  ++ packed_address token ++ packed_uint256 amount
                  ++ packed_uint256 counter) in
     (* Store AI decision *)
     modify (set_aiDecision decisionId
               {| action := action; fromChain := fromChain; toChain := toChain;
                  token := token; amount := amount; reason := reason;
                  timestamp := now; targetProtocol := targetProtocol;
                  executionData := executionData |});;
     (* Execute the decision *)
     result ← _executeDecision decisionId;
     (if success result then
        (* Log successful execution in vault *)
        s ← get;
        external_call
          (vault_executeRebalance (vault s) token 0%N targetProtocol amount
             reason decisionId);;
        mret tt
      else emit (ExecutionFailed decisionId (errorMessage result)));;
     emit (AIDecisionExecuted decisionId action token amount (success result));;
     mret decisionId).
End Functions.

End Executor.

(* ===================================================================== *)
(** * Vocabulary of the statements about the contracts                   *)
(* ===================================================================== *)

(** Vocabulary *)
Definition vault_ok (s : Vault.State) : Prop :=
  NoDup (Vault.supportedTokens s)
  /\ (0%N ∉ Vault.supportedTokens s)
  /\ NoDup (Vault.activeStrategies s)
  /\ (length (Vault.activeStrategies s) <= 10)%nat
  /\ (forall a, a ∈ Vault.activeStrategies s
                <-> Vault.active (Vault.strategy s a) = true)
  /\ (forall a, Vault.active (Vault.strategy s a) = true ->
                a <> 0%N
                /\ Vault.target (Vault.strategy s a) = a
                /\ (Vault.allocation (Vault.strategy s a) <= 10000)%N)
  /\ (forall token, (0 < Vault.tokenBalance s token)%N ->
                    token ∈ Vault.supportedTokens s).

(** What a call of a function without [nonReentrant] leaves as it is. *)
Definition vault_frame (s s' : Vault.State) : Prop :=
  Vault.entered s' = Vault.entered s
  /\ Vault.tokenBalances s' = Vault.tokenBalances s
  /\ Vault.rebalanceHistory s' = Vault.rebalanceHistory s
  /\ Vault.totalRebalances s' = Vault.totalRebalances s
  /\ (forall token, token ∈ Vault.supportedTokens s ->
                    token ∈ Vault.supportedTokens s')
  /\ (vault_ok s -> vault_ok s').

(** What a transaction leaves of the books of the vault. *)
Definition vault_books (c : Vault.Call) (s s' : Vault.State) : Prop :=
  (forall t,
     Vault.tokenBalance s' t
     = match c with
       | Vault.Deposit token amount _ =>
           if decide (t = token) then (Vault.tokenBalance s t + amount)%N
           else Vault.tokenBalance s t
       | Vault.Withdraw token amount _ _ =>
           if decide (t = token) then (Vault.tokenBalance s t - amount)%N
           else Vault.tokenBalance s t
       | _ => Vault.tokenBalance s t
       end)
  /\ match c with
     | Vault.ExecuteRebalance _ _ _ _ _ _ =>
         Vault.totalRebalances s' = (Vault.totalRebalances s + 1)%N
     | _ =>
         Vault.totalRebalances s' = Vault.totalRebalances s
         /\ Vault.rebalanceHistory s' = Vault.rebalanceHistory s
     end.

(** The settings of the vault, which only its owner changes. *)
Definition vault_settings (s : Vault.State)
  : Solidity.address * Solidity.address * gmap Solidity.address Vault.Strategy
    * list Solidity.address * list Solidity.address :=
  (Vault.owner s, Vault.executor s, Vault.strategies s,
   Vault.supportedTokens s, Vault.activeStrategies s).

(** The senders of the calls made into the vault while a token runs. *)
Definition inner_senders (c : Vault.Call) : list Solidity.address :=
  match c with
  | Vault.Deposit _ _ reply | Vault.Withdraw _ _ _ reply =>
      (Vault.during reply).*1
  | _ => []
  end.

(** The vault as scripts/Deploy.s.sol sets it up. *)
Definition deployed_vault (deployer executor : Solidity.address) : Vault.State :=
  let run c s :=
    match Vault.call (fun _ => 0%N) 0%N deployer (Vault.Simply c) s with
    | Solidity.Done (_, s') => s'
    | Solidity.Reverted _ => s
    end in
  run (Vault.AddStrategy 0x1234567890123456789012345678901234567890%N 5000%N
         "Aave USDC Strategy")
    (run (Vault.AddSupportedToken 0xC02aaA39b223FE8D0A0e5C4F27eAD9083C756Cc2%N)
       (run (Vault.AddSupportedToken 0xA0b86a33E6441b8D36c7E54E0eED0b3c6EFb3Fcf%N)
          (run (Vault.SetExecutor executor) (Vault.constructor deployer)))).

(** The message of a failure that [try] catches. *)
Definition caught (f : Solidity.Failure) (fallback : string) : string :=
  match f with
  | Solidity.Error reason => reason
  | _ => fallback
  end.

(** What [executeAIDecision] requires before it looks at the action. *)
Definition entitled (s : Executor.State) (sender token : Solidity.address)
    (amount : Solidity.uint256) : Prop :=
  Executor.authorized s sender = true
  /\ Executor.entered s = false
  /\ (0 < amount)%N
  /\ token <> 0%N
  /\ (Executor.executionCounter s < Solidity.max_uint256)%N.

(** The identifier [executeAIDecision] gives a decision, and the state in
    which the decision is executed. *)
Definition decision_id (keccak256 : Solidity.bytes -> Solidity.bytes32)
    (now : Solidity.uint256) (action : string) (token : Solidity.address)
    (amount counter : Solidity.uint256) : Solidity.bytes32 :=
  keccak256 (Solidity.packed_uint256 now ++ Solidity.packed_string action
             ++ Solidity.packed_address token ++ Solidity.packed_uint256 amount
             ++ Solidity.packed_uint256 counter).

Definition stored (id : Solidity.bytes32) (d : Executor.AIDecision)
    (s : Executor.State) : Executor.State :=
  Executor.set_aiDecision id d
    (Executor.set_executionCounter (Executor.executionCounter s + 1)%N
       (Executor.set_entered true s)).

(** A state with more events in its log. *)
Definition logged (events : list Executor.Event) (s : Executor.State)
  : Executor.State :=
  {| Executor.owner := Executor.owner s;
     Executor.entered := Executor.entered s;
     Executor.vault := Executor.vault s;
     Executor.dexRouters := Executor.dexRouters s;
     Executor.bridges := Executor.bridges s;
     Executor.lendingProtocols := Executor.lendingProtocols s;
     Executor.aiDecisions := Executor.aiDecisions s;
     Executor.authorizedAIAgents := Executor.authorizedAIAgents s;
     Executor.executionCounter := Executor.executionCounter s;
     Executor.log := Executor.log s ++ events |}.

(** The state after a decision whose execution failed. *)
Definition failed_state (id : Solidity.bytes32) (d : Executor.AIDecision)
    (message : string) (s : Executor.State) : Executor.State :=
  {| Executor.owner := Executor.owner s;
     Executor.entered := false;
     Executor.vault := Executor.vault s;
     Executor.dexRouters := Executor.dexRouters s;
     Executor.bridges := Executor.bridges s;
     Executor.lendingProtocols := Executor.lendingProtocols s;
     Executor.aiDecisions := <[id := d]> (Executor.aiDecisions s);
     Executor.authorizedAIAgents := Executor.authorizedAIAgents s;
     Executor.executionCounter := (Executor.executionCounter s + 1)%N;
     Executor.log :=
       Executor.log s
       ++ [Executor.ExecutionFailed id message;
           Executor.AIDecisionExecuted id (Executor.action d) (Executor.token d)
             (Executor.amount d) false] |}.

(** What a call of a function without [nonReentrant] leaves as it is: all
    but the owner, the three registries, the authorizations and the log,
    which gets no [AIDecisionExecuted]. *)
Definition executor_frame (s s' : Executor.State) : Prop :=
  Executor.entered s' = Executor.entered s
  /\ Executor.vault s' = Executor.vault s
  /\ Executor.aiDecisions s' = Executor.aiDecisions s
  /\ Executor.executionCounter s' = Executor.executionCounter s
  /\ exists events,
       Executor.log s' = Executor.log s ++ events
       /\ Forall (fun ev => match ev with
                            | Executor.AIDecisionExecuted _ _ _ _ _ => False
                            | _ => True
                            end) events.

(** An event other than [AIDecisionExecuted]. *)
Definition quiet (ev : Executor.Event) : Prop :=
  match ev with
  | Executor.AIDecisionExecuted _ _ _ _ _ => False
  | _ => True
  end.

Section Protocols.
Import Solidity.
Variable keccak256 : bytes -> bytes32.
Variable abi_decode_addresses : bytes -> option (list address).
Variable now : uint256.
Variable swapExactTokensForTokens :
  address -> uint256 -> uint256 -> list address -> address -> uint256 ->
  Executor.Reply (list uint256).
Variable bridgeToken :
  address -> address -> uint256 -> uint256 -> address -> bytes ->
  Executor.Reply bytes32.
Variable supply :
  address -> address -> uint256 -> address -> N -> Executor.Reply unit.

(** The chain identifier [_getChainId] gives a name, if any. *)
Definition chain_id (chainName : string) : option uint256 :=
  if Executor.same_hash keccak256 chainName "Ethereum" then Some 1%N
  else if Executor.same_hash keccak256 chainName "Polygon" then Some 137%N
  else if Executor.same_hash keccak256 chainName "Arbitrum" then Some 42161%N
  else if Executor.same_hash keccak256 chainName "Optimism" then Some 10%N
  else if Executor.same_hash keccak256 chainName "BSC" then Some 56%N
  else None.

(** The call of a protocol that the action of a decision leads to is
    refused with [f], which [try] catches under the message [fallback]. *)
Inductive refused (action toChain : string) (token : address) (amount : uint256)
    (targetProtocol : address) (executionData : bytes) (s : Executor.State)
    (f : Failure) : string -> Prop :=
| swap_refused path :
    Executor.same_hash keccak256 action "swap" = true ->
    (amount * 9500 <= max_uint256)%N ->
    abi_decode_addresses executionData = Some path ->
    (now + 300 <= max_uint256)%N ->
    Executor.answer
      (swapExactTokensForTokens targetProtocol amount (amount * 9500 / 10000)%N
         path (Executor.vault s) (now + 300)%N) = Failed f ->
    refused action toChain token amount targetProtocol executionData s f
      "Swap execution failed"
| bridge_refused chainId :
    Executor.same_hash keccak256 action "swap" = false ->
    Executor.same_hash keccak256 action "bridge" = true ->
    chain_id toChain = Some chainId ->
    Executor.answer
      (bridgeToken targetProtocol token amount chainId (Executor.vault s)
         executionData) = Failed f ->
    refused action toChain token amount targetProtocol executionData s f
      "Bridge execution failed"
| lend_refused :
    Executor.same_hash keccak256 action "swap" = false ->
    Executor.same_hash keccak256 action "bridge" = false ->
    Executor.same_hash keccak256 action "lend" = true ->
    Executor.answer
      (supply targetProtocol token amount (Executor.vault s) 0%N) = Failed f ->
    refused action toChain token amount targetProtocol executionData s f
      "Lending execution failed".
End Protocols.

(** The vault of [Vault.sol] in state [v] as the contract that the executor
    at address [this] calls: [executeRebalance] calls no other contract, and
    answers with what it returns or with its revert. *)
Definition vault_reply (keccak256 : Solidity.bytes -> Solidity.bytes32)
    (now : Solidity.uint256) (this : Solidity.address) (v : Vault.State)
    (target token fromStrategy toStrategy : Solidity.address)
    (amount : Solidity.uint256) (reason : string)
    (aiDecisionHash : Solidity.bytes32) : Executor.Reply Solidity.bytes32 :=
  {| Executor.during := [];
     Executor.answer :=
       match Vault.executeRebalance keccak256 now this token fromStrategy
               toStrategy amount reason aiDecisionHash v with
       | Solidity.Done (id, _) => Solidity.Returned id
       | Solidity.Reverted f => Solidity.Failed f
       end |}.

(** ** A deployment, for the examples *)

Module Chain.
Import Solidity.

(** A stand-in for [keccak256] in the examples: the bytes read as a number
    in base 256. *)
Definition digest (b : bytes) : bytes32 :=
  fold_left (fun h c => ((h * 256 + Strings.Byte.to_N c) mod 2 ^ 256)%N) b 0%N.

Definition usdc : address := 0xA0b86a33E6441b8D36c7E54E0eED0b3c6EFb3Fcf%N.
Definition weth : address := 0xC02aaA39b223FE8D0A0e5C4F27eAD9083C756Cc2%N.
Definition aave : address := 0x1234567890123456789012345678901234567890%N.

(** The executor of the deployer 7 for the vault at 6, after the deployer
    has authorized the agent 5. *)
Definition executor : Executor.State :=
  match Executor.plain digest 7%N (Executor.AuthorizeAIAgent 5%N true)
          (Executor.constructor 7%N 6%N) with
  | Done (_, s) => s
  | Reverted _ => Executor.constructor 7%N 6%N
  end.

(** The vault that [Deploy.s.sol] leaves, with the executor at 8, after a
    deposit of 500 USDC. *)
Definition vault : Vault.State :=
  match Vault.call digest 0%N 9%N
          (Vault.Deposit usdc 500%N
             {| Vault.during := []; Vault.answer := Vault.Transferred |})
          (deployed_vault 7%N 8%N) with
  | Done (_, s) => s
  | Reverted _ => deployed_vault 7%N 8%N
  end.

(** A protocol that reverts with a reason, one that reverts without, and one
    that returns. *)
Definition refuses {R} (reason : string) : Executor.Reply R :=
  {| Executor.during := []; Executor.answer := Failed (Error reason) |}.
Definition fails {R} : Executor.Reply R :=
  {| Executor.during := []; Executor.answer := Failed Other |}.
Definition returns {R} (r : R) : Executor.Reply R :=
  {| Executor.during := []; Executor.answer := Returned r |}.

(** [executeAIDecision] called by the agent 5 at time 1000, with a router
    that refuses, a bridge and a lending protocol that fail and the given
    vault. *)
Definition executeAIDecision
    (vault_executeRebalance :
       address -> address -> address -> address -> uint256 -> string ->
       bytes32 -> Executor.Reply bytes32) :=
  Executor.executeAIDecision digest (fun _ => Some [usdc; weth]) (fun _ => [])
    (fun _ => []) 1000%N 5%N
    (fun _ _ _ _ _ _ => refuses "INSUFFICIENT_OUTPUT_AMOUNT")
    (fun _ _ _ _ _ _ => fails) (fun _ _ _ _ _ => fails)
    vault_executeRebalance.
End Chain.

(** Unfolds the monadic notation of the embedded code. *)
Ltac unfold_task :=
  unfold mbind, Task_bind, mret, Task_ret, bind, ret, throw, try_catch,
    try_finally, get, put, gets, modify, await, ask in *.

(* ===================================================================== *)
(** * Reasoning rules                                                     *)
(* ===================================================================== *)

Section WP.
Context {S : Type}.
Implicit Types (I : S -> Prop) (h : History).

Lemma wp_mono {R} I (r : Res S R) h (Q Q' : Completion R -> S -> History -> Prop) :
  wp I r h Q -> (forall c s h', Q c s h' -> Q' c s h') -> wp I r h Q'.
Proof.
  revert h. induction r as [c s|c s k IH|s k IH|q s k IH]; simpl; intros h Hwp HQ.
  - by apply HQ.
  - destruct Hwp as [HI Hk]. split; [done|]. intros o. eapply IH; eauto.
  - destruct Hwp as [HI Hk]. split; [done|]. eapply IH; eauto.
  - intros a. eapply IH; eauto.
Qed.

Lemma wp_bind {A B} I (r : Res S A) (f : A -> Task S B) h Q :
  wp I r h (fun c s h' =>
              match c with
              | Normal a => wp I (f a s) h' Q
              | Throw e => Q (Throw e) s h'
              end) ->
  wp I (bind_res r f) h Q.
Proof.
  revert h. induction r as [[a|e] s|c s k IH|s k IH|q s k IH]; simpl;
    intros h Hwp; try done.
  - destruct Hwp as [HI Hk]. split; [done|]. intros o. by apply IH.
  - destruct Hwp as [HI Hk]. split; [done|]. by apply IH.
  - intros a. by apply IH.
Qed.

Lemma wp_catch {A} I (r : Res S A) (hd : Thrown -> Task S A) h Q :
  wp I r h (fun c s h' =>
              match c with
              | Normal a => Q (Normal a) s h'
              | Throw e => wp I (hd e s) h' Q
              end) ->
  wp I (catch_res r hd) h Q.
Proof.
  revert h. induction r as [[a|e] s|c s k IH|s k IH|q s k IH]; simpl;
    intros h Hwp; try done.
  - destruct Hwp as [HI Hk]. split; [done|]. intros o. by apply IH.
  - destruct Hwp as [HI Hk]. split; [done|]. by apply IH.
  - intros a. by apply IH.
Qed.

Lemma wp_finally {A} I (r : Res S A) (fin : Task S unit) h Q :
  wp I r h (fun c s h' =>
              wp I (fin s) h' (fun c' s' h'' =>
                match c' with
                | Normal _ => Q c s' h''
                | Throw e => Q (Throw e) s' h''
                end)) ->
  wp I (finally_res r fin) h Q.
Proof.
  revert h. induction r as [c s|c s k IH|s k IH|q s k IH]; simpl; intros h Hwp.
  - apply wp_bind. eapply wp_mono; [exact Hwp|]. by intros [[]|e] s' h''.
  - destruct Hwp as [HI Hk]. split; [done|]. intros o. by apply IH.
  - destruct Hwp as [HI Hk]. split; [done|]. by apply IH.
  - intros a. by apply IH.
Qed.

(** Awaiting a method: the caller is suspended in the state the method
    ends in. *)
Lemma wp_await_method {A} I (t : Task S A) (s : S) h Q :
  wp I (t s) h (fun c s' h' => I s' /\ Q c s' h') ->
  wp I (await_method t s) h Q.
Proof.
  unfold await_method. generalize (t s). clear t s. intros r. revert h.
  induction r as [c s|c s k IH|s k IH|q s k IH]; simpl; intros h Hwp.
  - done.
  - destruct Hwp as [HI Hk]. split; [done|]. intros o. by apply IH.
  - destruct Hwp as [HI Hk]. split; [done|]. by apply IH.
  - intros a. by apply IH.
Qed.

Lemma wp_run {R} I (r : Res S R) h Q (w : World) :
  wp I r h Q -> let '(c, s, h') := run w r h in Q c s h'.
Proof.
  revert h. induction r as [c s|c s k IH|s k IH|q s k IH]; simpl; intros h Hwp.
  - done.
  - destruct Hwp as [_ Hk]. apply IH, Hk.
  - destruct Hwp as [_ Hk]. apply IH, Hk.
  - apply IH, Hwp.
Qed.

Lemma wp_settles {R} I (r r' : Res S R) h Q :
  settles r r' -> wp I r h Q -> exists h', wp I r' h' Q.
Proof.
  intros Hs. revert h. induction Hs; intros h Hwp; eauto.
Qed.
End WP.

Section Loops.
Context {S : Type}.

(** A loop whose body neither throws nor changes the state, and only
    produces events of one kind. *)
Lemma wp_for_of {A B} (I : S -> Prop) (P : Event -> Prop) (l : list A)
    (body : A -> B -> Task S B) (s : S) :
  (forall x acc h (Q : Completion B -> S -> History -> Prop),
      (forall acc' hx, Forall P hx -> Q (Normal acc') s (h ++ hx)) ->
      wp I (body x acc s) h Q) ->
  forall acc h (Q : Completion B -> S -> History -> Prop),
    (forall acc' hx, Forall P hx -> Q (Normal acc') s (h ++ hx)) ->
    wp I (for_of l acc body s) h Q.
Proof.
  intros Hbody. induction l as [|x l IH]; intros acc h Q HQ; simpl.
  - specialize (HQ acc [] (Forall_nil_2 _)). by rewrite app_nil_r in HQ.
  - unfold bind. apply wp_bind. apply Hbody. intros acc' hx Hhx.
    apply IH. intros acc'' hy Hhy. rewrite <- (assoc_L (++)).
    apply HQ. by apply Forall_app.
Qed.
End Loops.

Lemma wp_analyzeMarketConditions {S} (I : S -> Prop) (s : S) h Q :
  I s ->
  (forall md hm, market_events hm -> Q (Normal md) s (h ++ hm)) ->
  wp I (AIAgent.analyzeMarketConditions s) h Q.
Proof.
  intros HI HQ. unfold AIAgent.analyzeMarketConditions, try_catch.
  apply wp_catch.
  apply (wp_for_of I (fun ev => market_event ev = true)); [|by intros; apply HQ].
  intros chain acc h1 Q1 HQ1.
  apply (wp_for_of I (fun ev => market_event ev = true)); [|done].
  intros asset acc2 h2 Q2 HQ2. unfold_task. simpl. split; [done|].
  intros [td|e]; simpl.
  - split; [done|]. intros [lr|e]; simpl.
    + rewrite <- (assoc_L (++)). apply HQ2. by repeat constructor.
    + rewrite <- (assoc_L (++)). apply HQ2. by repeat constructor.
  - apply HQ2. by repeat constructor.
Qed.

Lemma wp_getCurrentPortfolio config (I : Engine -> Prop) (s : Engine) h Q :
  I s ->
  (forall hp c, portfolio_spec config hp c -> Q c s (h ++ hp)) ->
  wp I (DecisionEngine.getCurrentPortfolio config s) h Q.
Proof.
  intros HI HQ. unfold DecisionEngine.getCurrentPortfolio, try_catch.
  apply wp_catch. fold (vault_of config).
  destruct (JS.truthy (vault_of config)) eqn:Hv; simpl.
  - unfold_task. simpl. split; [done|]. intros [vi|e]; simpl.
    + apply wp_bind.
      apply (wp_for_of I (fun ev => balance_event ev = true)).
      * intros tok acc h1 Q1 HQ1. simpl. split; [done|].
        intros [b|e]; simpl; apply HQ1; by repeat constructor.
      * intros tb hb Hhb. simpl. rewrite <- (assoc_L (++)). apply HQ.
        by constructor.
    + apply HQ. by constructor.
  - unfold throw. simpl. specialize (HQ [] _ (pf_unconfigured config Hv)).
    by rewrite app_nil_r in HQ.
Qed.

Lemma wp_executeDecision config (I : Engine -> Prop) d md (s : Engine) h Q :
  I s ->
  (forall he r, execute_spec config d he r -> Q (Normal r) s (h ++ he)) ->
  wp I (DecisionEngine.executeDecision config d md s) h Q.
Proof.
  intros HI HQ. unfold DecisionEngine.executeDecision, DecisionEngine.generateDecisionId.
  unfold_task. simpl. intros t1 sfx t2.
  rewrite <- !(assoc_L (++)). simpl.
  fold (executor_of config). fold (id_of t1 sfx).
  destruct (JS.str_is (action d) "hold") eqn:Hh; simpl.
  - apply HQ. by constructor.
  - destruct (JS.truthy (executor_of config)) eqn:He; simpl.
    + split; [done|]. intros [tx|e]; simpl.
      * rewrite <- (assoc_L (++)). apply HQ. by constructor.
      * rewrite <- (assoc_L (++)). apply (HQ _ _ (ex_rejected config d t1 sfx t2 _ _ _ e Hh He)).
    + apply HQ. by constructor.
Qed.

Lemma history_push (e : Engine) x :
  wf e ->
  default [] (alter (fun l => l ++ [x]) (decisionHistory e) (arrays e)
                !! decisionHistory e) = history e ++ [x].
Proof.
  unfold wf, history, deref. intros Hwf.
  rewrite list_lookup_alter_eq.
  destruct (lookup_lt_is_Some_2 _ _ Hwf) as [l ->]. done.
Qed.

Lemma recordDecision_spec d md r (s : Engine) :
  exists s',
    DecisionEngine.recordDecision d md r s = Fin (Normal tt) s'
    /\ isExecuting s' = isExecuting s
    /\ (wf s -> wf s' /\ history s' = appended (history s) (record_of d md r)).
Proof.
  unfold DecisionEngine.recordDecision.
  unfold DecisionEngine.Array_push, DecisionEngine.Array_length,
    DecisionEngine.Array_slice, DecisionEngine.set_decisionHistory.
  unfold_task. simpl. fold (record_of d md r).
  match goal with
  | |- context [(1000 <? ?n)%nat] => destruct (1000 <? n)%nat eqn:Hlen
  end; simpl; (eexists; split; [reflexivity|]; split; [done|]); intros Hwf;
    revert Hlen; unfold deref at 1; simpl; rewrite (history_push s _ Hwf);
    intros Hlen; unfold appended; rewrite Hlen; unfold wf, history, deref; simpl.
  - rewrite length_app, length_alter. simpl. split; [lia|].
    rewrite lookup_app_r by (rewrite length_alter; lia).
    rewrite length_alter, Nat.sub_diag. simpl.
    f_equal. apply (history_push s _ Hwf).
  - rewrite length_alter. split; [done|].
    apply (history_push s _ Hwf).
Qed.

Lemma engine_eta (e : Engine) :
  isExecuting e = false ->
  {| arrays := arrays e; decisionHistory := decisionHistory e;
     isExecuting := false |} = e.
Proof. destruct e; simpl; intros ->; done. Qed.

Lemma wp_generateRebalanceDecision {S} (I : S -> Prop) pf md cs (s : S) h Q :
  I s ->
  (forall o,
      Q match o with
        | Throw err => Throw err
        | Normal None => Normal None
        | Normal (Some d) =>
            Normal (if AIAgent.validateRebalanceDecision d then Some d else None)
        end s (h ++ [Called (CreateCompletion pf md cs) o])) ->
  wp I (AIAgent.generateRebalanceDecision pf md cs s) h Q.
Proof.
  intros HI HQ. unfold AIAgent.generateRebalanceDecision. unfold_task. simpl.
  split; [done|]. intros [[d|]|err]; simpl; try apply (HQ (Normal None));
    try apply (HQ (Throw err)).
  specialize (HQ (Normal (Some d))). simpl in HQ.
  by destruct (AIAgent.validateRebalanceDecision d).
Qed.

#[local] Arguments DecisionEngine.executeDecision : simpl never.
#[local] Arguments DecisionEngine.recordDecision : simpl never.
#[local] Arguments AIAgent.generateRebalanceDecision : simpl never.

Lemma wp_evaluateAndExecute config (e : Engine) h :
  isExecuting e = false ->
  wp in_flight (DecisionEngine.evaluateAndExecute config e) h
     (fun c e' h' => exists hn, h' = h ++ hn /\ cycle_spec config e hn c e').
Proof.
  intros Hflag. unfold DecisionEngine.evaluateAndExecute.
  unfold mbind at 1, Task_bind at 1, bind at 1, get at 1. cbn [bind_res].
  rewrite Hflag.
  unfold mbind at 1, Task_bind at 1, bind at 1, DecisionEngine.set_isExecuting at 1,
    modify at 1. cbn [bind_res].
  set (e1 := {| arrays := arrays e; decisionHistory := decisionHistory e;
                isExecuting := true |}).
  assert (He1 : in_flight e1) by done.
  assert (Hback : forall c hn,
             cycle_spec config e hn c e ->
             wp in_flight (DecisionEngine.set_isExecuting false e1) (h ++ hn)
               (fun c' s' h'' =>
                  match c' with
                  | Normal _ => exists hn, h'' = h ++ hn /\ cycle_spec config e hn c s'
                  | Throw e0 => exists hn, h'' = h ++ hn /\ cycle_spec config e hn (Throw e0) s'
                  end)).
  { intros c hn Hc. simpl. rewrite (engine_eta e Hflag). eauto. }
  unfold try_finally. apply wp_finally.
  unfold try_catch. apply wp_catch.
  unfold mbind at 1, Task_bind at 1, bind at 1. apply wp_bind.
  apply wp_await_method.
  apply wp_analyzeMarketConditions; [done|]. intros md hm Hhm. split; [done|].
  unfold mbind at 1, Task_bind at 1, bind at 1. apply wp_bind.
  apply wp_await_method.
  apply wp_getCurrentPortfolio; [done|]. intros hp [pf|err] Hpf; (split; [done|]).
  2:{ simpl. rewrite <- (assoc_L (++)). apply Hback. by constructor. }
  unfold mbind at 1, Task_bind at 1, bind at 1. apply wp_bind.
  apply wp_await_method.
  apply wp_generateRebalanceDecision; [done|].
  intros [[d|]|err]; (split; [done|]); cbn beta iota.
  - destruct (AIAgent.validateRebalanceDecision d) eqn:Hv1; cbn beta iota.
    + destruct (DecisionEngine.validateDecision d) eqn:Hv2; cbn [negb].
      * unfold mbind at 1, Task_bind at 1, bind at 1. apply wp_bind.
        apply wp_await_method.
        apply wp_executeDecision; [done|]. intros he r Hex. split; [done|].
        unfold mbind at 1, Task_bind at 1, bind at 1. apply wp_bind.
        destruct (recordDecision_spec d md r e1)
          as (e2 & -> & Hfl2 & Hh2). simpl.
        exists (hm ++ hp ++ [Called (CreateCompletion pf md (DecisionEngine.getConstraints config)) (Normal (Some d))] ++ he).
        split; [by rewrite <- !(assoc_L (++))|].
        eapply cy_executed; eauto.
      * simpl. rewrite <- !(assoc_L (++)). apply Hback. eapply cy_validator_rejects; eauto.
    + simpl. rewrite <- !(assoc_L (++)). apply Hback. eapply cy_adapter_rejects; eauto.
  - simpl. rewrite <- !(assoc_L (++)). apply Hback. eapply cy_no_decision; eauto.
  - simpl. rewrite <- !(assoc_L (++)). apply Hback. eapply cy_oracle_error; eauto.
Qed.

(** * The cycle, run against an environment *)

Lemma cycle_run config e w c e' h' :
  isExecuting e = false ->
  run w (DecisionEngine.evaluateAndExecute config e) [] = (c, e', h') ->
  cycle_spec config e h' c e'.
Proof.
  intros Hflag Hrun.
  pose proof (wp_run in_flight _ [] _ w (wp_evaluateAndExecute config e [] Hflag)) as H.
  rewrite Hrun in H. destruct H as (hn & -> & H). done.
Qed.

Lemma cycle_spec_flag config e hn c e' :
  isExecuting e = false ->
  cycle_spec config e hn c e' -> isExecuting e' = false.
Proof. intros Hflag H. destruct H; auto. Qed.

Lemma wf_new : wf DecisionEngine.new.
Proof. unfold wf. simpl. lia. Qed.

Lemma cycle_spec_wf config e hn c e' :
  wf e -> cycle_spec config e hn c e' -> wf e'.
Proof. intros Hwf H. destruct H; auto. tauto. Qed.

Lemma guard_skips config e :
  isExecuting e = true ->
  DecisionEngine.evaluateAndExecute config e = Fin (Normal None) e.
Proof.
  intros H. unfold DecisionEngine.evaluateAndExecute.
  unfold mbind at 1, Task_bind at 1, bind at 1, get at 1. cbn [bind_res].
  by rewrite H.
Qed.

(** * Interleaved invocations *)

Lemma wp_history_irrelevant {S R} (I : S -> Prop) (r : Res S R)
    (P : Completion R -> S -> Prop) h h' :
  wp I r h (fun c s _ => P c s) -> wp I r h' (fun c s _ => P c s).
Proof.
  revert h h'. induction r as [c s|c s k IH|s k IH|q s k IH]; simpl;
    intros h h' H.
  - done.
  - destruct H as [HI Hk]. split; [done|]. intros o. eapply IH, Hk.
  - destruct H as [HI Hk]. split; [done|]. eapply IH, Hk.
  - intros a. eapply IH, H.
Qed.

Lemma owned_settles (r r' : Cycle) : settles r r' -> owned r -> owned r'.
Proof.
  unfold owned. induction 1 as [| | |q s k a r Hs IH]; intros Hwp; try done.
  apply IH. simpl in Hwp. eapply wp_history_irrelevant, Hwp.
Qed.

Lemma owned_cycle config e :
  isExecuting e = false ->
  owned (DecisionEngine.evaluateAndExecute config e).
Proof.
  intros Hflag. unfold owned.
  eapply wp_mono; [apply (wp_evaluateAndExecute config e [] Hflag)|].
  intros c s h' (hn & _ & H). eapply cycle_spec_flag; eauto.
Qed.

Lemma settles_result (r0 r : Cycle) :
  settles r0 r -> (exists c s, r = Fin c s) \/ suspended r = true.
Proof. induction 1; eauto. Qed.

Lemma owned_suspended (r : Cycle) :
  owned r -> suspended r = true -> isExecuting (state_of r) = true.
Proof. unfold owned. destruct r; simpl; try done; by intros [? _]. Qed.

Lemma park_inv (r0 r : Cycle) :
  settles r0 r -> owned r -> pool_inv (park [] r).
Proof.
  intros Hs Ho. unfold park.
  destruct (settles_result _ _ Hs) as [(c & s & ->)|Hsusp].
  - left. simpl. by split.
  - right. rewrite Hsusp. simpl. exists r.
    repeat split; auto using owned_suspended.
Qed.

Lemma pool_inv_step config p p' :
  pool_inv p -> pool_step config p p' -> pool_inv p'.
Proof.
  intros [(Hnil & Hflag)|(r0 & Hp & Hsusp & Hst & Hfl & Ho)] Hstep.
  - destruct Hstep as [p r Hs|p i c s k o r Hi Hs|p i s k r Hi Hs].
    + rewrite Hnil. eapply park_inv; eauto.
      eapply owned_settles; eauto using owned_cycle.
    + by rewrite Hnil in Hi.
    + by rewrite Hnil in Hi.
  - destruct Hstep as [p r Hs|p i c s k o r Hi Hs|p i s k r Hi Hs].
    + rewrite (guard_skips config _ Hfl) in Hs. inversion Hs; subst.
      right. unfold park. simpl. exists r0. by rewrite Hp.
    + rewrite Hp in Hi. destruct i as [|i]; simpl in Hi; [|done].
      injection Hi as ->. rewrite Hp. simpl in *. subst s.
      eapply park_inv; [exact Hs|].
      eapply owned_settles; [exact Hs|].
      unfold owned in *. simpl in Ho. destruct Ho as [_ Ho].
      eapply wp_history_irrelevant, Ho.
    + rewrite Hp in Hi. destruct i as [|i]; simpl in Hi; [|done].
      injection Hi as ->. rewrite Hp. simpl in *. subst s.
      eapply park_inv; [exact Hs|].
      eapply owned_settles; [exact Hs|].
      unfold owned in *. simpl in Ho. by destruct Ho as [_ Ho].
Qed.

Lemma pool_inv_reachable config p : reachable config p -> pool_inv p.
Proof.
  induction 1 as [|p p' _ IH Hstep].
  - left. simpl. by split.
  - eapply pool_inv_step; eauto.
Qed.

Lemma pool_skip config p r :
  pool_inv p -> pending p <> [] ->
  settles (DecisionEngine.evaluateAndExecute config (shared p)) r ->
  r = Fin (Normal None) (shared p).
Proof.
  intros [(Hnil & _)|(r0 & Hp & Hsusp & Hst & Hfl & Ho)] Hne Hs; [done|].
  rewrite (guard_skips config _ Hfl) in Hs. by inversion Hs.
Qed.

(** * What the history of a cycle contains *)

Lemma omap_none {A} (f : Event -> option A) (P : Event -> Prop) h :
  (forall ev, P ev -> f ev = None) -> Forall P h -> omap f h = [].
Proof.
  intros Hf. induction 1 as [|ev h Hev _ IH]; [done|].
  simpl. by rewrite (Hf _ Hev).
Qed.

Lemma market_no_submission hm : market_events hm -> omap submission hm = [].
Proof.
  apply omap_none. intros [[]|] H; simpl in *; done.
Qed.

Lemma market_no_oracle hm : market_events hm -> omap oracle_answer hm = [].
Proof.
  apply omap_none. intros [[]|] H; simpl in *; done.
Qed.

Lemma balance_no_submission hb :
  Forall (fun ev => balance_event ev = true) hb -> omap submission hb = [].
Proof.
  apply omap_none. intros [[]|] H; simpl in *; done.
Qed.

Lemma balance_no_oracle hb :
  Forall (fun ev => balance_event ev = true) hb -> omap oracle_answer hb = [].
Proof.
  apply omap_none. intros [[]|] H; simpl in *; done.
Qed.

Lemma portfolio_no_submission config hp c :
  portfolio_spec config hp c -> omap submission hp = [].
Proof. destruct 1; simpl; auto using balance_no_submission. Qed.

Lemma portfolio_no_oracle config hp c :
  portfolio_spec config hp c -> omap oracle_answer hp = [].
Proof. destruct 1; simpl; auto using balance_no_oracle. Qed.

Lemma execute_no_oracle config d he r :
  execute_spec config d he r -> omap oracle_answer he = [].
Proof. by destruct 1. Qed.

(** The oracle's answer and the submission's outcome, read off a
    completed cycle. *)
Lemma cycle_answers config e hn c e' :
  cycle_spec config e hn c e' ->
  match omap oracle_answer hn with
  | [] => exists err, c = Throw err /\ e' = e /\ omap submission hn = []
  | [Throw err] => c = Throw err /\ e' = e /\ omap submission hn = []
  | [Normal None] => c = Normal None /\ e' = e /\ omap submission hn = []
  | [Normal (Some d)] =>
      if AIAgent.validateRebalanceDecision d && DecisionEngine.validateDecision d
      then exists he r md,
          execute_spec config d he r /\ omap submission hn = omap submission he
          /\ c = Normal (Some r) /\ isExecuting e' = false
          /\ (wf e -> wf e'
                      /\ history e' = appended (history e) (record_of d md r))
      else c = Normal None /\ e' = e /\ omap submission hn = []
  | _ => False
  end.
Proof.
  destruct 1 as [hm hp err Hm Hp|hm hp pf p m c err Hm Hp|hm hp pf p m c Hm Hp
                |hm hp pf p m c d Hm Hp Hv|hm hp pf p m c d Hm Hp Hv1 Hv2
                |hm hp pf p m c d he r e' Hm Hp Hv1 Hv2 Hex Hfl Hh];
    rewrite ?omap_app, ?(market_no_oracle _ Hm), ?(portfolio_no_oracle _ _ _ Hp),
      ?(market_no_submission _ Hm), ?(portfolio_no_submission _ _ _ Hp); simpl;
    rewrite ?Hv, ?Hv1, ?Hv2; simpl; eauto.
  rewrite (execute_no_oracle _ _ _ _ Hex). simpl. eauto 10.
Qed.

Lemma cycle_vault_error config e hn c e' err :
  cycle_spec config e hn c e' ->
  Throw err ∈ omap vault_answer hn -> c = Throw err /\ e' = e.
Proof.
  assert (Hm : forall hm, market_events hm -> omap vault_answer hm = []).
  { intros hm. apply omap_none. intros [[]|] H; simpl in *; done. }
  assert (Hb : forall hb, Forall (fun ev => balance_event ev = true) hb ->
                          omap vault_answer hb = []).
  { intros hb. apply omap_none. intros [[]|] H; simpl in *; done. }
  assert (Hp : forall hp x, portfolio_spec config hp x ->
             Throw err ∈ omap vault_answer hp -> x = Throw err).
  { intros hp x []; simpl; rewrite ?Hb by done;
      intros Hin; apply list_elem_of_singleton in Hin || inversion Hin; congruence. }
  assert (Hx : forall d he r, execute_spec config d he r -> omap vault_answer he = []).
  { by destruct 1. }
  destruct 1; rewrite ?omap_app, ?Hm by done; simpl;
    rewrite ?(Hx _ _ _ ltac:(eassumption)), ?app_nil_r; intros Hin;
    match goal with
    | H : portfolio_spec _ _ _ |- _ => pose proof (Hp _ _ H Hin) as Heq
    end; try done.
  by injection Heq as ->.
Qed.

Lemma slice_last {A} (n : nat) (l : list A) :
  (0 < n)%nat -> JS.slice (- Z.of_nat n) l = drop (length l - n) l.
Proof.
  intros Hn. unfold JS.slice.
  destruct (Z.ltb_spec (- Z.of_nat n) 0); [|lia]. f_equal. lia.
Qed.

Lemma slice_zero {A} (l : list A) : JS.slice 0 l = l.
Proof. unfold JS.slice. simpl. by rewrite Z.min_l by lia. Qed.

Lemma appended_eq l record :
  appended l record = drop (length l + 1 - 1000) (l ++ [record]).
Proof.
  unfold appended. rewrite length_app. simpl.
  destruct (Nat.ltb_spec 1000 (length l + 1)) as [H|H].
  - change (-1000) with (- Z.of_nat 1000). rewrite slice_last by lia.
    by rewrite length_app.
  - replace (length l + 1 - 1000)%nat with 0%nat by lia. done.
Qed.

Lemma length_appended l record :
  length (appended l record) = Nat.min (length l + 1) 1000.
Proof. rewrite appended_eq, length_drop, length_app. simpl. lia. Qed.

Lemma last_appended l record : last (appended l record) = Some record.
Proof.
  rewrite appended_eq, drop_app_le by lia. apply last_snoc.
Qed.

(** * The claims about the cycle *)

(** C1. Single-flight guard.  Invoked while the in-flight flag is set,
    [evaluateAndExecute] ends at once with [null]: it makes no call, asks
    nothing and leaves the engine as it is.  Invoked while the flag is
    clear, it ends in every environment, with the flag clear again whether it
    returns a result, returns [null] or throws, and the flag is set at every
    suspension in between.  Hence, however invocations are interleaved on
    one engine, at most one is suspended, and an invocation made meanwhile
    returns [null] without a call. *)
Theorem C1_single_flight_guard (config : DecisionEngineConfig) :
  (forall e w h, isExecuting e = true ->
     DecisionEngine.evaluateAndExecute config e = Fin (Normal None) e
     /\ run w (DecisionEngine.evaluateAndExecute config e) h = (Normal None, e, h))
  /\ (forall e w c e' h', isExecuting e = false ->
        run w (DecisionEngine.evaluateAndExecute config e) [] = (c, e', h') ->
        isExecuting e' = false)
  /\ (forall e, isExecuting e = false ->
        wp in_flight (DecisionEngine.evaluateAndExecute config e) []
           (fun _ e' _ => isExecuting e' = false))
  /\ (forall p, reachable config p ->
        (length (pending p) <= 1)%nat
        /\ (isExecuting (shared p) = true <-> pending p <> [])
        /\ forall r, pending p <> [] ->
             settles (DecisionEngine.evaluateAndExecute config (shared p)) r ->
             r = Fin (Normal None) (shared p)).
Proof.
  split; [|split; [|split]].
  - intros e w h He. by rewrite (guard_skips config e He).
  - intros e w c e' h' He Hrun.
    eapply cycle_spec_flag; eauto using cycle_run.
  - intros e He. eapply wp_history_irrelevant, (owned_cycle config e He).
  - intros p Hp. pose proof (pool_inv_reachable config p Hp) as Hinv.
    split; [|split].
    + destruct Hinv as [(-> & _)|(r0 & -> & _)]; simpl; lia.
    + destruct Hinv as [(-> & ->)|(r0 & -> & _ & _ & -> & _)]; done.
    + intros r Hne Hs. eapply pool_skip; eauto.
Qed.

Lemma C1_single_flight_guard_witness :
  isExecuting (Sample.busy 2) = true
  /\ DecisionEngine.evaluateAndExecute Sample.config (Sample.busy 2)
     = Fin (Normal None) (Sample.busy 2).
Proof.
  split; [reflexivity|].
  apply (proj1 (C1_single_flight_guard Sample.config) (Sample.busy 2)
           (Sample.world (Normal None) (Throw NonError) Sample.calm) []).
  reflexivity.
Defined.

(** C2, as amended.  When the submission of a cycle throws [err], the cycle
    does not throw: it returns a failed result whose error is the message of
    [err] (['Unknown error'] when [err] is not an [Error]), so a non-empty
    error unless [err] is an [Error] with an empty message, and it appends
    one record holding that result, as the newest of the ledger.
    [stats().total] grows by one while the ledger holds fewer than 1000
    records and stays at 1000 once it is full, the oldest record making
    room. *)
Theorem C2_failed_submission_recorded (config : DecisionEngineConfig)
    (e : Engine) (w : World) c e' h' (err : Thrown) :
  wf e -> isExecuting e = false ->
  run w (DecisionEngine.evaluateAndExecute config e) [] = (c, e', h') ->
  Throw err ∈ omap submission h' ->
  exists r d md,
    c = Normal (Some r)
    /\ success r = false
    /\ error r = Some (message_of err)
    /\ (err <> ErrorObj "" -> error r <> Some "")
    /\ transactionHash r = None
    /\ history e' = appended (history e) (record_of d md r)
    /\ last (history e') = Some (record_of d md r)
    /\ dr_executionResult (record_of d md r) = Some r
    /\ totalDecisions (DecisionEngine.getStats e')
       = Nat.min (totalDecisions (DecisionEngine.getStats e) + 1) 1000.
Proof.
  intros Hwf Hflag Hrun Hin.
  pose proof (cycle_answers _ _ _ _ _ (cycle_run _ _ _ _ _ _ Hflag Hrun)) as H.
  destruct (omap oracle_answer h') as [|[[d|]|err'] [|]]; try done;
    try (destruct H as (? & ? & ? & Hs) || destruct H as (? & ? & Hs);
         rewrite Hs in Hin; by inversion Hin).
  destruct (AIAgent.validateRebalanceDecision d && DecisionEngine.validateDecision d);
    [|destruct H as (? & ? & Hs); rewrite Hs in Hin; by inversion Hin].
  destruct H as (he & r & md & Hex & Hs & -> & Hfl' & Hh).
  destruct (Hh Hwf) as [Hwf' Hh'']. clear Hh. rename Hh'' into Hh.
  rewrite Hs in Hin.
  destruct Hex; simpl in Hin; try (by inversion Hin);
    apply list_elem_of_singleton in Hin; [|done]. injection Hin as <-.
  eexists _, d, md. repeat split; try done.
  - simpl. destruct err as [[|]|]; simpl; congruence.
  - rewrite Hh. apply last_appended.
  - unfold DecisionEngine.getStats. simpl. rewrite Hh. apply length_appended.
Qed.

Lemma C2_failed_submission_recorded_witness :
  let w := Sample.world
             (Normal (Some (Sample.decision "rebalance" (Some "500") 0.9%float)))
             (Throw (ErrorObj "nonce too low")) Sample.calm in
  let res := run w (DecisionEngine.evaluateAndExecute Sample.config
                      (Sample.engine 3)) [] in
  exists r,
    res.1.1 = Normal (Some r) /\ success r = false
    /\ error r = Some "nonce too low"
    /\ totalDecisions (DecisionEngine.getStats res.1.2) = 4%nat.
Proof.
  intros w res.
  assert (Hwf : wf (Sample.engine 3)) by (unfold wf; simpl; lia).
  assert (Hrun : res = (res.1.1, res.1.2, res.2)) by (by destruct res as [[??]?]).
  assert (Hin : Throw (ErrorObj "nonce too low") ∈ omap submission res.2)
    by (vm_compute; left).
  destruct (C2_failed_submission_recorded Sample.config (Sample.engine 3) w
              _ _ _ _ Hwf eq_refl Hrun Hin)
    as (r & d & md & Hc & Hs & He & _ & _ & _ & _ & _ & Ht).
  exists r. repeat split; assumption.
Defined.

(** C2, as stated, fails.  With a ledger of 1000 records a cycle whose
    submission throws leaves [stats().total] at 1000 instead of adding one;
    and when the thrown [Error] has an empty message, the recorded error
    string is empty. *)
Lemma C2_counterexample :
  let decision := Sample.decision "rebalance" (Some "500") 0.9%float in
  (let w := Sample.world (Normal (Some decision))
              (Throw (ErrorObj "nonce too low")) Sample.calm in
   let '(c, e', h') :=
     run w (DecisionEngine.evaluateAndExecute Sample.config
              (Sample.engine 1000)) [] in
   omap submission h' = [Throw (ErrorObj "nonce too low")]
   /\ totalDecisions (DecisionEngine.getStats (Sample.engine 1000)) = 1000%nat
   /\ totalDecisions (DecisionEngine.getStats e') = 1000%nat)
  /\ (let w := Sample.world (Normal (Some decision))
                 (Throw (ErrorObj "")) Sample.calm in
      let '(c, e', h') :=
        run w (DecisionEngine.evaluateAndExecute Sample.config
                 (Sample.engine 0)) [] in
      omap submission h' = [Throw (ErrorObj "")]
      /\ (error <$> (last (history e') ≫= dr_executionResult)) = Some (Some "")).
Proof. vm_compute. repeat split. Qed.

Lemma nothing_recorded_intro e h' :
  omap submission h' = [] -> nothing_recorded e e h'.
Proof. by repeat split. Qed.

Lemma cycle_unconfigured config e hn c e' :
  cycle_spec config e hn c e' ->
  JS.truthy (vault_of config) = false ->
  c = Throw (ErrorObj "Vault address not configured")
  /\ e' = e /\ omap submission hn = [].
Proof.
  intros Hspec Hv.
  destruct Hspec as [hm hp err Hm Hp|? ? ? ? ? ? ? ? Hp|? ? ? ? ? ? ? Hp
                    |? ? ? ? ? ? ? ? Hp|? ? ? ? ? ? ? ? Hp|? ? ? ? ? ? ? ? ? ? ? Hp];
    inversion Hp; subst; try congruence.
  rewrite app_nil_r. auto using market_no_submission.
Qed.

(** C3.  A cycle that ends before the submission leaves the engine as it
    was, so that no record is created, [stats().total] is unchanged and the
    in-flight flag is clear again.  This is so when the oracle gives no
    decision and when one of the two validators rejects the decision, where
    the cycle returns [null], and whenever the cycle throws.  A failed vault
    read, a failed oracle call and a missing vault address make the cycle
    throw that very error. *)
Theorem C3_no_record_before_submission (config : DecisionEngineConfig)
    (e : Engine) (w : World) c e' h' :
  isExecuting e = false ->
  run w (DecisionEngine.evaluateAndExecute config e) [] = (c, e', h') ->
  isExecuting e' = false
  /\ (omap oracle_answer h' = [Normal None] ->
      c = Normal None /\ nothing_recorded e e' h')
  /\ (forall d, omap oracle_answer h' = [Normal (Some d)] ->
        AIAgent.validateRebalanceDecision d && DecisionEngine.validateDecision d
          = false ->
        c = Normal None /\ nothing_recorded e e' h')
  /\ (forall err, c = Throw err -> nothing_recorded e e' h')
  /\ (forall err, Throw err ∈ omap vault_answer h' \/
                  Throw err ∈ omap oracle_answer h' ->
        c = Throw err /\ nothing_recorded e e' h')
  /\ (JS.truthy (vault_of config) = false ->
      c = Throw (ErrorObj "Vault address not configured")
      /\ nothing_recorded e e' h').
Proof.
  intros Hflag Hrun.
  pose proof (cycle_run _ _ _ _ _ _ Hflag Hrun) as Hspec.
  pose proof (cycle_answers _ _ _ _ _ Hspec) as H.
  assert (Hthrow : forall err, c = Throw err -> nothing_recorded e e' h').
  { intros err ->.
    destruct (omap oracle_answer h') as [|[[d|]|err'] [|]]; try done.
    - destruct H as (? & _ & -> & Hs). by apply nothing_recorded_intro.
    - destruct (_ && _).
      + by destruct H as (? & ? & ? & _ & _ & ? & _).
      + destruct H as (_ & -> & Hs). by apply nothing_recorded_intro.
    - destruct H as (? & _). done.
    - destruct H as (_ & -> & Hs). by apply nothing_recorded_intro. }
  split; [eapply cycle_spec_flag; eauto|].
  split; [|split; [|split; [|split]]].
  - intros Ho. rewrite Ho in H. destruct H as (-> & -> & Hs).
    split; [done|]. by apply nothing_recorded_intro.
  - intros d Ho Hv. rewrite Ho, Hv in H. destruct H as (-> & -> & Hs).
    split; [done|]. by apply nothing_recorded_intro.
  - exact Hthrow.
  - intros err [Hv|Ho].
    + destruct (cycle_vault_error _ _ _ _ _ _ Hspec Hv) as [-> _]. eauto.
    + assert (c = Throw err) as ->; [|eauto].
      destruct (omap oracle_answer h') as [|[[d|]|err'] [|]]; try done;
        try (by inversion Ho); apply list_elem_of_singleton in Ho; try done.
      injection Ho as ->. tauto.
  - intros Hv. destruct (cycle_unconfigured _ _ _ _ _ Hspec Hv) as (-> & -> & Hs).
    split; [done|]. by apply nothing_recorded_intro.
Qed.

Lemma C3_no_record_before_submission_witness :
  let w := Sample.world
             (Normal (Some (Sample.decision "rebalance" (Some "500") 0.5%float)))
             (Normal (Sample.receipt true)) Sample.calm in
  let res := run w (DecisionEngine.evaluateAndExecute Sample.config
                      (Sample.engine 3)) [] in
  res.1.1 = Normal None /\ nothing_recorded (Sample.engine 3) res.1.2 res.2.
Proof.
  intros w res.
  assert (Hrun : res = (res.1.1, res.1.2, res.2)) by (by destruct res as [[??]?]).
  apply (proj1 (proj2 (proj2
           (C3_no_record_before_submission Sample.config (Sample.engine 3) w
              _ _ _ eq_refl Hrun)))
           (Sample.decision "rebalance" (Some "500") 0.5%float)).
  - vm_compute. reflexivity.
  - vm_compute. reflexivity.
Defined.

(** C7, as amended.  Every result a cycle returns is recorded as the newest
    record of the ledger.  For the action ['hold'] it is a success with
    neither transaction hash nor error, and nothing is submitted.  For any
    other action exactly one of the two is populated: the transaction hash
    when the submission returned, the success flag then being the one of the
    transaction (which may be false); the error, with success false, when
    the submission threw or no executor address is configured.  So a
    successful result carries a hash and no error, and a result with an error
    is a failure without hash. *)
Theorem C7_result_shape (config : DecisionEngineConfig) (e : Engine)
    (w : World) r e' h' :
  wf e -> isExecuting e = false ->
  run w (DecisionEngine.evaluateAndExecute config e) [] = (Normal (Some r), e', h') ->
  exists d md,
    omap oracle_answer h' = [Normal (Some d)]
    /\ history e' = appended (history e) (record_of d md r)
    /\ last (history e') = Some (record_of d md r)
    /\ dr_executionResult (record_of d md r) = Some r
    /\ (if JS.str_is (action d) "hold"
        then success r = true /\ transactionHash r = None /\ error r = None
             /\ omap submission h' = []
        else
          match omap submission h' with
          | [Normal tx] =>
              success r = tx_success tx
              /\ transactionHash r = Some (tx_hash tx) /\ error r = None
          | [Throw err] =>
              success r = false
              /\ transactionHash r = None /\ error r = Some (message_of err)
          | [] =>
              JS.truthy (executor_of config) = false /\ success r = false
              /\ transactionHash r = None
              /\ error r = Some "Executor address not configured"
          | _ => False
          end
          /\ (is_Some (transactionHash r) <-> error r = None)
          /\ (success r = true -> is_Some (transactionHash r))
          /\ (is_Some (error r) -> success r = false)).
Proof.
  intros Hwf Hflag Hrun.
  pose proof (cycle_answers _ _ _ _ _ (cycle_run _ _ _ _ _ _ Hflag Hrun)) as H.
  destruct (omap oracle_answer h') as [|[[d|]|err'] [|]]; try done;
    try (by destruct H as (? & ?)); try (by destruct H as (? & ? & ?)).
  destruct (AIAgent.validateRebalanceDecision d && DecisionEngine.validateDecision d);
    [|by destruct H as (? & ?)].
  destruct H as (he & r' & md & Hex & Hs & Hc & Hfl' & Hh).
  destruct (Hh Hwf) as [Hwf' Hh'']. clear Hh. rename Hh'' into Hh.
  injection Hc as <-. exists d, md. rewrite Hs, Hh.
  split; [done|]. split; [done|]. split; [apply last_appended|]. split; [done|].
  destruct Hex as [t1 sfx t2 Hhold|t1 sfx t2 Hhold Hex|t1 sfx t2 a n p err Hhold Hex
                  |t1 sfx t2 a n p tx Hhold Hex]; rewrite Hhold; simpl.
  - done.
  - repeat split; try done; try (by intros [? ?]); by inversion 1.
  - repeat split; try done; try (by intros [? ?]); by inversion 1.
  - repeat split; try done; try (by intros [? ?]); eauto.
Qed.

Lemma C7_result_shape_witness :
  let w := Sample.world
             (Normal (Some (Sample.bare "hold" 0.9%float)))
             (Normal (Sample.receipt true)) Sample.calm in
  let res := run w (DecisionEngine.evaluateAndExecute Sample.config
                      (Sample.engine 3)) [] in
  let r := {| decisionId := "decision_1700000000000_k3j9x0q1z";
              success := true; transactionHash := None; error := None;
              gasUsed := None; timestamp := 1700000000000 |} in
  res.1.1 = Normal (Some r)
  /\ (last (history res.1.2) ≫= dr_executionResult) = Some r.
Proof.
  intros w res r.
  assert (Hwf : wf (Sample.engine 3)) by (unfold wf; simpl; lia).
  assert (Hc : res.1.1 = Normal (Some r)) by (vm_compute; reflexivity).
  assert (Hrun : res = (Normal (Some r), res.1.2, res.2)).
  { rewrite <- Hc. by destruct res as [[??]?]. }
  destruct (C7_result_shape Sample.config (Sample.engine 3) w _ _ _
              Hwf eq_refl Hrun) as (d & md & _ & _ & Hl & _).
  split; [exact Hc|]. rewrite Hl. reflexivity.
Defined.

(** C7, as stated, fails.  When the submission returns a transaction that
    did not succeed, the result is a failure that carries the transaction
    hash and no error string. *)
Lemma C7_counterexample :
  let w := Sample.world
             (Normal (Some (Sample.decision "rebalance" (Some "500") 0.9%float)))
             (Normal (Sample.receipt false)) Sample.calm in
  let '(c, e', h') :=
    run w (DecisionEngine.evaluateAndExecute Sample.config (Sample.engine 0)) [] in
  c = Normal (Some {| decisionId := "decision_1700000000000_k3j9x0q1z";
                      success := false;
                      transactionHash := Some "0xabc123";
                      error := None;
                      gasUsed := Some 21000%float;
                      timestamp := 1700000000000 |})
  /\ omap submission h' = [Normal (Sample.receipt false)].
Proof. vm_compute. split; reflexivity. Qed.

(** * The validators *)

Lemma truthy_amount_of_parse (a : option string) :
  JS.lt (JS.parseFloat (JS.ToString a)) 100%float = true -> JS.truthy a = true.
Proof.
  destruct a as [s|]; simpl.
  - destruct (String.eqb_spec s ""); [subst|done]. vm_compute. done.
  - vm_compute. done.
Qed.

Lemma small_amount_rejected (d : RebalanceDecision) :
  JS.lt (JS.parseFloat (JS.ToString (amount d))) 100%float = true ->
  DecisionEngine.validateDecision d = false.
Proof.
  intros H. unfold DecisionEngine.validateDecision.
  rewrite (truthy_amount_of_parse _ H), H. simpl.
  destruct (match confidence d with Some c => JS.lt c 0.7%float | None => false end);
    [done|].
  by destruct (negb _).
Qed.

(** C9.  The minimum amount applies to every action: a decision whose
    amount is a non-empty string that parses to a number below 100 is
    rejected by [validateDecision], whatever its action and confidence. *)
Theorem C9_minimum_amount_any_action (d : RebalanceDecision) (s : string) :
  amount d = Some s -> s <> "" ->
  JS.lt (JS.parseFloat s) 100%float = true ->
  DecisionEngine.validateDecision d = false.
Proof.
  intros Ha _ Hlt. apply small_amount_rejected. by rewrite Ha.
Qed.

Lemma C9_minimum_amount_any_action_witness :
  DecisionEngine.validateDecision (Sample.decision "hold" (Some "99.5") 0.95%float)
  = false.
Proof.
  apply (C9_minimum_amount_any_action _ "99.5").
  - reflexivity.
  - discriminate.
  - vm_compute. reflexivity.
Defined.

(** C4, as amended.  For a decision whose action is ['rebalance'] or
    ['bridge']: [validateDecision] returns false when the amount is a
    non-empty string that parses to a number below 100; a decision that
    lacks the source chain, the destination chain, the token or the amount
    is rejected by [validateRebalanceDecision], the validation of the oracle
    adapter, so that the oracle adapter yields no decision and the decision
    does not reach [validateDecision].  In both cases the two validations
    together reject the decision. *)
Theorem C4_rebalance_bridge_validation (d : RebalanceDecision) :
  JS.str_is (action d) "rebalance" || JS.str_is (action d) "bridge" = true ->
  (forall s, amount d = Some s -> s <> "" ->
             JS.lt (JS.parseFloat s) 100%float = true ->
             DecisionEngine.validateDecision d = false)
  /\ (JS.truthy (fromChain d) && JS.truthy (toChain d)
      && JS.truthy (token d) && JS.truthy (amount d) = false ->
      AIAgent.validateRebalanceDecision d = false)
  /\ ((exists s, amount d = Some s /\ s <> ""
                 /\ JS.lt (JS.parseFloat s) 100%float = true)
      \/ JS.truthy (fromChain d) && JS.truthy (toChain d)
         && JS.truthy (token d) && JS.truthy (amount d) = false ->
      AIAgent.validateRebalanceDecision d && DecisionEngine.validateDecision d
      = false).
Proof.
  intros Hact.
  assert (H1 : forall s, amount d = Some s -> s <> "" ->
             JS.lt (JS.parseFloat s) 100%float = true ->
             DecisionEngine.validateDecision d = false).
  { intros s Ha _ Hlt. apply small_amount_rejected. by rewrite Ha. }
  assert (H2 : JS.truthy (fromChain d) && JS.truthy (toChain d)
               && JS.truthy (token d) && JS.truthy (amount d) = false ->
               AIAgent.validateRebalanceDecision d = false).
  { intros Hmiss. unfold AIAgent.validateRebalanceDecision. rewrite Hact.
    destruct (negb (JS.truthy (action d)) || _ || _); [done|].
    destruct (match confidence d with Some c => _ | None => false end); [done|].
    destruct (JS.truthy (fromChain d)), (JS.truthy (toChain d)),
      (JS.truthy (token d)), (JS.truthy (amount d)); done. }
  split; [exact H1|]. split; [exact H2|].
  intros [(s & Ha & Hne & Hlt)|Hmiss].
  - rewrite (H1 s Ha Hne Hlt). apply andb_false_r.
  - by rewrite (H2 Hmiss).
Qed.

Lemma C4_rebalance_bridge_validation_witness :
  AIAgent.validateRebalanceDecision (Sample.bare "bridge" 0.9%float) = false
  /\ DecisionEngine.validateDecision
       (Sample.decision "rebalance" (Some "50") 0.9%float) = false.
Proof.
  split.
  - apply (proj1 (proj2 (C4_rebalance_bridge_validation
                           (Sample.bare "bridge" 0.9%float) eq_refl))).
    reflexivity.
  - apply (proj1 (C4_rebalance_bridge_validation
                    (Sample.decision "rebalance" (Some "50") 0.9%float) eq_refl)
             "50"); [reflexivity|discriminate|vm_compute; reflexivity].
Defined.

(** C4, as stated, fails: [validateDecision] accepts a ['rebalance']
    decision that names neither chains, token nor amount. *)
Lemma C4_counterexample :
  DecisionEngine.validateDecision (Sample.bare "rebalance" 0.9%float) = true
  /\ DecisionEngine.validateDecision (Sample.bare "bridge" 0.9%float) = true.
Proof. split; vm_compute; reflexivity. Qed.

(** * The ledger *)

Lemma getDecisionHistory_spec (limit : option Z) (e : Engine) :
  wf e ->
  exists e',
    DecisionEngine.getDecisionHistory limit e
    = Fin (Normal (length (arrays e))) e'
    /\ deref e' (length (arrays e))
       = reverse (JS.slice (- default 50 limit) (history e))
    /\ length (arrays e) <> decisionHistory e
    /\ decisionHistory e' = decisionHistory e
    /\ isExecuting e' = isExecuting e
    /\ (forall a, (a < length (arrays e))%nat -> deref e' a = deref e a)
    /\ history e' = history e /\ wf e'.
Proof.
  intros Hwf. unfold DecisionEngine.getDecisionHistory,
    DecisionEngine.Array_slice, DecisionEngine.Array_reverse.
  unfold_task. simpl. eexists. split; [reflexivity|].
  assert (Hold : forall a, (a < length (arrays e))%nat ->
            default [] (alter reverse (length (arrays e))
                          (arrays e ++ [JS.slice (- default 50 limit)
                                          (deref e (decisionHistory e))]) !! a)
            = deref e a).
  { intros a Ha. unfold deref.
    rewrite list_lookup_alter_ne by lia. by rewrite lookup_app_l by lia. }
  unfold wf in *. unfold deref at 1, history at 3. simpl.
  repeat split; try done.
  - rewrite list_lookup_alter_eq, lookup_app_r by lia.
    by rewrite Nat.sub_diag.
  - lia.
  - unfold history, deref at 1. simpl. by apply Hold.
  - unfold wf. simpl. rewrite length_alter, length_app. simpl. lia.
Qed.

(** [recent(n)] for [1 <= n]: the [n] newest records, newest first (all
    of them when the ledger holds fewer), in a new array: the stored
    history is not touched. *)
Lemma recent_positive (n : nat) (e : Engine) :
  wf e -> (1 <= n)%nat ->
  exists a e',
    DecisionEngine.getDecisionHistory (Some (Z.of_nat n)) e = Fin (Normal a) e'
    /\ deref e' a = take n (reverse (history e))
    /\ a <> decisionHistory e'
    /\ history e' = history e.
Proof.
  intros Hwf Hn.
  destruct (getDecisionHistory_spec (Some (Z.of_nat n)) e Hwf)
    as (e' & Hrun & Hres & Hne & Hdh & _ & _ & Hh & _).
  exists (length (arrays e)), e'. simpl in Hres.
  rewrite slice_last in Hres by lia.
  split; [done|]. split; [by rewrite take_reverse|]. split; [by rewrite Hdh|done].
Qed.

(** [recent(0)] is the whole ledger, newest first. *)
Lemma recent_zero (e : Engine) :
  wf e ->
  exists a e',
    DecisionEngine.getDecisionHistory (Some 0) e = Fin (Normal a) e'
    /\ deref e' a = reverse (history e).
Proof.
  intros Hwf.
  destruct (getDecisionHistory_spec (Some 0) e Hwf) as (e' & Hrun & Hres & _).
  exists (length (arrays e)), e'. simpl in Hres. by rewrite slice_zero in Hres.
Qed.

(** C5.  Appending a record to a ledger of 1000 records leaves, as soon as
    [recordDecision] returns, a ledger of exactly 1000 records: the former
    ones but the oldest, in their order, followed by the new one.
    [recent(1000)] is then that ledger, newest first; when the identifiers
    of the records are distinct, no record of it bears the identifier of the
    evicted one. *)
Theorem C5_ledger_bound (e : Engine) (d : RebalanceDecision) (md : MarketData)
    (r : ExecutionResult) :
  wf e -> length (history e) = 1000%nat ->
  exists e1,
    DecisionEngine.recordDecision d md r e = Fin (Normal tt) e1
    /\ wf e1
    /\ length (history e1) = 1000%nat
    /\ history e1 = drop 1 (history e) ++ [record_of d md r]
    /\ exists a e2,
        DecisionEngine.getDecisionHistory (Some 1000) e1 = Fin (Normal a) e2
        /\ deref e2 a = reverse (drop 1 (history e) ++ [record_of d md r])
        /\ history e2 = history e1
        /\ forall old,
            head (history e) = Some old ->
            NoDup (dr_id <$> history e ++ [record_of d md r]) ->
            dr_id old ∉ dr_id <$> deref e2 a.
Proof.
  intros Hwf Hlen.
  destruct (recordDecision_spec d md r e) as (e1 & Hrec & _ & Hh1).
  destruct (Hh1 Hwf) as [Hwf1 Hh1']. clear Hh1. rename Hh1' into Hh1.
  assert (Hh : history e1 = drop 1 (history e) ++ [record_of d md r]).
  { rewrite Hh1, appended_eq, Hlen. simpl. apply drop_app_le. lia. }
  assert (Hlen1 : length (history e1) = 1000%nat).
  { rewrite Hh1, length_appended, Hlen. done. }
  exists e1. repeat (split; [done|]).
  destruct (recent_positive 1000 e1 Hwf1 ltac:(lia)) as (a & e2 & Hrun & Hres & _ & Hh2).
  exists a, e2. split; [exact Hrun|].
  assert (Hres' : deref e2 a = reverse (drop 1 (history e) ++ [record_of d md r])).
  { rewrite Hres, <- Hh. apply take_ge. rewrite length_reverse. lia. }
  split; [done|]. split; [done|].
  intros old Hold Hnd. rewrite Hres', fmap_reverse, elem_of_reverse, fmap_app.
  destruct (history e) as [|x l]; [done|]. injection Hold as ->.
  simpl in *. rewrite drop_0. rewrite fmap_app in Hnd.
  by apply NoDup_cons in Hnd as [? _].
Qed.

Lemma C5_ledger_bound_witness :
  exists e1,
    DecisionEngine.recordDecision
      (Sample.decision "lend" (Some "250") 0.8%float) ∅ Sample.result
      (Sample.engine 1000) = Fin (Normal tt) e1
    /\ length (history e1) = 1000%nat.
Proof.
  assert (Hwf : wf (Sample.engine 1000)) by (unfold wf; simpl; lia).
  assert (Hlen : length (history (Sample.engine 1000)) = 1000%nat)
    by (vm_compute; reflexivity).
  destruct (C5_ledger_bound (Sample.engine 1000)
              (Sample.decision "lend" (Some "250") 0.8%float) ∅ Sample.result
              Hwf Hlen) as (e1 & Hrec & _ & Hl & _).
  exists e1. split; assumption.
Defined.

(** C6, at the input where the code departs from it: on a ledger of three
    records [recent(0)] does not return zero records but all three, newest
    first, because [slice(-0)] is [slice(0)]; the stored history is left as
    it is.  For [1 <= n] the claim holds: see [recent_positive]. *)
Theorem C6_recent_zero_returns_all :
  exists a e',
    DecisionEngine.getDecisionHistory (Some 0) (Sample.engine 3)
    = Fin (Normal a) e'
    /\ deref e' a = [Sample.record 2; Sample.record 1; Sample.record 0]
    /\ length (deref e' a) = 3%nat
    /\ history e' = [Sample.record 0; Sample.record 1; Sample.record 2].
Proof.
  assert (Hwf : wf (Sample.engine 3)) by (unfold wf; simpl; lia).
  destruct (getDecisionHistory_spec (Some 0) (Sample.engine 3) Hwf)
    as (e' & Hrun & Hres & _ & _ & _ & _ & Hh & _).
  exists (length (arrays (Sample.engine 3))), e'.
  split; [exact Hrun|]. rewrite Hres, Hh. repeat split.
Qed.

(** * Statistics *)

(** C10.  On an empty ledger [getStats] divides nothing: it returns zero
    decisions, zero successes, no action count and the success rate 0, which
    is not NaN. *)
Theorem C10_stats_of_empty_ledger (e : Engine) :
  history e = [] ->
  DecisionEngine.getStats e
  = {| totalDecisions := 0; successfulDecisions := 0; successRate := 0%float;
       actionCounts := ∅; st_isExecuting := isExecuting e |}
  /\ PrimFloat.is_nan (successRate (DecisionEngine.getStats e)) = false.
Proof.
  intros H. unfold DecisionEngine.getStats. rewrite H. simpl.
  split; [f_equal|]; vm_compute; reflexivity.
Qed.

Lemma C10_stats_of_empty_ledger_witness :
  DecisionEngine.getStats DecisionEngine.new
  = {| totalDecisions := 0; successfulDecisions := 0; successRate := 0%float;
       actionCounts := ∅; st_isExecuting := false |}.
Proof.
  exact (proj1 (C10_stats_of_empty_ledger DecisionEngine.new eq_refl)).
Defined.

(** * The risk gate *)

Lemma checkMarketVolatility_sync (m : Monitor) :
  exists ck, StrategyMonitor.checkMarketVolatility m = Fin (Normal ck) m.
Proof.
  unfold StrategyMonitor.checkMarketVolatility. unfold_task. simpl.
  destruct (StrategyMonitor.first_return _ _); simpl; eauto.
Qed.

Lemma performRiskChecks_run (env : ProcessEnv) (m : Monitor) (w : World) :
  exists o1 o2 ck,
    StrategyMonitor.checkMarketVolatility m = Fin (Normal ck) m
    /\ match o1, o2 with
       | Normal g1, Normal g2 =>
           let rs := gas_reason (gasLimit_of env) g1
                     ++ gas_reason (gasLimit_of env) g2
                     ++ volatility_reason ck in
           run w (StrategyMonitor.performRiskChecks env m) []
           = (Normal {| passed := (length rs =? 0)%nat; reasons := rs |}, m,
              [Called (GetGasPrice "ethereum") o1;
               Called (GetGasPrice "polygon") o2])
       | _, _ =>
           run w (StrategyMonitor.performRiskChecks env m) []
           = (Normal {| passed := false;
                        reasons := ["Risk check system error"] |}, m,
              [Called (GetGasPrice "ethereum") o1;
               Called (GetGasPrice "polygon") o2])
       end.
Proof.
  destruct (checkMarketVolatility_sync m) as [ck Hck].
  exists (settle w [] (GetGasPrice "ethereum")).
  exists (settle w [Called (GetGasPrice "ethereum")
                      (settle w [] (GetGasPrice "ethereum"))]
            (GetGasPrice "polygon")).
  exists ck. split; [done|].
  unfold StrategyMonitor.performRiskChecks, StrategyMonitor.checkPortfolioConcentration.
  unfold mbind, Task_bind, mret, Task_ret, bind, ret, try_catch, Promise_all2,
    await_method.
  cbn [catch_res bind_res run app].
  destruct (settle w [] (GetGasPrice "ethereum")) as [g1|e1];
    destruct (settle w _ (GetGasPrice "polygon")) as [g2|e2];
    cbn [catch_res bind_res run app fst snd foldl]; try reflexivity.
  rewrite Hck.
  cbn [catch_res bind_res settle_later run app negb ck_passed].
  fold (gasLimit_of env). unfold gas_reason, volatility_reason.
  destruct (JS.gt g1 (gasLimit_of env)), (JS.gt g2 (gasLimit_of env)),
    (ck_passed ck); reflexivity.
Qed.

Lemma default_ceiling (env : ProcessEnv) :
  JS.truthy (MAX_GAS_PRICE env) = false -> gasLimit_of env = 100%float.
Proof.
  unfold gasLimit_of, JS.truthy, JS.or_default.
  destruct (MAX_GAS_PRICE env) as [s|]; [|by intros _; vm_compute].
  destruct (String.eqb s ""); [by intros _; vm_compute|done].
Qed.

(** C8, as amended.  [performRiskChecks] asks the gas price of Ethereum and
    of Polygon and leaves the monitor as it is.  When both queries answer,
    the reasons returned are, in this order, one per network whose gas price
    exceeds the ceiling, then the one of the volatility check if it fails
    (the concentration check always passes), all in one list, and [passed]
    holds exactly when the list is empty; so with the default ceiling of 100
    a reported price of 150 makes [passed] false, with the reason
    ["Gas price too high: 150 gwei"] in the list.  When a gas query fails, the
    result is [passed] false with the single reason
    ["Risk check system error"]. *)
Theorem C8_risk_checks (env : ProcessEnv) (m : Monitor) (w : World) c m' h' :
  run w (StrategyMonitor.performRiskChecks env m) [] = (c, m', h') ->
  m' = m
  /\ exists o1 o2 ck,
      h' = [Called (GetGasPrice "ethereum") o1; Called (GetGasPrice "polygon") o2]
      /\ StrategyMonitor.checkMarketVolatility m = Fin (Normal ck) m
      /\ match o1, o2 with
         | Normal g1, Normal g2 =>
             exists rc,
               c = Normal rc
               /\ reasons rc = gas_reason (gasLimit_of env) g1
                               ++ gas_reason (gasLimit_of env) g2
                               ++ volatility_reason ck
               /\ passed rc = (length (reasons rc) =? 0)%nat
               /\ (JS.truthy (MAX_GAS_PRICE env) = false ->
                   g1 = 150%float \/ g2 = 150%float ->
                   passed rc = false
                   /\ "Gas price too high: 150 gwei" ∈ reasons rc)
         | _, _ =>
             c = Normal {| passed := false;
                           reasons := ["Risk check system error"] |}
         end.
Proof.
  intros Hrun.
  destruct (performRiskChecks_run env m w) as (o1 & o2 & ck & Hck & H).
  destruct o1 as [g1|e1], o2 as [g2|e2]; cbv zeta in H; rewrite H in Hrun;
    injection Hrun as <- <- <-; (split; [done|]); eexists _, _, ck;
    (split; [done|]); (split; [done|]); try done.
  eexists. split; [done|]. simpl. split; [done|]. split; [done|].
  intros Henv Hg. rewrite (default_ceiling env Henv).
  assert (Hr : gas_reason 100%float 150%float = ["Gas price too high: 150 gwei"])
    by (vm_compute; reflexivity).
  destruct Hg as [-> | ->]; rewrite Hr.
  - split; [done|]. left.
  - split.
    + by destruct (gas_reason 100%float g1).
    + apply elem_of_app. right. left.
Qed.

Lemma C8_risk_checks_witness :
  let w := Sample.world (Normal None) (Throw NonError)
             (Sample.gas (Normal 30%float)) in
  let res := run w (StrategyMonitor.performRiskChecks Sample.processEnv
                      (Sample.monitor Sample.volatile_cache)) [] in
  res.1.1
  = Normal {| passed := false;
              reasons := ["Gas price too high: 150 gwei";
                          "High market volatility detected: WETH on ethereum has high volatility: -15.30%"] |}
  /\ res.1.2 = Sample.monitor Sample.volatile_cache.
Proof.
  intros w res.
  assert (Hrun : res = (res.1.1, res.1.2, res.2)) by (by destruct res as [[??]?]).
  destruct (C8_risk_checks Sample.processEnv (Sample.monitor Sample.volatile_cache)
              w _ _ _ Hrun) as (Hm & _).
  split; [vm_compute; reflexivity|exact Hm].
Defined.

(** C8, as stated, fails: Ethereum reports a gas price of 150 against the
    default ceiling, the query for Polygon fails, and the only reason
    returned is ["Risk check system error"]. *)
Lemma C8_counterexample :
  let w := Sample.world (Normal None) (Throw NonError)
             (Sample.gas (Throw (ErrorObj "Request failed with status code 503"))) in
  let '(c, m', h') :=
    run w (StrategyMonitor.performRiskChecks Sample.processEnv
             (Sample.monitor Sample.volatile_cache)) [] in
  omap gas_report h'
  = [("ethereum", Normal 150%float);
     ("polygon", Throw (ErrorObj "Request failed with status code 503"))]
  /\ c = Normal {| passed := false; reasons := ["Risk check system error"] |}.
Proof. vm_compute. split; reflexivity. Qed.

(* ===================================================================== *)
(** * Further properties of the code *)
(* ===================================================================== *)

(** ** Runs of composed code *)

Section Runs.
Context {S : Type}.
Implicit Types (w : World) (h : History).

Lemma run_bind {A B} w (r : Res S A) (f : A -> Task S B) h :
  run w (bind_res r f) h
  = let '(c, s, h1) := run w r h in
    match c with
    | Normal a => run w (f a s) h1
    | Throw e => (Throw e, s, h1)
    end.
Proof.
  revert h. induction r as [[a|e] s|c s k IH|s k IH|q s k IH]; intros h; simpl; auto.
Qed.

Lemma run_catch {A} w (r : Res S A) (hd : Thrown -> Task S A) h :
  run w (catch_res r hd) h
  = let '(c, s, h1) := run w r h in
    match c with
    | Normal a => (Normal a, s, h1)
    | Throw e => run w (hd e s) h1
    end.
Proof.
  revert h. induction r as [[a|e] s|c s k IH|s k IH|q s k IH]; intros h; simpl; auto.
Qed.

Lemma run_settle_later {A} w (r : Res S A) h :
  run w (settle_later r) h = run w r h.
Proof.
  revert h. induction r as [c s|c s k IH|s k IH|q s k IH]; intros h; simpl; auto.
Qed.

Lemma run_zoom {T A} (proj : T -> S) (inj : S -> T -> T) w (r : Res S A) t h :
  (forall s t, proj (inj s t) = s) ->
  (forall s s' t, inj s' (inj s t) = inj s' t) ->
  run w (zoom_res proj inj t r) h
  = let '(c, s, h1) := run w r h in (c, inj s t, h1).
Proof.
  intros Hpi Hii. revert t h.
  induction r as [c s|c s k IH|s k IH|q s k IH]; intros t h; simpl.
  - done.
  - rewrite IH, Hpi. destruct (run w _ _) as [[c' s'] h']. by rewrite Hii.
  - rewrite IH, Hpi. destruct (run w _ _) as [[c' s'] h']. by rewrite Hii.
  - rewrite IH, Hpi. destruct (run w _ _) as [[c' s'] h']. by rewrite Hii.
Qed.
End Runs.

Lemma run_after {S R} (w : World) (r : Res S R) (h0 h : History) :
  run w r (h0 ++ h)
  = let '(c, s, h') := run (after w h0) r h in (c, s, h0 ++ h').
Proof.
  revert h. induction r as [c s|c s k IH|s k IH|q s k IH]; intros h; simpl.
  - done.
  - rewrite <- (assoc_L (++)). apply IH.
  - apply IH.
  - rewrite <- (assoc_L (++)). apply IH.
Qed.

Lemma run_for_of {S A B} (w : World) (l0 : list A) (body : A -> B -> Task S B)
    (P : list A -> B -> S -> History -> Prop) :
  (forall done x rest acc s h,
      l0 = done ++ x :: rest -> P done acc s h ->
      exists acc' s' h',
        run w (body x acc s) h = (Normal acc', s', h')
        /\ P (done ++ [x]) acc' s' h') ->
  forall rest done acc s h,
    l0 = done ++ rest -> P done acc s h ->
    exists acc' s' h',
      run w (for_of rest acc body s) h = (Normal acc', s', h')
      /\ P l0 acc' s' h'.
Proof.
  intros Hbody. induction rest as [|x rest IH]; intros done acc s h Hl HP; simpl.
  - rewrite app_nil_r in Hl. subst. eauto.
  - unfold bind. rewrite run_bind.
    destruct (Hbody done x rest acc s h Hl HP) as (acc1 & s1 & h1 & -> & HP1).
    apply (IH (done ++ [x])); [|done]. by rewrite <- (assoc_L (++)).
Qed.

(** ** DecisionEngine.ts: queries on the ledger *)

Lemma find_split {A} (f : A -> bool) (l : list A) :
  match List.find f l with
  | Some x => exists l1 l2, l = l1 ++ x :: l2 /\ f x = true
                            /\ Forall (fun y => f y = false) l1
  | None => Forall (fun y => f y = false) l
  end.
Proof.
  induction l as [|y l IH]; simpl; [done|].
  destruct (f y) eqn:Hy.
  - exists [], l. by repeat split.
  - destruct (List.find f l) as [x|].
    + destruct IH as (l1 & l2 & -> & Hx & Hl1). exists (y :: l1), l2.
      repeat split; auto.
    + by constructor.
Qed.

Lemma find_is_Some {A} (f : A -> bool) (l : list A) x :
  x ∈ l -> f x = true -> exists y, List.find f l = Some y /\ f y = true.
Proof.
  induction l as [|z l IH]; intros Hin Hx; [by apply elem_of_nil in Hin|].
  simpl. destruct (f z) eqn:Hz; [eauto|].
  apply elem_of_cons in Hin as [->|Hin]; [congruence|]. auto.
Qed.

Lemma find_last {A} (f : A -> bool) (l : list A) x :
  Forall (fun y => f y = false) l -> f x = true ->
  List.find f (l ++ [x]) = Some x.
Proof.
  induction 1 as [|y l Hy _ IH]; intros Hx; simpl; [by rewrite Hx|].
  rewrite Hy. auto.
Qed.

(** X1.  [getDecisionById] does not throw and leaves the engine as it is.
    It returns the oldest record of the ledger that bears the identifier,
    all records before it bearing other identifiers, and [undefined] exactly
    when no record of the ledger bears it. *)
Theorem getDecisionById_oldest (id : string) (e : Engine) :
  exists o,
    DecisionEngine.getDecisionById id e = Fin (Normal o) e
    /\ match o with
       | Some record =>
           exists older newer,
             history e = older ++ record :: newer
             /\ dr_id record = id
             /\ Forall (fun r => dr_id r <> id) older
       | None => Forall (fun r => dr_id r <> id) (history e)
       end.
Proof.
  eexists. split; [reflexivity|].
  pose proof (find_split (fun record => String.eqb (dr_id record) id) (history e)) as H.
  destruct (List.find _ _) as [record|].
  - destruct H as (l1 & l2 & Hh & Hid & Hl1). exists l1, l2.
    split; [done|]. split; [by apply String.eqb_eq|].
    eapply Forall_impl; [exact Hl1|]. intros r Hr. by apply String.eqb_neq.
  - eapply Forall_impl; [exact H|]. intros r Hr. by apply String.eqb_neq.
Qed.

(** X2.  After a cycle that returns a result, [getDecisionById] finds a
    record under the identifier of that result.  When no record that was
    in the ledger before the cycle bears this identifier, the record found
    is the one the cycle appended: it is the newest of the ledger and holds
    the result, the time stamp of the result and the decision the oracle
    gave in this cycle. *)
Theorem cycle_record_found (config : DecisionEngineConfig) (e : Engine)
    (w : World) r e' h' :
  wf e -> isExecuting e = false ->
  run w (DecisionEngine.evaluateAndExecute config e) [] = (Normal (Some r), e', h') ->
  exists record,
    DecisionEngine.getDecisionById (decisionId r) e' = Fin (Normal (Some record)) e'
    /\ dr_id record = decisionId r
    /\ (Forall (fun old => dr_id old <> decisionId r) (history e) ->
        dr_executionResult record = Some r
        /\ dr_timestamp record = timestamp r
        /\ omap oracle_answer h' = [Normal (Some (dr_decision record))]
        /\ last (history e') = Some record).
Proof.
  intros Hwf Hflag Hrun.
  pose proof (cycle_answers _ _ _ _ _ (cycle_run _ _ _ _ _ _ Hflag Hrun)) as H.
  destruct (omap oracle_answer h') as [|[[d|]|err'] [|]] eqn:Ho; try done;
    try (by destruct H as (? & ?)); try (by destruct H as (? & ? & ?)).
  destruct (AIAgent.validateRebalanceDecision d && DecisionEngine.validateDecision d);
    [|by destruct H as (? & ?)].
  destruct H as (he & r' & md & Hex & Hs & Hc & Hfl' & Hh).
  destruct (Hh Hwf) as [Hwf' Hh']. injection Hc as <-.
  set (new := record_of d md r) in *.
  assert (Hid : String.eqb (dr_id new) (decisionId r) = true)
    by (by apply String.eqb_eq).
  assert (Hin : new ∈ history e').
  { rewrite Hh', appended_eq, drop_app_le by lia.
    apply elem_of_app. right. by apply list_elem_of_singleton. }
  destruct (find_is_Some (fun record => String.eqb (dr_id record) (decisionId r))
              _ _ Hin Hid) as (record & Hfind & Hrec).
  exists record. unfold DecisionEngine.getDecisionById, gets. rewrite Hfind.
  split; [done|]. split; [by apply String.eqb_eq|].
  intros Hold.
  assert (record = new) as ->.
  { rewrite Hh', appended_eq, drop_app_le in Hfind by lia.
    rewrite find_last in Hfind; [congruence| |done].
    apply Forall_drop. eapply Forall_impl; [exact Hold|].
    intros x Hx. by apply String.eqb_neq. }
  repeat split; try done. rewrite Hh'. apply last_appended.
Qed.

Lemma cycle_record_found_witness :
  let w := Sample.world
             (Normal (Some (Sample.decision "lend" (Some "500") 0.9%float)))
             (Normal (Sample.receipt true)) Sample.calm in
  let res := run w (DecisionEngine.evaluateAndExecute Sample.config
                      (Sample.engine 3)) [] in
  exists r record,
    res.1.1 = Normal (Some r)
    /\ DecisionEngine.getDecisionById (decisionId r) res.1.2
       = Fin (Normal (Some record)) res.1.2
    /\ dr_executionResult record = Some r.
Proof.
  intros w res.
  assert (Hwf : wf (Sample.engine 3)) by (unfold wf; simpl; lia).
  assert (Hc : exists r, res.1.1 = Normal (Some r)
                         /\ decisionId r = "decision_1700000000000_k3j9x0q1z")
    by (vm_compute; eauto).
  destruct Hc as (r & Hc & Hid).
  assert (Hrun : res = (Normal (Some r), res.1.2, res.2)).
  { rewrite <- Hc. by destruct res as [[??]?]. }
  destruct (cycle_record_found Sample.config (Sample.engine 3) w _ _ _
              Hwf eq_refl Hrun) as (record & Hget & _ & Hnew).
  exists r, record. split; [exact Hc|]. split; [exact Hget|].
  apply Hnew. rewrite Hid. vm_compute. repeat constructor; discriminate.
Defined.

(** X3.  [getDecisionHistory(limit)] returns a new array, not the one of
    the ledger, and changes neither the ledger nor the flag nor any other
    array.  With a positive limit, 50 when none is given, the array holds
    the [limit] newest records, or all if there are fewer, newest first.
    With a limit of zero or less it holds, newest first, the ledger without
    its [-limit] oldest records: the whole ledger for 0. *)
Theorem getDecisionHistory_any_limit (limit : option Z) (e : Engine) :
  wf e ->
  exists a e',
    DecisionEngine.getDecisionHistory limit e = Fin (Normal a) e'
    /\ deref e' a
       = (let n := default 50 limit in
          if 0 <? n then take (Z.to_nat n) (reverse (history e))
          else reverse (drop (Z.to_nat (- n)) (history e)))
    /\ a = length (arrays e)
    /\ a <> decisionHistory e'
    /\ (forall b, (b < length (arrays e))%nat -> deref e' b = deref e b)
    /\ history e' = history e
    /\ isExecuting e' = isExecuting e
    /\ wf e'.
Proof.
  intros Hwf.
  destruct (getDecisionHistory_spec limit e Hwf)
    as (e' & Hrun & Hres & Hne & Hdh & Hfl & Hold & Hh & Hwf').
  exists (length (arrays e)), e'. rewrite Hres, Hdh.
  repeat split; try done.
  cbv zeta. destruct (Z.ltb_spec 0 (default 50 limit)) as [Hn|Hn].
  - replace (default 50 limit) with (Z.of_nat (Z.to_nat (default 50 limit))) at 1 by lia.
    rewrite slice_last by lia. by rewrite take_reverse.
  - unfold JS.slice. destruct (Z.ltb_spec (- default 50 limit) 0); [lia|].
    f_equal. destruct (Z.min_spec (- default 50 limit) (Z.of_nat (length (history e))))
      as [[? ->]|[? ->]]; [done|].
    rewrite Nat2Z.id. rewrite !drop_ge; [done|lia|lia].
Qed.

Lemma getDecisionHistory_any_limit_witness :
  exists a e',
    DecisionEngine.getDecisionHistory None (Sample.engine 60) = Fin (Normal a) e'
    /\ length (deref e' a) = 50%nat
    /\ head (deref e' a) = Some (Sample.record 59)
    /\ history e' = history (Sample.engine 60).
Proof.
  assert (Hwf : wf (Sample.engine 60)) by (unfold wf; simpl; lia).
  destruct (getDecisionHistory_any_limit None (Sample.engine 60) Hwf)
    as (a & e' & Hrun & Hres & _ & _ & _ & Hh & _).
  exists a, e'. rewrite Hres. repeat split; try done.
Defined.

Lemma sum_counts_step (counts : gmap string nat) (k : string) :
  sum_counts (<[k := (default 0 (counts !! k) + 1)%nat]> counts)
  = (sum_counts counts + 1)%nat.
Proof.
  unfold sum_counts.
  assert (Hcomm : forall (m : gmap string nat) (j1 j2 : string) (z1 z2 y : nat),
             j1 <> j2 -> m !! j1 = Some z1 -> m !! j2 = Some z2 ->
             (z1 + (z2 + y) = z2 + (z1 + y))%nat) by (intros; lia).
  rewrite <- (insert_delete_eq counts).
  rewrite map_fold_insert_L; [|by eauto|by rewrite lookup_delete_eq].
  destruct (counts !! k) as [n|] eqn:Hk; simpl.
  - rewrite (map_fold_delete_L _ _ k n counts); [lia|by eauto|done].
  - rewrite delete_id by done. lia.
Qed.

Lemma foldl_count_lookup (l : list DecisionRecord) (m0 : gmap string nat) a :
  foldl count_step m0 l !! a
  = match m0 !! a with
    | Some k => Some (k + count_action a l)%nat
    | None => if (count_action a l =? 0)%nat then None
              else Some (count_action a l)
    end.
Proof.
  revert m0. induction l as [|record l IH]; intros m0; simpl.
  - unfold count_action. simpl. destruct (m0 !! a); [f_equal; lia|done].
  - rewrite IH. unfold count_step at 1. unfold count_action. simpl.
    fold (action_key record).
    destruct (String.eqb_spec (action_key record) a) as [->|Hne]; simpl.
    + rewrite lookup_insert_eq.
      destruct (m0 !! a); simpl; f_equal; lia.
    + by rewrite lookup_insert_ne.
Qed.

Lemma foldl_count_sum (l : list DecisionRecord) (m0 : gmap string nat) :
  sum_counts (foldl count_step m0 l) = (sum_counts m0 + length l)%nat.
Proof.
  revert m0. induction l as [|record l IH]; intros m0; simpl; [lia|].
  rewrite IH. unfold count_step. rewrite sum_counts_step. lia.
Qed.

(** X4.  [getStats] on a ledger whose records all carry one of the five
    valid actions, as the records a cycle writes do: the total is the number
    of records; the successes are the records whose result says so, at most
    the total; an action has a count exactly when a record carries it,
    which is the number of these records; the counts add up to the total;
    and the flag reported is the engine's.  (For other actions the count
    would depend on what [counts[action]] inherits from [Object.prototype],
    hence the hypothesis.) *)
Theorem stats_counts (e : Engine) :
  Forall (fun record =>
            JS.includes DecisionEngine.validActions (action (dr_decision record))
            = true) (history e) ->
  let stats := DecisionEngine.getStats e in
  totalDecisions stats = length (history e)
  /\ successfulDecisions stats = length (List.filter succeeded (history e))
  /\ (successfulDecisions stats <= totalDecisions stats)%nat
  /\ (forall a, actionCounts stats !! a
                = if (count_action a (history e) =? 0)%nat then None
                  else Some (count_action a (history e)))
  /\ sum_counts (actionCounts stats) = totalDecisions stats
  /\ st_isExecuting stats = isExecuting e.
Proof.
  intros _ stats. unfold stats, DecisionEngine.getStats.
  cbn [totalDecisions successfulDecisions actionCounts st_isExecuting].
  split; [done|]. split; [done|]. split; [apply List.filter_length_le|].
  change (foldl _ ∅ (history e)) with (foldl count_step ∅ (history e)).
  split; [|split; [|done]].
  - intros a. by rewrite foldl_count_lookup, lookup_empty.
  - rewrite foldl_count_sum. unfold sum_counts. by rewrite map_fold_empty.
Qed.

Lemma stats_counts_witness :
  actionCounts (DecisionEngine.getStats (Sample.engine 3)) !! "rebalance" = Some 3%nat
  /\ actionCounts (DecisionEngine.getStats (Sample.engine 3)) !! "hold" = None
  /\ sum_counts (actionCounts (DecisionEngine.getStats (Sample.engine 3))) = 3%nat.
Proof.
  assert (Hvalid : Forall (fun record =>
            JS.includes DecisionEngine.validActions (action (dr_decision record))
            = true) (history (Sample.engine 3))).
  { repeat (apply Forall_cons; split; [vm_compute; reflexivity|]).
    apply Forall_nil_2. }
  pose proof (stats_counts (Sample.engine 3) Hvalid) as H.
  cbv zeta in H.
  destruct H as (_ & _ & _ & Hc & Hs & _).
  rewrite (Hc "rebalance"), (Hc "hold"), Hs.
  split; [vm_compute; reflexivity|]. 
  split; [vm_compute; reflexivity|].
  vm_compute; reflexivity.
Defined.

(** ** The two validations of a decision *)

Lemma lt_negative_lt (c x : JS.number) m e :
  Prim2SF x = S754_finite false m e ->
  JS.lt c 0%float = true -> JS.lt c x = true.
Proof.
  unfold JS.lt. rewrite !ltb_spec. intros ->.
  change (Prim2SF 0%float) with (S754_zero false).
  destruct (Prim2SF c) as [s|s| |s m' e']; simpl; try done; by destruct s.
Qed.

Lemma is_nan_spec (x : JS.number) :
  PrimFloat.is_nan x = true -> Prim2SF x = S754_nan.
Proof.
  unfold PrimFloat.is_nan. rewrite FloatAxioms.eqb_spec.
  destruct (Prim2SF x) as [s|s| |s m e]; try done; unfold SFeqb, SFcompare.
  - by destruct s.
  - rewrite Z.compare_refl, Pos.compare_cont_refl. by destruct s.
Qed.

Lemma lt_nan_r (x y : JS.number) :
  PrimFloat.is_nan y = true -> JS.lt x y = false.
Proof.
  intros H. unfold JS.lt. rewrite ltb_spec, (is_nan_spec _ H).
  unfold SFltb. by destruct (Prim2SF x).
Qed.

Lemma lt_nan_l (x y : JS.number) :
  PrimFloat.is_nan x = true -> JS.lt x y = false.
Proof.
  intros H. unfold JS.lt. by rewrite ltb_spec, (is_nan_spec _ H).
Qed.

Lemma includes_truthy (l : list string) (a : option string) :
  "" ∉ l -> JS.includes l a = true -> JS.truthy a = true.
Proof.
  intros Hl. destruct a as [x|]; simpl; [|done].
  intros Hin. apply existsb_exists in Hin as (y & Hy & Heq).
  apply String.eqb_eq in Heq as <-.
  destruct (String.eqb_spec x ""); [subst|done].
  destruct Hl. by apply list_elem_of_In.
Qed.

(** X5.  A decision passes both validations of a cycle, the one of the
    adapter and the one of the engine, exactly when: its confidence is a
    number that is neither less than 0.7 nor greater than 1; its action is
    one of rebalance, hold, bridge, lend and swap; its reason is not empty;
    its amount, if not empty, does not parse to a number less than 100; and,
    for rebalance and bridge, source chain, target chain, token and amount
    are all non-empty. *)
Theorem accepted_decisions (d : RebalanceDecision) :
  AIAgent.validateRebalanceDecision d && DecisionEngine.validateDecision d = true
  <-> (exists c, confidence d = Some c
                 /\ JS.lt c 0.7%float = false /\ JS.gt c 1%float = false)
      /\ JS.includes DecisionEngine.validActions (action d) = true
      /\ JS.truthy (reason d) = true
      /\ (JS.truthy (amount d) = true ->
          JS.lt (JS.parseFloat (JS.ToString (amount d))) 100%float = false)
      /\ (JS.str_is (action d) "rebalance" || JS.str_is (action d) "bridge" = true ->
          JS.truthy (fromChain d) && JS.truthy (toChain d)
          && JS.truthy (token d) && JS.truthy (amount d) = true).
Proof.
  unfold AIAgent.validateRebalanceDecision, DecisionEngine.validateDecision.
  assert (Hact : JS.includes DecisionEngine.validActions (action d) = true ->
                 JS.truthy (action d) = true).
  { apply includes_truthy. unfold DecisionEngine.validActions.
    rewrite !not_elem_of_cons. repeat split; try discriminate. apply not_elem_of_nil. }
  assert (Hneg : forall c, JS.lt c 0%float = true -> JS.lt c 0.7%float = true).
  { intros c. eapply lt_negative_lt. vm_compute. reflexivity. }
  revert Hact.
  generalize (JS.lt (JS.parseFloat (JS.ToString (amount d))) 100%float).
  generalize (JS.includes DecisionEngine.validActions (action d)).
  generalize (JS.str_is (action d) "rebalance" || JS.str_is (action d) "bridge").
  generalize (JS.truthy (action d)) (JS.truthy (reason d)) (JS.truthy (amount d))
    (JS.truthy (fromChain d)) (JS.truthy (toChain d)) (JS.truthy (token d)).
  intros ta tr tam tf tto tk rb incl small Hact.
  destruct (confidence d) as [c|]; cbn [JS.is_number negb orb andb].
  2:{ rewrite !orb_true_r. cbn [andb]. split; [done|].
      intros [(c & Hc & _) _]. done. }
  rewrite orb_false_r. specialize (Hneg c). revert Hneg.
  assert (Hc : (exists c0 : JS.number,
                   Some c = Some c0
                   /\ JS.lt c0 0.7%float = false /\ JS.gt c0 1%float = false)
               <-> JS.lt c 0.7%float = false /\ JS.gt c 1%float = false).
  { split; [|eauto]. intros (c0 & Hc0 & ?). by injection Hc0 as <-. }
  rewrite Hc. clear Hc.
  generalize (JS.lt c 0%float) (JS.lt c 0.7%float) (JS.gt c 1%float).
  intros l0 l07 g1 Hneg.
  destruct incl; [rewrite (Hact eq_refl)|destruct ta];
    destruct tr, l07, g1, l0, tam, small, rb, tf, tto, tk;
    cbn [negb orb andb]; try (specialize (Hneg eq_refl)); intuition congruence.
Qed.



Lemma chainMap_lookup (k : string) :
  DecisionEngine.chainMap !! k
  = if bool_decide (k ∈ ["ethereum"; "polygon"; "arbitrum"; "optimism"; "bsc"])
    then Some k else None.
Proof.
  unfold DecisionEngine.chainMap. cbn [list_to_map foldr uncurry fst snd].
  destruct (decide (k = "ethereum")) as [->|H1]; [by rewrite lookup_insert_eq|].
  rewrite lookup_insert_ne by done.
  destruct (decide (k = "polygon")) as [->|H2]; [by rewrite lookup_insert_eq|].
  rewrite lookup_insert_ne by done.
  destruct (decide (k = "arbitrum")) as [->|H3]; [by rewrite lookup_insert_eq|].
  rewrite lookup_insert_ne by done.
  destruct (decide (k = "optimism")) as [->|H4]; [by rewrite lookup_insert_eq|].
  rewrite lookup_insert_ne by done.
  destruct (decide (k = "bsc")) as [->|H5]; [by rewrite lookup_insert_eq|].
  rewrite lookup_insert_ne, lookup_empty by done.
  rewrite bool_decide_eq_false_2; [done|].
  rewrite !elem_of_cons, elem_of_nil. tauto.
Qed.

(** X7.  [getNetworkFromChain] answers with one of ethereum, polygon,
    arbitrum, optimism and bsc: the chain itself in lower case when that is
    one of the five, and ethereum for every other chain, the empty one
    included.  The two names excluded are the lower-case names that the
    object literal [chainMap] inherits from [Object.prototype]. *)
Theorem getNetworkFromChain_known_or_ethereum (chain : string) :
  let networks := ["ethereum"; "polygon"; "arbitrum"; "optimism"; "bsc"] in
  JS.toLowerCase chain ∉ ["constructor"; "__proto__"] ->
  DecisionEngine.getNetworkFromChain chain ∈ networks
  /\ (JS.toLowerCase chain ∈ networks ->
      DecisionEngine.getNetworkFromChain chain = JS.toLowerCase chain)
  /\ (JS.toLowerCase chain ∉ networks ->
      DecisionEngine.getNetworkFromChain chain = "ethereum").
Proof.
  intros networks _. unfold DecisionEngine.getNetworkFromChain.
  rewrite chainMap_lookup. fold networks.
  destruct (bool_decide_reflect (JS.toLowerCase chain ∈ networks)) as [Hin|Hin];
    cbn [JS.or_default].
  - assert (Hne : String.eqb (JS.toLowerCase chain) "" = false).
    { apply String.eqb_neq. intros Heq. rewrite Heq in Hin.
      unfold networks in Hin. rewrite !elem_of_cons, elem_of_nil in Hin.
      intuition discriminate. }
    rewrite Hne. by repeat split.
  - repeat split; try done. unfold networks. left.
Qed.

Lemma getNetworkFromChain_known_or_ethereum_witness :
  DecisionEngine.getNetworkFromChain "Polygon" = "polygon"
  /\ DecisionEngine.getNetworkFromChain "solana" = "ethereum".
Proof.
  assert (Hown : forall chain,
             bool_decide (JS.toLowerCase chain ∈ ["constructor"; "__proto__"]) = false ->
             JS.toLowerCase chain ∉ ["constructor"; "__proto__"])
    by (intros chain Hb Hin; apply (bool_decide_eq_true_2 _) in Hin; congruence).
  split.
  - pose proof (getNetworkFromChain_known_or_ethereum "Polygon") as H.
    cbv zeta in H. destruct (H (Hown "Polygon" eq_refl)) as (_ & Hknown & _).
    apply Hknown. vm_compute. repeat constructor.
  - pose proof (getNetworkFromChain_known_or_ethereum "solana") as H.
    cbv zeta in H. destruct (H (Hown "solana" eq_refl)) as (_ & _ & Hother).
    apply Hother. intros Hin. by apply (bool_decide_eq_true_2 _) in Hin.
Defined.

Lemma validateDecision_action (d : RebalanceDecision) :
  DecisionEngine.validateDecision d = true ->
  JS.includes DecisionEngine.validActions (action d) = true.
Proof.
  unfold DecisionEngine.validateDecision.
  destruct (match confidence d with Some c => JS.lt c 0.7%float | None => false end);
    [done|].
  by destruct (JS.includes DecisionEngine.validActions (action d)).
Qed.

(** ** AIAgent.ts: the market snapshot *)

Lemma covers_proper (c1 c2 : string -> string -> Prop) md h :
  (forall c a, c1 c a <-> c2 c a) -> covers c1 md h -> covers c2 md h.
Proof.
  intros Heq [H1 H2]. split; intros c a Hc; [apply H1|apply H2]; by rewrite Heq.
Qed.

Lemma concerns_other c a c' a' h hb o :
  snapshot_of c a hb o -> (c', a') <> (c, a) ->
  List.filter (concerns c' a') (h ++ hb) = List.filter (concerns c' a') h.
Proof.
  intros Hs Hne. rewrite List.filter_app.
  assert (Hf : String.eqb a a' && String.eqb c c' = false).
  { destruct (String.eqb_spec a a'), (String.eqb_spec c c'); try done. congruence. }
  destruct Hs; simpl; rewrite ?Hf; by rewrite app_nil_r.
Qed.

Lemma concerns_same c a h hb o :
  snapshot_of c a hb o ->
  List.filter (concerns c a) (h ++ hb) = List.filter (concerns c a) h ++ hb.
Proof.
  intros Hs. rewrite List.filter_app.
  destruct Hs; simpl; by rewrite !String.eqb_refl.
Qed.

Lemma lookup_entry (md : MarketData) c a info c' a' :
  (<[c := <[a := info]> (md !!! c)]> md) !! c' ≫= (.!! a')
  = if decide ((c', a') = (c, a)) then Some info else md !! c' ≫= (.!! a').
Proof.
  destruct (decide (c' = c)) as [->|Hc].
  - rewrite lookup_insert_eq. simpl.
    destruct (decide (a' = a)) as [->|Ha].
    + rewrite lookup_insert_eq. by rewrite decide_True.
    + rewrite lookup_insert_ne by done. rewrite decide_False by congruence.
      rewrite lookup_total_alt. by destruct (md !! c).
  - rewrite lookup_insert_ne by done. by rewrite decide_False by congruence.
Qed.

Lemma run_asset {S} (w : World) (s : S) chain asset (md : MarketData) h
    (covered : string -> string -> Prop) :
  ~ covered chain asset ->
  covers covered md h ->
  chain ∈ dom md ->
  Forall (fun ev => market_event ev = true) h ->
  exists md' h',
    run w (try_catch
             (tokenData ← await (GetTokenData asset chain);
              lendingRates ← await (GetLendingRates "aave" asset chain);
              mret (<[chain :=
                       <[asset := {| price := td_price tokenData;
                                     liquidity := td_liquidity tokenData;
                                     supplyAPY := lr_supplyAPY lendingRates;
                                     borrowAPY := lr_borrowAPY lendingRates;
                                     volume24h := td_volume24h tokenData |}]>
                         (md !!! chain)]> md))
             (fun _ => mret md) s) h = (Normal md', s, h')
    /\ covers (fun c a => covered c a \/ (c = chain /\ a = asset)) md' h'
    /\ dom md' = dom md
    /\ Forall (fun ev => market_event ev = true) h'.
Proof.
  intros Hnew [H1 H2] Hdom Hev.
  destruct (H2 _ _ Hnew) as [Hf0 Hl0].
  assert (Hstep : forall hb o md',
             snapshot_of chain asset hb o ->
             (forall c' a', md' !! c' ≫= (.!! a')
                            = if decide ((c', a') = (chain, asset)) then o
                              else md !! c' ≫= (.!! a')) ->
             covers (fun c a => covered c a \/ (c = chain /\ a = asset)) md' (h ++ hb)).
  { intros hb o md' Hs Hl. split.
    - intros c a [Hc|[-> ->]].
      + assert ((c, a) <> (chain, asset)) by (intros [= -> ->]; done).
        rewrite (concerns_other _ _ _ _ _ _ _ Hs) by done.
        rewrite Hl, decide_False by done. by apply H1.
      + rewrite (concerns_same _ _ _ _ _ Hs), Hf0, Hl, decide_True by done. done.
    - intros c a Hc.
      assert ((c, a) <> (chain, asset)) by (intros [= -> ->]; tauto).
      rewrite (concerns_other _ _ _ _ _ _ _ Hs) by done.
      rewrite Hl, decide_False by done. apply H2. tauto. }
  assert (Hkeep : forall c' a', md !! c' ≫= (.!! a')
                    = if decide ((c', a') = (chain, asset)) then None
                      else md !! c' ≫= (.!! a')).
  { intros c' a'. destruct (decide _) as [[= -> ->]|]; done. }
  unfold_task. simpl.
  destruct (settle w h (GetTokenData asset chain)) as [td|e1]; simpl.
  - destruct (settle w _ (GetLendingRates "aave" asset chain)) as [lr|e2]; simpl.
    + eexists _, _. split; [reflexivity|]. rewrite <- (assoc_L (++)). simpl.
      split; [|split].
      * eapply Hstep; [apply (both_answered chain asset td lr)|].
        intros c' a'. apply lookup_entry.
      * rewrite dom_insert_L. apply leibniz_equiv. set_unfold. intuition congruence.
      * apply Forall_app. split; [done|]. by repeat constructor.
    + eexists _, _. split; [reflexivity|]. rewrite <- (assoc_L (++)). simpl.
      split; [|split].
      * eapply Hstep; [apply (no_lending_rates chain asset td e2)|]. exact Hkeep.
      * done.
      * apply Forall_app. split; [done|]. by repeat constructor.
  - eexists _, _. split; [reflexivity|]. split; [|split].
    + eapply Hstep; [apply (no_token_data chain asset e1)|]. exact Hkeep.
    + done.
    + apply Forall_app. split; [done|]. by repeat constructor.
Qed.

Lemma NoDup_split_notin {A} (l1 : list A) x l2 :
  NoDup (l1 ++ x :: l2) -> x ∉ l1.
Proof.
  intros H Hin. apply NoDup_app in H as (_ & H & _).
  apply (H x Hin). left.
Qed.

Lemma analyzeMarketConditions_run {S} (w : World) (s : S) :
  exists md h',
    run w (AIAgent.analyzeMarketConditions s) [] = (Normal md, s, h')
    /\ dom md = list_to_set AIAgent.chains
    /\ covers (fun c a => c ∈ AIAgent.chains /\ a ∈ AIAgent.assets) md h'
    /\ Forall (fun ev => market_event ev = true) h'.
Proof.
  unfold AIAgent.analyzeMarketConditions, try_catch. rewrite run_catch.
  set (inner := fun chain : string => fun (asset : string) (marketData : MarketData) =>
         try_catch
           (tokenData ← await (GetTokenData asset chain);
            lendingRates ← await (GetLendingRates "aave" asset chain);
            mret (<[chain :=
                     <[asset := {| price := td_price tokenData;
                                   liquidity := td_liquidity tokenData;
                                   supplyAPY := lr_supplyAPY lendingRates;
                                   borrowAPY := lr_borrowAPY lendingRates;
                                   volume24h := td_volume24h tokenData |}]>
                       (marketData !!! chain)]> marketData))
           (fun _ => mret marketData) : Task S MarketData).
  set (outer := fun (chain : string) (marketData : MarketData) =>
         let marketData := <[chain := ∅]> marketData in
         for_of AIAgent.assets marketData (inner chain)).
  match goal with
  | |- context [for_of AIAgent.chains ∅ ?f s] => change f with outer
  end.
  assert (Hch : NoDup AIAgent.chains) by compute_done.
  assert (Has : NoDup AIAgent.assets) by compute_done.
  pose (PO := fun (done : list string) (md : MarketData) (s' : S) (h : History) =>
          s' = s /\ dom md = list_to_set done
          /\ covers (fun c a => c ∈ done /\ a ∈ AIAgent.assets) md h
          /\ Forall (fun ev => market_event ev = true) h).
  destruct (run_for_of w AIAgent.chains outer PO) with (rest := AIAgent.chains)
    (done := @nil string) (acc := (∅ : MarketData)) (s := s) (h := @nil Event)
    as (md & s' & h' & Hrun & -> & Hdom & Hcov & Hev).
  - (* one chain *)
    intros done c rest md s0 h Hl (-> & Hdom & Hcov & Hev).
    assert (Hc : c ∉ done).
    { rewrite Hl in Hch. by apply NoDup_split_notin in Hch. }
    pose (PI := fun (adone : list string) (md' : MarketData) (s' : S) (h' : History) =>
            s' = s /\ dom md' = list_to_set (done ++ [c])
            /\ covers (fun c' a' => (c' ∈ done /\ a' ∈ AIAgent.assets)
                                   \/ (c' = c /\ a' ∈ adone)) md' h'
            /\ Forall (fun ev => market_event ev = true) h').
    destruct (run_for_of w AIAgent.assets (inner c) PI) with (rest := AIAgent.assets)
      (done := @nil string) (acc := <[c := ∅]> md) (s := s) (h := h)
      as (md' & s' & h' & Hrun & -> & Hdom' & Hcov' & Hev').
    + (* one asset *)
      intros adone a arest md1 s1 h1 Hla (-> & Hdom1 & Hcov1 & Hev1).
      assert (Ha : a ∉ adone).
      { rewrite Hla in Has. by apply NoDup_split_notin in Has. }
      destruct (run_asset w s c a md1 h1
                  (fun c' a' => (c' ∈ done /\ a' ∈ AIAgent.assets)
                                \/ (c' = c /\ a' ∈ adone)))
        as (md2 & h2 & Hrun2 & Hcov2 & Hdom2 & Hev2).
      * intros [[? _]|[_ ?]]; done.
      * exact Hcov1.
      * rewrite Hdom1. set_unfold. tauto.
      * exact Hev1.
      * exists md2, s, h2. split; [exact Hrun2|]. split; [done|].
        split; [congruence|]. split; [|done].
        eapply covers_proper; [|exact Hcov2].
        intros c' a'. simpl. rewrite elem_of_app, list_elem_of_singleton. tauto.
    + done.
    + split; [done|]. split; [|split; [|done]].
      * rewrite dom_insert_L, Hdom, list_to_set_app_L. simpl.
        apply leibniz_equiv. set_unfold. tauto.
      * destruct Hcov as [H1 H2]. split.
        -- intros c' a' [[Hc' Ha']|[_ Hn]]; [|by apply elem_of_nil in Hn].
           rewrite lookup_insert_ne by (intros ->; done). apply H1. by split.
        -- intros c' a' Hn. destruct (H2 c' a') as [Hf Hlk]; [tauto|].
           split; [done|]. destruct (decide (c' = c)) as [->|Hne].
           ++ by rewrite lookup_insert_eq.
           ++ by rewrite lookup_insert_ne by done.
    + exists md', s, h'. split; [exact Hrun|]. split; [done|].
      split; [done|]. split; [|done].
      eapply covers_proper; [|exact Hcov'].
      intros c' a'. simpl. rewrite elem_of_app, list_elem_of_singleton.
      split.
      * intros [H|[-> H]]; tauto.
      * intros [[H| ->] H']; tauto.
  - done.
  - split; [done|]. split; [done|]. split; [|done].
    split; [intros c a [Hc _]; by apply elem_of_nil in Hc|].
    intros c a _. split; [done|]. by rewrite lookup_empty.
  - exists md, h'. rewrite Hrun. done.
Qed.

Lemma omap_filter_concerns {A} (f : Event -> option A) c a h :
  (forall ev, is_Some (f ev) -> concerns c a ev = true) ->
  omap f (List.filter (concerns c a) h) = omap f h.
Proof.
  intros Hf. induction h as [|ev h IH]; [done|].
  change (List.filter (concerns c a) (ev :: h))
    with (if concerns c a ev then ev :: List.filter (concerns c a) h
          else List.filter (concerns c a) h).
  change (omap f (ev :: h))
    with (match f ev with Some y => y :: omap f h | None => omap f h end).
  destruct (concerns c a ev) eqn:Hc.
  - change (omap f (ev :: List.filter (concerns c a) h))
      with (match f ev with
            | Some y => y :: omap f (List.filter (concerns c a) h)
            | None => omap f (List.filter (concerns c a) h)
            end).
    by rewrite IH.
  - rewrite IH. destruct (f ev) eqn:Hev; [|done].
    rewrite Hf in Hc by eauto. done.
Qed.

Lemma token_data_concerns c a ev :
  is_Some (token_data_answer c a ev) -> concerns c a ev = true.
Proof. destruct ev as [[] ?|]; simpl; try (by intros [? ?]). by destruct (_ && _). Qed.

Lemma lending_rates_concerns c a ev :
  is_Some (lending_rates_answer c a ev) -> concerns c a ev = true.
Proof. destruct ev as [[] ?|]; simpl; try (by intros [? ?]). by destruct (_ && _). Qed.

(** X8.  [analyzeMarketConditions] does not throw, whatever the requests
    answer, and does not touch the state of its caller.  The snapshot has an
    entry for each of the three chains and for no other.  For each chain
    and each of the four assets the token data are requested once; the
    lending rates are requested once, from aave, if the token data
    arrived, and not at all otherwise; the asset has an entry exactly when
    both arrived, made of the price, liquidity and volume of the first
    answer and the two rates of the second.  Nothing else is requested and
    no other entry exists. *)
Theorem market_snapshot {S} (w : World) (s : S) :
  exists md h',
    run w (AIAgent.analyzeMarketConditions s) [] = (Normal md, s, h')
    /\ (forall chain, is_Some (md !! chain)
                      <-> chain ∈ ["ethereum"; "polygon"; "arbitrum"])
    /\ (forall chain asset,
          chain ∈ AIAgent.chains -> asset ∈ AIAgent.assets ->
          snapshot_of chain asset (List.filter (concerns chain asset) h')
            (md !! chain ≫= (.!! asset))
          /\ match omap (token_data_answer chain asset) h',
                   omap (lending_rates_answer chain asset) h' with
             | [Normal tokenData], [Normal lendingRates] =>
                 md !! chain ≫= (.!! asset)
                 = Some (asset_info tokenData lendingRates)
             | [Normal _], [Throw _] | [Throw _], [] =>
                 md !! chain ≫= (.!! asset) = None
             | _, _ => False
             end)
    /\ (forall chain asset,
          is_Some (md !! chain ≫= (.!! asset)) ->
          chain ∈ AIAgent.chains /\ asset ∈ AIAgent.assets)
    /\ Forall (fun ev => market_event ev = true) h'.
Proof.
  destruct (analyzeMarketConditions_run w s) as (md & h' & Hrun & Hdom & [H1 H2] & Hev).
  exists md, h'. split; [exact Hrun|]. split; [|split; [|split; [|exact Hev]]].
  - intros chain. rewrite <- elem_of_dom, Hdom, elem_of_list_to_set. done.
  - intros chain asset Hc Ha. pose proof (H1 _ _ (conj Hc Ha)) as Hs.
    split; [exact Hs|].
    rewrite <- (omap_filter_concerns (token_data_answer chain asset) chain asset h')
      by apply token_data_concerns.
    rewrite <- (omap_filter_concerns (lending_rates_answer chain asset) chain asset h')
      by apply lending_rates_concerns.
    destruct Hs; simpl; rewrite !String.eqb_refl; simpl; done.
  - intros chain asset Hsome.
    destruct (decide (chain ∈ AIAgent.chains)) as [Hc|Hc];
      [destruct (decide (asset ∈ AIAgent.assets)) as [Ha|Ha]; [done|]|].
    + destruct (H2 chain asset) as [_ Hn]; [tauto|]. rewrite Hn in Hsome.
      by destruct Hsome.
    + destruct (H2 chain asset) as [_ Hn]; [tauto|]. rewrite Hn in Hsome.
      by destruct Hsome.
Qed.

(** ** DecisionEngine.ts: the portfolio *)

Lemma truthy_Some (a : option string) :
  JS.truthy a = true -> exists s, a = Some s /\ s <> "".
Proof.
  destruct a as [s|]; simpl; [|done]. intros H. exists s. split; [done|].
  intros ->. done.
Qed.

Lemma getCurrentPortfolio_run (config : DecisionEngineConfig) (w : World)
    (e : Engine) :
  let network := JS.or_default (defaultNetwork config) "ethereum" in
  exists c h',
    run w (DecisionEngine.getCurrentPortfolio config e) [] = (c, e, h')
    /\ match vault_of config with
       | Some v =>
           if String.eqb v "" then
             c = Throw (ErrorObj "Vault address not configured") /\ h' = []
           else
             exists o hb,
               h' = Called (GetVaultInfo v network) o :: hb
               /\ omap vault_answer hb = []
               /\ match o with
                  | Throw err => c = Throw err /\ hb = []
                  | Normal vaultInfo =>
                      exists tokenBalances,
                        c = Normal {| vault := v; network := network;
                                      strategies := activeStrategies vaultInfo;
                                      tokenBalances := tokenBalances;
                                      supportedTokens := vi_supportedTokens vaultInfo |}
                        /\ (omap balance_answer hb).*1 = vi_supportedTokens vaultInfo
                        /\ length hb = length (vi_supportedTokens vaultInfo)
                        /\ (forall token balance,
                              tokenBalances !! token = Some balance ->
                              (token, Normal balance) ∈ omap balance_answer hb)
                        /\ (forall token balance,
                              (token, Normal balance) ∈ omap balance_answer hb ->
                              is_Some (tokenBalances !! token))
                  end
       | None => c = Throw (ErrorObj "Vault address not configured") /\ h' = []
       end.
Proof.
  intros network. unfold DecisionEngine.getCurrentPortfolio, try_catch.
  rewrite run_catch. fold (vault_of config). fold network.
  destruct (vault_of config) as [v|] eqn:Hv; simpl; [|by eexists _, _].
  destruct (String.eqb v "") eqn:Hv0; simpl; [by eexists _, _|].
  destruct (settle w [] (GetVaultInfo v network)) as [vi|err]; cbn [run app].
  2:{ eexists _, _. split; [reflexivity|]. eexists _, _. by repeat split. }
  unfold mbind at 1, Task_bind at 1, bind at 1. rewrite run_bind.
  set (h0 := [Called (GetVaultInfo v network) (Normal vi)]).
  pose (P := fun (done : list string) (tb : gmap string string) (s : Engine)
                 (h : History) =>
          s = e /\ exists hb,
            h = h0 ++ hb
            /\ omap vault_answer hb = []
            /\ (omap balance_answer hb).*1 = done
            /\ length hb = length done
            /\ (forall token balance,
                  tb !! token = Some balance ->
                  (token, Normal balance) ∈ omap balance_answer hb)
            /\ (forall token balance,
                  (token, Normal balance) ∈ omap balance_answer hb ->
                  is_Some (tb !! token))).
  match goal with
  | |- context [run w (for_of (vi_supportedTokens vi) ∅ ?body e) h0] =>
      destruct (run_for_of w (vi_supportedTokens vi) body P) with
        (rest := vi_supportedTokens vi) (done := @nil string)
        (acc := (∅ : gmap string string)) (s := e) (h := h0)
        as (tb & s' & h' & Hrun & -> & hb & -> & Hnv & Hfst & Hlen & H1 & H2)
  end.
  - intros done token rest tb s h _ (-> & hb & -> & Hnv & Hfst & Hlen & H1 & H2).
    unfold_task. simpl.
    match goal with
    | |- context [settle w ?hh (GetTokenBalance token v network)] =>
        destruct (settle w hh (GetTokenBalance token v network)) as [b|err]
    end; simpl; eexists _, _, _; (split; [reflexivity|]); (split; [done|]).
    + exists (hb ++ [Called (GetTokenBalance token v network) (Normal b)]).
      rewrite !omap_app, fmap_app, Hnv, Hfst, length_app, Hlen. simpl.
      split; [done|]. split; [done|]. split; [done|].
      split; [rewrite length_app; simpl; lia|]. split.
      * intros t b'. destruct (decide (t = token)) as [->|Hne].
        -- rewrite lookup_insert_eq. intros [= <-]. apply elem_of_app. right. left.
        -- rewrite lookup_insert_ne by done. intros Hb. apply elem_of_app. left. eauto.
      * intros t b' [Hin|Hin]%elem_of_app.
        -- destruct (decide (t = token)) as [->|Hne];
             [rewrite lookup_insert_eq; eauto|rewrite lookup_insert_ne by done; eauto].
        -- apply list_elem_of_singleton in Hin. injection Hin as -> ->.
           rewrite lookup_insert_eq. eauto.
    + exists (hb ++ [Called (GetTokenBalance token v network) (Throw err)]).
      rewrite !omap_app, fmap_app, Hnv, Hfst, length_app, Hlen. simpl.
      split; [done|]. split; [done|]. split; [done|].
      split; [rewrite length_app; simpl; lia|]. split.
      * intros t b' Hb. apply elem_of_app. left. eauto.
      * intros t b' [Hin|Hin]%elem_of_app; [eauto|].
        apply list_elem_of_singleton in Hin. done.
  - done.
  - unfold P. split; [done|]. exists (@nil Event).
    split; [by rewrite app_nil_r|]. split; [done|]. split; [done|].
    split; [done|]. split.
    + intros t b'. by rewrite lookup_empty.
    + intros t b' Hin. by apply elem_of_nil in Hin.
  - rewrite Hrun. simpl. eexists _, _. split; [reflexivity|].
    eexists _, hb. split; [done|]. split; [done|]. exists tb. by repeat split.
Qed.

(** X9.  [getCurrentPortfolio] leaves the engine as it is.  Without a vault
    address, in the configuration or the environment, it throws
    ['Vault address not configured'] before any request.  Otherwise it
    asks for the vault once, on the default network or ethereum; if that
    fails it throws the same error and asks nothing more; if not, it asks
    for one balance per supported token, in their order, and returns the
    portfolio even if balances fail: each balance it holds is one that was
    answered for its token, and each token with an answer has a balance. *)
Theorem portfolio_reads (config : DecisionEngineConfig) (w : World)
    (e : Engine) :
  let network := JS.or_default (defaultNetwork config) "ethereum" in
  exists c h',
    run w (DecisionEngine.getCurrentPortfolio config e) [] = (c, e, h')
    /\ match vault_of config with
       | Some v =>
           if String.eqb v "" then
             c = Throw (ErrorObj "Vault address not configured") /\ h' = []
           else
             exists o hb,
               h' = Called (GetVaultInfo v network) o :: hb
               /\ omap vault_answer hb = []
               /\ match o with
                  | Throw err => c = Throw err /\ hb = []
                  | Normal vaultInfo =>
                      exists tokenBalances,
                        c = Normal {| vault := v; network := network;
                                      strategies := activeStrategies vaultInfo;
                                      tokenBalances := tokenBalances;
                                      supportedTokens := vi_supportedTokens vaultInfo |}
                        /\ (omap balance_answer hb).*1 = vi_supportedTokens vaultInfo
                        /\ length hb = length (vi_supportedTokens vaultInfo)
                        /\ (forall token balance,
                              token <> "__proto__" ->
                              tokenBalances !! token = Some balance ->
                              (token, Normal balance) ∈ omap balance_answer hb)
                        /\ (forall token balance,
                              token <> "__proto__" ->
                              (token, Normal balance) ∈ omap balance_answer hb ->
                              is_Some (tokenBalances !! token))
                  end
       | None => c = Throw (ErrorObj "Vault address not configured") /\ h' = []
       end.
Proof.
  intros network.
  destruct (getCurrentPortfolio_run config w e) as (c & h' & Hrun & H).
  fold network in H. exists c, h'. split; [exact Hrun|].
  destruct (vault_of config) as [v|]; [|exact H].
  destruct (String.eqb v ""); [exact H|].
  destruct H as (o & hb & Hh & Hv & H). exists o, hb.
  split; [exact Hh|]. split; [exact Hv|].
  destruct o as [vaultInfo|err]; [|exact H].
  destruct H as (tb & Hc & Hfst & Hlen & H1 & H2). exists tb.
  split; [exact Hc|]. split; [exact Hfst|]. split; [exact Hlen|]. split.
  - intros token balance _. apply H1.
  - intros token balance _. apply H2.
Qed.

(** ** The ledger under interleaved cycles *)

Lemma wp_cycle (I : Engine -> Prop) config (e : Engine) h :
  isExecuting e = false ->
  I {| arrays := arrays e; decisionHistory := decisionHistory e;
       isExecuting := true |} ->
  wp I (DecisionEngine.evaluateAndExecute config e) h
     (fun c e' h' => exists hn, h' = h ++ hn /\ cycle_spec config e hn c e').
Proof.
  intros Hflag. unfold DecisionEngine.evaluateAndExecute.
  unfold mbind at 1, Task_bind at 1, bind at 1, get at 1. cbn [bind_res].
  rewrite Hflag.
  unfold mbind at 1, Task_bind at 1, bind at 1, DecisionEngine.set_isExecuting at 1,
    modify at 1. cbn [bind_res].
  set (e1 := {| arrays := arrays e; decisionHistory := decisionHistory e;
                isExecuting := true |}).
  intros He1.
  assert (Hback : forall c hn,
             cycle_spec config e hn c e ->
             wp I (DecisionEngine.set_isExecuting false e1) (h ++ hn)
               (fun c' s' h'' =>
                  match c' with
                  | Normal _ => exists hn, h'' = h ++ hn /\ cycle_spec config e hn c s'
                  | Throw e0 => exists hn, h'' = h ++ hn /\ cycle_spec config e hn (Throw e0) s'
                  end)).
  { intros c hn Hc. simpl. rewrite (engine_eta e Hflag). eauto. }
  unfold try_finally. apply wp_finally.
  unfold try_catch. apply wp_catch.
  unfold mbind at 1, Task_bind at 1, bind at 1. apply wp_bind.
  apply wp_await_method.
  apply wp_analyzeMarketConditions; [done|]. intros md hm Hhm. split; [done|].
  unfold mbind at 1, Task_bind at 1, bind at 1. apply wp_bind.
  apply wp_await_method.
  apply wp_getCurrentPortfolio; [done|]. intros hp [pf|err] Hpf; (split; [done|]).
  2:{ simpl. rewrite <- (assoc_L (++)). apply Hback. by constructor. }
  unfold mbind at 1, Task_bind at 1, bind at 1. apply wp_bind.
  apply wp_await_method.
  apply wp_generateRebalanceDecision; [done|].
  intros [[d|]|err]; (split; [done|]); cbn beta iota.
  - destruct (AIAgent.validateRebalanceDecision d) eqn:Hv1; cbn beta iota.
    + destruct (DecisionEngine.validateDecision d) eqn:Hv2; cbn [negb].
      * unfold mbind at 1, Task_bind at 1, bind at 1. apply wp_bind.
        apply wp_await_method.
        apply wp_executeDecision; [done|]. intros he r Hex. split; [done|].
        unfold mbind at 1, Task_bind at 1, bind at 1. apply wp_bind.
        destruct (recordDecision_spec d md r e1)
          as (e2 & -> & Hfl2 & Hh2). simpl.
        exists (hm ++ hp ++ [Called (CreateCompletion pf md (DecisionEngine.getConstraints config)) (Normal (Some d))] ++ he).
        split; [by rewrite <- !(assoc_L (++))|].
        eapply cy_executed; eauto.
      * simpl. rewrite <- !(assoc_L (++)). apply Hback. eapply cy_validator_rejects; eauto.
    + simpl. rewrite <- !(assoc_L (++)). apply Hback. eapply cy_adapter_rejects; eauto.
  - simpl. rewrite <- !(assoc_L (++)). apply Hback. eapply cy_no_decision; eauto.
  - simpl. rewrite <- !(assoc_L (++)). apply Hback. eapply cy_oracle_error; eauto.
Qed.

Lemma ledger_ok_flag (e : Engine) b :
  ledger_ok e ->
  ledger_ok {| arrays := arrays e; decisionHistory := decisionHistory e;
               isExecuting := b |}.
Proof. done. Qed.

Lemma cycle_spec_ledger config e hn c e' :
  ledger_ok e -> cycle_spec config e hn c e' -> ledger_ok e'.
Proof.
  intros (Hwf & Hlen & Hall) H. destruct H; try done.
  match goal with
  | H : wf _ -> _ |- _ => destruct (H Hwf) as [Hwf' Hh]
  end.
  split; [done|]. rewrite Hh. split.
  - rewrite length_appended. lia.
  - rewrite appended_eq. apply Forall_drop, Forall_app. split; [done|].
    apply Forall_singleton. eexists. by repeat split.
Qed.

Lemma keeps_ledger_cycle config e :
  ledger_ok e -> keeps_ledger (DecisionEngine.evaluateAndExecute config e).
Proof.
  intros Hok. unfold keeps_ledger.
  destruct (isExecuting e) eqn:Hflag.
  - by rewrite (guard_skips config e Hflag).
  - eapply wp_mono; [apply (wp_cycle ledger_ok config e [] Hflag)|].
    + by apply ledger_ok_flag.
    + intros c s h' (hn & _ & H). eapply cycle_spec_ledger; eauto.
Qed.

Lemma keeps_ledger_settles (r r' : Cycle) :
  settles r r' -> keeps_ledger r -> keeps_ledger r'.
Proof.
  unfold keeps_ledger. induction 1 as [| | |q s k a r Hs IH]; intros Hwp; try done.
  apply IH. simpl in Hwp. eapply wp_history_irrelevant, Hwp.
Qed.

Lemma keeps_ledger_state (r0 r : Cycle) :
  settles r0 r -> keeps_ledger r -> ledger_ok (state_of r).
Proof.
  intros Hs. unfold keeps_ledger.
  destruct (settles_result _ _ Hs) as [(c & s & ->)|Hsusp]; [done|].
  destruct r; simpl in *; try done; by intros [? _].
Qed.

Lemma ledger_ok_reachable config p :
  reachable config p ->
  ledger_ok (shared p) /\ Forall keeps_ledger (pending p).
Proof.
  induction 1 as [|p p' Hreach IH Hstep].
  - split; [|done]. split; [apply wf_new|]. split; [simpl; lia|done].
  - destruct IH as [Hok Hpend].
    pose proof (pool_inv_reachable config p Hreach) as Hinv.
    assert (Hpark : forall rest r0 r,
               settles r0 r -> keeps_ledger r0 -> Forall keeps_ledger rest ->
               ledger_ok (shared (park rest r))
               /\ Forall keeps_ledger (pending (park rest r))).
    { intros rest r0 r Hs Hk Hrest.
      pose proof (keeps_ledger_settles _ _ Hs Hk) as Hk'.
      split; [by eapply keeps_ledger_state|].
      unfold park. simpl. destruct (suspended r); [|done].
      apply Forall_app. split; [done|by constructor]. }
    destruct Hstep as [p r Hs|p i c s k o r Hi Hs|p i s k r Hi Hs].
    + eapply Hpark; eauto using keeps_ledger_cycle.
    + destruct Hinv as [(Hnil & _)|(r0 & Hp & _ & Hst & _)];
        [by rewrite Hnil in Hi|].
      rewrite Hp in Hi, Hpend |- *. destruct i as [|i]; simpl in Hi; [|done].
      injection Hi as ->. simpl in Hst. subst s.
      apply (proj1 (Forall_singleton _ _)) in Hpend. unfold keeps_ledger in Hpend.
      simpl in Hpend. destruct Hpend as [_ Hk].
      eapply (Hpark [] _ _ Hs); [|done].
      eapply wp_history_irrelevant, Hk.
    + destruct Hinv as [(Hnil & _)|(r0 & Hp & _ & Hst & _)];
        [by rewrite Hnil in Hi|].
      rewrite Hp in Hi, Hpend |- *. destruct i as [|i]; simpl in Hi; [|done].
      injection Hi as ->. simpl in Hst. subst s.
      apply (proj1 (Forall_singleton _ _)) in Hpend. unfold keeps_ledger in Hpend.
      simpl in Hpend. destruct Hpend as [_ Hk].
      by eapply (Hpark [] _ _ Hs).
Qed.

Lemma run_reachable config (w : World) (r : Cycle) h c e' h' :
  (forall r', settles r r' -> reachable config (park [] r')) ->
  run w r h = (c, e', h') ->
  reachable config {| shared := e'; pending := [] |}.
Proof.
  revert h. induction r as [c0 s|c0 s k IH|s k IH|q s k IH]; intros h Hq Hrun.
  - simpl in Hrun. injection Hrun as <- <- <-. apply (Hq _ (settles_fin _ _)).
  - simpl in Hrun. eapply IH; [|exact Hrun].
    intros r' Hs.
    apply (reachable_step config _ _ (Hq _ (settles_await _ _ _))).
    apply (pool_settle config (park [] (Await c0 s k)) 0%nat c0 s k _ r' eq_refl Hs).
  - simpl in Hrun. eapply IH; [|exact Hrun].
    intros r' Hs.
    apply (reachable_step config _ _ (Hq _ (settles_yield _ _))).
    apply (pool_resume config (park [] (Yield s k)) 0%nat s k r' eq_refl Hs).
  - simpl in Hrun. eapply IH; [|exact Hrun].
    intros r' Hs. apply Hq. by eapply settles_ask.
Qed.

Lemma sequential_reachable config (w : World) (e : Engine) c e' h' :
  reachable config {| shared := e; pending := [] |} ->
  run w (DecisionEngine.evaluateAndExecute config e) [] = (c, e', h') ->
  reachable config {| shared := e'; pending := [] |}.
Proof.
  intros Hp. apply run_reachable. intros r' Hs.
  apply (reachable_step config _ _ Hp).
  apply (pool_invoke config {| shared := e; pending := [] |} r' Hs).
Qed.

(** X10.  However invocations of the cycle are interleaved on an engine that
    starts empty, the ledger is at every moment, also while a cycle is
    suspended, an array of at most 1000 records, each of which holds an
    execution result, bears the identifier and the time stamp of that
    result, and carries a decision that both validations accept, so one of
    the five valid actions. *)
Theorem ledger_invariant (config : DecisionEngineConfig) (p : Pool) :
  reachable config p ->
  wf (shared p)
  /\ (length (history (shared p)) <= 1000)%nat
  /\ Forall validated (history (shared p))
  /\ Forall (fun record =>
               JS.includes DecisionEngine.validActions
                 (action (dr_decision record)) = true
               /\ is_Some (dr_executionResult record))
            (history (shared p)).
Proof.
  intros Hreach. destruct (ledger_ok_reachable config p Hreach) as [(Hwf & Hlen & Hall) _].
  repeat split; try done.
  eapply Forall_impl; [exact Hall|].
  intros record (r & Hr & _ & _ & Hv1 & Hv2). split; [|by rewrite Hr].
  by apply validateDecision_action.
Qed.

Lemma ledger_invariant_witness :
  let w := Sample.world
             (Normal (Some (Sample.decision "lend" (Some "500") 0.9%float)))
             (Normal (Sample.receipt true)) Sample.calm in
  let res := run w (DecisionEngine.evaluateAndExecute Sample.config
                      DecisionEngine.new) [] in
  length (history res.1.2) = 1%nat
  /\ Forall validated (history res.1.2).
Proof.
  intros w res.
  assert (Hreach : reachable Sample.config {| shared := res.1.2; pending := [] |}).
  { apply (sequential_reachable Sample.config w DecisionEngine.new res.1.1 _ res.2).
    - apply reachable_new.
    - unfold res. by destruct (run w _ []) as [[??]?]. }
  destruct (ledger_invariant Sample.config _ Hreach) as (_ & _ & Hall & _).
  split; [vm_compute; reflexivity|exact Hall].
Defined.

(** ** StrategyMonitor.ts: the risk checks *)

Lemma first_return_None {A B} (l : list A) (body : A -> option B) :
  StrategyMonitor.first_return l body = None
  <-> Forall (fun x => body x = None) l.
Proof.
  induction l as [|x l IH]; simpl; [by split|].
  destruct (body x) eqn:Hx.
  - split; [done|]. intros H. apply Forall_cons in H as [H _]. congruence.
  - rewrite IH. split; [by constructor|]. by intros [? ?]%Forall_cons.
Qed.

Lemma first_return_Some {A B} (l : list A) (body : A -> option B) b :
  StrategyMonitor.first_return l body = Some b ->
  exists l1 x l2,
    l = l1 ++ x :: l2 /\ Forall (fun y => body y = None) l1 /\ body x = Some b.
Proof.
  induction l as [|x l IH]; simpl; [done|].
  destruct (body x) eqn:Hx.
  - intros [= ->]. by exists [], x, l.
  - intros H. destruct (IH H) as (l1 & y & l2 & -> & Hl1 & Hy).
    exists (x :: l1), y, l2. repeat split; auto.
Qed.

Lemma volatile_test (data : CacheEntry) :
  JS.truthy_number (priceChange24h data)
  && JS.gt (PrimFloat.abs (default PrimFloat.nan (priceChange24h data))) 0.1%float
  = volatile data.
Proof.
  unfold volatile. destruct (priceChange24h data) as [x|]; simpl; [|done].
  destruct (JS.gt (PrimFloat.abs x) 0.1%float) eqn:Hgt; [|apply andb_false_r].
  rewrite andb_true_r. revert Hgt. unfold JS.gt, PrimFloat.is_nan.
  rewrite ltb_spec, !FloatAxioms.eqb_spec, abs_spec.
  change (Prim2SF 0%float) with (S754_zero false).
  change (Prim2SF 0.1%float) with (S754_finite false 7205759403792794 (-56)).
  destruct (Prim2SF x) as [s|s| |s m e]; simpl; try done.
  - by destruct s.
  - intros _. unfold SFeqb, SFcompare.
    rewrite Z.compare_refl, Pos.compare_cont_refl. by destruct s.
Qed.

Lemma checkMarketVolatility_spec (m : Monitor) :
  exists ck,
    StrategyMonitor.checkMarketVolatility m = Fin (Normal ck) m
    /\ (ck_passed ck = true <-> calm_cache (marketDataCache m))
    /\ (ck_passed ck = true -> ck_reason ck = None)
    /\ (ck_passed ck = false ->
        exists before chain entries after earlier token data later,
          marketDataCache m = before ++ (chain, entries) :: after
          /\ entries = earlier ++ (token, data) :: later
          /\ volatile data = true
          /\ Forall (fun ce => Forall (fun td => volatile td.2 = false) ce.2) before
          /\ Forall (fun td => volatile td.2 = false) earlier
          /\ ck_reason ck = Some (volatility_message chain token data)).
Proof.
  set (inner := fun chain : string => fun '(token, data) =>
         if JS.truthy_number (priceChange24h data)
            && JS.gt (PrimFloat.abs (default PrimFloat.nan (priceChange24h data)))
                 0.1%float
         then Some {| ck_passed := false;
                      ck_reason := Some (token +:+ " on " +:+ chain
                        +:+ " has high volatility: "
                        +:+ JS.toFixed (default PrimFloat.nan (priceChange24h data)
                                        * 100)%float 2 +:+ "%") |}
         else None).
  set (outer := fun '(chain, tokens) =>
         StrategyMonitor.first_return tokens (inner chain)).
  assert (Hinner : forall chain td,
             inner chain td = if volatile td.2
                              then Some {| ck_passed := false;
                                           ck_reason := Some (volatility_message chain td.1 td.2) |}
                              else None).
  { intros chain [token data]. unfold inner. by rewrite volatile_test. }
  assert (Hnone : forall chain entries,
             StrategyMonitor.first_return entries (inner chain) = None
             <-> Forall (fun td => volatile td.2 = false) entries).
  { intros chain entries. rewrite first_return_None.
    apply Forall_proper; [|done]. intros td. rewrite Hinner.
    by destruct (volatile td.2). }
  assert (Hrun : StrategyMonitor.checkMarketVolatility m
                 = match StrategyMonitor.first_return (marketDataCache m) outer with
                   | Some result => Fin (Normal result) m
                   | None => Fin (Normal {| ck_passed := true; ck_reason := None |}) m
                   end).
  { unfold StrategyMonitor.checkMarketVolatility. unfold_task. simpl.
    change (StrategyMonitor.first_return (marketDataCache m) _)
      with (StrategyMonitor.first_return (marketDataCache m) outer).
    by destruct (StrategyMonitor.first_return (marketDataCache m) outer). }
  rewrite Hrun. clear Hrun.
  destruct (StrategyMonitor.first_return (marketDataCache m) outer) as [ck|] eqn:Hfr.
  - exists ck. split; [done|].
    apply first_return_Some in Hfr as (before & [chain entries] & after & Hc & Hbefore & Hx).
    change (StrategyMonitor.first_return entries (inner chain) = Some ck) in Hx.
    apply first_return_Some in Hx as (earlier & [token data] & later & He & Hearlier & Hy).
    rewrite Hinner in Hy. simpl in Hy.
    destruct (volatile data) eqn:Hv; [|done]. injection Hy as <-. simpl.
    split; [|split; [done|]].
    + split; [done|]. intros Hcalm.
      rewrite (Hcalm chain entries token data) in Hv; [done| |].
      * rewrite Hc. apply elem_of_app. right. left.
      * rewrite He. apply elem_of_app. right. left.
    + intros _. exists before, chain, entries, after, earlier, token, data, later.
      repeat split; try done.
      * eapply Forall_impl; [exact Hbefore|]. intros [c es] Hces.
        change (StrategyMonitor.first_return es (inner c) = None) in Hces.
        exact (proj1 (Hnone c es) Hces).
      * eapply Forall_impl; [exact Hearlier|]. intros td Htd.
        change (inner chain td = None) in Htd.
        rewrite Hinner in Htd. by destruct (volatile td.2).
  - eexists. split; [done|]. simpl. split; [|split; [done|done]].
    split; [|done]. intros _ chain entries token data Hc He.
    apply first_return_None in Hfr.
    pose proof (proj1 (Forall_forall _ _) Hfr _ Hc) as H1.
    change (StrategyMonitor.first_return entries (inner chain) = None) in H1.
    apply Hnone in H1.
    apply (proj1 (Forall_forall _ _) H1 _ He).
Qed.

(** X11.  [checkMarketVolatility] does not throw and leaves the monitor as
    it is.  It passes, without a reason, exactly when no entry of the cache
    has a price change of more than 0.1 in absolute value; an entry without
    price change, or with a change of 0 or [NaN], never counts.  When it
    fails, its reason names the first such entry in the order of the cache,
    chain by chain and token by token, with the change as a percentage of
    two decimals. *)
Theorem checkMarketVolatility_first_offender (m : Monitor) :
  exists ck,
    StrategyMonitor.checkMarketVolatility m = Fin (Normal ck) m
    /\ (ck_passed ck = true <-> calm_cache (marketDataCache m))
    /\ (ck_passed ck = true -> ck_reason ck = None)
    /\ (ck_passed ck = false ->
        exists before chain entries after earlier token data later,
          marketDataCache m = before ++ (chain, entries) :: after
          /\ entries = earlier ++ (token, data) :: later
          /\ volatile data = true
          /\ Forall (fun ce => Forall (fun td => volatile td.2 = false) ce.2) before
          /\ Forall (fun td => volatile td.2 = false) earlier
          /\ ck_reason ck = Some (volatility_message chain token data)).
Proof. apply checkMarketVolatility_spec. Qed.

Lemma gas_reason_nil (limit g : JS.number) :
  gas_reason limit g = [] <-> JS.gt g limit = false.
Proof. unfold gas_reason. by destruct (JS.gt g limit). Qed.

(** X12.  [performRiskChecks] does not throw.  It passes exactly when it has
    no reason to give, which is exactly when both gas prices, of ethereum
    and of polygon, were answered, neither is greater than the limit, and
    the cache is calm.  When [MAX_GAS_PRICE] does not parse to a number the
    limit is [NaN] and no gas price is ever too high: the checks pass
    whenever both prices are answered and the cache is calm. *)
Theorem risk_gate_admission (env : ProcessEnv) (m : Monitor) (w : World) c m' h' :
  run w (StrategyMonitor.performRiskChecks env m) [] = (c, m', h') ->
  exists rc,
    c = Normal rc
    /\ (passed rc = true <-> reasons rc = [])
    /\ (passed rc = true <->
        exists g1 g2,
          omap gas_report h' = [("ethereum", Normal g1); ("polygon", Normal g2)]
          /\ JS.gt g1 (gasLimit_of env) = false
          /\ JS.gt g2 (gasLimit_of env) = false
          /\ calm_cache (marketDataCache m))
    /\ (PrimFloat.is_nan (gasLimit_of env) = true ->
        passed rc = true <->
        (exists g1 g2,
            omap gas_report h' = [("ethereum", Normal g1); ("polygon", Normal g2)])
        /\ calm_cache (marketDataCache m)).
Proof.
  intros Hrun.
  destruct (performRiskChecks_run env m w) as (o1 & o2 & ck & Hck & H).
  destruct (checkMarketVolatility_spec m) as (ck' & Hck' & Hcalm & _).
  rewrite Hck in Hck'. injection Hck' as <-.
  assert (Hfail : forall rc,
             rc = {| passed := false; reasons := ["Risk check system error"] |} ->
             forall e1 e2, (o1 = Throw e1 \/ o2 = Throw e2) ->
             h' = [Called (GetGasPrice "ethereum") o1; Called (GetGasPrice "polygon") o2] ->
             (passed rc = true <-> reasons rc = [])
             /\ (passed rc = true <->
                 exists g1 g2,
                   omap gas_report h' = [("ethereum", Normal g1); ("polygon", Normal g2)]
                   /\ JS.gt g1 (gasLimit_of env) = false
                   /\ JS.gt g2 (gasLimit_of env) = false
                   /\ calm_cache (marketDataCache m))
             /\ (PrimFloat.is_nan (gasLimit_of env) = true ->
                 passed rc = true <->
                 (exists g1 g2,
                     omap gas_report h' = [("ethereum", Normal g1); ("polygon", Normal g2)])
                 /\ calm_cache (marketDataCache m))).
  { intros rc -> e1 e2 Ho ->. simpl. split; [done|].
    split; [|intros _]; (split; [done|]).
    - intros (g1 & g2 & Heq & _). destruct Ho as [-> | ->]; congruence.
    - intros [(g1 & g2 & Heq) _]. destruct Ho as [-> | ->]; congruence. }
  destruct o1 as [g1|e1], o2 as [g2|e2]; cbv zeta in H; rewrite H in Hrun;
    injection Hrun as <- <- <-; eexists; (split; [reflexivity|]);
    try (by eapply (Hfail _ eq_refl e1 e1); eauto);
    try (by eapply (Hfail _ eq_refl e2 e2); eauto).
  cbn [passed reasons omap gas_report].
  assert (Hlen : forall l : list string, (length l =? 0)%nat = true <-> l = []).
  { intros [|??]; simpl; by split. }
  rewrite Hlen. split; [done|].
  rewrite !app_nil, !gas_reason_nil.
  assert (Hvol : volatility_reason ck = [] <-> calm_cache (marketDataCache m)).
  { rewrite <- Hcalm. unfold volatility_reason. by destruct (ck_passed ck). }
  rewrite Hvol. split.
  - split.
    + intros (? & ? & ?). exists g1, g2. by repeat split.
    + intros (g1' & g2' & Heq & ? & ? & ?). by injection Heq as <- <-.
  - intros Hnan. unfold JS.gt. rewrite !lt_nan_l by done. split.
    + intros (_ & _ & ?). split; [eauto|done].
    + intros [_ ?]. done.
Qed.

Lemma risk_gate_admission_witness :
  let env := {| VAULT_ADDRESS := None; EXECUTOR_ADDRESS := None;
                MAX_GAS_PRICE := Some "fifty"; MIN_TRANSACTION_VALUE := None;
                MAX_SLIPPAGE := None |} in
  let w := Sample.world (Normal None) (Throw NonError)
             (Sample.gas (Normal 900%float)) in
  let res := run w (StrategyMonitor.performRiskChecks env (Sample.monitor [])) [] in
  exists rc, res.1.1 = Normal rc /\ passed rc = true.
Proof.
  intros env w res.
  assert (Hrun : res = (res.1.1, res.1.2, res.2)) by (by destruct res as [[??]?]).
  destruct (risk_gate_admission env (Sample.monitor []) w _ _ _ Hrun)
    as (rc & Hc & _ & _ & Hnan).
  exists rc. split; [exact Hc|].
  apply Hnan; [vm_compute; reflexivity|]. split.
  - eexists _, _. vm_compute. reflexivity.
  - intros chain entries token data Hin. by apply elem_of_nil in Hin.
Defined.

(** ** StrategyMonitor.ts: the market data cache *)

Lemma get_set_eq {V} (k : string) (v : V) o :
  JS.get_property k (JS.set_property k v o) = Some v.
Proof.
  induction o as [|[k' v'] o IH]; simpl; [by rewrite String.eqb_refl|].
  destruct (String.eqb k' k) eqn:Hk; simpl; [by rewrite String.eqb_refl|].
  by rewrite Hk.
Qed.

Lemma get_set_ne {V} (k k' : string) (v : V) o :
  k <> k' -> JS.get_property k' (JS.set_property k v o) = JS.get_property k' o.
Proof.
  intros Hne. induction o as [|[k0 v0] o IH]; simpl.
  - by apply String.eqb_neq in Hne as ->.
  - destruct (String.eqb k0 k) eqn:Hk; simpl.
    + apply String.eqb_eq in Hk as ->.
      by apply String.eqb_neq in Hne as ->.
    + by rewrite IH.
Qed.

Lemma token_data_other c a c' a' o :
  (c', a') <> (c, a) ->
  token_data_answer c' a' (Called (GetTokenData a c) o) = None.
Proof.
  intros Hne. simpl.
  destruct (String.eqb_spec a a'), (String.eqb_spec c c'); try done. congruence.
Qed.

Lemma lending_rates_other p c a c' a' o :
  (c', a') <> (c, a) ->
  lending_rates_answer c' a' (Called (GetLendingRates p a c) o) = None.
Proof.
  intros Hne. simpl.
  destruct (String.eqb_spec a a'), (String.eqb_spec c c'); try done. congruence.
Qed.

Lemma token_data_same c a o :
  token_data_answer c a (Called (GetTokenData a c) o) = Some o.
Proof. simpl. by rewrite !String.eqb_refl. Qed.

Lemma lending_rates_same p c a o :
  lending_rates_answer c a (Called (GetLendingRates p a c) o) = Some o.
Proof. simpl. by rewrite !String.eqb_refl. Qed.

Lemma omap_asked {A} (f : Event -> option A) (asked : list Z) :
  (forall t, f (Asked DateNow t) = None) ->
  omap f (Asked DateNow <$> asked) = [].
Proof.
  intros Hf. induction asked as [|t l IH]; [done|].
  change (omap f (Asked DateNow <$> t :: l))
    with (match f (Asked DateNow t) with
          | Some y => y :: omap f (Asked DateNow <$> l)
          | None => omap f (Asked DateNow <$> l)
          end).
  by rewrite Hf.
Qed.

Lemma token_data_pair_events c a o1 o2 asked c' a' :
  omap (token_data_answer c' a') (pair_events c a o1 o2 asked)
  = if decide ((c', a') = (c, a)) then [o1] else [].
Proof.
  unfold pair_events. rewrite omap_app, omap_asked by done. rewrite app_nil_r.
  change (omap (token_data_answer c' a')
            [Called (GetTokenData a c) o1; Called (GetLendingRates "aave" a c) o2])
    with (match token_data_answer c' a' (Called (GetTokenData a c) o1) with
          | Some y => [y] | None => []
          end).
  destruct (decide _) as [[= -> ->]|Hne].
  - by rewrite token_data_same.
  - by rewrite token_data_other.
Qed.

Lemma lending_rates_pair_events c a o1 o2 asked c' a' :
  omap (lending_rates_answer c' a') (pair_events c a o1 o2 asked)
  = if decide ((c', a') = (c, a)) then [o2] else [].
Proof.
  unfold pair_events. rewrite omap_app, omap_asked by done. rewrite app_nil_r.
  change (omap (lending_rates_answer c' a')
            [Called (GetTokenData a c) o1; Called (GetLendingRates "aave" a c) o2])
    with (match lending_rates_answer c' a' (Called (GetLendingRates "aave" a c) o2) with
          | Some y => [y] | None => []
          end).
  destruct (decide _) as [[= -> ->]|Hne].
  - by rewrite lending_rates_same.
  - by rewrite lending_rates_other.
Qed.

Lemma market_pair_events c a o1 o2 asked :
  length (List.filter market_event (pair_events c a o1 o2 asked)) = 2%nat.
Proof.
  unfold pair_events. rewrite List.filter_app, length_app. simpl.
  induction asked as [|t l IH]; [done|]. simpl. exact IH.
Qed.

Lemma cached_other c a h hb entry c' a' o1 o2 asked :
  (c', a') <> (c, a) -> hb = pair_events c a o1 o2 asked ->
  cached c' a' h entry -> cached c' a' (h ++ hb) entry.
Proof.
  intros Hne -> (x1 & x2 & H1 & H2 & H3). exists x1, x2.
  rewrite !omap_app, token_data_pair_events, lending_rates_pair_events,
    !decide_False, !app_nil_r by done.
  split; [done|]. split; [done|].
  destruct x1, x2; try done. destruct H3 as (t & Ht & ->).
  exists t. split; [|done]. apply elem_of_app. by left.
Qed.

Lemma run_token (w : World) (m : Monitor) chain token entries h :
  JS.get_property chain (marketDataCache m) = Some entries ->
  exists o1 o2 asked m',
    run w (try_catch
             (data ← Promise_all2 (GetTokenData token chain)
                                  (GetLendingRates "aave" token chain);
              now ← ask DateNow;
              this ← get;
              match JS.get_property chain (marketDataCache this) with
              | Some entries =>
                  StrategyMonitor.set_marketDataCache
                    (JS.set_property chain
                       (JS.set_property token
                          {| ce_tokenData := data.1;
                             ce_lendingRates := data.2;
                             lastUpdated := now |} entries)
                       (marketDataCache this))
              | None =>
                  throw (ErrorObj "Cannot set properties of undefined")
              end)
             (fun _ => mret tt) m) h
    = (Normal tt, m', h ++ pair_events chain token o1 o2 asked)
    /\ isActive m' = isActive m
    /\ lastEvaluation m' = lastEvaluation m
    /\ emergencyStopActivated m' = emergencyStopActivated m
    /\ match o1, o2 with
       | Normal tokenData, Normal lendingRates =>
           exists now,
             asked = [now]
             /\ marketDataCache m'
                = JS.set_property chain
                    (JS.set_property token
                       {| ce_tokenData := tokenData;
                          ce_lendingRates := lendingRates;
                          lastUpdated := now |} entries)
                    (marketDataCache m)
       | _, _ => asked = [] /\ m' = m
       end.
Proof.
  intros Hget. unfold try_catch. rewrite run_catch.
  unfold mbind at 1, Task_bind at 1, bind at 1. rewrite run_bind.
  unfold Promise_all2. cbn [run].
  set (o1 := settle w h (GetTokenData token chain)).
  set (o2 := settle w (h ++ [Called (GetTokenData token chain) o1])
               (GetLendingRates "aave" token chain)).
  exists o1, o2.
  destruct o1 as [td|e1], o2 as [lr|e2]; cbn [run];
    try (exists [], m; (split; [|done]); unfold pair_events; simpl;
         by rewrite <- (assoc_L (++))).
  unfold_task. cbn [bind_res run]. rewrite Hget.
  unfold StrategyMonitor.set_marketDataCache, modify. cbn [run fst snd].
  eexists [_], _. split.
  { unfold pair_events. rewrite <- !(assoc_L (++)). reflexivity. }
  simpl. repeat split; eauto.
Qed.

Lemma cached_ext c a h h' entry :
  omap (token_data_answer c a) h' = omap (token_data_answer c a) h ->
  omap (lending_rates_answer c a) h' = omap (lending_rates_answer c a) h ->
  (forall t, Asked DateNow t ∈ h -> Asked DateNow t ∈ h') ->
  cached c a h entry -> cached c a h' entry.
Proof.
  intros H1 H2 H3 (o1 & o2 & Ho1 & Ho2 & H). exists o1, o2.
  rewrite H1, H2. split; [done|]. split; [done|].
  destruct o1, o2; try done. destruct H as (t & Ht & ->). eauto.
Qed.

Lemma run_chain (w : World) (ms : Monitor) (c : string) (hs : History) inner :
  inner = (fun (token : string) (_ : unit) =>
         try_catch
           (data ← Promise_all2 (GetTokenData token c)
                                (GetLendingRates "aave" token c);
            now ← ask DateNow;
            this ← get;
            match JS.get_property c (marketDataCache this) with
            | Some entries =>
                StrategyMonitor.set_marketDataCache
                  (JS.set_property c
                     (JS.set_property token
                        {| ce_tokenData := data.1;
                           ce_lendingRates := data.2;
                           lastUpdated := now |} entries)
                     (marketDataCache this))
            | None =>
                throw (ErrorObj "Cannot set properties of undefined")
            end)
           (fun _ => mret tt) : Task Monitor unit) ->
  JS.get_property c (marketDataCache ms) = Some [] ->
  (forall a, omap (token_data_answer c a) hs = []
             /\ omap (lending_rates_answer c a) hs = []) ->
  exists m1 h1,
    run w (for_of StrategyMonitor.tokens tt inner ms) hs = (Normal tt, m1, h1)
    /\ same_flags m1 ms
    /\ (exists entries,
           JS.get_property c (marketDataCache m1) = Some entries
           /\ (forall a, a ∈ StrategyMonitor.tokens ->
                         cached c a h1 (JS.get_property a entries))
           /\ (forall a, a ∉ StrategyMonitor.tokens ->
                         JS.get_property a entries = None))
    /\ (forall c' a, c' <> c ->
          JS.get_property c' (marketDataCache m1)
          = JS.get_property c' (marketDataCache ms)
          /\ omap (token_data_answer c' a) h1 = omap (token_data_answer c' a) hs
          /\ omap (lending_rates_answer c' a) h1
             = omap (lending_rates_answer c' a) hs)
    /\ (forall t, Asked DateNow t ∈ hs -> Asked DateNow t ∈ h1)
    /\ length (List.filter market_event h1)
       = (length (List.filter market_event hs)
          + 2 * length StrategyMonitor.tokens)%nat.
Proof.
  intros -> Hreset Hfresh.
  assert (Hnd : NoDup StrategyMonitor.tokens) by compute_done.
  pose (PI := fun (adone : list string) (_ : unit) (m1 : Monitor) (h1 : History) =>
          same_flags m1 ms
          /\ (exists entries,
                 JS.get_property c (marketDataCache m1) = Some entries
                 /\ (forall a, a ∈ adone -> cached c a h1 (JS.get_property a entries))
                 /\ (forall a, a ∉ adone -> JS.get_property a entries = None))
          /\ (forall a, a ∉ adone ->
                omap (token_data_answer c a) h1 = []
                /\ omap (lending_rates_answer c a) h1 = [])
          /\ (forall c' a, c' <> c ->
                JS.get_property c' (marketDataCache m1)
                = JS.get_property c' (marketDataCache ms)
                /\ omap (token_data_answer c' a) h1 = omap (token_data_answer c' a) hs
                /\ omap (lending_rates_answer c' a) h1
                   = omap (lending_rates_answer c' a) hs)
          /\ (forall t, Asked DateNow t ∈ hs -> Asked DateNow t ∈ h1)
          /\ length (List.filter market_event h1)
             = (length (List.filter market_event hs) + 2 * length adone)%nat).
  match goal with
  | |- context [for_of StrategyMonitor.tokens tt ?body ms] =>
      destruct (run_for_of w StrategyMonitor.tokens body PI) with
        (rest := StrategyMonitor.tokens) (done := @nil string) (acc := tt)
        (s := ms) (h := hs)
        as ([] & m1 & h1 & Hrun & Hfl & Hc & _ & Hother & Hmono & Hlen)
  end.
  - (* one token *)
    intros adone a rest [] m1 h1 Hl (Hfl & (entries & Hget & Hdone & Hnone)
                                     & Hfresh1 & Hother & Hmono & Hlen).
    assert (Ha : a ∉ adone).
    { rewrite Hl in Hnd. by apply NoDup_split_notin in Hnd. }
    destruct (run_token w m1 c a entries h1 Hget)
      as (o1 & o2 & asked & m2 & Hrun & Hf1 & Hf2 & Hf3 & Hres).
    exists tt, m2, (h1 ++ pair_events c a o1 o2 asked). split; [exact Hrun|].
    assert (Hcache : exists entries',
               JS.get_property c (marketDataCache m2) = Some entries'
               /\ (forall a', a' <> a ->
                     JS.get_property a' entries' = JS.get_property a' entries)
               /\ (forall c', c' <> c ->
                     JS.get_property c' (marketDataCache m2)
                     = JS.get_property c' (marketDataCache m1))
               /\ match o1, o2 with
                  | Normal tokenData, Normal lendingRates =>
                      exists now,
                        Asked DateNow now ∈ pair_events c a o1 o2 asked
                        /\ JS.get_property a entries'
                           = Some {| ce_tokenData := tokenData;
                                     ce_lendingRates := lendingRates;
                                     lastUpdated := now |}
                  | _, _ => JS.get_property a entries' = None
                  end).
    { destruct o1 as [td|e1], o2 as [lr|e2];
        try (destruct Hres as [-> ->]; exists entries;
             repeat split; auto).
      destruct Hres as (now & -> & Hm2). rewrite Hm2.
      eexists. split; [apply get_set_eq|]. split; [|split].
      - intros a' Hne. by apply get_set_ne.
      - intros c' Hne. by apply get_set_ne.
      - exists now. split; [|apply get_set_eq].
        unfold pair_events. simpl. do 2 right. left. }
    destruct Hcache as (entries' & Hget' & Hsame & Hoth' & Hnew).
    unfold PI. split; [|split; [|split; [|split; [|split]]]].
    + destruct Hfl as (? & ? & ?). repeat split; congruence.
    + exists entries'. split; [done|]. split.
      * intros a' [Hin|Hin]%elem_of_app.
        -- assert (a' <> a) by (intros ->; done).
           rewrite Hsame by done.
           eapply cached_ext; [..|apply Hdone; done].
           ++ rewrite omap_app, token_data_pair_events, decide_False, app_nil_r;
                [done|congruence].
           ++ rewrite omap_app, lending_rates_pair_events, decide_False, app_nil_r;
                [done|congruence].
           ++ intros t Ht. apply elem_of_app. by left.
        -- apply list_elem_of_singleton in Hin as ->.
           destruct (Hfresh1 a Ha) as [Ht Hr]. exists o1, o2.
           rewrite !omap_app, token_data_pair_events, lending_rates_pair_events,
             !decide_True, Ht, Hr by done.
           split; [done|]. split; [done|].
           destruct o1, o2; try done. destruct Hnew as (now & Hin & ->).
           exists now. split; [|done]. apply elem_of_app. by right.
      * intros a' Hn. rewrite elem_of_app, list_elem_of_singleton in Hn.
        rewrite Hsame by tauto. apply Hnone. tauto.
    + intros a' Hn. rewrite elem_of_app, list_elem_of_singleton in Hn.
      destruct (Hfresh1 a') as [Ht Hr]; [tauto|].
      rewrite !omap_app, token_data_pair_events, lending_rates_pair_events,
        !decide_False, Ht, Hr; [done|intros [= ->]; tauto|intros [= ->]; tauto].
    + intros c' a' Hne. destruct (Hother c' a' Hne) as (Hg & Ht & Hr).
      rewrite !omap_app, token_data_pair_events, lending_rates_pair_events,
        !decide_False, !app_nil_r, Hoth' by congruence. done.
    + intros t Ht. apply elem_of_app. left. auto.
    + rewrite List.filter_app, !length_app, market_pair_events, Hlen. simpl. lia.
  - done.
  - unfold PI. split; [done|]. split; [|split; [|split; [|split]]].
    + exists []. split; [done|]. split; [|done].
      intros a Ha. by apply elem_of_nil in Ha.
    + intros a _. apply Hfresh.
    + done.
    + done.
    + simpl. lia.
  - exists m1, h1. split; [exact Hrun|]. split; [done|]. split; [|done].
    destruct Hc as (entries & Hget & Hdone & Hnone). exists entries.
    split; [done|]. split; [done|]. done.
Qed.

Lemma updateMarketData_run (w : World) (m : Monitor) :
  exists m' h',
    run w (StrategyMonitor.updateMarketData m) [] = (Normal tt, m', h')
    /\ same_flags m' m
    /\ (forall c, c ∈ StrategyMonitor.chains ->
          exists entries,
            JS.get_property c (marketDataCache m') = Some entries
            /\ (forall a, a ∈ StrategyMonitor.tokens ->
                          cached c a h' (JS.get_property a entries))
            /\ (forall a, a ∉ StrategyMonitor.tokens ->
                          JS.get_property a entries = None))
    /\ (forall c, c ∉ StrategyMonitor.chains ->
          JS.get_property c (marketDataCache m')
          = JS.get_property c (marketDataCache m))
    /\ length (List.filter market_event h') = 24%nat.
Proof.
  unfold StrategyMonitor.updateMarketData, try_catch. rewrite run_catch.
  assert (Hnd : NoDup StrategyMonitor.chains) by compute_done.
  pose (PO := fun (done : list string) (_ : unit) (m' : Monitor) (h : History) =>
          same_flags m' m
          /\ (forall c, c ∈ done ->
                exists entries,
                  JS.get_property c (marketDataCache m') = Some entries
                  /\ (forall a, a ∈ StrategyMonitor.tokens ->
                                cached c a h (JS.get_property a entries))
                  /\ (forall a, a ∉ StrategyMonitor.tokens ->
                                JS.get_property a entries = None))
          /\ (forall c, c ∉ done ->
                JS.get_property c (marketDataCache m')
                = JS.get_property c (marketDataCache m)
                /\ forall a, omap (token_data_answer c a) h = []
                             /\ omap (lending_rates_answer c a) h = [])
          /\ length (List.filter market_event h) = (8 * length done)%nat).
  match goal with
  | |- context [for_of StrategyMonitor.chains tt ?body m] =>
      destruct (run_for_of w StrategyMonitor.chains body PO) with
        (rest := StrategyMonitor.chains) (done := @nil string) (acc := tt)
        (s := m) (h := @nil Event)
        as ([] & m' & h' & Hrun & Hfl & Hdone & Hrest & Hlen)
  end.
  - (* one chain *)
    intros done c rest [] ms hs Hl (Hfl & Hdone & Hrest & Hlen).
    assert (Hc : c ∉ done).
    { rewrite Hl in Hnd. by apply NoDup_split_notin in Hnd. }
    unfold mbind at 1 2, Task_bind at 1 2, bind at 1 2, get at 1,
      StrategyMonitor.set_marketDataCache at 1, modify at 1.
    cbn [bind_res].
    set (ms' := {| isActive := isActive ms; lastEvaluation := lastEvaluation ms;
                   marketDataCache := JS.set_property c [] (marketDataCache ms);
                   emergencyStopActivated := emergencyStopActivated ms |}).
    edestruct (run_chain w ms' c hs) as (m1 & h1 & Hrun & Hfl1 & Hc1 & Hoth & Hmono & Hlen1);
      [reflexivity|apply get_set_eq|apply Hrest; done|].
    exists tt, m1, h1. split; [exact Hrun|].
    unfold PO. split; [|split; [|split]].
    + destruct Hfl as (? & ? & ?), Hfl1 as (? & ? & ?). simpl in *.
      repeat split; congruence.
    + intros c' [Hin|Hin]%elem_of_app.
      * assert (Hne : c' <> c) by (intros ->; done).
        destruct (Hdone c' Hin) as (entries & Hget & Hin' & Hout).
        exists entries. destruct (Hoth c' "" Hne) as (Hg & _). rewrite Hg. simpl.
        rewrite get_set_ne by done. split; [done|]. split; [|done].
        intros a Ha. destruct (Hoth c' a Hne) as (_ & Ht & Hr).
        eapply cached_ext; [exact Ht|exact Hr|exact Hmono|]. by apply Hin'.
      * apply list_elem_of_singleton in Hin as ->. exact Hc1.
    + intros c' Hn. rewrite elem_of_app, list_elem_of_singleton in Hn.
      assert (Hne : c' <> c) by tauto.
      destruct (Hrest c') as [Hg Hfresh]; [tauto|].
      split.
      * destruct (Hoth c' "" Hne) as (Hg' & _). rewrite Hg'. simpl.
        by rewrite get_set_ne by done.
      * intros a. destruct (Hoth c' a Hne) as (_ & Ht & Hr).
        rewrite Ht, Hr. apply Hfresh.
    + rewrite Hlen1, Hlen, length_app. simpl. lia.
  - done.
  - unfold PO. split; [done|]. split; [|split; [|done]].
    + intros c Hc. by apply elem_of_nil in Hc.
    + intros c _. split; [done|]. done.
  - rewrite Hrun. exists m', h'. split; [done|]. split; [done|].
    split; [exact Hdone|]. split; [|exact Hlen].
    intros c Hc. by destruct (Hrest c Hc).
Qed.

(** X13.  [updateMarketData] does not throw, whatever the requests answer,
    and changes nothing of the monitor but the cache.  Afterwards each of
    the three chains has an entry, which holds nothing but the tokens
    refreshed in this run: for each of the four tokens both requests, token
    data and lending rates from aave, were made once, and the token has an
    entry exactly when both were answered, made of the two answers and a
    time read from the clock; a token of which a request failed has no
    entry, even if it had one before.  The entries of other chains are
    kept.  The run makes 24 requests. *)
Theorem market_cache_refresh (w : World) (m : Monitor) :
  exists m' h',
    run w (StrategyMonitor.updateMarketData m) [] = (Normal tt, m', h')
    /\ same_flags m' m
    /\ (forall chain, chain ∈ StrategyMonitor.chains ->
          exists entries,
            JS.get_property chain (marketDataCache m') = Some entries
            /\ (forall token, token ∈ StrategyMonitor.tokens ->
                              cached chain token h' (JS.get_property token entries))
            /\ (forall token, token ∉ StrategyMonitor.tokens ->
                              JS.get_property token entries = None))
    /\ (forall chain, chain ∉ StrategyMonitor.chains ->
          JS.get_property chain (marketDataCache m')
          = JS.get_property chain (marketDataCache m))
    /\ length (List.filter market_event h') = 24%nat.
Proof. apply updateMarketData_run. Qed.

(** ** StrategyMonitor.ts: the gate in front of the cycle *)

Lemma run_on_monitor {R} (w : World) (t : Task Monitor R) sys h :
  run w (StrategyMonitor.on_monitor t sys) h
  = let '(c, m, h') := run w (t (strategyMonitor sys)) h in
    (c, set_strategyMonitor m sys, h').
Proof. unfold StrategyMonitor.on_monitor, zoom. by apply run_zoom. Qed.

Lemma run_on_engine {R} (w : World) (t : Task Engine R) sys h :
  run w (StrategyMonitor.on_engine t sys) h
  = let '(c, e, h') := run w (t (decisionEngine sys)) h in
    (c, set_decisionEngine e sys, h').
Proof. unfold StrategyMonitor.on_engine, zoom. by apply run_zoom. Qed.

Lemma performRiskChecks_from (env : ProcessEnv) (m : Monitor) (w : World) h :
  exists rc hr,
    run w (StrategyMonitor.performRiskChecks env m) h = (Normal rc, m, h ++ hr)
    /\ omap oracle_answer hr = [] /\ omap submission hr = []
    /\ Forall (fun ev => market_event ev = false) hr
    /\ length hr = 2%nat.
Proof.
  pose proof (run_after w (StrategyMonitor.performRiskChecks env m) h []) as Hr.
  rewrite app_nil_r in Hr. rewrite Hr. clear Hr.
  destruct (performRiskChecks_run env m (after w h)) as (o1 & o2 & ck & _ & H).
  destruct o1 as [g1|e1], o2 as [g2|e2]; cbv zeta in H; rewrite H;
    eexists _, _; (split; [reflexivity|]); repeat split; by repeat constructor.
Qed.

Lemma monitor_run (config : DecisionEngineConfig) (mei : option string)
    (w : World) (sys : System) :
  let m := strategyMonitor sys in
  run w (StrategyMonitor.evaluateAndExecute config mei sys) []
  = if gate_shut m then (Normal None, sys, [])
    else
      let now := reply w [] DateNow in
      let h1 := [Asked DateNow now] in
      if throttled mei m now then (Normal None, sys, h1)
      else
        let '(c1, m1, h2) :=
          run w (StrategyMonitor.performRiskChecks (env config) m) h1 in
        match c1 with
        | Throw err => (Throw err, set_strategyMonitor m1 sys, h2)
        | Normal riskCheck =>
            if negb (passed riskCheck)
            then (Normal None, set_strategyMonitor m1 sys, h2)
            else
              let '(c2, e2, h3) :=
                run w (DecisionEngine.evaluateAndExecute config (decisionEngine sys))
                    h2 in
              match c2 with
              | Throw err =>
                  (Throw err, {| strategyMonitor := m1; decisionEngine := e2 |}, h3)
              | Normal result =>
                  let t := reply w h3 DateNow in
                  (Normal result,
                   {| strategyMonitor := evaluated_at t m1; decisionEngine := e2 |},
                   h3 ++ [Asked DateNow t])
              end
        end.
Proof.
  intros m. unfold StrategyMonitor.evaluateAndExecute.
  unfold mbind at 1, Task_bind at 1, bind at 1, gets at 1. cbn [bind_res].
  fold m. fold (gate_shut m). destruct (gate_shut m); [done|].
  unfold try_catch. rewrite run_catch.
  unfold mbind at 1, Task_bind at 1, bind at 1, ask at 1. cbn [bind_res run app].
  unfold mbind at 1, Task_bind at 1, bind at 1, gets at 1. cbn [bind_res].
  fold m. fold (throttled mei m (reply w [] DateNow)).
  destruct (throttled mei m (reply w [] DateNow)); [done|].
  unfold mbind at 1, Task_bind at 1, bind at 1. rewrite run_bind.
  unfold await_method at 1. rewrite run_settle_later, run_on_monitor. fold m.
  destruct (run w (StrategyMonitor.performRiskChecks (env config) m) _)
    as [[[rc|err] m1] h2]; [|done].
  destruct (passed rc); cbn [negb]; [|done].
  unfold mbind at 1, Task_bind at 1, bind at 1. rewrite run_bind.
  unfold await_method at 1. rewrite run_settle_later, run_on_engine.
  cbn [decisionEngine set_strategyMonitor].
  destruct (run w (DecisionEngine.evaluateAndExecute config (decisionEngine sys)) h2)
    as [[[res|err] e2] h3]; [|done].
  reflexivity.
Qed.

(** X14.  When [StrategyMonitor.evaluateAndExecute] does not reach the engine.
    A monitor that is not active, or on which the emergency stop is set,
    returns [null] without reading the clock or making a request.  An
    active monitor reads the clock once and returns [null] if the time
    since the last evaluation is less than [MIN_EVALUATION_INTERVAL]
    (300000 ms by default).  Otherwise it runs the risk checks, which make
    the two gas price requests and no other call, and returns [null] when
    they fail.  In all three cases the monitor and the engine are as before:
    the time of the last evaluation is not updated, no decision is asked
    for and nothing is submitted. *)
Theorem monitor_gate_closed (config : DecisionEngineConfig)
    (MIN_EVALUATION_INTERVAL : option string) (w : World) (sys : System) :
  let m := strategyMonitor sys in
  let now := reply w [] DateNow in
  let gate :=
    run w (StrategyMonitor.evaluateAndExecute config MIN_EVALUATION_INTERVAL sys) [] in
  (gate_shut m = true -> gate = (Normal None, sys, []))
  /\ (gate_shut m = false -> throttled MIN_EVALUATION_INTERVAL m now = true ->
      gate = (Normal None, sys, [Asked DateNow now]))
  /\ (gate_shut m = false -> throttled MIN_EVALUATION_INTERVAL m now = false ->
      exists riskCheck hr,
        run w (StrategyMonitor.performRiskChecks (env config) m) [Asked DateNow now]
        = (Normal riskCheck, m, [Asked DateNow now] ++ hr)
        /\ length hr = 2%nat
        /\ omap oracle_answer hr = [] /\ omap submission hr = []
        /\ Forall (fun ev => market_event ev = false) hr
        /\ (passed riskCheck = false ->
            gate = (Normal None, sys, [Asked DateNow now] ++ hr))).
Proof.
  intros m now gate. unfold gate. rewrite monitor_run. cbv zeta. fold m. fold now.
  split; [by intros ->|]. split; [by intros -> ->|]. intros -> ->.
  destruct (performRiskChecks_from (env config) m w [Asked DateNow now])
    as (rc & hr & Hrun & Ho & Hs & Hm & Hlen).
  exists rc, hr. rewrite Hrun. repeat split; try done.
  intros ->. simpl. by destruct sys.
Qed.

(** X15.  When the risk checks pass, [StrategyMonitor.evaluateAndExecute] runs
    one cycle of the engine and returns what the cycle returns, a result or
    [null]; it then reads the clock again and stores that time as the time
    of the last evaluation.  When the cycle throws, the error is thrown
    again and the time of the last evaluation is not updated.  When the
    engine is already in a cycle, that inner call returns [null] without
    any request, and the time is still updated. *)
Theorem monitor_gate_open (config : DecisionEngineConfig)
    (MIN_EVALUATION_INTERVAL : option string) (w : World) (sys : System)
    riskCheck h2 :
  let m := strategyMonitor sys in
  let now := reply w [] DateNow in
  gate_shut m = false ->
  throttled MIN_EVALUATION_INTERVAL m now = false ->
  run w (StrategyMonitor.performRiskChecks (env config) m) [Asked DateNow now]
  = (Normal riskCheck, m, h2) ->
  passed riskCheck = true ->
  let '(c2, e2, h3) :=
    run w (DecisionEngine.evaluateAndExecute config (decisionEngine sys)) h2 in
  run w (StrategyMonitor.evaluateAndExecute config MIN_EVALUATION_INTERVAL sys) []
  = match c2 with
    | Normal result =>
        (Normal result,
         {| strategyMonitor := evaluated_at (reply w h3 DateNow) m;
            decisionEngine := e2 |},
         h3 ++ [Asked DateNow (reply w h3 DateNow)])
    | Throw err =>
        (Throw err, {| strategyMonitor := m; decisionEngine := e2 |}, h3)
    end
  /\ (isExecuting (decisionEngine sys) = true ->
      c2 = Normal None /\ e2 = decisionEngine sys /\ h3 = h2).
Proof.
  intros m now Hshut Hthr Hrisk Hpass.
  rewrite monitor_run. cbv zeta. fold m. fold now.
  rewrite Hshut, Hthr, Hrisk, Hpass.
  cbn [negb].
  destruct (run w (DecisionEngine.evaluateAndExecute config (decisionEngine sys)) h2)
    as [[c2 e2] h3] eqn:Hrun.
  split; [by destruct c2|].
  intros Hbusy. rewrite (guard_skips config _ Hbusy) in Hrun. simpl in Hrun.
  by injection Hrun as <- <- <-.
Qed.

Lemma monitor_gate_open_witness :
  let w := Sample.world
             (Normal (Some (Sample.decision "lend" (Some "500") 0.9%float)))
             (Normal (Sample.receipt true)) Sample.calm in
  let sys := {| strategyMonitor := Sample.monitor [];
                decisionEngine := Sample.engine 2 |} in
  let res := run w (StrategyMonitor.evaluateAndExecute Sample.config None sys) [] in
  lastEvaluation (strategyMonitor res.1.2) = 1700000000000
  /\ length (history (decisionEngine res.1.2)) = 3%nat.
Proof.
  intros w sys res.
  pose (h2 := [Asked DateNow 1700000000000;
               Called (GetGasPrice "ethereum") (Normal 30%float);
               Called (GetGasPrice "polygon") (Normal 30%float)]).
  pose proof (monitor_gate_open Sample.config None w sys
                {| passed := true; reasons := [] |} h2
                eq_refl ltac:(vm_compute; reflexivity)
                ltac:(vm_compute; reflexivity) eq_refl) as H.
  destruct (run w (DecisionEngine.evaluateAndExecute Sample.config
                     (decisionEngine sys)) h2) as [[c2 e2] h3] eqn:Hrun.
  destruct H as [H _]. unfold res. rewrite H.
  assert (Hc : exists r, c2 = Normal r /\ length (history e2) = 3%nat
                         /\ reply w h3 DateNow = 1700000000000).
  { assert (Heq : c2 = (c2, e2, h3).1.1) by done. rewrite <- Hrun in Heq.
    assert (Heq2 : e2 = (c2, e2, h3).1.2) by done. rewrite <- Hrun in Heq2.
    rewrite Heq, Heq2. vm_compute. eauto. }
  destruct Hc as (r & -> & Hlen & Ht). simpl. split; [reflexivity|exact Hlen].
Defined.

Lemma gate_shut_run config mei sys :
  gate_shut (strategyMonitor sys) = true ->
  StrategyMonitor.evaluateAndExecute config mei sys = Fin (Normal None) sys.
Proof.
  intros H. unfold StrategyMonitor.evaluateAndExecute.
  unfold mbind at 1, Task_bind at 1, bind at 1, gets at 1. cbn [bind_res].
  fold (gate_shut (strategyMonitor sys)). by rewrite H.
Qed.

(** X16.  The life cycle of the monitor.  [emergencyStop] sets the stop and
    clears the activity; [stop] clears the activity and keeps the stop, so
    it does not undo an emergency stop; in either state
    [evaluateAndExecute] returns [null] at once.  Only [start] clears the
    stop: it does not throw, whatever the requests of its refresh of the
    cache answer, leaves the monitor active with the time of the last
    evaluation unchanged, and the gate is open again. *)
Theorem monitor_life_cycle (config : DecisionEngineConfig)
    (MIN_EVALUATION_INTERVAL : option string) (sys : System) :
  let m := strategyMonitor sys in
  let stopped b :=
    {| isActive := false; lastEvaluation := lastEvaluation m;
       marketDataCache := marketDataCache m; emergencyStopActivated := b |} in
  let gate sys := StrategyMonitor.evaluateAndExecute config MIN_EVALUATION_INTERVAL sys in
  StrategyMonitor.emergencyStop m = Fin (Normal tt) (stopped true)
  /\ StrategyMonitor.stop m = Fin (Normal tt) (stopped (emergencyStopActivated m))
  /\ StrategyMonitor.stop (stopped true) = Fin (Normal tt) (stopped true)
  /\ (forall m', isActive m' = false \/ emergencyStopActivated m' = true ->
        gate (set_strategyMonitor m' sys)
        = Fin (Normal None) (set_strategyMonitor m' sys))
  /\ (forall w, exists m' h',
        run w (StrategyMonitor.start m) [] = (Normal tt, m', h')
        /\ isActive m' = true
        /\ emergencyStopActivated m' = false
        /\ lastEvaluation m' = lastEvaluation m
        /\ gate_shut m' = false).
Proof.
  intros m stopped gate.
  split; [done|]. split; [done|]. split; [done|]. split.
  - intros m' Hm'. apply gate_shut_run. unfold gate_shut. simpl.
    destruct Hm' as [-> | ->]; [done|apply orb_true_r].
  - intros w. unfold StrategyMonitor.start.
    unfold mbind at 1 2, Task_bind at 1 2, bind at 1 2,
      StrategyMonitor.set_isActive at 1,
      StrategyMonitor.set_emergencyStopActivated at 1, modify at 1 2.
    cbn [bind_res]. unfold await_method. rewrite run_settle_later.
    match goal with
    | |- context [StrategyMonitor.updateMarketData ?m1] =>
        destruct (updateMarketData_run w m1) as (m' & h' & Hrun & (H1 & H2 & H3) & _)
    end.
    exists m', h'. simpl in H1, H2, H3. unfold gate_shut.
    rewrite Hrun, H1, H3. by repeat split.
Qed.

(** ** DecisionEngine.ts: the success rate *)







(** ** StrategyMonitor.ts: the reports *)

(** X18.  [getStrategyStatus] does not throw, makes no request and leaves
    monitor and engine as they are; it reads the clock twice.  The status is
    active exactly when the gate of [evaluateAndExecute] is not shut; it
    carries the time of the last evaluation, the cache, the total and the
    success rate of [getStats], and always a portfolio health and risk
    metrics, stamped with the two readings of the clock.
    [generateRecommendations] does not throw either and never answers with
    its error message: it recommends a review of the parameters exactly when
    the reported success rate is below 70, and notes low activity exactly
    when the ledger has fewer than 5 records; so it gives both on an empty
    ledger, whose success rate is reported as 0. *)
Theorem monitor_reports (w : World) (sys : System) :
  let m := strategyMonitor sys in
  let stats := DecisionEngine.getStats (decisionEngine sys) in
  let low_success :=
    "Consider reviewing AI decision parameters - success rate below 70%" in
  let low_activity :=
    "Low activity detected - market conditions may not be favorable for rebalancing" in
  (exists t1 t2 status,
     run w (StrategyMonitor.getStrategyStatus sys) []
     = (Normal status, sys, [Asked DateNow t1; Asked DateNow t2])
     /\ ss_isActive status = negb (gate_shut m)
     /\ ss_lastEvaluation status = lastEvaluation m
     /\ ss_totalDecisions status = length (history (decisionEngine sys))
     /\ ss_successRate status = successRate stats
     /\ currentMarketConditions status = marketDataCache m
     /\ (exists health, portfolioHealth status = Some health
                        /\ ph_lastUpdated health = t1)
     /\ (exists metrics, riskMetrics status = Some metrics
                         /\ lastCalculated metrics = t2))
  /\ (exists recommendations,
        StrategyMonitor.generateRecommendations sys = Fin (Normal recommendations) sys
        /\ (low_success ∈ recommendations <-> JS.lt (successRate stats) 70%float = true)
        /\ (low_activity ∈ recommendations
            <-> (length (history (decisionEngine sys)) < 5)%nat)
        /\ (forall r, r ∈ recommendations -> r = low_success \/ r = low_activity)
        /\ (history (decisionEngine sys) = [] ->
            recommendations = [low_success; low_activity])).
Proof.
  intros m stats low_success low_activity. split.
  - destruct sys as [m0 e0]. simpl in m. subst m.
    eexists _, _, _. split; [reflexivity|]. cbn.
    split. { unfold gate_shut. by destruct (isActive m0), (emergencyStopActivated m0). }
    repeat split; eauto.
  - assert (Hrun : StrategyMonitor.generateRecommendations sys
                   = Fin (Normal ((if JS.lt (successRate stats) 70%float
                                   then [low_success] else [])
                                  ++ (if (length (history (decisionEngine sys)) <? 5)%nat
                                      then [low_activity] else []))) sys).
    { unfold StrategyMonitor.generateRecommendations, try_catch, mbind, Task_bind,
        bind, gets. cbn [bind_res catch_res]. fold stats.
      change (totalDecisions stats) with (length (history (decisionEngine sys))).
      by destruct (JS.lt (successRate stats) 70%float),
                  (length (history (decisionEngine sys)) <? 5)%nat. }
    eexists. split; [exact Hrun|].
    assert (Hne : low_success <> low_activity) by done.
    assert (Hempty : history (decisionEngine sys) = [] ->
                     JS.lt (successRate stats) 70%float = true).
    { intros Hh. unfold stats, DecisionEngine.getStats. rewrite Hh. reflexivity. }
    destruct (JS.lt (successRate stats) 70%float) eqn:Hlt;
      destruct (Nat.ltb_spec (length (history (decisionEngine sys))) 5) as [Hlen|Hlen];
      cbn [app]; rewrite ?elem_of_cons, ?elem_of_nil.
    + split; [tauto|]. split; [tauto|]. split; [|done].
      intros r. rewrite ?elem_of_cons, ?elem_of_nil. tauto.
    + split; [tauto|]. split; [split; [intuition congruence|lia]|]. split.
      * intros r. rewrite ?elem_of_cons, ?elem_of_nil. tauto.
      * intros Hh. rewrite Hh in Hlen. simpl in Hlen. lia.
    + split; [split; [intuition congruence|done]|]. split; [tauto|]. split.
      * intros r. rewrite ?elem_of_cons, ?elem_of_nil. tauto.
      * intros Hh. by specialize (Hempty Hh).
    + split; [split; [tauto|done]|]. split; [split; [tauto|lia]|]. split.
      * intros r. rewrite ?elem_of_nil. tauto.
      * intros Hh. by specialize (Hempty Hh).
Qed.

(** ** onWhaleMove.ts: the handler of whale transfers *)

Lemma analyzeTransferImpact_run {S} toLocaleString (transfer : WhaleTransfer)
    (w : World) (s : S) h :
  let request := GetTokenData (wt_token transfer) "ethereum" in
  let o := settle w h request in
  exists impact,
    run w (WhaleMovementHandler.analyzeTransferImpact toLocaleString transfer s) h
    = (Normal impact, s, h ++ [Called request o])
    /\ shouldRebalance impact
       = match o with
         | Normal tokenData => stirs transfer tokenData
         | Throw _ => false
         end.
Proof.
  intros request o. unfold WhaleMovementHandler.analyzeTransferImpact, try_catch.
  rewrite run_catch.
  unfold mbind at 1, Task_bind at 1, bind at 1, await at 1. cbn [bind_res run].
  fold request. fold o. destruct o as [tokenData|err]; cbn [bind_res run].
  - unfold stirs.
    set (impactPercentage := (valueUSD transfer / _)%float).
    destruct (JS.gt impactPercentage 0.05%float); cbn [andb];
      [|eexists; split; [reflexivity|done]].
    destruct (JS.gt (valueUSD transfer) 1000000%float); cbn [andb];
      [|eexists; split; [reflexivity|done]].
    unfold WhaleMovementHandler.isMovingFromExchange.
    destruct (WhaleMovementHandler.isMovingToExchange (wt_to transfer)).
    + eexists; split; [reflexivity|]. cbn [shouldRebalance]. by rewrite orb_true_r.
    + destruct (WhaleMovementHandler.isMovingToExchange (wt_from transfer));
        (eexists; split; [reflexivity|]); cbn [shouldRebalance]; by rewrite orb_false_r.
  - eexists; split; [reflexivity|done].
Qed.

Lemma run_extends {S R} (w : World) (r : Res S R) h :
  exists hn, (run w r h).2 = h ++ hn.
Proof.
  revert h. induction r as [c s|c s k IH|s k IH|q s k IH]; intros h; simpl.
  - exists []. by rewrite app_nil_r.
  - destruct (IH (settle w h c) s (h ++ [Called c (settle w h c)])) as [hn ->].
    eexists. by rewrite <- (assoc_L (++)).
  - apply IH.
  - destruct (IH (reply w h q) s (h ++ [Asked q (reply w h q)])) as [hn ->].
    eexists. by rewrite <- (assoc_L (++)).
Qed.

(** X19.  [handleWhaleTransfer] never throws.  It first requests the data of
    the token on ethereum.  It runs one cycle of the engine exactly when
    that request is answered and the transfer is worth more than 5% of the
    daily volume (of 1 when the volume is 0 or missing), is worth more than
    1000000 USD, and either scores more than 3, the score being ten times
    that share capped at 10, or goes to one of the known exchange
    addresses, in any letter case.  What the cycle returns or throws is
    dropped.  In every other case, so whenever the request fails or the
    transfer is worth at most 1000000 USD, nothing else happens; and on an
    engine that is already in a cycle the triggered cycle changes nothing
    and requests nothing. *)
Theorem whale_transfer_handled (toLocaleString : JS.number -> string)
    (config : DecisionEngineConfig) (transfer : WhaleTransfer) (w : World)
    (e : Engine) :
  let request := GetTokenData (wt_token transfer) "ethereum" in
  let o := settle w [] request in
  let h1 := [Called request o] in
  exists e' hn,
    run w (WhaleMovementHandler.handleWhaleTransfer toLocaleString config transfer e) []
    = (Normal tt, e', h1 ++ hn)
    /\ match o with
       | Normal tokenData =>
           if stirs transfer tokenData
           then exists c,
                  run w (DecisionEngine.evaluateAndExecute config e) h1
                  = (c, e', h1 ++ hn)
           else e' = e /\ hn = []
       | Throw _ => e' = e /\ hn = []
       end
    /\ (isExecuting e = true -> e' = e /\ hn = [])
    /\ (JS.gt (valueUSD transfer) 1000000%float = false -> e' = e /\ hn = []).
Proof.
  intros request o h1.
  unfold WhaleMovementHandler.handleWhaleTransfer, try_catch. rewrite run_catch.
  unfold mbind at 1, Task_bind at 1, bind at 1. rewrite run_bind.
  unfold await_method at 1. rewrite run_settle_later.
  destruct (analyzeTransferImpact_run toLocaleString transfer w e [])
    as (impact & -> & Himpact).
  fold request in Himpact |- *. fold o in Himpact |- *.
  change ([] ++ [Called request o]) with h1.
  cbn beta iota.
  destruct (shouldRebalance impact) eqn:Hsh.
  - unfold mbind at 1, Task_bind at 1, bind at 1. rewrite run_bind.
    unfold await_method at 1. rewrite run_settle_later.
    destruct (run_extends w (DecisionEngine.evaluateAndExecute config e) h1) as [hn Hhn].
    destruct (run w (DecisionEngine.evaluateAndExecute config e) h1)
      as [[c e'] h'] eqn:Hrun.
    simpl in Hhn. subst h'.
    exists e', hn. split; [by destruct c|]. split; [|split].
    + destruct o as [tokenData|err]; [|done]. rewrite <- Himpact. eauto.
    + intros Hbusy. rewrite (guard_skips config e Hbusy) in Hrun. simpl in Hrun.
      injection Hrun as _ <- Hh. split; [done|].
      apply (f_equal length) in Hh. rewrite ?length_app in Hh.
      destruct hn; [done|simpl in Hh; lia].
    + intros Hsmall. destruct o as [tokenData|err]; [|done].
      unfold stirs in Himpact. rewrite Hsmall, andb_false_r in Himpact. done.
  - exists e, []. split; [done|]. split; [|done].
    destruct o as [tokenData|err]; [|done]. by rewrite <- Himpact.
Qed.

(** ** AIAgent.ts and DecisionEngine.ts: conversations *)

Section Ends.
Context {S R : Type}.
Implicit Types (t : Talk S R) (s : S) (tr : list Exchange) (c : Completion R).

Lemma ends_Told c0 s0 tr c s :
  ends (Told c0 s0) tr c s <-> tr = [] /\ c = c0 /\ s = s0.
Proof.
  split.
  - intros H. by inversion H.
  - intros (-> & -> & ->). constructor.
Qed.

Lemma ends_Prompted request s0 k tr c s :
  ends (Prompted request s0 k) tr c s
  <-> exists o tr', tr = Said request o :: tr' /\ ends (k o s0) tr' c s.
Proof.
  split.
  - intros H. inversion H; subst. eauto.
  - intros (o & tr' & -> & H). by constructor.
Qed.

Lemma ends_Resumed s0 k tr c s :
  ends (Resumed s0 k) tr c s <-> ends (k s0) tr c s.
Proof.
  split.
  - intros H. by inversion H.
  - intros H. by constructor.
Qed.

End Ends.

Lemma chat_term {S} (config : AIAgentConfig) message context (s : S) :
  exists request k,
    AIAgent.chat config message context s = Prompted request s k
    /\ request
       = {| rq_model := model config;
            rq_messages :=
              {| role := "system"; content := Text AIAgent.getSystemPrompt |}
              :: ((fun msg => {| role := role msg; content := Text (content msg) |})
                    <$> default [] (context ≫= previousMessages))
              ++ [{| role := "user"; content := Text message |}];
            rq_temperature := temperature config;
            rq_max_tokens := 2000 |}
    /\ forall o s',
         k o s' = Told (text_or "I apologize, but I could not generate a response." o) s'.
Proof.
  eexists _, _. split; [reflexivity|]. split; [reflexivity|].
  intros [text|err] s'; reflexivity.
Qed.

(** X20.  [chat] makes exactly one request and does not touch the state of
    its caller.  The request carries the model and the temperature of the
    configuration, at most 2000 tokens, and as messages the system prompt,
    then the earlier messages of the context in their order and with
    their roles, none if the context or its list is missing, then the
    message of the user.  [chat] returns the text of the answer, or its
    apology when the answer carries no text or an empty one, and throws
    what the request throws. *)
Theorem chat_exchange {S} (config : AIAgentConfig) (message : string)
    (context : option ChatContext) (s : S) tr c s' :
  let earlier := default [] (context ≫= previousMessages) in
  let request :=
    {| rq_model := model config;
       rq_messages :=
         {| role := "system"; content := Text AIAgent.getSystemPrompt |}
         :: ((fun msg => {| role := role msg; content := Text (content msg) |})
               <$> earlier)
         ++ [{| role := "user"; content := Text message |}];
       rq_temperature := temperature config;
       rq_max_tokens := 2000 |} in
  ends (AIAgent.chat config message context s) tr c s'
  <-> exists o,
        tr = [Said request o] /\ s' = s
        /\ c = match o with
               | Normal (Some text) =>
                   Normal (if String.eqb text ""
                           then "I apologize, but I could not generate a response."
                           else text)
               | Normal None =>
                   Normal "I apologize, but I could not generate a response."
               | Throw err => Throw err
               end.
Proof.
  intros earlier request.
  destruct (chat_term config message context s) as (request' & k & -> & -> & Hk).
  fold earlier. fold request. rewrite ends_Prompted. split.
  - intros (o & tr' & -> & H). rewrite Hk in H.
    apply ends_Told in H as (-> & -> & ->). exists o.
    split; [done|]. split; [done|]. by destruct o as [[text|]|err].
  - intros (o & -> & -> & ->). exists o, []. split; [done|]. rewrite Hk.
    apply ends_Told. split; [done|]. split; [|done]. by destruct o as [[text|]|err].
Qed.

(** X21.  [DecisionEngine.explainDecision] never changes the engine.  For an
    identifier that no record of the ledger bears it throws
    ['Decision <id> not found'] without any request.  Otherwise it makes
    exactly one request, with temperature 0.5 and at most 1000 tokens,
    whose prompt carries the identifier and the decision, market context
    and execution result of the record [getDecisionById] finds; it returns
    the text of the answer, ['Unable to explain decision'] when there is
    none or an empty one, and throws what the request throws. *)
Theorem explanation_of_decision (aiAgent : AIAgentConfig) (id : string)
    (e : Engine) tr c e' :
  ends (DecisionEngine.explainDecision aiAgent id e) tr c e'
  <-> exists found,
        DecisionEngine.getDecisionById id e = Fin (Normal found) e
        /\ e' = e
        /\ match found with
           | None =>
               tr = [] /\ c = Throw (ErrorObj ("Decision " +:+ id +:+ " not found"))
           | Some record =>
               exists o,
                 tr = [Said (explain_request aiAgent id record) o]
                 /\ c = match o with
                        | Normal (Some text) =>
                            Normal (if String.eqb text ""
                                    then "Unable to explain decision" else text)
                        | Normal None => Normal "Unable to explain decision"
                        | Throw err => Throw err
                        end
           end.
Proof.
  unfold DecisionEngine.explainDecision, DecisionEngine.getDecisionById, gets.
  unfold mbind, Conversation_bind, await_talk at 1, lift. cbn [of_res told_later bind_talk].
  rewrite ends_Resumed.
  destruct (List.find _ (history e)) as [record|].
  - unfold await_talk, AIAgent.explainDecision, try_catch_talk, mbind, Conversation_bind,
      create. cbn [bind_talk catch_talk told_later].
    fold (explain_request aiAgent id record).
    rewrite ends_Prompted. split.
    + intros (o & tr' & -> & H). exists (Some record). split; [done|].
      destruct o as [[text|]|err]; cbn in H;
        apply ends_Resumed, ends_Told in H as (-> & -> & ->); eauto.
    + intros (found & [= <-] & -> & o & -> & ->).
      exists o, []. split; [done|].
      destruct o as [[text|]|err]; cbn; apply ends_Resumed, ends_Told; done.
  - unfold throw_talk. rewrite ends_Told. split.
    + intros (-> & -> & ->). exists None. done.
    + intros (found & [= <-] & -> & -> & ->). done.
Qed.

(* ===================================================================== *)
(** * The contracts                                                      *)
(* ===================================================================== *)

(** ** Lists *)

Lemma index_of_first (x : Solidity.address) (l1 l2 : list Solidity.address) :
  x ∉ l1 -> Solidity.index_of x (l1 ++ x :: l2) = Some (length l1).
Proof.
  induction l1 as [|y l1 IH]; intros Hx; simpl.
  - by rewrite N.eqb_refl.
  - apply not_elem_of_cons in Hx as [Hne Hx].
    destruct (N.eqb_spec y x); [congruence|]. by rewrite IH.
Qed.

Lemma index_of_None (x : Solidity.address) (l : list Solidity.address) :
  x ∉ l -> Solidity.index_of x l = None.
Proof.
  induction l as [|y l IH]; intros Hx; simpl; [done|].
  apply not_elem_of_cons in Hx as [Hne Hx].
  destruct (N.eqb_spec y x); [congruence|]. by rewrite IH.
Qed.

Lemma swap_remove_last (x : Solidity.address) (l1 : list Solidity.address) :
  x ∉ l1 -> Solidity.swap_remove x (l1 ++ [x]) = l1.
Proof.
  intros Hx. unfold Solidity.swap_remove.
  rewrite index_of_first, last_snoc by done.
  rewrite insert_app_r_alt, Nat.sub_diag by lia. simpl.
  by rewrite removelast_last.
Qed.

Lemma swap_remove_inner (x z : Solidity.address) (l1 l2 : list Solidity.address) :
  x ∉ l1 ->
  Solidity.swap_remove x (l1 ++ x :: l2 ++ [z]) = l1 ++ z :: l2.
Proof.
  intros Hx. unfold Solidity.swap_remove.
  rewrite index_of_first by done.
  replace (l1 ++ x :: l2 ++ [z]) with ((l1 ++ x :: l2) ++ [z])
    by (by rewrite <- (assoc_L (++))).
  rewrite last_snoc.
  replace ((l1 ++ x :: l2) ++ [z]) with (l1 ++ x :: l2 ++ [z])
    by (by rewrite <- (assoc_L (++))).
  rewrite insert_app_r_alt, Nat.sub_diag by lia. simpl.
  replace (l1 ++ z :: l2 ++ [z]) with ((l1 ++ z :: l2) ++ [z])
    by (by rewrite <- (assoc_L (++))).
  by rewrite removelast_last.
Qed.

Lemma swap_remove_spec (x : Solidity.address) (l : list Solidity.address) :
  NoDup l -> x ∈ l ->
  NoDup (Solidity.swap_remove x l)
  /\ (forall y, y ∈ Solidity.swap_remove x l <-> y ∈ l /\ y <> x)
  /\ S (length (Solidity.swap_remove x l)) = length l.
Proof.
  intros Hnd Hin.
  apply list_elem_of_split in Hin as (l1 & l2 & ->).
  assert (Hx1 : x ∉ l1).
  { apply NoDup_app in Hnd as (_ & Hdisj & _). intros H. apply (Hdisj _ H). left. }
  destruct l2 as [|y l2] using rev_ind.
  - rewrite swap_remove_last by done.
    apply NoDup_app in Hnd as (Hnd1 & _ & _).
    split; [done|]. split; [|rewrite length_app; simpl; lia].
    intros y. rewrite elem_of_app, list_elem_of_singleton.
    split; [|tauto]. intros Hy. split; [tauto|]. by intros ->.
  - clear IHl2. rename y into z. rewrite swap_remove_inner by done.
    assert (Hperm : l1 ++ x :: l2 ++ [z] ≡ₚ x :: (l1 ++ z :: l2)).
    { rewrite <- Permutation_middle. constructor.
      apply Permutation_app_head.
      by rewrite <- Permutation_cons_append. }
    rewrite Hperm in Hnd. apply NoDup_cons in Hnd as [Hx Hnd].
    split; [done|]. split.
    + intros y. rewrite Hperm, elem_of_cons. split.
      * intros Hy. split; [tauto|]. by intros ->.
      * tauto.
    + rewrite !length_app. simpl. rewrite length_app. simpl. lia.
Qed.

Lemma swap_remove_absent (x : Solidity.address) (l : list Solidity.address) :
  x ∉ l -> Solidity.swap_remove x l = l.
Proof. intros Hx. unfold Solidity.swap_remove. by rewrite index_of_None. Qed.

(** ** Execution *)

Section ExecFacts.
Import Solidity.
Context {S : Type}.

Lemma bind_Done {A B} (m : Exec S A) (f : A -> Exec S B) s r s' :
  (m ≫= f) s = Done (r, s')
  <-> exists a s1, m s = Done (a, s1) /\ f a s1 = Done (r, s').
Proof.
  unfold mbind, Exec_bind, bind. destruct (m s) as [[a s1]|e].
  - split; [eauto|]. by intros (? & ? & [= <- <-] & ?).
  - split; [done|]. by intros (? & ? & ? & ?).
Qed.

Lemma ret_Done {A} (a : A) (s : S) r s' :
  (mret a : Exec S A) s = Done (r, s') <-> r = a /\ s' = s.
Proof. unfold mret, Exec_ret, ret. split; [by intros [= <- <-]|by intros [-> ->]]. Qed.

Lemma require_Done (b : bool) reason (s : S) r s' :
  require b reason s = Done (r, s') <-> b = true /\ s' = s.
Proof.
  unfold require, ret, revert. destruct b.
  - split; [by intros [= <- <-]|]. intros [_ ->]. by destruct r.
  - split; [done|]. by intros [? _].
Qed.

Lemma get_Done (s : S) r s' : get s = Done (r, s') <-> r = s /\ s' = s.
Proof. unfold get. split; [by intros [= <- <-]|by intros [-> ->]]. Qed.

Lemma modify_Done (f : S -> S) (s : S) r s' :
  modify f s = Done (r, s') <-> s' = f s.
Proof. unfold modify. split; [by intros [= <- <-]|]. intros ->. by destruct r. Qed.

Lemma revert_Done {A} e (s : S) (r : A) s' : revert e s = Done (r, s') <-> False.
Proof. done. Qed.

Lemma checked_add_Done (a b : uint256) (s : S) r s' :
  checked_add a b s = Done (r, s')
  <-> (a + b <= max_uint256)%N /\ r = (a + b)%N /\ s' = s.
Proof.
  unfold checked_add, ret, revert. destruct (N.leb_spec (a + b) max_uint256).
  - split; [by intros [= <- <-]|by intros (_ & -> & ->)].
  - split; [done|]. intros [? _]. lia.
Qed.

Lemma checked_sub_Done (a b : uint256) (s : S) r s' :
  checked_sub a b s = Done (r, s') <-> (b <= a)%N /\ r = (a - b)%N /\ s' = s.
Proof.
  unfold checked_sub, ret, revert. destruct (N.leb_spec b a).
  - split; [by intros [= <- <-]|by intros (_ & -> & ->)].
  - split; [done|]. intros [? _]. lia.
Qed.

Lemma checked_mul_Done (a b : uint256) (s : S) r s' :
  checked_mul a b s = Done (r, s')
  <-> (a * b <= max_uint256)%N /\ r = (a * b)%N /\ s' = s.
Proof.
  unfold checked_mul, ret, revert. destruct (N.leb_spec (a * b) max_uint256).
  - split; [by intros [= <- <-]|by intros (_ & -> & ->)].
  - split; [done|]. intros [? _]. lia.
Qed.
End ExecFacts.

Ltac exec_inv :=
  repeat match goal with
  | H : (_ ≫= _) _ = Solidity.Done _ |- _ =>
      apply bind_Done in H as (? & ? & ? & H)
  | H : mret _ _ = Solidity.Done _ |- _ => apply ret_Done in H as [? ?]
  | H : Solidity.require _ _ _ = Solidity.Done _ |- _ =>
      apply require_Done in H as [? ?]
  | H : Solidity.get _ = Solidity.Done _ |- _ => apply get_Done in H as [? ?]
  | H : Solidity.modify _ _ = Solidity.Done _ |- _ => apply modify_Done in H
  | H : Solidity.revert _ _ = Solidity.Done _ |- _ => by apply revert_Done in H
  | H : Solidity.checked_add _ _ _ = Solidity.Done _ |- _ =>
      apply checked_add_Done in H as (? & ? & ?)
  | H : Solidity.checked_sub _ _ _ = Solidity.Done _ |- _ =>
      apply checked_sub_Done in H as (? & ? & ?)
  | H : Solidity.checked_mul _ _ _ = Solidity.Done _ |- _ =>
      apply checked_mul_Done in H as (? & ? & ?)
  end; subst.

(** ** The vault *)

Lemma vault_ok_constructor deployer : vault_ok (Vault.constructor deployer).
Proof.
  unfold vault_ok, Vault.strategy, Vault.tokenBalance. simpl.
  split; [constructor|]. split; [apply not_elem_of_nil|].
  split; [constructor|]. split; [lia|]. split; [|split].
  - intros a. rewrite lookup_empty. simpl. split; [by intros ?%elem_of_nil|done].
  - intros a. by rewrite lookup_empty.
  - intros t. rewrite lookup_empty. simpl. lia.
Qed.

Lemma emit_Done ev s r s' :
  Vault.emit ev s = Solidity.Done (r, s') ->
  Vault.owner s' = Vault.owner s /\ Vault.entered s' = Vault.entered s
  /\ Vault.tokenBalances s' = Vault.tokenBalances s
  /\ Vault.strategies s' = Vault.strategies s
  /\ Vault.rebalanceHistory s' = Vault.rebalanceHistory s
  /\ Vault.supportedTokens s' = Vault.supportedTokens s
  /\ Vault.activeStrategies s' = Vault.activeStrategies s
  /\ Vault.executor s' = Vault.executor s
  /\ Vault.totalRebalances s' = Vault.totalRebalances s
  /\ Vault.log s' = Vault.log s ++ [ev].
Proof. unfold Vault.emit. intros H. exec_inv. done. Qed.

Lemma vault_ok_ext s s' :
  Vault.tokenBalances s' = Vault.tokenBalances s ->
  Vault.strategies s' = Vault.strategies s ->
  Vault.supportedTokens s' = Vault.supportedTokens s ->
  Vault.activeStrategies s' = Vault.activeStrategies s ->
  vault_ok s -> vault_ok s'.
Proof.
  unfold vault_ok, Vault.strategy, Vault.tokenBalance.
  by intros -> -> -> ->.
Qed.

Lemma isSupportedToken_spec s token :
  Vault.isSupportedToken s token = true <-> token ∈ Vault.supportedTokens s.
Proof.
  unfold Vault.isSupportedToken. rewrite existsb_exists. split.
  - intros (t & Hin & Ht). apply N.eqb_eq in Ht as ->. by apply list_elem_of_In.
  - intros Hin. exists token. split; [by apply list_elem_of_In|apply N.eqb_refl].
Qed.

Lemma strategy_set a st s b :
  Vault.strategy (Vault.set_strategy a st s) b
  = if decide (b = a) then st else Vault.strategy s b.
Proof.
  unfold Vault.strategy, Vault.set_strategy. simpl.
  destruct (decide (b = a)) as [->|Hne].
  - by rewrite lookup_insert_eq.
  - by rewrite lookup_insert_ne.
Qed.

Lemma tokenBalance_set token b s t :
  Vault.tokenBalance (Vault.set_tokenBalance token b s) t
  = if decide (t = token) then b else Vault.tokenBalance s t.
Proof.
  unfold Vault.tokenBalance, Vault.set_tokenBalance. simpl.
  destruct (decide (t = token)) as [->|Hne].
  - by rewrite lookup_insert_eq.
  - by rewrite lookup_insert_ne.
Qed.

Lemma vault_frame_refl s : vault_frame s s.
Proof. unfold vault_frame. split_and!; auto. Qed.

Lemma vault_frame_trans s1 s2 s3 :
  vault_frame s1 s2 -> vault_frame s2 s3 -> vault_frame s1 s3.
Proof.
  intros (H1 & H2 & H3 & H4 & H5 & H6) (G1 & G2 & G3 & G4 & G5 & G6).
  unfold vault_frame. split_and!; try congruence; auto.
Qed.

Lemma vault_frame_emit ev s r s' :
  Vault.emit ev s = Solidity.Done (r, s') -> vault_frame s s'.
Proof.
  intros (_ & He & Hb & Hs & Hh & Ht & Ha & _ & Hn & _)%emit_Done.
  unfold vault_frame. split_and!; try done.
  - intros token. by rewrite Ht.
  - by apply vault_ok_ext.
Qed.

Lemma vault_ok_addStrategy s a allocation description :
  a <> 0%N -> (allocation <= 10000)%N ->
  (length (Vault.activeStrategies s) < 10)%nat ->
  Vault.active (Vault.strategy s a) = false ->
  vault_ok s ->
  vault_ok
    (Vault.set_activeStrategies
       (Vault.activeStrategies s ++ [a])
       (Vault.set_strategy a
          {| Vault.target := a; Vault.allocation := allocation;
             Vault.active := true; Vault.description := description |} s)).
Proof.
  intros Hz Hal Hl Hoff (Hst & Hz0 & Hnd & Hlen & Hact & Htar & Hbal).
  assert (Hnew : a ∉ Vault.activeStrategies s) by (rewrite Hact; congruence).
  unfold vault_ok. cbn [Vault.supportedTokens Vault.activeStrategies
    Vault.set_activeStrategies Vault.set_strategy].
  split; [done|]. split; [done|]. split.
  { apply NoDup_app. split; [done|]. split; [|apply NoDup_singleton].
    intros x Hx ->%list_elem_of_singleton. done. }
  split. { rewrite length_app. simpl. lia. }
  split; [|split].
  - intros b. change (Vault.strategy _ b) with
      (Vault.strategy (Vault.set_strategy a
         {| Vault.target := a; Vault.allocation := allocation;
            Vault.active := true; Vault.description := description |} s) b).
    rewrite strategy_set, elem_of_app, list_elem_of_singleton.
    destruct (decide (b = a)) as [->|Hne]; simpl; [tauto|].
    rewrite Hact. tauto.
  - intros b. change (Vault.strategy _ b) with
      (Vault.strategy (Vault.set_strategy a
         {| Vault.target := a; Vault.allocation := allocation;
            Vault.active := true; Vault.description := description |} s) b).
    rewrite strategy_set.
    destruct (decide (b = a)) as [->|Hne]; simpl; [done|]. apply Htar.
  - exact Hbal.
Qed.

Lemma vault_ok_removeStrategy s a :
  Vault.active (Vault.strategy s a) = true ->
  vault_ok s ->
  vault_ok
    (Vault.set_activeStrategies
       (Solidity.swap_remove a (Vault.activeStrategies s))
       (Vault.set_strategy a
          {| Vault.target := Vault.target (Vault.strategy s a);
             Vault.allocation := Vault.allocation (Vault.strategy s a);
             Vault.active := false;
             Vault.description := Vault.description (Vault.strategy s a) |} s)).
Proof.
  intros Hon (Hst & Hz0 & Hnd & Hlen & Hact & Htar & Hbal).
  assert (Hin : a ∈ Vault.activeStrategies s) by (by apply Hact).
  destruct (swap_remove_spec a _ Hnd Hin) as (Hnd' & Hel & Hlen').
  unfold vault_ok. cbn [Vault.supportedTokens Vault.activeStrategies
    Vault.set_activeStrategies Vault.set_strategy].
  split; [done|]. split; [done|]. split; [done|]. split; [lia|].
  split; [|split].
  - intros b. change (Vault.strategy _ b) with
      (Vault.strategy (Vault.set_strategy a
         {| Vault.target := Vault.target (Vault.strategy s a);
            Vault.allocation := Vault.allocation (Vault.strategy s a);
            Vault.active := false;
            Vault.description := Vault.description (Vault.strategy s a) |} s) b).
    rewrite strategy_set, Hel.
    destruct (decide (b = a)) as [->|Hne]; simpl; [split; [tauto|done]|].
    rewrite Hact. tauto.
  - intros b. change (Vault.strategy _ b) with
      (Vault.strategy (Vault.set_strategy a
         {| Vault.target := Vault.target (Vault.strategy s a);
            Vault.allocation := Vault.allocation (Vault.strategy s a);
            Vault.active := false;
            Vault.description := Vault.description (Vault.strategy s a) |} s) b).
    rewrite strategy_set.
    destruct (decide (b = a)) as [->|Hne]; simpl; [done|]. apply Htar.
  - exact Hbal.
Qed.

Lemma vault_ok_addSupportedToken s token :
  token <> 0%N -> Vault.isSupportedToken s token = false ->
  vault_ok s ->
  vault_ok (Vault.set_supportedTokens (Vault.supportedTokens s ++ [token]) s).
Proof.
  intros Hz Hnew (Hst & Hz0 & Hnd & Hlen & Hact & Htar & Hbal).
  assert (Hnot : token ∉ Vault.supportedTokens s).
  { rewrite <- isSupportedToken_spec. by rewrite Hnew. }
  unfold vault_ok. simpl.
  split. { apply NoDup_app. split; [done|]. split; [|apply NoDup_singleton].
           intros x Hx ->%list_elem_of_singleton. done. }
  split. { rewrite not_elem_of_app, list_elem_of_singleton. split; [done|]. congruence. }
  split; [done|]. split; [done|]. split; [done|]. split; [done|].
  intros t Ht. apply elem_of_app. left. by apply Hbal.
Qed.

Lemma plain_spec sender c s r s' :
  Vault.plain sender c s = Solidity.Done (r, s') ->
  sender = Vault.owner s /\ vault_frame s s'.
Proof.
  intros H.
  destruct c as [ex|strategy allocation description|strategy|token| |newOwner|];
    simpl in H; unfold Vault.onlyOwner in H; exec_inv;
    match goal with
    | Ho : (Vault.owner _ =? _)%N = true |- _ => apply N.eqb_eq in Ho as <-
    end; (split; [done|]);
    try match goal with
    | He : Vault.emit _ _ = _ |- _ =>
        apply vault_frame_emit in He;
        eapply vault_frame_trans; [|exact He]
    end;
    repeat match goal with
    | Hn : negb _ = true |- _ => apply negb_true_iff in Hn
    end;
    unfold vault_frame; split_and!; try done; try (by apply vault_ok_ext).
  - (* addStrategy *)
    apply (vault_ok_addStrategy s strategy allocation description).
    + by apply N.eqb_neq.
    + by apply N.leb_le.
    + match goal with Hl : (_ <? Vault.MAX_STRATEGIES)%N = true |- _ =>
        apply N.ltb_lt in Hl; unfold Vault.MAX_STRATEGIES in Hl; lia end.
    + done.
  - (* removeStrategy *)
    by apply (vault_ok_removeStrategy s strategy).
  - (* addSupportedToken *)
    intros t Ht. simpl. apply elem_of_app. by left.
  - apply (vault_ok_addSupportedToken s token); [by apply N.eqb_neq|done].
Qed.

Lemma reenter_spec calls s :
  exists s',
    Vault.reenter calls s = Solidity.Done (tt, s')
    /\ vault_frame s s'
    /\ (Forall (fun sc => sc.1 <> Vault.owner s) calls -> s' = s).
Proof.
  revert s. induction calls as [|[sender c] calls IH]; intros s; simpl.
  - exists s. split; [done|]. split; [apply vault_frame_refl|done].
  - destruct (Vault.plain sender c s) as [[[] s1]|e] eqn:Hp.
    + destruct (plain_spec _ _ _ _ _ Hp) as [-> Hf].
      destruct (IH s1) as (s' & -> & Hf' & _). exists s'.
      split; [done|]. split; [by eapply vault_frame_trans|].
      intros Hall. apply Forall_cons in Hall as [Hne _]. done.
    + destruct (IH s) as (s' & -> & Hf' & Hsame). exists s'.
      split; [done|]. split; [done|].
      intros Hall. apply Forall_cons in Hall as [_ Hall]. auto.
Qed.

Lemma vault_frame_set_entered b s :
  Vault.tokenBalances (Vault.set_entered b s) = Vault.tokenBalances s
  /\ Vault.rebalanceHistory (Vault.set_entered b s) = Vault.rebalanceHistory s
  /\ Vault.totalRebalances (Vault.set_entered b s) = Vault.totalRebalances s
  /\ Vault.supportedTokens (Vault.set_entered b s) = Vault.supportedTokens s
  /\ (vault_ok (Vault.set_entered b s) <-> vault_ok s).
Proof. split_and!; try done. Qed.

Lemma token_call_spec reply s r s' :
  Vault.token_call reply s = Solidity.Done (r, s') ->
  Vault.answer reply = Vault.Transferred
  /\ vault_frame s s'
  /\ (Forall (fun sc => sc.1 <> Vault.owner s) (Vault.during reply) -> s' = s).
Proof.
  unfold Vault.token_call. destruct (Vault.answer reply); [|done].
  destruct (reenter_spec (Vault.during reply) s) as (s1 & -> & Hf & Hsame).
  intros [= <- <-]. done.
Qed.

Lemma nonReentrant_spec {A} (body : Solidity.Exec Vault.State A) s r s' :
  Vault.nonReentrant body s = Solidity.Done (r, s') ->
  Vault.entered s = false
  /\ exists s1, body (Vault.set_entered true s) = Solidity.Done (r, s1)
                /\ s' = Vault.set_entered false s1.
Proof.
  unfold Vault.nonReentrant. intros H. exec_inv.
  split; [by apply negb_true_iff|]. eauto.
Qed.

Lemma deposit_spec sender token amount reply s r s' :
  Vault.deposit sender token amount reply s = Solidity.Done (r, s') ->
  Vault.entered s = false /\ Vault.entered s' = false
  /\ (0 < amount)%N
  /\ token ∈ Vault.supportedTokens s
  /\ Vault.answer reply = Vault.Transferred
  /\ vault_books (Vault.Deposit token amount reply) s s'
  /\ (forall t, t ∈ Vault.supportedTokens s -> t ∈ Vault.supportedTokens s')
  /\ (vault_ok s -> vault_ok s')
  /\ (exists before, Vault.log s' = before ++ [Vault.TokenDeposited token amount sender]).
Proof.
  unfold Vault.deposit. intros H.
  apply nonReentrant_spec in H as (Hent & s3 & H & ->).
  apply bind_Done in H as (? & ? & [Hamount ->]%require_Done & H).
  apply bind_Done in H as (? & ? & [-> ->]%get_Done & H).
  apply bind_Done in H as (? & ? & [Hsup ->]%require_Done & H).
  apply bind_Done in H as (? & s1 & Htok & H).
  apply bind_Done in H as (? & ? & [-> ->]%get_Done & H).
  apply bind_Done in H as (b & ? & (Hmax & -> & ->)%checked_add_Done & H).
  apply bind_Done in H as (? & ? & ->%modify_Done & H).
  apply token_call_spec in Htok as (Hans & (He & Hb & Hh & Hn & Hg & Hok) & _).
  pose proof (vault_frame_emit _ _ _ _ H) as (He' & Hb' & Hh' & Hn' & Hg' & Hok').
  apply emit_Done in H as (_ & _ & _ & _ & _ & _ & _ & _ & _ & Hlog).
  apply isSupportedToken_spec in Hsup. cbn in Hsup.
  split; [done|]. split; [done|].
  split; [by apply N.ltb_lt|].
  split; [done|].
  split; [done|]. split; [|split; [|split]].
  - unfold vault_books. split; [|split].
    + intros t. unfold Vault.tokenBalance at 1. cbn [Vault.tokenBalances Vault.set_entered].
      rewrite Hb'. fold (Vault.tokenBalance (Vault.set_tokenBalance token
        (Vault.tokenBalance s1 token + amount)%N s1) t).
      rewrite tokenBalance_set. unfold Vault.tokenBalance. rewrite Hb.
      by destruct (decide (t = token)) as [->|].
    + cbn [Vault.totalRebalances Vault.set_entered]. rewrite Hn'. cbn. by rewrite Hn.
    + cbn [Vault.rebalanceHistory Vault.set_entered]. rewrite Hh'. cbn. by rewrite Hh.
  - intros t Ht. cbn [Vault.supportedTokens Vault.set_entered].
    apply Hg'. cbn. by apply Hg.
  - intros Hs. apply (vault_ok_ext s3); [done..|]. apply Hok'.
    assert (Hs1 : vault_ok s1) by (by apply Hok).
    destruct Hs1 as (Hst & Hz0 & Hnd & Hlen & Hact & Htar & Hbal).
    unfold vault_ok. split_and!; try done.
    intros t. rewrite tokenBalance_set. destruct (decide (t = token)) as [->|Hne].
    + intros _. by apply Hg.
    + apply Hbal.
  - eexists. cbn [Vault.log Vault.set_entered]. exact Hlog.
Qed.

Lemma withdraw_spec sender token amount recipient reply s r s' :
  Vault.withdraw sender token amount recipient reply s = Solidity.Done (r, s') ->
  sender = Vault.owner s
  /\ Vault.entered s = false /\ Vault.entered s' = false
  /\ (0 < amount <= Vault.tokenBalance s token)%N
  /\ recipient <> 0%N
  /\ Vault.answer reply = Vault.Transferred
  /\ vault_books (Vault.Withdraw token amount recipient reply) s s'
  /\ (forall t, t ∈ Vault.supportedTokens s -> t ∈ Vault.supportedTokens s')
  /\ (vault_ok s -> vault_ok s')
  /\ (exists before,
         Vault.log s' = before ++ [Vault.TokenWithdrawn token amount recipient]).
Proof.
  unfold Vault.withdraw, Vault.onlyOwner. intros H.
  apply bind_Done in H as (? & ? & H0 & H).
  apply bind_Done in H0 as (? & ? & [-> ->]%get_Done & [Hown ->]%require_Done).
  apply N.eqb_eq in Hown.
  apply nonReentrant_spec in H as (Hent & s3 & H & ->).
  apply bind_Done in H as (? & ? & [Hamount ->]%require_Done & H).
  apply bind_Done in H as (? & ? & [-> ->]%get_Done & H).
  apply bind_Done in H as (? & ? & [Hbal ->]%require_Done & H).
  apply bind_Done in H as (? & ? & [Hrec ->]%require_Done & H).
  apply bind_Done in H as (b & ? & (_ & -> & ->)%checked_sub_Done & H).
  apply bind_Done in H as (? & ? & ->%modify_Done & H).
  apply bind_Done in H as (? & s1 & Htok & H).
  apply token_call_spec in Htok as (Hans & (He & Hb & Hh & Hn & Hg & Hok) & _).
  pose proof (vault_frame_emit _ _ _ _ H) as (He' & Hb' & Hh' & Hn' & Hg' & Hok').
  apply emit_Done in H as (_ & _ & _ & _ & _ & _ & _ & _ & _ & Hlog).
  apply N.ltb_lt in Hamount. apply N.leb_le in Hbal.
  apply negb_true_iff, N.eqb_neq in Hrec.
  change (Vault.tokenBalance (Vault.set_entered true s) token)
    with (Vault.tokenBalance s token) in *.
  split; [done|]. split; [done|]. split; [done|]. split; [done|].
  split; [done|]. split; [done|]. split; [|split; [|split]].
  - unfold vault_books. split; [|split].
    + intros t. unfold Vault.tokenBalance at 1.
      cbn [Vault.tokenBalances Vault.set_entered]. rewrite Hb', Hb.
      fold (Vault.tokenBalance (Vault.set_tokenBalance token
        (Vault.tokenBalance s token - amount)%N (Vault.set_entered true s)) t).
      rewrite tokenBalance_set.
      by destruct (decide (t = token)) as [->|].
    + cbn [Vault.totalRebalances Vault.set_entered]. by rewrite Hn', Hn.
    + cbn [Vault.rebalanceHistory Vault.set_entered]. by rewrite Hh', Hh.
  - intros t Ht. cbn [Vault.supportedTokens Vault.set_entered].
    apply Hg', Hg. exact Ht.
  - intros Hs. apply (vault_ok_ext s3); [done..|]. apply Hok', Hok.
    destruct Hs as (Hst & Hz0 & Hnd & Hlen & Hact & Htar & Hbal0).
    unfold vault_ok. split_and!; try done.
    intros t.
    change (Vault.tokenBalance _ t) with
      (Vault.tokenBalance (Vault.set_tokenBalance token
         (Vault.tokenBalance s token - amount)%N s) t).
    rewrite tokenBalance_set. destruct (decide (t = token)) as [->|Hne].
    + intros Hpos. apply Hbal0. lia.
    + apply Hbal0.
  - eexists. cbn [Vault.log Vault.set_entered]. exact Hlog.
Qed.

Lemma executeRebalance_spec keccak256 now sender token fromStrategy toStrategy
    amount reason aiDecisionHash s id s' :
  Vault.executeRebalance keccak256 now sender token fromStrategy toStrategy amount
    reason aiDecisionHash s = Solidity.Done (id, s') ->
  (sender = Vault.executor s
   /\ Vault.entered s = false
   /\ token <> 0%N
   /\ (0 < amount <= Vault.tokenBalance s token)%N
   /\ Vault.active (Vault.strategy s toStrategy) = true
   /\ (Vault.totalRebalances s < Solidity.max_uint256)%N)
  /\ id = keccak256
            (Solidity.packed_uint256 now ++ Solidity.packed_address token
             ++ Solidity.packed_address fromStrategy
             ++ Solidity.packed_address toStrategy
             ++ Solidity.packed_uint256 amount
             ++ Solidity.packed_uint256 (Vault.totalRebalances s))
  /\ s' = {| Vault.owner := Vault.owner s; Vault.entered := false;
             Vault.tokenBalances := Vault.tokenBalances s;
             Vault.strategies := Vault.strategies s;
             Vault.rebalanceHistory :=
               <[id := {| Vault.ra_token := token;
                          Vault.ra_fromStrategy := fromStrategy;
                          Vault.ra_toStrategy := toStrategy;
                          Vault.ra_amount := amount;
                          Vault.ra_reason := reason;
                          Vault.ra_timestamp := now;
                          Vault.ra_aiDecisionHash := aiDecisionHash |}]>
                 (Vault.rebalanceHistory s);
             Vault.supportedTokens := Vault.supportedTokens s;
             Vault.activeStrategies := Vault.activeStrategies s;
             Vault.executor := Vault.executor s;
             Vault.totalRebalances := (Vault.totalRebalances s + 1)%N;
             Vault.log :=
               Vault.log s
               ++ [Vault.Rebalanced id token fromStrategy toStrategy amount reason] |}.
Proof.
  unfold Vault.executeRebalance, Vault.onlyExecutor. intros H.
  apply bind_Done in H as (? & ? & H0 & H).
  apply bind_Done in H0 as (? & ? & [-> ->]%get_Done & [Hex ->]%require_Done).
  apply N.eqb_eq in Hex.
  apply nonReentrant_spec in H as (Hent & s3 & H & ->).
  apply bind_Done in H as (? & ? & [Htok ->]%require_Done & H).
  apply bind_Done in H as (? & ? & [Hamount ->]%require_Done & H).
  apply bind_Done in H as (? & ? & [-> ->]%get_Done & H).
  apply bind_Done in H as (? & ? & [Hbal ->]%require_Done & H).
  apply bind_Done in H as (? & ? & [Hact ->]%require_Done & H).
  apply bind_Done in H as (? & ? & ->%modify_Done & H).
  apply bind_Done in H as (n & ? & (Hmax & -> & ->)%checked_add_Done & H).
  apply bind_Done in H as (? & ? & ->%modify_Done & H).
  apply bind_Done in H as (? & ? & H & [-> ->]%ret_Done).
  unfold Vault.emit in H. apply modify_Done in H as ->.
  apply N.ltb_lt in Hamount. apply N.leb_le in Hbal.
  apply negb_true_iff, N.eqb_neq in Htok.
  cbn in Hmax. unfold Solidity.max_uint256 in *.
  split; [split_and!; try done; lia|]. split; reflexivity.
Qed.

Lemma token_call_settings reply s r s' :
  Vault.token_call reply s = Solidity.Done (r, s') ->
  Vault.owner s ∉ (Vault.during reply).*1 -> s' = s.
Proof.
  intros (_ & _ & Hsame)%token_call_spec Hnot. apply Hsame.
  apply Forall_forall. intros [a c] Hin Heq. apply Hnot.
  apply list_elem_of_fmap. exists (a, c). by split.
Qed.

Lemma deposit_settings sender token amount reply s r s' :
  Vault.deposit sender token amount reply s = Solidity.Done (r, s') ->
  Vault.owner s ∉ (Vault.during reply).*1 ->
  vault_settings s' = vault_settings s.
Proof.
  unfold Vault.deposit. intros H Hnot.
  apply nonReentrant_spec in H as (Hent & s3 & H & ->).
  apply bind_Done in H as (? & ? & [Hamount ->]%require_Done & H).
  apply bind_Done in H as (? & ? & [-> ->]%get_Done & H).
  apply bind_Done in H as (? & ? & [Hsup ->]%require_Done & H).
  apply bind_Done in H as (? & s1 & Htok & H).
  apply bind_Done in H as (? & ? & [-> ->]%get_Done & H).
  apply bind_Done in H as (b & ? & (Hmax & -> & ->)%checked_add_Done & H).
  apply bind_Done in H as (? & ? & ->%modify_Done & H).
  apply token_call_settings in Htok as ->; [|done].
  unfold Vault.emit in H. apply modify_Done in H as ->. reflexivity.
Qed.

Lemma call_spec keccak256 now sender c s r s' :
  Vault.call keccak256 now sender c s = Solidity.Done (r, s') ->
  Vault.entered s' = Vault.entered s
  /\ vault_books c s s'
  /\ (vault_ok s -> vault_ok s')
  /\ (forall t, t ∈ Vault.supportedTokens s -> t ∈ Vault.supportedTokens s')
  /\ (sender <> Vault.owner s -> Vault.owner s ∉ inner_senders c ->
      vault_settings s' = vault_settings s
      /\ match c with
         | Vault.Deposit _ _ _ => True
         | Vault.ExecuteRebalance _ _ _ _ _ _ => sender = Vault.executor s
         | _ => False
         end).
Proof.
  intros H. destruct c as [c|token amount reply|token amount recipient reply
                           |token fromStrategy toStrategy amount reason hash];
    cbn [Vault.call] in H.
  - apply bind_Done in H as (? & ? & H & [-> ->]%ret_Done).
    apply plain_spec in H as [-> (He & Hb & Hh & Hn & Hg & Hok)].
    split; [done|]. split.
    { unfold vault_books. split.
      - intros t. unfold Vault.tokenBalance. rewrite Hb. by destruct c.
      - by destruct c. }
    split; [done|]. split; [done|]. intros Hne. done.
  - apply bind_Done in H as (? & ? & H & [-> ->]%ret_Done).
    pose proof (deposit_settings _ _ _ _ _ _ _ H) as Hset.
    apply deposit_spec in H as (He & He' & _ & _ & _ & Hbooks & Hg & Hok & _).
    split; [congruence|]. split; [done|]. split; [done|]. split; [done|].
    intros _ Hno. split; [by apply Hset|done].
  - apply bind_Done in H as (? & ? & H & [-> ->]%ret_Done).
    apply withdraw_spec in H as (-> & He & He' & _ & _ & _ & Hbooks & Hg & Hok & _).
    split; [congruence|]. split; [done|]. split; [done|]. split; [done|].
    intros Hne. done.
  - apply bind_Done in H as (id & ? & H & [-> ->]%ret_Done).
    apply executeRebalance_spec in H as ((-> & He & _) & _ & ->).
    split; [done|]. split.
    { unfold vault_books. split; [done|]. done. }
    split; [by apply vault_ok_ext|]. split; [done|]. intros _ _. done.
Qed.

Lemma reachable_ok keccak256 s :
  Vault.reachable keccak256 s -> Vault.entered s = false /\ vault_ok s.
Proof.
  induction 1 as [deployer|s now sender c r s' _ [He Hok] Hcall].
  - split; [done|apply vault_ok_constructor].
  - apply call_spec in Hcall as (He' & _ & Hok' & _). split; [congruence|auto].
Qed.

(** X22.  In every state that the vault reaches from its constructor by
    transactions that do not revert, whoever sends them and whatever the
    tokens do when they are called: the lock against re-entrancy is open,
    the supported tokens are distinct and none is the zero address, the
    active strategies are distinct and at most ten, a strategy is in their
    list exactly when it is marked active, an active strategy is not the
    zero address, has itself as target and an allocation of at most 10000,
    and a token with a positive recorded balance is supported. *)
Theorem vault_lists_invariant (keccak256 : Solidity.bytes -> Solidity.bytes32)
    (s : Vault.State) :
  Vault.reachable keccak256 s ->
  Vault.entered s = false
  /\ NoDup (Vault.getSupportedTokens s)
  /\ (0%N ∉ Vault.getSupportedTokens s)
  /\ NoDup (Vault.getActiveStrategies s)
  /\ (length (Vault.getActiveStrategies s) <= 10)%nat
  /\ (forall a, a ∈ Vault.getActiveStrategies s
                <-> Vault.active (Vault.getStrategy s a) = true)
  /\ (forall a, a ∈ Vault.getActiveStrategies s ->
                a <> 0%N
                /\ Vault.target (Vault.getStrategy s a) = a
                /\ (Vault.allocation (Vault.getStrategy s a) <= 10000)%N)
  /\ (forall token, (0 < Vault.tokenBalance s token)%N ->
                    Vault.isSupportedToken s token = true).
Proof.
  intros [He (Hst & Hz & Hnd & Hlen & Hact & Htar & Hbal)]%reachable_ok.
  unfold Vault.getSupportedTokens, Vault.getActiveStrategies, Vault.getStrategy.
  split_and!; try done.
  - intros a Ha. apply Htar. by apply Hact.
  - intros token Ht. apply isSupportedToken_spec. by apply Hbal.
Qed.

Lemma deployed_vault_reachable keccak256 deployer executor :
  Vault.reachable keccak256 (deployed_vault deployer executor).
Proof.
  unfold deployed_vault.
  assert (Hrun : forall c s,
             Vault.reachable keccak256 s ->
             Vault.reachable keccak256
               match Vault.call (fun _ => 0%N) 0%N deployer (Vault.Simply c) s with
               | Solidity.Done (_, s') => s'
               | Solidity.Reverted _ => s
               end).
  { intros c s Hs.
    destruct (Vault.call (fun _ => 0%N) 0%N deployer (Vault.Simply c) s)
      as [[r s']|e] eqn:Hc; [|done].
    eapply (Vault.reachable_call keccak256 s 0%N deployer (Vault.Simply c)); [done|].
    exact Hc. }
  repeat apply Hrun. constructor.
Qed.

Lemma vault_lists_invariant_witness :
  Vault.getSupportedTokens (deployed_vault 7%N 8%N)
  = [0xA0b86a33E6441b8D36c7E54E0eED0b3c6EFb3Fcf%N;
     0xC02aaA39b223FE8D0A0e5C4F27eAD9083C756Cc2%N]
  /\ NoDup (Vault.getActiveStrategies (deployed_vault 7%N 8%N))
  /\ Vault.entered (deployed_vault 7%N 8%N) = false.
Proof.
  destruct (vault_lists_invariant (fun _ => 0%N) (deployed_vault 7%N 8%N)
              (deployed_vault_reachable _ 7%N 8%N))
    as (He & _ & _ & Hnd & _).
  split; [vm_compute; reflexivity|]. split; [exact Hnd|exact He].
Defined.

(** X23.  A transaction of the vault that does not revert changes the
    recorded balance of a token only as a deposit, which adds its amount to
    the balance of its token, or as a withdrawal, which takes it off.  A
    deposit goes through only with a positive amount of a supported token
    whose transfer succeeds; a withdrawal only from the owner, with a
    positive amount that the recorded balance covers, a recipient other
    than the zero address and a transfer that succeeds.  A supported token
    remains supported. *)
Theorem vault_bookkeeping (keccak256 : Solidity.bytes -> Solidity.bytes32)
    now sender c s r s' :
  Vault.call keccak256 now sender c s = Solidity.Done (r, s') ->
  (forall t,
     Vault.tokenBalance s' t
     = match c with
       | Vault.Deposit token amount _ =>
           if decide (t = token) then (Vault.tokenBalance s t + amount)%N
           else Vault.tokenBalance s t
       | Vault.Withdraw token amount _ _ =>
           if decide (t = token) then (Vault.tokenBalance s t - amount)%N
           else Vault.tokenBalance s t
       | _ => Vault.tokenBalance s t
       end)
  /\ match c with
     | Vault.Deposit token amount reply =>
         (0 < amount)%N /\ Vault.isSupportedToken s token = true
         /\ Vault.answer reply = Vault.Transferred
     | Vault.Withdraw token amount recipient reply =>
         sender = Vault.owner s
         /\ (0 < amount <= Vault.tokenBalance s token)%N
         /\ recipient <> 0%N
         /\ Vault.answer reply = Vault.Transferred
     | _ => True
     end
  /\ (forall t, Vault.isSupportedToken s t = true ->
                Vault.isSupportedToken s' t = true).
Proof.
  intros H. pose proof (call_spec _ _ _ _ _ _ _ H) as (_ & [Hb _] & _ & Hg & _).
  split; [exact Hb|]. split.
  - destruct c as [c|token amount reply|token amount recipient reply
                   |token fromStrategy toStrategy amount reason hash];
      cbn [Vault.call] in H; try done.
    + apply bind_Done in H as (? & ? & H & _).
      apply deposit_spec in H as (_ & _ & ? & ? & ? & _).
      split; [done|]. split; [by apply isSupportedToken_spec|done].
    + apply bind_Done in H as (? & ? & H & _).
      by apply withdraw_spec in H as (? & _ & _ & ? & ? & ? & _).
  - intros t. rewrite !isSupportedToken_spec. apply Hg.
Qed.

Lemma vault_bookkeeping_witness :
  let usdc := 0xA0b86a33E6441b8D36c7E54E0eED0b3c6EFb3Fcf%N in
  let c := Vault.Deposit usdc 500%N
             {| Vault.during := []; Vault.answer := Vault.Transferred |} in
  exists s',
    Vault.call (fun _ => 0%N) 0%N 9%N c (deployed_vault 7%N 8%N)
    = Solidity.Done (None, s')
    /\ Vault.tokenBalance s' usdc = 500%N.
Proof.
  intros usdc c.
  destruct (Vault.call (fun _ => 0%N) 0%N 9%N c (deployed_vault 7%N 8%N))
    as [[r s']|e] eqn:Hc; [|by vm_compute in Hc].
  exists s'.
  destruct (vault_bookkeeping _ _ _ _ _ _ _ Hc) as (Hb & _ & _).
  split.
  - assert (Hr : r = None) by (vm_compute in Hc; by injection Hc as <- _).
    by rewrite Hr.
  - rewrite (Hb usdc). unfold c. rewrite decide_True by done. reflexivity.
Defined.

Lemma executeRebalance_run keccak256 now sender token fromStrategy toStrategy
    amount reason aiDecisionHash s :
  sender = Vault.executor s -> Vault.entered s = false -> token <> 0%N ->
  (0 < amount <= Vault.tokenBalance s token)%N ->
  Vault.active (Vault.strategy s toStrategy) = true ->
  (Vault.totalRebalances s < Solidity.max_uint256)%N ->
  exists id s',
    Vault.executeRebalance keccak256 now sender token fromStrategy toStrategy
      amount reason aiDecisionHash s = Solidity.Done (id, s').
Proof.
  intros -> Hent Htok [Hpos Hbal] Hact Hmax.
  unfold Vault.executeRebalance, Vault.onlyExecutor, Vault.nonReentrant,
    Vault.emit, mbind, Solidity.Exec_bind, Solidity.bind, Solidity.get,
    Solidity.require, Solidity.modify, Solidity.checked_add, mret,
    Solidity.Exec_ret, Solidity.ret.
  rewrite N.eqb_refl, Hent. cbn [negb].
  apply N.eqb_neq in Htok. rewrite Htok. cbn [negb].
  apply N.ltb_lt in Hpos. rewrite Hpos.
  change (Vault.tokenBalance (Vault.set_entered true s) token)
    with (Vault.tokenBalance s token).
  apply N.leb_le in Hbal. rewrite Hbal.
  change (Vault.strategy (Vault.set_entered true s) toStrategy)
    with (Vault.strategy s toStrategy).
  rewrite Hact.
  change (Vault.totalRebalances (Vault.set_entered true s))
    with (Vault.totalRebalances s).
  assert (Hle : (Vault.totalRebalances s + 1 <=? Solidity.max_uint256)%N = true)
    by (apply N.leb_le; lia).
  cbn [Vault.totalRebalances Vault.set_rebalanceAction Vault.set_entered].
  rewrite Hle. eauto.
Qed.

(** X24.  [executeRebalance] returns exactly when its sender is the executor,
    the lock is open, the token is not the zero address, the amount is
    positive and at most the recorded balance of the token, the target
    strategy is active and the count of rebalances is not at its maximum;
    the source strategy is not looked at.  It then returns the hash of the
    time, the token, the two strategies, the amount and the count, records
    the action under it, with the reason, the time and the hash of the
    decision, adds one to the count and emits [Rebalanced]; the recorded
    balances, the owner, the executor, the strategies and the two lists
    remain as they were: no token moves. *)
Theorem rebalance_is_bookkeeping (keccak256 : Solidity.bytes -> Solidity.bytes32)
    now sender token fromStrategy toStrategy amount reason aiDecisionHash s :
  let c := Vault.ExecuteRebalance token fromStrategy toStrategy amount reason
             aiDecisionHash in
  let id :=
    keccak256
      (Solidity.packed_uint256 now ++ Solidity.packed_address token
       ++ Solidity.packed_address fromStrategy
       ++ Solidity.packed_address toStrategy
       ++ Solidity.packed_uint256 amount
       ++ Solidity.packed_uint256 (Vault.totalRebalances s)) in
  ((exists r s', Vault.call keccak256 now sender c s = Solidity.Done (r, s'))
   <-> sender = Vault.executor s
       /\ Vault.entered s = false
       /\ token <> 0%N
       /\ (0 < amount <= Vault.tokenBalance s token)%N
       /\ Vault.active (Vault.strategy s toStrategy) = true
       /\ (Vault.totalRebalances s < Solidity.max_uint256)%N)
  /\ (forall r s',
        Vault.call keccak256 now sender c s = Solidity.Done (r, s') ->
        r = Some id
        /\ Vault.rebalanceHistory s'
           = <[id := {| Vault.ra_token := token;
                        Vault.ra_fromStrategy := fromStrategy;
                        Vault.ra_toStrategy := toStrategy;
                        Vault.ra_amount := amount;
                        Vault.ra_reason := reason;
                        Vault.ra_timestamp := now;
                        Vault.ra_aiDecisionHash := aiDecisionHash |}]>
               (Vault.rebalanceHistory s)
        /\ Vault.totalRebalances s' = (Vault.totalRebalances s + 1)%N
        /\ Vault.log s'
           = Vault.log s
             ++ [Vault.Rebalanced id token fromStrategy toStrategy amount reason]
        /\ Vault.tokenBalances s' = Vault.tokenBalances s
        /\ vault_settings s' = vault_settings s
        /\ Vault.entered s' = false).
Proof.
  intros c id. split; [split|].
  - intros (r & s' & H). cbn [Vault.call] in H.
    apply bind_Done in H as (? & ? & H & _).
    by apply executeRebalance_spec in H as (? & _).
  - intros (Hs & He & Ht & Ha & Hact & Hmax).
    destruct (executeRebalance_run keccak256 now sender token fromStrategy toStrategy
                amount reason aiDecisionHash s Hs He Ht Ha Hact Hmax)
      as (id' & s' & Hrun).
    exists (Some id'), s'. cbn [Vault.call].
    apply bind_Done. exists id', s'. split; [exact Hrun|]. by apply ret_Done.
  - intros r s' H. cbn [Vault.call] in H.
    apply bind_Done in H as (id' & ? & H & [-> ->]%ret_Done).
    apply executeRebalance_spec in H as (_ & -> & ->). done.
Qed.

(** X25.  A transaction that does not revert, that the owner does not send,
    and during which the owner does not call the vault either, leaves the
    owner, the executor, the strategies, the supported tokens and the
    active strategies as they are; it is a deposit, or a rebalance sent by
    the executor. *)
Theorem vault_only_owner (keccak256 : Solidity.bytes -> Solidity.bytes32)
    now sender c s r s' :
  Vault.call keccak256 now sender c s = Solidity.Done (r, s') ->
  sender <> Vault.owner s ->
  Vault.owner s ∉ inner_senders c ->
  Vault.owner s' = Vault.owner s
  /\ Vault.executor s' = Vault.executor s
  /\ Vault.strategies s' = Vault.strategies s
  /\ Vault.getSupportedTokens s' = Vault.getSupportedTokens s
  /\ Vault.getActiveStrategies s' = Vault.getActiveStrategies s
  /\ match c with
     | Vault.Deposit _ _ _ => True
     | Vault.ExecuteRebalance _ _ _ _ _ _ => sender = Vault.executor s
     | _ => False
     end.
Proof.
  intros H Hne Hin.
  apply call_spec in H as (_ & _ & _ & _ & Hset).
  destruct (Hset Hne Hin) as [[= ? ? ? ? ?] ?]. done.
Qed.

Lemma vault_only_owner_witness :
  let usdc := 0xA0b86a33E6441b8D36c7E54E0eED0b3c6EFb3Fcf%N in
  let c := Vault.Deposit usdc 500%N
             {| Vault.during := [(9%N, Vault.SetExecutor 9%N)];
                Vault.answer := Vault.Transferred |} in
  exists s',
    Vault.call (fun _ => 0%N) 0%N 9%N c (deployed_vault 7%N 8%N)
    = Solidity.Done (None, s')
    /\ Vault.executor s' = 8%N.
Proof.
  intros usdc c.
  destruct (Vault.call (fun _ => 0%N) 0%N 9%N c (deployed_vault 7%N 8%N))
    as [[r s']|e] eqn:Hc; [|by vm_compute in Hc].
  exists s'.
  assert (Hin : Vault.owner (deployed_vault 7%N 8%N) ∉ inner_senders c).
  { vm_compute. intros Hin. apply list_elem_of_singleton in Hin. done. }
  destruct (vault_only_owner _ _ _ _ _ _ _ Hc ltac:(vm_compute; discriminate) Hin)
    as (_ & Hex & _).
  split.
  - assert (Hr : r = None) by (vm_compute in Hc; by injection Hc as <- _).
    by rewrite Hr.
  - rewrite Hex. reflexivity.
Defined.

(** ** The executor *)

Section ExecutorFacts.
Import Solidity.
Variable keccak256 : bytes -> bytes32.
Variable abi_decode_addresses : bytes -> option (list address).
Variable abi_encode_uint256s : list uint256 -> bytes.
Variable abi_encode_bytes32 : bytes32 -> bytes.
Variable now : uint256.
Variable sender : address.
Variable swapExactTokensForTokens :
  address -> uint256 -> uint256 -> list address -> address -> uint256 ->
  Executor.Reply (list uint256).
Variable bridgeToken :
  address -> address -> uint256 -> uint256 -> address -> bytes ->
  Executor.Reply bytes32.
Variable supply :
  address -> address -> uint256 -> address -> N -> Executor.Reply unit.
Variable vault_executeRebalance :
  address -> address -> address -> address -> uint256 -> string -> bytes32 ->
  Executor.Reply bytes32.

Abbreviation executeAIDecision :=
  (Executor.executeAIDecision keccak256 abi_decode_addresses abi_encode_uint256s
     abi_encode_bytes32 now sender swapExactTokensForTokens bridgeToken supply
     vault_executeRebalance).
Abbreviation _executeDecision :=
  (Executor._executeDecision keccak256 abi_decode_addresses abi_encode_uint256s
     abi_encode_bytes32 now swapExactTokensForTokens bridgeToken supply).

Lemma executeAIDecision_run action fromChain toChain token amount reason
    targetProtocol executionData s :
  entitled s sender token amount ->
  let id := decision_id keccak256 now action token amount (Executor.executionCounter s) in
  let d := {| Executor.action := action; Executor.fromChain := fromChain;
              Executor.toChain := toChain; Executor.token := token;
              Executor.amount := amount; Executor.reason := reason;
              Executor.timestamp := now;
              Executor.targetProtocol := targetProtocol;
              Executor.executionData := executionData |} in
  executeAIDecision action fromChain toChain token amount reason targetProtocol
    executionData s
  = match _executeDecision id (stored id d s) with
    | Reverted f => Reverted f
    | Done (result, s2) =>
        if Executor.success result then
          let reply :=
            vault_executeRebalance (Executor.vault s2) token 0%N targetProtocol
              amount reason id in
          match Executor.answer reply with
          | Returned _ =>
              match Executor.reenter keccak256 (Executor.during reply) s2 with
              | Done (_, s3) =>
                  Done (id,
                        Executor.set_entered false
                          (logged [Executor.AIDecisionExecuted id action token
                                     amount true] s3))
              | Reverted f => Reverted f
              end
          | Failed f => Reverted f
          | Undecodable => Reverted Other
          end
        else
          Done (id,
                Executor.set_entered false
                  (logged [Executor.ExecutionFailed id
                             (Executor.errorMessage result);
                           Executor.AIDecisionExecuted id action token amount
                             false] s2))
    end.
Proof.
  intros (Hauth & Hent & Hpos & Htok & Hmax) id d.
  apply N.ltb_lt in Hpos. apply N.eqb_neq in Htok.
  assert (Hle : (Executor.executionCounter s + 1 <=? max_uint256)%N = true)
    by (apply N.leb_le; lia).
  unfold Executor.executeAIDecision, Executor.onlyAuthorizedAI,
    Executor.nonReentrant, Executor.external_call.
  cbv [mbind Exec_bind bind get require ret revert modify mret Exec_ret checked_add].
  rewrite Hauth, Hent. cbn [negb]. rewrite Hpos, Htok. cbn [negb].
  change (Executor.executionCounter (Executor.set_entered true s))
    with (Executor.executionCounter s).
  rewrite Hle. unfold decision_id in id. fold id. fold d. fold (stored id d s).
  destruct (_executeDecision id (stored id d s)) as [[result s2]|f]; [|done].
  destruct (Executor.success result).
  - cbv zeta. destruct (Executor.answer _) as [v|f|]; try done.
    destruct (Executor.reenter keccak256 _ s2) as [[[] s3]|f]; [|done].
    reflexivity.
  - unfold Executor.emit, modify, logged, Executor.set_entered. cbn.
    by rewrite <- (assoc_L (++)).
Qed.

Lemma executor_frame_refl s : executor_frame s s.
Proof.
  unfold executor_frame. split_and!; try done.
  exists []. by rewrite app_nil_r.
Qed.

Lemma executor_frame_trans s1 s2 s3 :
  executor_frame s1 s2 -> executor_frame s2 s3 -> executor_frame s1 s3.
Proof.
  intros (H1 & H2 & H3 & H4 & ev1 & H5 & H6) (G1 & G2 & G3 & G4 & ev2 & G5 & G6).
  unfold executor_frame. split_and!; try congruence.
  exists (ev1 ++ ev2). split.
  - by rewrite G5, H5, <- (assoc_L (++)).
  - by apply Forall_app.
Qed.

Lemma executor_plain_spec c snd s r s' :
  Executor.plain keccak256 snd c s = Done (r, s') ->
  snd = Executor.owner s /\ executor_frame s s'.
Proof.
  intros H. destruct c; simpl in H; unfold Executor.onlyOwner, Executor.emit in H;
    exec_inv;
    match goal with
    | Ho : (Executor.owner _ =? _)%N = true |- _ => apply N.eqb_eq in Ho as <-
    end; (split; [done|]).
  - unfold executor_frame. split_and!; try done.
    eexists. split; [reflexivity|]. by repeat constructor.
  - repeat match goal with
           | H : context [if ?b then _ else _] |- _ => destruct b
           end; exec_inv;
      unfold executor_frame; (split_and!; try done);
      (eexists; split; [reflexivity|]; by repeat constructor).
  - apply executor_frame_refl.
  - unfold executor_frame. split_and!; try done.
    eexists. split; [reflexivity|]. by repeat constructor.
  - unfold executor_frame. split_and!; try done.
    eexists. split; [reflexivity|]. by repeat constructor.
Qed.

Lemma executor_reenter_spec calls s :
  exists s',
    Executor.reenter keccak256 calls s = Done (tt, s') /\ executor_frame s s'.
Proof.
  revert s. induction calls as [|[snd c] calls IH]; intros s; simpl.
  - exists s. split; [done|apply executor_frame_refl].
  - destruct (Executor.plain keccak256 snd c s) as [[[] s1]|e] eqn:Hp.
    + destruct (executor_plain_spec _ _ _ _ _ Hp) as [_ Hf].
      destruct (IH s1) as (s' & -> & Hf'). exists s'.
      split; [done|]. by eapply executor_frame_trans.
    + apply IH.
Qed.

Abbreviation same_hash := (Executor.same_hash keccak256).

Lemma getAIDecision_stored id d s :
  Executor.getAIDecision (stored id d s) id = d.
Proof.
  unfold Executor.getAIDecision, stored. cbn. by rewrite lookup_insert_eq.
Qed.

Lemma failed_state_stored id d message s :
  Executor.set_entered false
    (logged [Executor.ExecutionFailed id message;
             Executor.AIDecisionExecuted id (Executor.action d) (Executor.token d)
               (Executor.amount d) false] (stored id d s))
  = failed_state id d message s.
Proof. reflexivity. Qed.

Lemma try_call_failed {R A} (r : Executor.Reply R)
    (ok : R -> Exec Executor.State A) error other f s1 :
  Executor.answer r = Failed f ->
  Executor.try_call keccak256 r ok error other s1
  = match f with
    | Error reason => error reason s1
    | _ => other s1
    end.
Proof. unfold Executor.try_call. intros ->. by destruct f. Qed.

Lemma getChainId_run chainName (s : Executor.State) :
  Executor._getChainId keccak256 chainName s
  = match chain_id keccak256 chainName with
    | Some c => Done (c, s)
    | None => Reverted (Error "Unsupported chain")
    end.
Proof.
  unfold Executor._getChainId, chain_id.
  repeat (destruct (same_hash _ _); [reflexivity|]). reflexivity.
Qed.

(** X26.  For an authorized agent, with the lock open, a positive amount, a
    token other than the zero address and a counter below its maximum: a
    decision whose action has the hash of none of 'swap', 'bridge', 'lend'
    and 'rebalance' does not revert.  [executeAIDecision] returns the hash
    of the time, the action, the token, the amount and the counter, stores
    the decision under it, adds one to the counter, emits [ExecutionFailed]
    with 'Unknown action type' and then [AIDecisionExecuted] with success
    false, and changes nothing else: no contract is called. *)
Theorem unknown_action_is_recorded action fromChain toChain token amount reason
    targetProtocol executionData s :
  let id := decision_id keccak256 now action token amount (Executor.executionCounter s) in
  let d := {| Executor.action := action; Executor.fromChain := fromChain;
              Executor.toChain := toChain; Executor.token := token;
              Executor.amount := amount; Executor.reason := reason;
              Executor.timestamp := now;
              Executor.targetProtocol := targetProtocol;
              Executor.executionData := executionData |} in
  entitled s sender token amount ->
  Forall (fun known => same_hash action known = false)
         ["swap"; "bridge"; "lend"; "rebalance"] ->
  executeAIDecision action fromChain toChain token amount reason targetProtocol
    executionData s
  = Done (id, failed_state id d "Unknown action type" s).
Proof.
  intros id d Hadm Hunknown.
  rewrite executeAIDecision_run by done. fold id. fold d.
  unfold Executor._executeDecision.
  cbv [mbind Exec_bind bind get].
  rewrite getAIDecision_stored. cbn [Executor.action d].
  apply Forall_cons in Hunknown as [-> Hunknown].
  apply Forall_cons in Hunknown as [-> Hunknown].
  apply Forall_cons in Hunknown as [-> Hunknown].
  apply Forall_cons in Hunknown as [-> _].
  cbn [Executor.success Executor.failure Executor.errorMessage].
  by rewrite <- (failed_state_stored id d).
Qed.

(** X27.  When the router, the bridge or the lending protocol that a 'swap',
    'bridge' or 'lend' decision calls reverts, [executeAIDecision] does not
    revert: the decision is stored, the counter grows, the vault is not
    called, and [ExecutionFailed] carries the reason of the revert if it is
    an [Error(string)], and 'Swap execution failed', 'Bridge execution
    failed' or 'Lending execution failed' otherwise; [AIDecisionExecuted]
    follows with success false.  The router is called with 95% of the
    amount, rounded down, as the least amount out, the decoded path, the
    vault as recipient and a deadline 300 seconds after the time of the
    block; the bridge with the identifier of the target chain. *)
Theorem protocol_failure_is_recorded action fromChain toChain token amount reason
    targetProtocol executionData s f fallback :
  let id := decision_id keccak256 now action token amount (Executor.executionCounter s) in
  let d := {| Executor.action := action; Executor.fromChain := fromChain;
              Executor.toChain := toChain; Executor.token := token;
              Executor.amount := amount; Executor.reason := reason;
              Executor.timestamp := now;
              Executor.targetProtocol := targetProtocol;
              Executor.executionData := executionData |} in
  entitled s sender token amount ->
  refused keccak256 abi_decode_addresses now swapExactTokensForTokens bridgeToken
    supply action toChain token amount targetProtocol executionData s f fallback ->
  executeAIDecision action fromChain toChain token amount reason targetProtocol
    executionData s
  = Done (id, failed_state id d (caught f fallback) s).
Proof.
  intros id d Hadm Href.
  rewrite executeAIDecision_run by done. fold id. fold d.
  unfold Executor._executeDecision.
  cbv [mbind Exec_bind bind get].
  rewrite getAIDecision_stored. cbn [Executor.action d].
  destruct Href as [path Hswap Hmul Hdec Hadd Hans
                   |chainId Hswap Hbridge Hchain Hans
                   |Hswap Hbridge Hlend Hans].
  - rewrite Hswap. unfold Executor._executeSwap, Executor._calculateMinAmountOut.
    cbv [mbind Exec_bind bind get checked_sub checked_mul checked_add ret mret
         Exec_ret Executor.SLIPPAGE_DENOMINATOR Executor.MAX_SLIPPAGE].
    cbn [Executor.amount Executor.executionData Executor.targetProtocol d].
    change (500 <=? 10000)%N with true. cbv beta iota.
    change (10000 - 500)%N with 9500%N.
    apply N.leb_le in Hmul. rewrite Hmul. cbv beta iota. rewrite Hdec. cbv beta iota.
    apply N.leb_le in Hadd. rewrite Hadd. cbv beta iota.
    change (Executor.vault (stored id d s)) with (Executor.vault s).
    rewrite (try_call_failed _ _ _ _ _ _ Hans).
    by destruct f.
  - rewrite Hswap, Hbridge. unfold Executor._executeBridge.
    cbv [mbind Exec_bind bind get]. rewrite getChainId_run.
    cbn [Executor.toChain d]. rewrite Hchain.
    cbn [Executor.amount Executor.executionData Executor.targetProtocol
         Executor.token d].
    change (Executor.vault (stored id d s)) with (Executor.vault s).
    rewrite (try_call_failed _ _ _ _ _ _ Hans).
    by destruct f.
  - rewrite Hswap, Hbridge, Hlend. unfold Executor._executeLending.
    cbv [mbind Exec_bind bind get].
    cbn [Executor.amount Executor.executionData Executor.targetProtocol
         Executor.token d].
    change (Executor.vault (stored id d s)) with (Executor.vault s).
    rewrite (try_call_failed _ _ _ _ _ _ Hans).
    by destruct f.
Qed.

(** X28.  A 'bridge' decision whose target chain has the hash of none of
    'Ethereum', 'Polygon', 'Arbitrum', 'Optimism' and 'BSC' makes the whole
    call of [executeAIDecision] revert with 'Unsupported chain': the revert
    of [_getChainId] is in the arguments of the call under [try], which
    catches the reverts of the bridge only.  Nothing is stored and no event
    is emitted. *)
Theorem bridge_needs_a_known_chain action fromChain toChain token amount reason
    targetProtocol executionData s :
  entitled s sender token amount ->
  same_hash action "swap" = false ->
  same_hash action "bridge" = true ->
  Forall (fun name => same_hash toChain name = false)
         ["Ethereum"; "Polygon"; "Arbitrum"; "Optimism"; "BSC"] ->
  executeAIDecision action fromChain toChain token amount reason targetProtocol
    executionData s
  = Reverted (Error "Unsupported chain").
Proof.
  intros Hadm Hswap Hbridge Hchain.
  rewrite executeAIDecision_run by done.
  unfold Executor._executeDecision.
  cbv [mbind Exec_bind bind get].
  rewrite getAIDecision_stored. cbn [Executor.action].
  rewrite Hswap, Hbridge. unfold Executor._executeBridge.
  cbv [mbind Exec_bind bind get]. rewrite getChainId_run.
  cbn [Executor.toChain]. unfold chain_id.
  apply Forall_cons in Hchain as [-> Hchain].
  apply Forall_cons in Hchain as [-> Hchain].
  apply Forall_cons in Hchain as [-> Hchain].
  apply Forall_cons in Hchain as [-> Hchain].
  apply Forall_cons in Hchain as [-> _].
  reflexivity.
Qed.

Lemma executeAIDecision_entitled action fromChain toChain token amount reason
    targetProtocol executionData s r s' :
  executeAIDecision action fromChain toChain token amount reason targetProtocol
    executionData s = Done (r, s') ->
  entitled s sender token amount.
Proof.
  unfold Executor.executeAIDecision, Executor.onlyAuthorizedAI,
    Executor.nonReentrant. intros H.
  apply bind_Done in H as (? & ? & H0 & H).
  apply bind_Done in H0 as (? & ? & [-> ->]%get_Done & [Hauth ->]%require_Done).
  apply bind_Done in H as (? & ? & [-> ->]%get_Done & H).
  apply bind_Done in H as (? & ? & [Hent ->]%require_Done & H).
  apply bind_Done in H as (? & ? & ->%modify_Done & H).
  apply bind_Done in H as (? & ? & H & _).
  apply bind_Done in H as (? & ? & [Hpos ->]%require_Done & H).
  apply bind_Done in H as (? & ? & [Htok ->]%require_Done & H).
  apply bind_Done in H as (? & ? & [-> ->]%get_Done & H).
  apply bind_Done in H as (? & ? & (Hmax & _)%checked_add_Done & _).
  unfold entitled. split; [done|]. split; [by apply negb_true_iff|].
  split; [by apply N.ltb_lt|]. split; [by apply negb_true_iff, N.eqb_neq in Htok|].
  cbn in Hmax. unfold max_uint256 in *. lia.
Qed.

Lemma try_call_frame {R} (r : Executor.Reply R)
    (ok : R -> Exec Executor.State Executor.ExecutionResult) error other s result s' :
  (forall v s1 s2, ok v s1 = Done (result, s2) -> s2 = s1) ->
  (forall reason s1 s2, error reason s1 = Done (result, s2) -> s2 = s1) ->
  (forall s1 s2, other s1 = Done (result, s2) -> s2 = s1) ->
  Executor.try_call keccak256 r ok error other s = Done (result, s') ->
  executor_frame s s'.
Proof.
  intros Hok Herr Hother. unfold Executor.try_call.
  destruct (Executor.answer r) as [v|[reason|code|]|]; try done.
  - intros H. apply bind_Done in H as (? & s1 & H1 & H).
    destruct (executor_reenter_spec (Executor.during r) s) as (s1' & Hr & Hf).
    rewrite Hr in H1. injection H1 as _ <-.
    by rewrite (Hok _ _ _ H).
  - intros ->%Herr. apply executor_frame_refl.
  - intros ->%Hother. apply executor_frame_refl.
  - intros ->%Hother. apply executor_frame_refl.
Qed.

Lemma executeDecision_frame id s result s' :
  _executeDecision id s = Done (result, s') -> executor_frame s s'.
Proof.
  unfold Executor._executeDecision. intros H.
  apply bind_Done in H as (? & ? & [-> ->]%get_Done & H).
  assert (Hret : forall (x : Executor.ExecutionResult) (s1 s2 : Executor.State),
             (mret x : Exec Executor.State _) s1 = Done (result, s2) -> s2 = s1).
  { intros x s1 s2 H1. by apply ret_Done in H1 as [_ ->]. }
  destruct (same_hash _ "swap").
  { unfold Executor._executeSwap, Executor._calculateMinAmountOut in H.
    apply bind_Done in H as (? & ? & H0 & H).
    apply bind_Done in H0 as (? & ? & (_ & _ & ->)%checked_sub_Done & H0).
    apply bind_Done in H0 as (? & ? & (_ & _ & ->)%checked_mul_Done & [_ ->]%ret_Done).
    apply bind_Done in H as (? & ? & H0 & H).
    destruct (abi_decode_addresses _); [|done]. apply ret_Done in H0 as [_ ->].
    apply bind_Done in H as (? & ? & [-> ->]%get_Done & H).
    apply bind_Done in H as (? & ? & (_ & _ & ->)%checked_add_Done & H).
    eapply try_call_frame; [| | |exact H]; try (cbv beta; intros; by eapply Hret).
    intros v s1 s2 H1.
    apply bind_Done in H1 as (? & ? & (_ & _ & ->)%checked_sub_Done & H1).
    destruct (v !! _); [|done]. by apply ret_Done in H1 as [_ ->]. }
  destruct (same_hash _ "bridge").
  { unfold Executor._executeBridge in H.
    apply bind_Done in H as (? & ? & H0 & H).
    rewrite getChainId_run in H0. destruct (chain_id _ _); [|done].
    injection H0 as <- <-.
    apply bind_Done in H as (? & ? & [-> ->]%get_Done & H).
    eapply try_call_frame; [| | |exact H]; cbv beta; intros; by eapply Hret. }
  destruct (same_hash _ "lend").
  { unfold Executor._executeLending in H.
    apply bind_Done in H as (? & ? & [-> ->]%get_Done & H).
    eapply try_call_frame; [| | |exact H]; cbv beta; intros; by eapply Hret. }
  destruct (same_hash _ "rebalance").
  { unfold Executor._executeRebalance in H. apply ret_Done in H as [_ ->].
    apply executor_frame_refl. }
  apply ret_Done in H as [_ ->]. apply executor_frame_refl.
Qed.

Lemma executeAIDecision_result action fromChain toChain token amount reason
    targetProtocol executionData s r s' :
  executeAIDecision action fromChain toChain token amount reason targetProtocol
    executionData s = Done (r, s') ->
  r = decision_id keccak256 now action token amount (Executor.executionCounter s).
Proof.
  intros H.
  pose proof (executeAIDecision_entitled _ _ _ _ _ _ _ _ _ _ _ H) as Hadm.
  rewrite executeAIDecision_run in H by done.
  destruct (_executeDecision _ _) as [[result s2]|f]; [|done].
  destruct (Executor.success result).
  - cbv zeta in H. destruct (Executor.answer _) as [v|f|]; try done.
    destruct (Executor.reenter keccak256 _ s2) as [[[] s3]|f]; [|done].
    by injection H as <- _.
  - by injection H as <- _.
Qed.

(** X29.  Whenever [executeAIDecision] returns: its sender is an authorized
    agent, the lock was open, the amount is positive and the token is not
    the zero address; it returns the hash of the time, the action, the
    token, the amount and the counter; the lock is open again, the address
    of the vault is the same, the counter has grown by one and
    [getAIDecision] gives, for the identifier returned, the decision with
    the time of the block.  Whatever the called contracts made the owner do
    meanwhile, the log has grown by events of which the last is the only
    [AIDecisionExecuted], for this decision.  If it reports success, the
    vault was called with the token, the zero address as source, the
    target protocol as strategy, the amount, the reason and the identifier,
    and has returned; if not, the event before it is [ExecutionFailed] for
    the same identifier. *)
Theorem executed_decision action fromChain toChain token amount reason
    targetProtocol executionData s r s' :
  let id := decision_id keccak256 now action token amount (Executor.executionCounter s) in
  let d := {| Executor.action := action; Executor.fromChain := fromChain;
              Executor.toChain := toChain; Executor.token := token;
              Executor.amount := amount; Executor.reason := reason;
              Executor.timestamp := now;
              Executor.targetProtocol := targetProtocol;
              Executor.executionData := executionData |} in
  executeAIDecision action fromChain toChain token amount reason targetProtocol
    executionData s = Done (r, s') ->
  entitled s sender token amount
  /\ r = id
  /\ Executor.entered s' = false
  /\ Executor.vault s' = Executor.vault s
  /\ Executor.executionCounter s' = (Executor.executionCounter s + 1)%N
  /\ Executor.getAIDecision s' id = d
  /\ exists before success,
       Executor.log s'
       = Executor.log s ++ before
         ++ [Executor.AIDecisionExecuted id action token amount success]
       /\ Forall quiet before
       /\ if success then
            exists v,
              Executor.answer
                (vault_executeRebalance (Executor.vault s) token 0%N
                   targetProtocol amount reason id) = Returned v
          else exists message, last before = Some (Executor.ExecutionFailed id message).
Proof.
  intros id d H.
  pose proof (executeAIDecision_entitled _ _ _ _ _ _ _ _ _ _ _ H) as Hadm.
  rewrite executeAIDecision_run in H by done. fold id in H. fold d in H.
  split; [done|].
  destruct (_executeDecision id (stored id d s)) as [[result s2]|f] eqn:Hex; [|done].
  apply executeDecision_frame in Hex as (He & Hv & Hd & Hc & ev & Hlog & Hq).
  destruct (Executor.success result).
  - cbv zeta in H. rewrite Hv in H.
    change (Executor.vault (stored id d s)) with (Executor.vault s) in H.
    destruct (Executor.answer _) as [v|f|] eqn:Hans; try done.
    destruct (executor_reenter_spec
                (Executor.during (vault_executeRebalance (Executor.vault s) token
                                    0%N targetProtocol amount reason id)) s2)
      as (s3 & Hr & (He3 & Hv3 & Hd3 & Hc3 & ev3 & Hlog3 & Hq3)).
    rewrite Hr in H. injection H as <- <-.
    split; [done|]. split; [done|].
    split. { cbn. by rewrite Hv3, Hv. }
    split. { cbn. by rewrite Hc3, Hc. }
    split. { unfold Executor.getAIDecision. cbn. rewrite Hd3, Hd. cbn.
             by rewrite lookup_insert_eq. }
    exists (ev ++ ev3), true. split; [|split; [by apply Forall_app|eauto]].
    cbn. rewrite Hlog3, Hlog. cbn. by rewrite <- !(assoc_L (++)).
  - injection H as <- <-.
    split; [done|]. split; [done|].
    split. { cbn. by rewrite Hv. }
    split. { cbn. by rewrite Hc. }
    split. { unfold Executor.getAIDecision. cbn. rewrite Hd. cbn.
             by rewrite lookup_insert_eq. }
    exists (ev ++ [Executor.ExecutionFailed id (Executor.errorMessage result)]), false.
    split; [|split].
    + cbn. rewrite Hlog. cbn. by rewrite <- !(assoc_L (++)).
    + apply Forall_app. split; [done|]. by repeat constructor.
    + eexists. by rewrite last_snoc.
Qed.

Lemma rebalance_route action fromChain toChain token amount reason
    targetProtocol executionData s :
  let id := decision_id keccak256 now action token amount (Executor.executionCounter s) in
  let reply := vault_executeRebalance (Executor.vault s) token 0%N targetProtocol
                 amount reason id in
  entitled s sender token amount ->
  same_hash action "swap" = false ->
  same_hash action "bridge" = false ->
  same_hash action "lend" = false ->
  same_hash action "rebalance" = true ->
  (exists s',
     executeAIDecision action fromChain toChain token amount reason targetProtocol
       executionData s = Done (id, s'))
  <-> exists v, Executor.answer reply = Returned v.
Proof.
  intros id reply Hadm Hswap Hbridge Hlend Hreb.
  rewrite executeAIDecision_run by done. fold id.
  unfold Executor._executeDecision.
  cbv [mbind Exec_bind bind get].
  rewrite getAIDecision_stored. cbn [Executor.action].
  rewrite Hswap, Hbridge, Hlend, Hreb.
  unfold Executor._executeRebalance. cbv [mret Exec_ret ret].
  cbn [Executor.success]. cbv zeta.
  match goal with
  | |- context [Executor.vault (stored ?i ?d s)] =>
      change (Executor.vault (stored i d s)) with (Executor.vault s)
  end.
  fold reply. destruct (Executor.answer reply) as [v|f|].
  - match goal with
    | |- context [Executor.reenter keccak256 ?c ?s2] =>
        destruct (executor_reenter_spec c s2) as (s3 & -> & _)
    end.
    split; eauto.
  - split; [by intros [? ?]|by intros [? ?]].
  - split; [by intros [? ?]|by intros [? ?]].
Qed.
End ExecutorFacts.

Lemma unknown_action_is_recorded_witness :
  exists id s',
    Chain.executeAIDecision (fun _ _ _ _ _ _ _ => Chain.fails)
      "hold" "Ethereum" "Polygon" Chain.usdc 500%N "wait" Chain.aave []
      Chain.executor
    = Solidity.Done (id, s')
    /\ Executor.log s'
       = Executor.log Chain.executor
         ++ [Executor.ExecutionFailed id "Unknown action type";
             Executor.AIDecisionExecuted id "hold" Chain.usdc 500%N false].
Proof.
  assert (Hadm : entitled Chain.executor 5%N Chain.usdc 500%N).
  { unfold entitled. split_and!; by vm_compute. }
  assert (Hunknown : Forall (fun known => Executor.same_hash Chain.digest "hold"
                                            known = false)
                       ["swap"; "bridge"; "lend"; "rebalance"]).
  { repeat constructor; by vm_compute. }
  pose proof (unknown_action_is_recorded Chain.digest (fun _ => Some [Chain.usdc; Chain.weth])
                (fun _ => []) (fun _ => []) 1000%N 5%N
                (fun _ _ _ _ _ _ => Chain.refuses "INSUFFICIENT_OUTPUT_AMOUNT")
                (fun _ _ _ _ _ _ => Chain.fails) (fun _ _ _ _ _ => Chain.fails)
                (fun _ _ _ _ _ _ _ => Chain.fails)
                "hold" "Ethereum" "Polygon" Chain.usdc 500%N "wait" Chain.aave []
                Chain.executor Hadm Hunknown) as H.
  cbv zeta in H. eexists _, _. split; [exact H|reflexivity].
Defined.

Lemma protocol_failure_is_recorded_witness :
  exists id s',
    Chain.executeAIDecision (fun _ _ _ _ _ _ _ => Chain.fails)
      "swap" "Ethereum" "Ethereum" Chain.usdc 500%N "better price" Chain.aave []
      Chain.executor
    = Solidity.Done (id, s')
    /\ Executor.log s'
       = Executor.log Chain.executor
         ++ [Executor.ExecutionFailed id "INSUFFICIENT_OUTPUT_AMOUNT";
             Executor.AIDecisionExecuted id "swap" Chain.usdc 500%N false].
Proof.
  assert (Hadm : entitled Chain.executor 5%N Chain.usdc 500%N).
  { unfold entitled. split_and!; by vm_compute. }
  pose proof (protocol_failure_is_recorded Chain.digest
                (fun _ => Some [Chain.usdc; Chain.weth])
                (fun _ => []) (fun _ => []) 1000%N 5%N
                (fun _ _ _ _ _ _ => Chain.refuses "INSUFFICIENT_OUTPUT_AMOUNT")
                (fun _ _ _ _ _ _ => Chain.fails) (fun _ _ _ _ _ => Chain.fails)
                (fun _ _ _ _ _ _ _ => Chain.fails)
                "swap" "Ethereum" "Ethereum" Chain.usdc 500%N "better price"
                Chain.aave [] Chain.executor
                (Solidity.Error "INSUFFICIENT_OUTPUT_AMOUNT")
                "Swap execution failed" Hadm) as H.
  cbv zeta in H. eexists _, _. split; [apply H|reflexivity].
  apply (swap_refused _ _ _ _ _ _ _ _ _ _ _ _ _ _ [Chain.usdc; Chain.weth]);
    by vm_compute.
Defined.

Lemma bridge_needs_a_known_chain_witness :
  Chain.executeAIDecision (fun _ _ _ _ _ _ _ => Chain.fails)
    "bridge" "Ethereum" "Solana" Chain.usdc 500%N "cheaper" Chain.aave []
    Chain.executor
  = Solidity.Reverted (Solidity.Error "Unsupported chain").
Proof.
  apply bridge_needs_a_known_chain.
  - unfold entitled. split_and!; by vm_compute.
  - by vm_compute.
  - by vm_compute.
  - repeat constructor; by vm_compute.
Defined.

(** X30.  With the vault of [Vault.sol] as the contract that the executor
    calls: a decision with the action 'rebalance' goes through exactly when
    its sender is an authorized agent, the lock of the executor is open,
    the amount is positive, the token is not the zero address, the executor
    is the one the vault knows, the lock of the vault is open, the balance
    the vault records for the token covers the amount, the target protocol
    is an active strategy of the vault, and neither counter is at its
    maximum.  Otherwise the call reverts, and nothing is stored. *)
Theorem rebalance_decision_needs_the_vault
    (keccak256 : Solidity.bytes -> Solidity.bytes32) abi_decode_addresses
    abi_encode_uint256s abi_encode_bytes32 now sender swapExactTokensForTokens
    bridgeToken supply this v action fromChain toChain token amount reason
    targetProtocol executionData s :
  let id := decision_id keccak256 now action token amount (Executor.executionCounter s) in
  Executor.same_hash keccak256 action "swap" = false ->
  Executor.same_hash keccak256 action "bridge" = false ->
  Executor.same_hash keccak256 action "lend" = false ->
  Executor.same_hash keccak256 action "rebalance" = true ->
  (exists r s',
     Executor.executeAIDecision keccak256 abi_decode_addresses abi_encode_uint256s
       abi_encode_bytes32 now sender swapExactTokensForTokens bridgeToken supply
       (vault_reply keccak256 now this v)
       action fromChain toChain token amount reason targetProtocol executionData s
     = Solidity.Done (r, s'))
  <-> entitled s sender token amount
      /\ this = Vault.executor v
      /\ Vault.entered v = false
      /\ (amount <= Vault.tokenBalance v token)%N
      /\ Vault.active (Vault.strategy v targetProtocol) = true
      /\ (Vault.totalRebalances v < Solidity.max_uint256)%N.
Proof.
  intros id Hswap Hbridge Hlend Hreb. split.
  - intros (r0 & s' & H).
    pose proof (executeAIDecision_entitled _ _ _ _ _ _ _ _ _ _ _ _ _ _ _ _ _ _ _ _ _ H)
      as Hadm.
    pose proof (executeAIDecision_result _ _ _ _ _ _ _ _ _ _ _ _ _ _ _ _ _ _ _ _ _ H)
      as ->.
    fold id in H. split; [done|].
    assert (Hex : exists s', Executor.executeAIDecision keccak256 abi_decode_addresses
                    abi_encode_uint256s abi_encode_bytes32 now sender
                    swapExactTokensForTokens bridgeToken supply
                    (vault_reply keccak256 now this v) action fromChain toChain token
                    amount reason targetProtocol executionData s
                  = Solidity.Done (id, s')) by eauto.
    apply rebalance_route in Hex as [r Hr]; try done.
    unfold vault_reply in Hr. cbn [Executor.answer] in Hr.
    destruct (Vault.executeRebalance _ _ _ _ _ _ _ _ _ v) as [[r' v']|f] eqn:Hv;
      [|done].
    apply executeRebalance_spec in Hv as ((? & ? & ? & [? ?] & ? & ?) & _).
    done.
  - intros (Hadm & Hthis & Hent & Hbal & Hact & Hmax).
    exists id. apply rebalance_route; try done.
    destruct Hadm as (_ & _ & Hpos & Htok & _).
    destruct (executeRebalance_run keccak256 now this token 0%N targetProtocol amount
                reason id v Hthis Hent Htok (conj Hpos Hbal) Hact Hmax)
      as (r & v' & Hv).
    exists r. unfold vault_reply. cbn [Executor.answer]. unfold id in Hv. by rewrite Hv.
Qed.

Lemma executed_decision_witness :
  exists id s',
    Chain.executeAIDecision (fun _ _ _ _ _ _ id => Chain.returns id)
      "lend" "Ethereum" "Ethereum" Chain.usdc 500%N "idle funds" Chain.aave []
      Chain.executor
    = Solidity.Done (id, s')
    /\ Executor.executionCounter s' = 1%N
    /\ Executor.entered s' = false.
Proof.
  destruct (Chain.executeAIDecision (fun _ _ _ _ _ _ id => Chain.returns id)
              "lend" "Ethereum" "Ethereum" Chain.usdc 500%N "idle funds" Chain.aave
              [] Chain.executor) as [[id s']|f] eqn:Hc; [|by vm_compute in Hc].
  exists id, s'. split; [done|].
  destruct (executed_decision _ _ _ _ _ _ _ _ _ _ _ _ _ _ _ _ _ _ _ _ _ Hc)
    as (_ & _ & He & _ & Hn & _).
  split; [by rewrite Hn|exact He].
Defined.

Lemma rebalance_decision_needs_the_vault_witness :
  exists id s',
    Chain.executeAIDecision (vault_reply Chain.digest 1000%N 8%N Chain.vault)
      "rebalance" "Ethereum" "Ethereum" Chain.usdc 500%N "higher yield"
      Chain.aave [] Chain.executor
    = Solidity.Done (id, s').
Proof.
  apply (rebalance_decision_needs_the_vault Chain.digest
           (fun _ => Some [Chain.usdc; Chain.weth]) (fun _ => []) (fun _ => [])
           1000%N 5%N (fun _ _ _ _ _ _ => Chain.refuses "INSUFFICIENT_OUTPUT_AMOUNT")
           (fun _ _ _ _ _ _ => Chain.fails) (fun _ _ _ _ _ => Chain.fails)
           8%N Chain.vault "rebalance" "Ethereum" "Ethereum" Chain.usdc 500%N
           "higher yield" Chain.aave [] Chain.executor);
    by vm_compute.
Defined.
